(* ===== verification/_CoqProject ===== *)
-Q . S2P
Prelude.v
UnicodeTables.v
GoStrings.v
Strconv.v
GoErrors.v
Json.v
JsonFacts.v
Base64.v
JsonText.v
Url.v
Paths.v
Mime.v
Admission.v
SchemaTypes.v
SchemaRegistry.v
SchemaEncoder.v
SchemaFacts.v
Producer.v
Media.v
Types.v
TypesFacts.v
TypesText.v
GoFloat.v
Config.v
FloatExact.v
RateLimit.v
Franz.v
ProduceSteps.v
ProduceSafety.v
ProduceCorrect.v
Metrics.v
Handler.v
HandlerFacts.v
HandlerSpecs.v
JsonStream.v
JsonStreamFacts.v
V3.v
V3Facts.v
HandlerV3.v
HandlerV3Facts.v
V3Chunks.v
Routes.v
Main.v
GaugeFacts.v
GoFmt.v
GoFile.v
Flag.v
FlagFacts.v
Soak.v
SoakFacts.v
SoakArgs.v
SoakLoad.v
EndToEnd.v
FranzContract.v
FranzInstance.v
Bench.v
BenchFacts.v
HtmlReport.v
HtmlFacts.v
Sha256.v
LicenseBundle.v
LicenseFacts.v
Capture.v
CaptureFacts.v
