(* ===== verification/Prelude.v ===== *)
(** * kafka-rest-proxy-go: a verification development

    The proxy accepts Confluent-style REST produce requests (v2 and v3), checks
    and decodes them, hands their records to Kafka through franz-go, and reports
    one outcome per record.  This library models the whole of the proxy
    (src/internal and src/cmd/kafka-rest-proxy-go) and the tools of src/cmd that
    measure, probe and package it, and proves what makes them correct.
    Definitions carry the names of the Go code; a doc comment at a
    definition says which function or type it is where the name does not.

    ** The parts, from the bottom

    - The language and its library.  GoStrings, UnicodeTables (strings, bytes,
      utf8, unicode), Strconv, Base64, GoErrors (error values, [errors.Is] and
      [errors.As]), GoFloat (binary64, [ParseFloat], [ParseDuration]), Mime, Url
      (net/url paths, path.Clean), Json (the scanner of encoding/json with its
      error messages, [RawMessage], [Compact], struct decoding), JsonStream
      ([json.Decoder] over a reader that returns the body in pieces).  A Go
      string is a [string] of bytes, a nilable byte slice an [option string],
      [int64] a [Z] with wrap-around written out (the functions [i64], [i32],
      [u32] below).
    - Admission (internal/limits/admission.go): the record and byte caps.
    - RateLimit (internal/ratelimit): the token bucket on [float64].
    - Config (internal/config): the environment, its parsing and its checks.
    - Metrics (internal/metrics): instruments as the values they hold, and the
      gauges that read the producer's state when the page is asked for.
    - Producer (internal/producer/producer.go): records, results, and the
      interface the handlers use, as a class with one law.
    - Franz (internal/producer/franz): construction, partitioner, record pool
      and request state; ProduceSteps: any number of concurrent [Produce] calls
      and callbacks as atomic steps over one admission controller.
      FranzContract and FranzInstance: these steps as an implementation of the
      interface.
    - SchemaTypes, SchemaRegistry, SchemaEncoder (internal/schema): the request
      data, the HTTP and in-memory registries, the encoder.
    - Media (internal/api/media.go, errors.go), Types (types.go): content
      negotiation; decoding of v2 requests and the v2 response.
    - Handler (internal/api/handler.go): the handler's configuration, the v2
      endpoint, health checks, authentication, as state transformers on the
      world a request touches (producer, registry, limiters, metrics, clock and
      the actions on the response writer); Routes: the registered patterns and
      what http.ServeMux makes of them.
    - V3, HandlerV3 (internal/api/v3.go): documents and envelopes; the record
      stream and the batch.
    - Main (cmd/kafka-rest-proxy-go/main.go): the wiring, start-up and
      shutdown.  GaugeFacts: what the wired gauges show.
    - Soak (cmd/soak-produce/main.go): options, requests, the counting of
      answers, the summary and the thresholds that decide the exit code; its
      clients, timer and results channel as atomic steps (SoakLoad).  EndToEnd:
      the modelled driver sends to the modelled proxy.
    - Bench (cmd/bench-produce/main.go): options and suites, the concurrent load
      of a scenario as atomic steps of its clients and its timer, results, the
      comparison of targets and the summary; HtmlReport: the HTML report and
      the whole of [main].  GoFmt: the printing of floats and durations both
      use.
    - Flag: package flag as a function of the arguments; SoakArgs: the options a
      command line of the soak driver can mean.
    - GoFile: the file system operations of the tools as io steps that may fail.
      LicenseBundle (cmd/license-bundle/main.go): the module list and the licence
      files, over Paths (path/filepath) and Sha256; Capture (cmd/capture-compatibility): the
      edge cases, what is kept of an answer, the report and its layout.

    ** How they interact

    A request goes through [Routes] (authentication, then the mux) to
    [handleTopicProduce] or [handleV3Produce].  These consult the allowlist and
    the limiters, decode with the configured limits (calling the schema encoder,
    and it the registry), and call [Produce] of the class [Producer].  The
    handlers' theorems are proved against that class and against the classes
    [Registry], [Codecs] and [HTTPClient]; the in-memory registry is an instance
    of [Registry], and the franz-go producer an instance of [Producer] and its
    laws ([FranzInstance.franz_implements_producer], from ProduceCorrect: one
    result per record, at its index), so that every theorem about a handler holds
    of the deployed proxy, and [FranzInstance.soak_against_franz] runs from the
    soak driver through the proxy to the callbacks of the Kafka client.

    ** What the theorems show

    - Safety of the path to Kafka: [HandlerFacts.topic_produce_gate] and
      [HandlerV3Facts.v3_produce_gate] (only allowed topics, only records within
      every limit, for any encoder and registry), [TypesFacts] (what is decoded
      is what the document says), [Routes.unauthenticated_never_produces],
      [HandlerSpecs.auth_gate], [HandlerSpecs.topic_allowlist].
    - The concurrent producer: conservation of admission capacity in every
      interleaving, results at the right index, termination without a timeout,
      and the faithfulness of the atomic steps to the methods (ProduceCorrect,
      from the invariant of ProduceSafety); the controller itself (Admission).
    - Accounting: every request has one status and is counted under it
      ([topic_produce_metrics], [v3_produce_metrics]); every batch entry has one
      outcome ([v3_batch_accounted]).
    - Streams: a record stream ends ([v3_stream_terminates]) and means the same
      however the network cuts it up (JsonStreamFacts, V3Chunks).
    - Texts: requests, responses, paths and the Confluent wire format round-trip
      (TypesText, V3Facts, HandlerSpecs, SchemaFacts); responses are JSON.
    - Refinements: the in-memory registry of a log of schemas, the limiter of an
      integer bucket, the fast path of [decodeJSONValue] of [json.Compact].
    - Deployment: a loaded configuration is valid and is the one in force
      ([Config.LoadFromEnv_valid], [Main.deployed_limits]), and start-up and
      shutdown follow their order on every path ([Main.run_lifecycle]).
    - What an operator sees: the gauges show what is in flight, never more than
      the caps ([GaugeFacts.gauges_truthful]).
    - The drivers: the proxy serves every request of the soak driver, and the
      driver never reports more records accepted than were committed
      ([EndToEnd.soak_request_served], [EndToEnd.soak_never_overreports]);
      its clients end once the timer fires and every answer is counted
      ([SoakLoad.soak_load_ends]).  The proxy accepts every body it builds, and the
      driver counts what the proxy reported, in whatever order the answers
      arrive ([SoakFacts.soak_body_accepted], [soak_counts_agree],
      [soak_order_irrelevant]: the two ends of the protocol proved against each
      other); a benchmark respects its limit in every interleaving, ends, runs
      with valid options and compares its targets correctly (BenchFacts); no text
      of a report becomes markup ([HtmlFacts.html_report_no_injection]).
    - Command lines: the soak driver runs with exactly the valid options
      ([SoakArgs.soak_command_line]); numbers and durations are read within their
      range (FlagFacts).
    - The tools: a licence bundle is complete and holds nothing else
      ([LicenseFacts.license_bundle_complete]); captured answers are kept byte
      for byte (CaptureFacts).
    - Where the code falls short the failure is a lemma:
      [Admission.try_acquire_overflow_admits], [RateLimit.nan_rate_never_limits],
      [TypesText.produce_response_invalid_json],
      [SchemaFacts.registry_subject_double_escaped],
      [SoakFacts.nan_failure_rate_never_trips], [BenchFacts.parseByteSize_wraps],
      [BenchFacts.estimateNodes_overflow], [BenchFacts.scenarioLabel_collision],
      [LicenseFacts.safeModuleDir_collision].

    ** Fuel and bounds

    The JSON parser runs on [2 * length + 2] fuel, which JsonFacts shows to be
    enough for a verdict on every input; a decoder's read loop is bounded by the
    bytes left in the body; the record stream's loop by one turn more than the
    body has bytes ([v3_stream_terminates]).  The concurrency theorems are for
    batches and caps below 2^62 records and bytes, the exact-arithmetic theorems
    of the limiter for integers below 2^53.  The bounds on a benchmark's load are
    for a request limit and a number of clients whose sum is below 2^63.  The
    loop over the output of go list takes a byte per turn
    ([LicenseFacts.decode_modules_fuel]).

    ** Parameters

    Code outside the repository is an argument of the model: franz-go's client,
    callbacks and default partitioner, the Avro, JSON Schema and Protobuf
    libraries ([Codecs]), the transport of [http.Client], [url.Parse] of the
    registry URL, reading and printing [time.Time], the clock, the size of each
    network read, the pages of net/http/pprof and of the Prometheus handler and
    the response of [http.Redirect], files and certificates, and for the tools the
    output of the go command, the HTTP client and the failures of the file
    system.  In EndToEnd the network may lose a request or an answer, which is
    again an argument.

    ** Not modelled

    The test suites; of the tools the usage texts, what goes to standard error,
    the inside of the HTTP transports (their settings are modelled) and partial effects of failed file
    system operations; html/template beyond the escaping of data in element
    content, which is all the template needs; redirects, which the drivers would
    follow (EndToEnd is for topics that need none); network and TLS I/O, goroutine scheduling below the
    atomic steps, log lines, the [Connection: close] that
    [http.MaxBytesReader] asks for, requests with the asterisk form of the
    target, and the OpenTelemetry instruments beyond the
    values they hold.  Floating point is amd64's (no fused multiply-add), [int]
    is 64 bits wide. *)

From Stdlib Require Export ZArith Lia.
From stdpp Require Export base tactics option list list_numbers gmap strings fin_maps.

#[global] Set Default Goal Selector "!".

(** ** Machine integers

    Go's [int64] (and [int] on the 64-bit targets the project releases for) as
    [Z] with two's-complement wrap-around written out. *)

Definition i64 (z : Z) : Z := ((z + 2 ^ 63) mod 2 ^ 64 - 2 ^ 63)%Z.
Definition i32 (z : Z) : Z := ((z + 2 ^ 31) mod 2 ^ 32 - 2 ^ 31)%Z.
Definition u32 (z : Z) : Z := (z mod 2 ^ 32)%Z.

Definition in_i64 (z : Z) : Prop := (- 2 ^ 63 <= z < 2 ^ 63)%Z.
Definition in_i32 (z : Z) : Prop := (- 2 ^ 31 <= z < 2 ^ 31)%Z.

Lemma i64_id z : in_i64 z → i64 z = z.
Proof. unfold in_i64, i64. intros ?. rewrite Z.mod_small; lia. Qed.

Lemma i32_id z : in_i32 z → i32 z = z.
Proof. unfold in_i32, i32. intros ?. rewrite Z.mod_small; lia. Qed.

Lemma i64_range z : in_i64 (i64 z).
Proof.
  unfold in_i64, i64.
  pose proof (Z.mod_pos_bound (z + 2 ^ 63) (2 ^ 64) eq_refl). lia.
Qed.

Create HintDb go discriminated.
Create Rewrite HintDb strs.
#[export] Hint Resolve i64_range : go.

(** ** Sums over lists *)

#[local] Open Scope Z_scope.
Section sums.
Context {A : Type} (f : A → Z).

Fixpoint zsum (l : list A) : Z :=
  match l with [] => 0 | x :: l => f x + zsum l end.

Lemma zsum_app l k : zsum (l ++ k) = zsum l + zsum k.
Proof. induction l as [|x l IH]; simpl; lia. Qed.

#[export] Instance zsum_Permutation : Proper ((≡ₚ) ==> (=)) zsum.
Proof. induction 1; simpl; lia. Qed.

Lemma zsum_insert l i x y : l !! i = Some x → zsum (<[i := y]> l) = zsum l - f x + f y.
Proof.
  revert i. induction l as [|z l IH]; intros [|i]; simpl; try done.
  - intros [= ->]. lia.
  - intros H. rewrite (IH i H). lia.
Qed.

Lemma zsum_nonneg l : (∀ x, x ∈ l → 0 <= f x) → 0 <= zsum l.
Proof.
  induction l as [|x l IH]; simpl; intros H; [lia|].
  assert (0 <= f x) by (apply H; constructor).
  assert (0 <= zsum l) by (apply IH; intros; apply H; by constructor). lia.
Qed.

Lemma zsum_lookup l i x : (∀ x, x ∈ l → 0 <= f x) → l !! i = Some x → f x <= zsum l.
Proof.
  revert i. induction l as [|z l IH]; intros [|i] H; simpl; try done.
  - intros [= ->]. assert (0 <= zsum l) by (apply zsum_nonneg; intros; apply H; by constructor). lia.
  - intros Hl. assert (0 <= f z) by (apply H; constructor).
    assert (f x <= zsum l) by (apply (IH i); [intros; apply H; by constructor|done]). lia.
Qed.

Lemma zsum_replicate n x : zsum (replicate n x) = Z.of_nat n * f x.
Proof. induction n as [|n IH]; simpl zsum; lia. Qed.

Lemma zsum_zero l : (∀ x, x ∈ l → f x = 0) → zsum l = 0.
Proof.
  induction l as [|x l IH]; simpl; intros H; [done|].
  rewrite (H x), IH; [done| |constructor]. intros. apply H. by constructor.
Qed.

Lemma zsum_zero_inv l x : (∀ x, x ∈ l → 0 <= f x) → zsum l = 0 → x ∈ l → f x = 0.
Proof.
  intros Hn Ht Hx. apply list_elem_of_lookup in Hx as [i Hi].
  pose proof (zsum_lookup l i x Hn Hi). apply list_elem_of_lookup_2 in Hi. specialize (Hn x Hi). lia.
Qed.
End sums.
#[local] Close Scope Z_scope.

(** ** Tactics of the development *)

(** [split_ifs] destructs every [if] of the goal on its condition. *)
Ltac split_if :=
  match goal with
  | |- context [if ?b then _ else _] =>
      lazymatch b with
      | context [if _ then _ else _] => fail
      | _ => let E := fresh "Eb" in destruct b eqn:E
      end
  end.

Ltac split_if_in H :=
  match type of H with
  | context [if ?b then _ else _] =>
      lazymatch b with
      | context [if _ then _ else _] => fail
      | _ => let E := fresh "Eb" in destruct b eqn:E
      end
  end.

(** [zbool] turns the boolean comparisons of the code into linear facts. *)
Ltac zbool :=
  repeat match goal with
  | H : (_ && _)%bool = true |- _ => apply andb_true_iff in H as [? ?]
  | H : (_ || _)%bool = false |- _ => apply orb_false_iff in H as [? ?]
  | H : (_ && _)%bool = false |- _ => apply andb_false_iff in H
  | H : (_ || _)%bool = true |- _ => apply orb_true_iff in H
  | H : (_ <? _)%Z = true |- _ => apply Z.ltb_lt in H
  | H : (_ <? _)%Z = false |- _ => apply Z.ltb_ge in H
  | H : (_ <=? _)%Z = true |- _ => apply Z.leb_le in H
  | H : (_ <=? _)%Z = false |- _ => apply Z.leb_gt in H
  | H : (_ =? _)%Z = true |- _ => apply Z.eqb_eq in H
  | H : (_ =? _)%Z = false |- _ => apply Z.eqb_neq in H
  | H : (_ <? _)%nat = true |- _ => apply Nat.ltb_lt in H
  | H : (_ <? _)%nat = false |- _ => apply Nat.ltb_ge in H
  | H : negb _ = true |- _ => apply negb_true_iff in H
  | H : negb _ = false |- _ => apply negb_false_iff in H
  | H : bool_decide _ = true |- _ => apply bool_decide_eq_true in H
  | H : bool_decide _ = false |- _ => apply bool_decide_eq_false in H
  end.
