(* ===== verification/GoStrings.v ===== *)
(** * The parts of Go's [strings], [bytes], [unicode/utf8] and [strconv]
      packages that the program uses

    A Go [string] (and a non-nil [[]byte]) is a Rocq [string]: a sequence of
    bytes.  A [[]byte] that can be nil is an [option string]. *)

From Stdlib Require Export Ascii.
From S2P Require Import Prelude.
From S2P Require Import UnicodeTables.
Local Open Scope Z_scope.

(** ** Bytes and literals *)

Definition bval (c : ascii) : Z := Z.of_N (N_of_ascii c).
Definition bchr (z : Z) : ascii := ascii_of_N (Z.to_N (z mod 256)).
Definition dq : ascii := "034"%char.
Definition nl : string := String "010"%char "".

(** [qt] writes a literal with single quotes where the source has double
    quotes: [qt "{'offsets':["]. *)
Fixpoint qt (s : string) : string :=
  match s with
  | EmptyString => EmptyString
  | String c s => String (if Ascii.eqb c "'" then dq else c) (qt s)
  end.

Definition slen (s : string) : Z := Z.of_nat (String.length s).

(** [len] of a possibly nil slice. *)
Definition blen (b : option string) : Z := from_option slen 0 b.

(** [s[n:]] and [s[:n]], for [n <= len(s)]. *)
Fixpoint sdrop (n : nat) (s : string) : string :=
  match n, s with
  | S n, String _ s => sdrop n s
  | _, _ => s
  end.

Fixpoint stake (n : nat) (s : string) : string :=
  match n, s with
  | S n, String c s => String c (stake n s)
  | _, _ => EmptyString
  end.

(** ** UTF-8 *)

Definition rune_error : Z := 65533.

Definition is_cont (c : ascii) : bool := (128 <=? bval c) && (bval c <=? 191).

(** [utf8.DecodeRuneInString] on a non-empty string: rune and width. *)
Definition decode_rune (s : string) : Z * nat :=
  match s with
  | EmptyString => (rune_error, 0%nat)
  | String c1 s1 =>
      let b1 := bval c1 in
      if b1 <? 128 then (b1, 1%nat)
      else if (b1 <? 194) || (244 <? b1) then (rune_error, 1%nat)
      else match s1 with
      | EmptyString => (rune_error, 1%nat)
      | String c2 s2 =>
          let b2 := bval c2 in
          if b1 <? 224 then
            if is_cont c2 then ((b1 - 192) * 64 + (b2 - 128), 2%nat)
            else (rune_error, 1%nat)
          else
            let lo := if b1 =? 224 then 160 else if b1 =? 240 then 144 else 128 in
            let hi := if b1 =? 237 then 159 else if b1 =? 244 then 143 else 191 in
            if negb ((lo <=? b2) && (b2 <=? hi)) then (rune_error, 1%nat)
            else match s2 with
            | EmptyString => (rune_error, 1%nat)
            | String c3 s3 =>
                if negb (is_cont c3) then (rune_error, 1%nat)
                else if b1 <? 240 then
                  ((b1 - 224) * 4096 + (b2 - 128) * 64 + (bval c3 - 128), 3%nat)
                else match s3 with
                | EmptyString => (rune_error, 1%nat)
                | String c4 _ =>
                    if negb (is_cont c4) then (rune_error, 1%nat)
                    else ((b1 - 240) * 262144 + (b2 - 128) * 4096
                          + (bval c3 - 128) * 64 + (bval c4 - 128), 4%nat)
                end
            end
      end
  end.

(** [utf8.AppendRune] (surrogates and out-of-range runes become U+FFFD). *)
Definition encode_rune (r : Z) : string :=
  let r := if (r <? 0) || (1114111 <? r) || ((55296 <=? r) && (r <=? 57343))
           then rune_error else r in
  let c (z : Z) := bchr z in
  if r <? 128 then String (c r) ""
  else if r <? 2048 then
    String (c (192 + r / 64)) (String (c (128 + r mod 64)) "")
  else if r <? 65536 then
    String (c (224 + r / 4096)) (String (c (128 + (r / 64) mod 64))
      (String (c (128 + r mod 64)) ""))
  else
    String (c (240 + r / 262144)) (String (c (128 + (r / 4096) mod 64))
      (String (c (128 + (r / 64) mod 64)) (String (c (128 + r mod 64)) ""))).

(** The runes of a string with the bytes each one was decoded from
    ([for i, c := range s]). *)
Fixpoint runes_from (skip : nat) (s : string) : list (Z * string) :=
  match s with
  | EmptyString => []
  | String _ s' =>
      match skip with
      | S skip => runes_from skip s'
      | O => let '(r, w) := decode_rune s in
             (r, stake w s) :: runes_from (w - 1) s'
      end
  end.
Definition runes (s : string) : list (Z * string) := runes_from 0 s.

Fixpoint concat_s (l : list string) : string :=
  match l with
  | [] => ""
  | s :: l => s +:+ concat_s l
  end.

(** [strings.Map]: every rune is mapped and re-encoded. *)
Definition map_runes (f : Z → Z) (s : string) : string :=
  concat_s ((λ p, encode_rune (f p.1)) <$> runes s).

Definition ToLower (s : string) : string := map_runes to_lower_rune s.
Definition ToUpper (s : string) : string := map_runes to_upper_rune s.

(** ** Trimming *)

(** The one-, two- and three-byte encodings of [unicode.IsSpace] runes. *)
Definition space1 (c : ascii) : bool :=
  ((9 <=? bval c) && (bval c <=? 13)) || (bval c =? 32).
Definition space2 (c1 c2 : ascii) : bool :=
  (bval c1 =? 194) && ((bval c2 =? 133) || (bval c2 =? 160)).
Definition space3 (c1 c2 c3 : ascii) : bool :=
  ((bval c1 =? 225) && (bval c2 =? 154) && (bval c3 =? 128)) ||
  ((bval c1 =? 226) && (bval c2 =? 128) &&
     (((128 <=? bval c3) && (bval c3 <=? 138)) || (bval c3 =? 168) ||
      (bval c3 =? 169) || (bval c3 =? 175))) ||
  ((bval c1 =? 226) && (bval c2 =? 129) && (bval c3 =? 159)) ||
  ((bval c1 =? 227) && (bval c2 =? 128) && (bval c3 =? 128)).

Section trim.
Context (sp1 : ascii → bool) (sp2 : ascii → ascii → bool)
        (sp3 : ascii → ascii → ascii → bool).

Fixpoint trim_front (s : string) : string :=
  match s with
  | EmptyString => s
  | String c1 s1 =>
      if sp1 c1 then trim_front s1
      else match s1 with
      | EmptyString => s
      | String c2 s2 =>
          if sp2 c1 c2 then trim_front s2
          else match s2 with
          | EmptyString => s
          | String c3 s3 => if sp3 c1 c2 c3 then trim_front s3 else s
          end
      end
  end.
End trim.

Definition TrimLeftSpace (s : string) : string := trim_front space1 space2 space3 s.
Definition TrimRightSpace (s : string) : string :=
  String.rev (trim_front space1 (λ c1 c2, space2 c2 c1)
    (λ c1 c2 c3, space3 c3 c2 c1) (String.rev s)).

(** [strings.TrimSpace] and [bytes.TrimSpace]. *)
Definition TrimSpace (s : string) : string := TrimRightSpace (TrimLeftSpace s).

(** [strings.TrimRight(s, c)] for a one-byte cutset. *)
Definition TrimRightByte (s : string) (c : ascii) : string :=
  String.rev (trim_front (Ascii.eqb c) (λ _ _, false) (λ _ _ _, false) (String.rev s)).

(** ** Searching and splitting *)

Definition HasPrefix (s p : string) : bool := String.prefix p s.
Definition TrimPrefix (s p : string) : string :=
  if HasPrefix s p then sdrop (String.length p) s else s.
Definition HasSuffix (s p : string) : bool := HasPrefix (String.rev s) (String.rev p).
Definition TrimSuffix (s p : string) : string :=
  if HasSuffix s p then stake (String.length s - String.length p) s else s.

Fixpoint Contains (s sub : string) : bool :=
  HasPrefix s sub ||
  match s with
  | EmptyString => false
  | String _ s => Contains s sub
  end.

(** [strings.Split(s, sep)] for a one-byte separator. *)
Fixpoint Split (s : string) (sep : ascii) : list string :=
  match s with
  | EmptyString => [EmptyString]
  | String c s =>
      if Ascii.eqb c sep then EmptyString :: Split s sep
      else match Split s sep with
           | [] => [String c EmptyString]
           | x :: xs => String c x :: xs
           end
  end.

(** [strings.Cut(s, sep)] for a one-byte separator: before, after, found. *)
Fixpoint Cut (s : string) (sep : ascii) : string * string * bool :=
  match s with
  | EmptyString => (EmptyString, EmptyString, false)
  | String c s =>
      if Ascii.eqb c sep then (EmptyString, s, true)
      else let '(b, a, found) := Cut s sep in (String c b, a, found)
  end.

Fixpoint Join (l : list string) (sep : string) : string :=
  match l with
  | [] => ""
  | [s] => s
  | s :: l => s +:+ sep +:+ Join l sep
  end.

Fixpoint Repeat (s : string) (n : nat) : string :=
  match n with
  | O => ""
  | S n => s +:+ Repeat s n
  end.

(** ** Lemmas: strings *)

Lemma bval_range c : 0 <= bval c < 256.
Proof. unfold bval. pose proof (N_ascii_bounded c). lia. Qed.

Lemma bval_bchr z : 0 <= z < 256 → bval (bchr z) = z.
Proof.
  intros ?. unfold bval, bchr. rewrite Z.mod_small by lia.
  rewrite N_ascii_embedding by lia. lia.
Qed.

Lemma bchr_bval c : bchr (bval c) = c.
Proof.
  unfold bchr. pose proof (bval_range c). rewrite Z.mod_small by lia.
  unfold bval. rewrite N2Z.id. apply ascii_N_embedding.
Qed.

Lemma bval_inj c d : bval c = bval d → c = d.
Proof. intros H. by rewrite <- (bchr_bval c), <- (bchr_bval d), H. Qed.

Fixpoint all_bytes (p : ascii → bool) (s : string) : bool :=
  match s with
  | EmptyString => true
  | String c s => p c && all_bytes p s
  end.

Lemma all_bytes_app p s t : all_bytes p (s +:+ t) = all_bytes p s && all_bytes p t.
Proof. induction s as [|c s IH]; [done|]. simpl. unfold String.app. simpl.
  by rewrite <- andb_assoc, <- IH. Qed.

Lemma app_cons c s t : String c s +:+ t = String c (s +:+ t).
Proof. done. Qed.
Lemma app_nil_l s : "" +:+ s = s.
Proof. done. Qed.
Lemma app_nil_r_s s : s +:+ "" = s.
Proof. induction s; [done|]. by rewrite app_cons, IHs. Qed.
Lemma app_assoc_s s t u : (s +:+ t) +:+ u = s +:+ (t +:+ u).
Proof. induction s as [|c s IH]; [done|]. by rewrite !app_cons, IH. Qed.
Lemma stake_app s t : stake (String.length s) (s +:+ t) = s.
Proof. induction s as [|c s IH]; [by destruct t|]. rewrite app_cons. simpl. by rewrite IH. Qed.
Lemma sdrop_app s t : sdrop (String.length s) (s +:+ t) = t.
Proof. induction s as [|c s IH]; [by destruct t|]. rewrite app_cons. simpl. by rewrite IH. Qed.
Lemma length_app_s s t : String.length (s +:+ t) = (String.length s + String.length t)%nat.
Proof. induction s as [|c s IH]; [done|]. rewrite app_cons. simpl. by rewrite IH. Qed.

#[export] Hint Rewrite app_cons app_nil_l app_nil_r_s app_assoc_s : strs.

(** [strings.ReplaceAll] and [strings.Replacer.Replace] for single bytes. *)
Fixpoint replace_bytes (f : ascii → string) (s : string) : string :=
  match s with
  | EmptyString => EmptyString
  | String c s => f c +:+ replace_bytes f s
  end.

Lemma replace_bytes_app f s t : replace_bytes f (s +:+ t) = replace_bytes f s +:+ replace_bytes f t.
Proof. induction s as [|c s IH]; [done|]. rewrite app_cons. cbn [replace_bytes]. by rewrite IH, app_assoc_s. Qed.

(** ** Lemmas: reversal, prefixes and suffixes *)

Lemma rev_app_app s t u : String.rev_app (s +:+ t) u = String.rev_app t (String.rev_app s u).
Proof. revert u. induction s as [|c s IH]; intros u; [done|]. rewrite app_cons. apply IH. Qed.

Lemma rev_app_acc s t u : String.rev_app s (t +:+ u) = String.rev_app s t +:+ u.
Proof. revert t. induction s as [|c s IH]; intros t; [done|]. simpl. by rewrite <- IH. Qed.

Lemma rev_involutive s : String.rev (String.rev s) = s.
Proof.
  induction s as [|c s IH]; [done|]. unfold String.rev. simpl.
  change (String c "") with ("" +:+ String c ""). rewrite rev_app_acc, rev_app_app.
  simpl. f_equal. exact IH.
Qed.

Lemma rev_snoc s c : String.rev (s +:+ String c "") = String c (String.rev s).
Proof. unfold String.rev. by rewrite rev_app_app. Qed.

Lemma rev_app_s s t : String.rev (s +:+ t) = String.rev t +:+ String.rev s.
Proof.
  unfold String.rev. rewrite rev_app_app. change (String.rev_app s "") with (String.rev s).
  apply (rev_app_acc t "" (String.rev s)).
Qed.

Lemma HasPrefix_app p s : HasPrefix (p +:+ s) p = true.
Proof.
  unfold HasPrefix. induction p as [|c p IH]; [by destruct s|]. rewrite app_cons. simpl.
  by destruct (ascii_dec c c).
Qed.

Lemma HasPrefix_iff s p : HasPrefix s p = true ↔ ∃ t, s = p +:+ t.
Proof.
  split; [|intros [t ->]; apply HasPrefix_app]. unfold HasPrefix.
  revert s. induction p as [|c p IH]; intros s; [intros _; by exists s|]. destruct s as [|d s]; [done|].
  simpl. destruct (ascii_dec c d) as [->|]; [|done]. intros [t ->]%IH. by exists t.
Qed.

Lemma TrimPrefix_app p s : TrimPrefix (p +:+ s) p = s.
Proof. unfold TrimPrefix. by rewrite HasPrefix_app, sdrop_app. Qed.

Lemma HasSuffix_iff s p : HasSuffix s p = true ↔ ∃ t, s = t +:+ p.
Proof.
  unfold HasSuffix. rewrite HasPrefix_iff. split.
  - intros [t Ht]. exists (String.rev t). rewrite <- (rev_involutive s), Ht, rev_app_s.
    by rewrite rev_involutive.
  - intros [t ->]. exists (String.rev t). apply rev_app_s.
Qed.

Lemma TrimSuffix_app s p : TrimSuffix (s +:+ p) p = s.
Proof.
  unfold TrimSuffix. rewrite (proj2 (HasSuffix_iff (s +:+ p) p)) by eauto.
  rewrite length_app_s, Nat.add_sub. apply stake_app.
Qed.
