(* ===== verification/Strconv.v ===== *)
(** * The parts of Go's [strconv] package that the program uses *)

From S2P Require Import Prelude.
From S2P Require Import UnicodeTables.
From S2P Require Import GoStrings.
Local Open Scope Z_scope.

(** [strconv.Itoa], [FormatInt(_, 10)], [AppendInt(_, _, 10)], [%d]. *)
Definition digit (z : Z) : ascii := bchr (48 + z).

(** The decimal digits of [n], most significant first, in front of [acc];
    one unit of fuel per digit, and [n] has at most [log2 n + 1] of them. *)
Fixpoint digits (fuel : nat) (n : Z) (acc : string) : string :=
  match fuel with
  | O => acc
  | S fuel =>
      let acc := String (digit (n mod 10)) acc in
      if n <? 10 then acc else digits fuel (n / 10) acc
  end.

Definition Utoa (n : Z) : string := digits (S (Z.to_nat (Z.log2 n))) n "".
Definition Itoa (z : Z) : string := if z <? 0 then String "-" (Utoa (- z)) else Utoa z.

Definition is_digit (c : ascii) : bool := (48 <=? bval c) && (bval c <=? 57).

Fixpoint parse_digits (acc : Z) (s : string) : option Z :=
  match s with
  | EmptyString => Some acc
  | String c s =>
      if is_digit c then parse_digits (acc * 10 + (bval c - 48)) s else None
  end.

(** [strconv.ParseUint(s, 10, 64)] before the range check. *)
Definition parse_nat (s : string) : option Z :=
  match s with
  | EmptyString => None
  | _ => parse_digits 0 s
  end.

(** [strconv.ParseInt(s, 10, bits)]: [None] is a syntax or range error. *)
Definition ParseInt (bits : Z) (s : string) : option Z :=
  let '(neg, digits) :=
    match s with
    | String c s' =>
        if Ascii.eqb c "+" then (false, s')
        else if Ascii.eqb c "-" then (true, s') else (false, s)
    | EmptyString => (false, s)
    end in
  match parse_nat digits with
  | None => None
  | Some n =>
      let z := if (neg : bool) then - n else n in
      if (- 2 ^ (bits - 1) <=? z) && (z <? 2 ^ (bits - 1)) then Some z else None
  end.

(** [strconv.Atoi] on a 64-bit target. *)
Definition Atoi (s : string) : option Z := ParseInt 64 s.

Definition hex_digit (z : Z) : ascii := bchr (if z <? 10 then 48 + z else 87 + z).

(** The [n] low hexadecimal digits of [z]. *)
Fixpoint hex_digits (n : nat) (z : Z) : string :=
  match n with
  | O => ""
  | S n => String (hex_digit ((z / 16 ^ Z.of_nat n) mod 16)) (hex_digits n z)
  end.

(** [appendEscapedRune] for a double-quoted literal. *)
Definition escape_rune (r : Z) : string :=
  if (r =? 34) || (r =? 92) then String "\" (String (bchr r) "")
  else if is_print r then encode_rune r
  else if r =? 7 then "\a"
  else if r =? 8 then "\b"
  else if r =? 12 then "\f"
  else if r =? 10 then "\n"
  else if r =? 13 then "\r"
  else if r =? 9 then "\t"
  else if r =? 11 then "\v"
  else if (r <? 32) || (r =? 127) then "\x" +:+ hex_digits 2 r
  else if r <? 65536 then "\u" +:+ hex_digits 4 r
  else "\U" +:+ hex_digits 8 r.

Definition quote_one (p : Z * string) : string :=
  match p with
  | (r, raw) =>
      if (r =? rune_error) && (String.length raw =? 1)%nat
      then match raw with
           | String c _ => "\x" +:+ hex_digits 2 (bval c)
           | EmptyString => ""
           end
      else escape_rune r
  end.

(** [strconv.Quote], [AppendQuote] and [%q]. *)
Definition Quote (s : string) : string :=
  String dq (concat_s (quote_one <$> runes s) +:+ String dq "").

Example quote_ex : Quote (String "007" "a\") = qt "'\aa\\'".
Proof. vm_compute. reflexivity. Qed.
Example itoa_ex : (Itoa (-120), Itoa 0, ParseInt 32 "-2147483648", ParseInt 32 "2147483648")
  = ("-120", "0", Some (-2147483648), None).
Proof. vm_compute. reflexivity. Qed.

(** ** Lemmas: decimal numbers *)

Lemma digit_spec z : 0 <= z < 10 → is_digit (digit z) = true ∧ bval (digit z) = 48 + z.
Proof.
  intros ?. unfold is_digit, digit. rewrite bval_bchr by lia.
  split; [apply andb_true_iff; split; apply Z.leb_le|]; lia.
Qed.

Lemma parse_digits_app a s t :
  parse_digits a (s +:+ t) = (b ← parse_digits a s; parse_digits b t).
Proof.
  revert a. induction s as [|c s IH]; intros a; [done|].
  rewrite app_cons. simpl. by destruct (is_digit c).
Qed.

(** A canonical decimal numeral: digits without a leading zero. *)
Definition numeral (s : string) : Prop :=
  all_bytes is_digit s = true ∧ s ≠ "" ∧ (s = "0" ∨ ∀ t, s ≠ String "0" t).

Lemma digits_spec fuel n acc :
  0 <= n < 10 ^ Z.of_nat fuel → fuel ≠ O →
  ∃ ds, digits fuel n acc = ds +:+ acc ∧ all_bytes is_digit ds = true ∧
        parse_digits 0 ds = Some n ∧ ds ≠ "" ∧
        ((n = 0 ∧ ds = "0") ∨ (0 < n ∧ ∀ t, ds ≠ String "0" t)).
Proof.
  revert n acc. induction fuel as [|fuel IH]; intros n acc Hn Hf; [done|].
  simpl. destruct (n <? 10) eqn:E; zbool.
  - rewrite (Z.mod_small n) by lia. destruct (digit_spec n) as [Hd Hv]; [lia|].
    exists (String (digit n) ""). split_and!; simpl; [done|by rewrite Hd| |done|].
    + rewrite Hd, Hv. f_equal. lia.
    + destruct (decide (n = 0)) as [->|]; [by left|right]. split; [lia|].
      intros t [= H _]. rewrite H in Hv. change (bval "0") with 48 in Hv. lia.
  - assert (0 <= n / 10 < 10 ^ Z.of_nat fuel).
    { rewrite Nat2Z.inj_succ, Z.pow_succ_r in Hn by lia.
      split; [apply Z.div_pos; lia|apply Z.div_lt_upper_bound; lia]. }
    assert (0 < n / 10) by (apply Z.div_str_pos; lia).
    destruct (IH (n / 10) (String (digit (n mod 10)) acc)) as (ds&Hds&Ha&Hp&Hne&Hz).
    { done. }
    { intros ->. change (10 ^ Z.of_nat 0) with 1 in *. lia. }
    pose proof (Z.mod_pos_bound n 10 eq_refl).
    destruct (digit_spec (n mod 10)) as [Hd Hv]; [lia|].
    exists (ds +:+ String (digit (n mod 10)) "").
    rewrite Hds, app_assoc_s, all_bytes_app, parse_digits_app, Ha, Hp. simpl.
    rewrite Hd, Hv. split_and!; [done|done| | |].
    + f_equal. pose proof (Z.div_mod n 10). lia.
    + by destruct ds.
    + right. split; [lia|]. destruct Hz as [[? _]|[_ Hz]]; [lia|].
      destruct ds as [|c ds]; [done|]. intros t. rewrite app_cons. intros [= -> _].
      by apply (Hz ds).
Qed.

Lemma Utoa_spec n : 0 <= n → numeral (Utoa n) ∧ parse_nat (Utoa n) = Some n.
Proof.
  intros Hn. unfold Utoa.
  destruct (digits_spec (S (Z.to_nat (Z.log2 n))) n "") as (ds&->&Ha&Hp&Hne&Hz).
  { split; [done|]. rewrite Nat2Z.inj_succ, Z2Nat.id by apply Z.log2_nonneg.
    destruct (decide (n = 0)) as [->|]; [done|].
    pose proof (Z.log2_spec n ltac:(lia)) as [_ ?].
    eapply Z.lt_le_trans; [done|]. apply Z.pow_le_mono_l. lia. }
  { done. }
  rewrite app_nil_r_s. split.
  - split_and!; [done|done|]. destruct Hz as [[_ ?]|[_ ?]]; auto.
  - unfold parse_nat. by destruct ds.
Qed.

(** Numbers survive [Itoa] and [ParseInt] at their width. *)
Lemma ParseInt_Itoa bits z :
  - 2 ^ (bits - 1) <= z < 2 ^ (bits - 1) → ParseInt bits (Itoa z) = Some z.
Proof.
  intros Hz. unfold ParseInt, Itoa. destruct (z <? 0) eqn:E; zbool.
  - simpl. destruct (Utoa_spec (- z)) as [_ ->]; [lia|].
    replace (- - z) with z by lia. split_if; [done|]. zbool. lia.
  - destruct (Utoa_spec z) as [[Ha [Hne _]] Hp]; [lia|].
    destruct (Utoa z) as [|c t] eqn:Eu; [done|].
    assert (is_digit c = true) as Hc by (simpl in Ha; zbool; done).
    assert (Ascii.eqb c "+" = false ∧ Ascii.eqb c "-" = false) as [-> ->].
    { split; apply Ascii.eqb_neq; intros ->; discriminate. }
    rewrite Hp. split_if; [done|]. zbool. lia.
Qed.
