(* ===== verification/GoErrors.v ===== *)
(** * Go error values

    The concrete error types and sentinels the program creates or tests for,
    with [Error()], [errors.Is] and [errors.As] as functions. *)

From S2P Require Import Prelude.
From S2P Require Import GoStrings.
From S2P Require Import Strconv.

(** Package-level error variables the program compares with [errors.Is]. *)
Inductive sentinel :=
  | ErrOverloaded            (* producer.ErrOverloaded *)
  | errContextCanceled       (* api.errContextCanceled *)
  | ctxCanceled              (* context.Canceled *)
  | ctxDeadlineExceeded      (* context.DeadlineExceeded *)
  | ioEOF.                   (* io.EOF *)

#[export] Instance sentinel_eq_dec : EqDecision sentinel.
Proof. solve_decision. Defined.

Inductive error :=
  | ENew (msg : string)                    (* errors.New, fmt.Errorf without %w *)
  | ESentinel (s : sentinel)
  | EWrap (prefix : string) (e : error)    (* fmt.Errorf(prefix + "%w", e) *)
  | EForeign (msg : string) (is_a : list sentinel)
                                           (* an error of a package outside the program *)
  | EValidation (msg : string)             (* api.validationError *)
  | EUnprocessable (msg : string)          (* api.unprocessableError *)
  | EBinaryDecode (data : string)          (* api.binaryDecodeError *)
  | EMaxBytes                              (* http.MaxBytesError *)
  | ESyntax (msg : string)                 (* json.SyntaxError *)
  | EUnmarshalType (value strct field typ : string). (* json.UnmarshalTypeError *)

#[export] Instance error_eq_dec : EqDecision error.
Proof. solve_decision. Defined.

Definition sentinel_msg (s : sentinel) : string :=
  match s with
  | ErrOverloaded => "producer admission capacity exhausted"
  | errContextCanceled => "context canceled or timed out"
  | ctxCanceled => "context canceled"
  | ctxDeadlineExceeded => "context deadline exceeded"
  | ioEOF => "EOF"
  end.

(** The [Error] method of [api.binaryDecodeError]. *)
Definition binary_decode_msg (data : string) : string :=
  "Bad Request: data=" +:+ Quote data +:+ " is not a valid base64 string.".

(** [err.Error()]. *)
Fixpoint Error (e : error) : string :=
  match e with
  | ENew msg | EForeign msg _ | EValidation msg | EUnprocessable msg | ESyntax msg => msg
  | ESentinel s => sentinel_msg s
  | EWrap prefix e => prefix +:+ Error e
  | EBinaryDecode data => binary_decode_msg data
  | EMaxBytes => "http: request body too large"
  | EUnmarshalType value strct field typ =>
      if (String.eqb strct "" && String.eqb field "")%bool
      then "json: cannot unmarshal " +:+ value +:+ " into Go value of type " +:+ typ
      else "json: cannot unmarshal " +:+ value +:+ " into Go struct field " +:+
           strct +:+ "." +:+ field +:+ " of type " +:+ typ
  end.

(** [errors.Is(err, s)]. *)
Fixpoint errors_Is (e : error) (s : sentinel) : bool :=
  match e with
  | ESentinel s' => bool_decide (s' = s)
  | EWrap _ e => errors_Is e s
  | EForeign _ l => bool_decide (s ∈ l)
  | _ => false
  end.

(** [errors.As] into the program's own error types. *)
Fixpoint as_unprocessable (e : error) : option string :=
  match e with
  | EUnprocessable msg => Some msg
  | EWrap _ e => as_unprocessable e
  | _ => None
  end.

Fixpoint as_validation (e : error) : option string :=
  match e with
  | EValidation msg => Some msg
  | EWrap _ e => as_validation e
  | _ => None
  end.

Fixpoint as_binary_decode (e : error) : option string :=
  match e with
  | EBinaryDecode data => Some data
  | EWrap _ e => as_binary_decode e
  | _ => None
  end.

Fixpoint as_max_bytes (e : error) : bool :=
  match e with
  | EMaxBytes => true
  | EWrap _ e => as_max_bytes e
  | _ => false
  end.

(** ** Fallible results: Go's [(value, error)] pairs *)

Inductive res (A : Type) :=
  | Ok (a : A)
  | Err (e : error).
Arguments Ok {A} a.
Arguments Err {A} e.

#[export] Instance res_eq_dec {A} `{EqDecision A} : EqDecision (res A).
Proof. solve_decision. Defined.

Notation "'let?' x ':=' c 'in' k" :=
  (match c with Ok x => k | Err e => Err e end)
  (at level 10, x pattern, c at level 100, k at level 200).

Definition is_ok {A} (r : res A) : bool :=
  match r with Ok _ => true | Err _ => false end.
