(* ===== verification/Json.v ===== *)
(** * The parts of Go's [encoding/json] that the program uses

    The scanner as a recursive-descent recogniser that reports the scanner's
    own error messages, values as trees that remember the bytes they were read
    from ([json.RawMessage]), [Compact], [Valid], string (un)quoting, and the
    decoding rules for struct fields. *)

From S2P Require Import Prelude.
From S2P Require Import UnicodeTables.
From S2P Require Import GoStrings.
From S2P Require Import Strconv.
From S2P Require Import GoErrors.
Local Open Scope Z_scope.

(** ** Values *)

Inductive json :=
  | Json (raw : string) (v : jvalue)
with jvalue :=
  | JNull
  | JBool (b : bool)
  | JNumber (lit : string)
  | JString (s : string)
  | JArray (l : list json)
  | JObject (l : list (string * json)).

Definition jraw (j : json) : string := match j with Json raw _ => raw end.
Definition jval (j : json) : jvalue := match j with Json _ v => v end.

(** ** Scanner *)

Definition is_space (c : ascii) : bool :=
  (bval c =? 32) || (bval c =? 9) || (bval c =? 13) || (bval c =? 10).

Fixpoint skip_space (s : string) : string :=
  match s with
  | EmptyString => EmptyString
  | String c s' => if is_space c then skip_space s' else s
  end.

(** [quoteChar] of scanner.go. *)
Definition quoteChar (c : ascii) : string :=
  if Ascii.eqb c "'" then String "'" (String "\" (String "'" (String "'" "")))
  else if Ascii.eqb c dq then String "'" (String dq (String "'" ""))
  else let q := Quote (encode_rune (bval c)) in
       "'" +:+ stake (String.length q - 2) (sdrop 1 q) +:+ "'".

Inductive pres (A : Type) :=
  | POk (a : A) (rest : string)
  | PErr (msg : string)
  | PFuel.
Arguments POk {A} a rest.
Arguments PErr {A} msg.
Arguments PFuel {A}.

Definition eof_msg : string := "unexpected end of JSON input".
Definition perr {A} (c : ascii) (context : string) : pres A :=
  PErr ("invalid character " +:+ quoteChar c +:+ " " +:+ context).

Definition is_hex (c : ascii) : bool :=
  is_digit c || ((97 <=? bval c) && (bval c <=? 102)) || ((65 <=? bval c) && (bval c <=? 70)).

(** Inside a string literal: plain, after a backslash, or [n] hexadecimal
    digits before the end of a \u escape. *)
Inductive strst := InStr | InEsc | InEscU (n : nat).

Definition is_escape (c : ascii) : bool :=
  bool_decide (c ∈ ["b"; "f"; "n"; "r"; "t"; "\"; "/"; dq]%char).

(** The content of a string literal, after its opening quote. *)
Fixpoint scan_string (st : strst) (s : string) : pres string :=
  match s with
  | EmptyString => PErr eof_msg
  | String c s' =>
      let next st := match scan_string st s' with
                     | POk tok rest => POk (String c tok) rest
                     | r => r
                     end in
      match st with
      | InStr =>
          if Ascii.eqb c dq then POk EmptyString s'
          else if Ascii.eqb c "\" then next InEsc
          else if bval c <? 32 then perr c "in string literal"
          else next InStr
      | InEsc =>
          if is_escape c then next InStr
          else if Ascii.eqb c "u" then next (InEscU 4)
          else perr c "in string escape code"
      | InEscU n =>
          if is_hex c then next (match n with S (S n) => InEscU (S n) | _ => InStr end)
          else perr c "in \u hexadecimal character escape"
      end
  end.

Fixpoint scan_digits (s : string) : string * string :=
  match s with
  | String c s' =>
      if is_digit c then let '(d, rest) := scan_digits s' in (String c d, rest) else ("", s)
  | EmptyString => ("", s)
  end.

Definition need_digits (context : string) (s : string) : pres string :=
  match s with
  | EmptyString => PErr eof_msg
  | String c _ =>
      if is_digit c then let '(d, rest) := scan_digits s in POk d rest else perr c context
  end.

Definition scan_exp (s : string) : pres string :=
  match s with
  | String c s' =>
      if Ascii.eqb c "e" || Ascii.eqb c "E" then
        let '(sign, s1) :=
          match s' with
          | String g s1 => if Ascii.eqb g "+" || Ascii.eqb g "-"
                           then (String g "", s1) else ("", s')
          | EmptyString => ("", s')
          end in
        match need_digits "in exponent of numeric literal" s1 with
        | POk d rest => POk (String c (sign +:+ d)) rest
        | r => r
        end
      else POk "" s
  | EmptyString => POk "" s
  end.

Definition scan_frac (s : string) : pres string :=
  match s with
  | String c s' =>
      if Ascii.eqb c "." then
        match need_digits "after decimal point in numeric literal" s' with
        | POk d rest =>
            match scan_exp rest with
            | POk e rest => POk (String c (d +:+ e)) rest
            | r => r
            end
        | r => r
        end
      else scan_exp s
  | EmptyString => POk "" s
  end.

(** A number whose optional sign has been read. *)
Definition scan_number (s : string) : pres string :=
  match s with
  | EmptyString => PErr eof_msg
  | String c s' =>
      if Ascii.eqb c "0" then
        match scan_frac s' with POk f rest => POk (String c f) rest | r => r end
      else if is_digit c then
        let '(d, rest) := scan_digits s in
        match scan_frac rest with POk f rest => POk (d +:+ f) rest | r => r end
      else perr c "in numeric literal"
  end.

(** The remaining letters of [true], [false] and [null]. *)
Fixpoint scan_literal (name expect : string) (s : string) : pres unit :=
  match expect with
  | EmptyString => POk tt s
  | String e expect =>
      match s with
      | EmptyString => PErr eof_msg
      | String c s =>
          if Ascii.eqb c e then scan_literal name expect s
          else perr c ("in literal " +:+ name +:+ " (expecting '" +:+ String e "" +:+ "')")
      end
  end.

(** ** String literals *)

Definition hex_val (c : ascii) : Z :=
  if is_digit c then bval c - 48
  else if bval c <? 97 then bval c - 55 else bval c - 87.

(** [getu4]: the rune of a leading \uXXXX. *)
Definition getu4 (s : string) : option Z :=
  match s with
  | String b (String u s) =>
      if Ascii.eqb b "\" && Ascii.eqb u "u" then
        match s with
        | String h1 (String h2 (String h3 (String h4 _))) =>
            if is_hex h1 && is_hex h2 && is_hex h3 && is_hex h4
            then Some (hex_val h1 * 4096 + hex_val h2 * 256 + hex_val h3 * 16 + hex_val h4)
            else None
        | _ => None
        end
      else None
  | _ => None
  end.

Definition is_surrogate (r : Z) : bool := (55296 <=? r) && (r <? 57344).
Definition utf16_decode (r1 r2 : Z) : option Z :=
  if (55296 <=? r1) && (r1 <? 56320) && (56320 <=? r2) && (r2 <? 57344)
  then Some ((r1 - 55296) * 1024 + (r2 - 56320) + 65536) else None.

Definition unescape_char (c : ascii) : ascii :=
  if Ascii.eqb c "b" then "008"%char
  else if Ascii.eqb c "f" then "012"%char
  else if Ascii.eqb c "n" then "010"%char
  else if Ascii.eqb c "r" then "013"%char
  else if Ascii.eqb c "t" then "009"%char
  else c.

(** [unquote] on the content of a literal the scanner accepted; [skip] counts
    the bytes already consumed by the previous escape or rune. *)
Fixpoint unquote (skip : nat) (s : string) : string :=
  match s with
  | EmptyString => EmptyString
  | String c s' =>
      match skip with
      | S skip => unquote skip s'
      | O =>
          if Ascii.eqb c "\" then
            match getu4 s with
            | Some r =>
                if is_surrogate r then
                  match r2 ← getu4 (sdrop 6 s); utf16_decode r r2 with
                  | Some dec => encode_rune dec +:+ unquote 11 s'
                  | None => encode_rune rune_error +:+ unquote 5 s'
                  end
                else encode_rune r +:+ unquote 5 s'
            | None =>
                match s' with
                | String e _ => String (unescape_char e) (unquote 1 s')
                | EmptyString => EmptyString
                end
            end
          else
            let '(r, w) := decode_rune s in
            encode_rune r +:+ unquote (w - 1) s'
      end
  end.

(** ** Parser *)

Definition max_depth : Z := 10000.

(** The value read from [s] when [rest] is left. *)
Definition node (s rest : string) (v : jvalue) : json :=
  Json (stake (String.length s - String.length rest) s) v.

Fixpoint parse_value (fuel : nat) (depth : Z) (s0 : string) {struct fuel} : pres json :=
  match fuel with
  | O => PFuel
  | S fuel =>
      let s := skip_space s0 in
      match s with
      | EmptyString => PErr eof_msg
      | String c s' =>
          if Ascii.eqb c "{" then
            if max_depth <=? depth then perr c "exceeded max depth"
            else match skip_space s' with
                 | EmptyString => PErr eof_msg
                 | String c1 s1 =>
                     if Ascii.eqb c1 "}" then POk (node s s1 (JObject [])) s1
                     else match parse_members fuel (depth + 1) s' with
                          | POk l rest => POk (node s rest (JObject l)) rest
                          | PErr m => PErr m
                          | PFuel => PFuel
                          end
                 end
          else if Ascii.eqb c "[" then
            if max_depth <=? depth then perr c "exceeded max depth"
            else match skip_space s' with
                 | EmptyString => PErr eof_msg
                 | String c1 s1 =>
                     if Ascii.eqb c1 "]" then POk (node s s1 (JArray [])) s1
                     else match parse_elements fuel (depth + 1) s' with
                          | POk l rest => POk (node s rest (JArray l)) rest
                          | PErr m => PErr m
                          | PFuel => PFuel
                          end
                 end
          else if Ascii.eqb c dq then
            match scan_string InStr s' with
            | POk tok rest => POk (node s rest (JString (unquote 0 tok))) rest
            | PErr m => PErr m
            | PFuel => PFuel
            end
          else if Ascii.eqb c "-" then
            match scan_number s' with
            | POk tok rest => POk (node s rest (JNumber (String c tok))) rest
            | PErr m => PErr m
            | PFuel => PFuel
            end
          else if is_digit c then
            match scan_number s with
            | POk tok rest => POk (node s rest (JNumber tok)) rest
            | PErr m => PErr m
            | PFuel => PFuel
            end
          else if Ascii.eqb c "t" then
            match scan_literal "true" "rue" s' with
            | POk _ rest => POk (node s rest (JBool true)) rest
            | PErr m => PErr m
            | PFuel => PFuel
            end
          else if Ascii.eqb c "f" then
            match scan_literal "false" "alse" s' with
            | POk _ rest => POk (node s rest (JBool false)) rest
            | PErr m => PErr m
            | PFuel => PFuel
            end
          else if Ascii.eqb c "n" then
            match scan_literal "null" "ull" s' with
            | POk _ rest => POk (node s rest JNull) rest
            | PErr m => PErr m
            | PFuel => PFuel
            end
          else perr c "looking for beginning of value"
      end
  end
with parse_members (fuel : nat) (depth : Z) (s : string) {struct fuel} : pres (list (string * json)) :=
  match fuel with
  | O => PFuel
  | S fuel =>
      match skip_space s with
      | EmptyString => PErr eof_msg
      | String c s1 =>
          if Ascii.eqb c dq then
            match scan_string InStr s1 with
            | POk key s2 =>
                match skip_space s2 with
                | EmptyString => PErr eof_msg
                | String c2 s3 =>
                    if Ascii.eqb c2 ":" then
                      match parse_value fuel depth s3 with
                      | POk v s4 =>
                          match skip_space s4 with
                          | EmptyString => PErr eof_msg
                          | String c4 s5 =>
                              if Ascii.eqb c4 "," then
                                match parse_members fuel depth s5 with
                                | POk l rest => POk ((unquote 0 key, v) :: l) rest
                                | PErr m => PErr m
                                | PFuel => PFuel
                                end
                              else if Ascii.eqb c4 "}" then POk [(unquote 0 key, v)] s5
                              else perr c4 "after object key:value pair"
                          end
                      | PErr m => PErr m
                      | PFuel => PFuel
                      end
                    else perr c2 "after object key"
                end
            | PErr m => PErr m
            | PFuel => PFuel
            end
          else perr c "looking for beginning of object key string"
      end
  end
with parse_elements (fuel : nat) (depth : Z) (s : string) {struct fuel} : pres (list json) :=
  match fuel with
  | O => PFuel
  | S fuel =>
      match parse_value fuel depth s with
      | POk v s1 =>
          match skip_space s1 with
          | EmptyString => PErr eof_msg
          | String c s2 =>
              if Ascii.eqb c "," then
                match parse_elements fuel depth s2 with
                | POk l rest => POk (v :: l) rest
                | PErr m => PErr m
                | PFuel => PFuel
                end
              else if Ascii.eqb c "]" then POk [v] s2
              else perr c "after array element"
          end
      | PErr m => PErr m
      | PFuel => PFuel
      end
  end.

(** [checkValid] and the value it checked; the fuel never runs out
    ([parse_fuel] below). *)
Definition json_fuel (s : string) : nat := 2 * String.length s + 2.

Definition json_parse (s : string) : res json :=
  match parse_value (json_fuel s) 0 s with
  | POk v rest =>
      match skip_space rest with
      | EmptyString => Ok v
      | String c _ => match @perr json c "after top-level value" with
                      | PErr m => Err (ESyntax m)
                      | _ => Ok v
                      end
      end
  | PErr m => Err (ESyntax m)
  | PFuel => Err (ESyntax "out of fuel")
  end.

(** [json.Valid]. *)
Definition Valid (s : string) : bool := is_ok (json_parse s).

(** The bytes [json.Compact] keeps: everything but space outside strings. *)
Fixpoint strip_space (inString escaped : bool) (s : string) : string :=
  match s with
  | EmptyString => EmptyString
  | String c s' =>
      if inString then
        String c (if escaped then strip_space true false s'
                  else if Ascii.eqb c "\" then strip_space true true s'
                  else if Ascii.eqb c dq then strip_space false false s'
                  else strip_space true false s')
      else if Ascii.eqb c dq then String c (strip_space true false s')
      else if is_space c then strip_space false false s'
      else String c (strip_space false false s')
  end.

(** [json.Compact]. *)
Definition Compact (s : string) : res string :=
  match json_parse s with
  | Ok _ => Ok (strip_space false false s)
  | Err e => Err e
  end.

(** ** Encoding *)

Definition escape_json (p : Z * string) : string :=
  match p with
  | (r, raw) =>
      if r <? 128 then
        if (r =? 34) || (r =? 92) then String "\" (String (bchr r) "")
        else if r =? 8 then "\b" else if r =? 12 then "\f" else if r =? 10 then "\n"
        else if r =? 13 then "\r" else if r =? 9 then "\t"
        else if (r <? 32) || (r =? 38) || (r =? 60) || (r =? 62)
        then "\u00" +:+ hex_digits 2 r
        else String (bchr r) ""
      else if (r =? rune_error) && (String.length raw =? 1)%nat then "\ufffd"
      else if (r =? 8232) || (r =? 8233) then "\u" +:+ hex_digits 4 r
      else raw
  end.

(** [json.Marshal] of a string (HTML escaping on, as [Encode] does). *)
Definition json_string (s : string) : string :=
  String dq (concat_s (escape_json <$> runes s) +:+ String dq "").

(** ** Struct decoding *)

(** [foldName]: ASCII letters to upper case, the two runes whose case orbit
    contains an ASCII letter to that letter. *)
Definition fold_rune (r : Z) : Z :=
  if r =? 383 then 83 else if r =? 8490 then 75
  else if r <? 128 then to_upper_rune r else r.
Definition foldName (s : string) : string := map_runes fold_rune s.

Fixpoint find_name (eq : string → bool) (names : list string) : option nat :=
  match names with
  | [] => None
  | n :: names => if eq n then Some 0%nat else S <$> find_name eq names
  end.

(** The struct field an object key selects: exact name first, then folded. *)
Definition field_of (names : list string) (key : string) : option nat :=
  match find_name (String.eqb key) names with
  | Some i => Some i
  | None => find_name (λ n, String.eqb (foldName key) (foldName n)) names
  end.

(** Decoding threads the first saved [UnmarshalTypeError]; [inl] is an error
    of an [UnmarshalJSON] method, which stops the decoding at once. *)
Definition dec (A : Type) : Type := option error → (error + A) * option error.

Definition dret {A} (a : A) : dec A := λ sv, (inr a, sv).
Definition dfail {A} (e : error) : dec A := λ sv, (inl e, sv).
Definition dbind {A B} (m : dec A) (f : A → dec B) : dec B :=
  λ sv, match m sv with
        | (inr a, sv) => f a sv
        | (inl e, sv) => (inl e, sv)
        end.
Notation "'let!' x ':=' c 'in' k" := (dbind c (λ x, k))
  (at level 10, x pattern, c at level 100, k at level 200).

(** Where the decoder is: the innermost struct type and the field path. *)
Record dctx := { ctx_struct : string; ctx_path : list string }.
Definition ctx0 : dctx := {| ctx_struct := ""; ctx_path := [] |}.
Definition in_field (cx : dctx) (strct field : string) : dctx :=
  {| ctx_struct := strct; ctx_path := ctx_path cx ++ [field] |}.

(** [d.addErrorContext]: the error of a nested [Unmarshal] is relocated. *)
Definition add_context (cx : dctx) (e : error) : error :=
  match e with
  | EUnmarshalType value _ field typ =>
      if String.eqb (ctx_struct cx) "" && bool_decide (ctx_path cx = []) then e
      else EUnmarshalType value (ctx_struct cx)
        (Join (ctx_path cx ++ (if String.eqb field "" then [] else [field])) ".") typ
  | e => e
  end.

(** [d.saveError(&UnmarshalTypeError{...})], keeping the current value. *)
Definition type_error {A} (cx : dctx) (value typ : string) (cur : A) : dec A :=
  λ sv, (inr cur,
    match sv with
    | Some e => Some e
    | None => Some (EUnmarshalType value (ctx_struct cx) (Join (ctx_path cx) ".") typ)
    end).

Definition kind_name (v : jvalue) : string :=
  match v with
  | JNull => "null"
  | JBool _ => "bool"
  | JNumber _ => "number"
  | JString _ => "string"
  | JArray _ => "array"
  | JObject _ => "object"
  end.

(** A [string] field. *)
Definition decode_string (cx : dctx) (cur : string) (j : json) : dec string :=
  match jval j with
  | JNull => dret cur
  | JString s => dret s
  | v => type_error cx (kind_name v) "string" cur
  end.

(** A pointer to a string: null sets it to nil. *)
Definition decode_string_ptr (cx : dctx) (cur : option string) (j : json) : dec (option string) :=
  match jval j with
  | JNull => dret None
  | _ => let! x := decode_string cx (default "" cur) j in dret (Some x)
  end.

(** A pointer to a [bits]-wide integer: null sets it to nil. *)
Definition decode_int_ptr (bits : Z) (typ : string) (cx : dctx) (cur : option Z) (j : json)
  : dec (option Z) :=
  match jval j with
  | JNull => dret None
  | JNumber lit =>
      match ParseInt bits lit with
      | Some n => dret (Some n)
      | None => type_error cx ("number " +:+ lit) typ (Some (default 0 cur))
      end
  | v => type_error cx (kind_name v) typ (Some (default 0 cur))
  end.

(** A plain [int] field: null leaves it. *)
Definition decode_int (cx : dctx) (cur : Z) (j : json) : dec Z :=
  match jval j with
  | JNull => dret cur
  | _ => let! x := decode_int_ptr 64 "int" cx (Some cur) j in dret (default cur x)
  end.

(** A Go slice that [Unmarshal] decodes into: its elements (nil is [None])
    and the stale elements that remain in its backing array, which a later
    occurrence of the same key decodes into again. *)
Record gslice (A : Type) := { elems : option (list A); spare : list A }.
Arguments elems {A} g.
Arguments spare {A} g.
Arguments Build_gslice {A} elems spare.

Section decode_slice.
Context {A : Type} (zero : A) (decode : A → json → dec A).

(** Decode the elements into the cells of the backing array; the cells
    that are left become the stale tail. *)
Fixpoint decode_elems (cells : list A) (l : list json) : dec (list A * list A) :=
  match l with
  | [] => dret ([], cells)
  | j :: l =>
      let! a := decode (default zero (head cells)) j in
      let! r := decode_elems (tail cells) l in
      dret (a :: r.1, r.2)
  end.

Definition decode_slice (typ : string) (cx : dctx) (cur : gslice A) (j : json)
  : dec (gslice A) :=
  match jval j with
  | JNull => dret {| elems := None; spare := [] |}
  | JArray [] => dret {| elems := Some []; spare := [] |}
  | JArray l =>
      let! r := decode_elems (default [] (elems cur) ++ spare cur) l in
      dret {| elems := Some r.1; spare := r.2 |}
  | v => type_error cx (kind_name v) typ cur
  end.
End decode_slice.

Section decode_object.
Context {A : Type} (field : A → string → json → dec A).

Fixpoint decode_members (cur : A) (l : list (string * json)) : dec A :=
  match l with
  | [] => dret cur
  | (k, j) :: l => let! a := field cur k j in decode_members a l
  end.

(** A struct: null leaves it, an object decodes its members in order. *)
Definition decode_struct (typ : string) (cx : dctx) (cur : A) (j : json) : dec A :=
  match jval j with
  | JNull => dret cur
  | JObject l => decode_members cur l
  | v => type_error cx (kind_name v) typ cur
  end.
End decode_object.

(** [json.Unmarshal(data, &x)] with [x] initially [zero]. *)
Definition Unmarshal {A} (decode : A → json → dec A) (zero : A) (data : string) : res A :=
  match json_parse data with
  | Err e => Err e
  | Ok j =>
      match decode zero j None with
      | (inl e, _) => Err e
      | (inr a, None) => Ok a
      | (inr _, Some e) => Err e
      end
  end.

(** [json.Unmarshal] when the caller ignores the error: a syntax error leaves
    [zero], a type error leaves what could be decoded. *)
Definition Unmarshal_partial {A} (decode : A → json → dec A) (zero : A) (data : string) : A :=
  match json_parse data with
  | Err _ => zero
  | Ok j => match decode zero j None with
            | (inr a, _) => a
            | (inl _, _) => zero
            end
  end.

(** The first value of a text and what follows it ([Decoder.Decode] on a
    reader that holds the whole text). *)
Definition read_value (s : string) : res (json * string) :=
  match skip_space s with
  | EmptyString => Err (ESentinel ioEOF)
  | _ =>
      match parse_value (json_fuel s) 0 s with
      | POk v rest => Ok (v, rest)
      | PErr m => if String.eqb m eof_msg then Err (ENew "unexpected EOF") else Err (ESyntax m)
      | PFuel => Err (ESyntax "out of fuel")
      end
  end.

(** [json.NewDecoder(reader).Decode(&x)]. *)
Definition Decode {A} (decode : A → json → dec A) (zero : A) (data : string) : res A :=
  match read_value data with
  | Err e => Err e
  | Ok (j, _) =>
      match decode zero j None with
      | (inl e, _) => Err e
      | (inr a, None) => Ok a
      | (inr _, Some e) => Err e
      end
  end.

Example parse_ex1 :
  json_parse (qt "{'a' : [1, -2.5e3,true],'b':{}}") =
  Ok (Json (qt "{'a' : [1, -2.5e3,true],'b':{}}") (JObject
    [("a", Json "[1, -2.5e3,true]" (JArray [Json "1" (JNumber "1");
        Json "-2.5e3" (JNumber "-2.5e3"); Json "true" (JBool true)]));
     ("b", Json "{}" (JObject []))])).
Proof. vm_compute. reflexivity. Qed.

Example parse_ex2 :
  (json_parse "[1,]", json_parse (qt "{'a':tru}"), json_parse "1 x", json_parse "[0") =
  (Err (ESyntax "invalid character ']' looking for beginning of value"),
   Err (ESyntax "invalid character '}' in literal true (expecting 'e')"),
   Err (ESyntax "invalid character 'x' after top-level value"),
   Err (ESyntax "unexpected end of JSON input")).
Proof. vm_compute. reflexivity. Qed.
Example unq_ex : unquote 0 "a\u00e9\ud83d\ude00\n\ud800x" =
  "aé😀" +:+ nl +:+ "�x".
Proof. vm_compute. reflexivity. Qed.
