(* ===== verification/JsonFacts.v ===== *)
(** * Facts about the JSON model

    The parser always terminates with a verdict, [Compact] is the identity on
    compact texts, and a calculus of "text [t] reads as value [v]" from which
    the validity of a printed document follows piece by piece. *)

From S2P Require Import Prelude.
From S2P Require Import UnicodeTables.
From S2P Require Import GoStrings.
From S2P Require Import Strconv.
From S2P Require Import GoErrors.
From S2P Require Import Json.
Local Open Scope Z_scope.

(** ** Termination of the parser *)

Lemma skip_space_length s : (String.length (skip_space s) <= String.length s)%nat.
Proof. induction s as [|c s IH]; simpl; [done|]. destruct (is_space c); simpl; lia. Qed.

(** A scan returns a verdict, and leaves at most the input. *)
Definition scans {A} (s : string) (r : pres A) : Prop :=
  match r with
  | POk _ rest => (String.length rest <= String.length s)%nat
  | PErr _ => True
  | PFuel => False
  end.

(** As [scans], consuming at least one byte. *)
Definition consumes {A} (s : string) (r : pres A) : Prop :=
  match r with
  | POk _ rest => (String.length rest < String.length s)%nat
  | PErr _ => True
  | PFuel => False
  end.

Lemma scan_string_consumes st s : consumes s (scan_string st s).
Proof.
  revert st. induction s as [|c s IH]; intros st; simpl; [done|].
  assert (∀ st, consumes (String c s)
    match scan_string st s with POk tok rest => POk (String c tok) rest | r => r end) as Hn.
  { intros st'. specialize (IH st'). destruct (scan_string st' s); simpl in *; lia || done. }
  destruct st; repeat split_if; try apply Hn; simpl; try done; lia.
Qed.

Lemma scan_digits_length s : (String.length (scan_digits s).2 <= String.length s)%nat.
Proof.
  induction s as [|c s IH]; simpl; [done|]. destruct (is_digit c); simpl; [|lia].
  destruct (scan_digits s); simpl in *; lia.
Qed.

Lemma need_digits_scans ctx s : scans s (need_digits ctx s).
Proof.
  destruct s as [|c s]; [done|]. unfold need_digits. pose proof (scan_digits_length (String c s)).
  destruct (is_digit c); [|done]. by destruct (scan_digits (String c s)).
Qed.

Lemma scan_exp_scans s : scans s (scan_exp s).
Proof.
  destruct s as [|c s]; simpl; [done|]. destruct (_ || _); simpl; [|lia].
  assert (∀ sign t, (String.length t <= String.length s)%nat →
    scans (String c s) match need_digits "in exponent of numeric literal" t with
      | POk d rest => POk (String c (sign +:+ d)) rest | r => r end) as H.
  { intros sign t Ht. pose proof (need_digits_scans "in exponent of numeric literal" t).
    destruct (need_digits _ t); simpl in *; lia || done. }
  destruct s as [|g s]; [by apply H|].
  destruct (_ || _); apply H; simpl; lia.
Qed.

Lemma scan_frac_scans s : scans s (scan_frac s).
Proof.
  destruct s as [|c s]; [simpl; lia|]. unfold scan_frac.
  destruct (Ascii.eqb c "."); [|apply scan_exp_scans].
  pose proof (need_digits_scans "after decimal point in numeric literal" s) as H.
  destruct (need_digits _ s) as [d rest| |]; simpl in *; try done.
  pose proof (scan_exp_scans rest) as H'. destruct (scan_exp rest); simpl in *; lia || done.
Qed.

Lemma scan_number_consumes s : consumes s (scan_number s).
Proof.
  destruct s as [|c s]; [done|]. unfold scan_number.
  destruct (Ascii.eqb c "0").
  { pose proof (scan_frac_scans s). destruct (scan_frac s); simpl in *; lia || done. }
  destruct (is_digit c) eqn:E; [|done].
  destruct (scan_digits (String c s)) as [d rest] eqn:Ed. simpl in Ed. rewrite E in Ed.
  pose proof (scan_digits_length s). destruct (scan_digits s). injection Ed as <- <-.
  pose proof (scan_frac_scans s1). simpl in *.
  destruct (scan_frac s1); simpl in *; lia || done.
Qed.

Lemma scan_literal_scans name expect s : scans s (scan_literal name expect s).
Proof.
  revert s. induction expect as [|e expect IH]; intros s; simpl; [lia|].
  destruct s as [|c s]; [done|]. destruct (Ascii.eqb c e); [|done].
  specialize (IH s). destruct (scan_literal name expect s); simpl in *; lia || done.
Qed.

#[global] Arguments scan_number : simpl never.
#[global] Arguments scan_string : simpl never.
#[global] Arguments scan_literal : simpl never.

(** Use a fact about the scan the goal matches on. *)
Ltac use_scan pf :=
  let H := fresh in pose proof pf as H;
  match type of H with
  | consumes _ ?r => revert H; generalize r
  | scans _ ?r => revert H; generalize r
  end;
  let p := fresh in intros p H; destruct p; simpl in *; [lia|done|done].

(** [parse_value] on [n] bytes terminates within [2 n + 1] calls,
    [parse_members] and [parse_elements] within [2 n + 2]. *)
Lemma parse_consumes fuel :
  (∀ d s, (2 * String.length s + 1 <= fuel)%nat → consumes s (parse_value fuel d s)) ∧
  (∀ d s, (2 * String.length s + 2 <= fuel)%nat → consumes s (parse_members fuel d s)) ∧
  (∀ d s, (2 * String.length s + 2 <= fuel)%nat → consumes s (parse_elements fuel d s)).
Proof.
  induction fuel as [|fuel (IHv&IHm&IHe)]; [split_and!; intros; lia|].
  split_and!; intros d s Hf.
  - simpl. pose proof (skip_space_length s).
    destruct (skip_space s) as [|c s'] eqn:Es; simpl in *; [done|].
    pose proof (skip_space_length s').
    destruct (Ascii.eqb c "{").
    { destruct (max_depth <=? d); [done|].
      destruct (skip_space s') as [|c1 s1]; simpl in *; [done|].
      destruct (Ascii.eqb c1 "}"); [simpl; lia|]. use_scan (IHm (d + 1) s' ltac:(lia)). }
    destruct (Ascii.eqb c "[").
    { destruct (max_depth <=? d); [done|].
      destruct (skip_space s') as [|c1 s1]; simpl in *; [done|].
      destruct (Ascii.eqb c1 "]"); [simpl; lia|]. use_scan (IHe (d + 1) s' ltac:(lia)). }
    destruct (Ascii.eqb c dq); [use_scan (scan_string_consumes InStr s')|].
    destruct (Ascii.eqb c "-"); [use_scan (scan_number_consumes s')|].
    destruct (is_digit c); [use_scan (scan_number_consumes (String c s'))|].
    destruct (Ascii.eqb c "t"); [use_scan (scan_literal_scans "true" "rue" s')|].
    destruct (Ascii.eqb c "f"); [use_scan (scan_literal_scans "false" "alse" s')|].
    destruct (Ascii.eqb c "n"); [use_scan (scan_literal_scans "null" "ull" s')|done].
  - simpl. pose proof (skip_space_length s).
    destruct (skip_space s) as [|c s1]; simpl in *; [done|].
    destruct (Ascii.eqb c dq); [|done].
    pose proof (scan_string_consumes InStr s1).
    destruct (scan_string InStr s1) as [key s2| |]; simpl in *; try done.
    pose proof (skip_space_length s2). destruct (skip_space s2) as [|c2 s3]; simpl in *; [done|].
    destruct (Ascii.eqb c2 ":"); [|done].
    pose proof (IHv d s3 ltac:(lia)).
    destruct (parse_value fuel d s3) as [v s4| |]; simpl in *; try done.
    pose proof (skip_space_length s4). destruct (skip_space s4) as [|c4 s5]; simpl in *; [done|].
    pose proof (IHm d s5 ltac:(lia)).
    repeat first [done | split_if | case_match | progress simpl in * | lia].
  - simpl. pose proof (IHv d s ltac:(lia)).
    destruct (parse_value fuel d s) as [v s1| |]; simpl in *; try done.
    pose proof (skip_space_length s1). destruct (skip_space s1) as [|c s2]; simpl in *; [done|].
    pose proof (IHe d s2 ltac:(lia)).
    repeat first [done | split_if | case_match | progress simpl in * | lia].
Qed.

Lemma json_parse_terminates s : parse_value (json_fuel s) 0 s ≠ PFuel.
Proof.
  destruct (parse_consumes (json_fuel s)) as (Hv&_&_).
  specialize (Hv 0 s). unfold json_fuel in *. intros Hp. rewrite Hp in Hv.
  apply Hv. lia.
Qed.

(** ** Reading printed texts back *)

Lemma node_app t rest v : node (t +:+ rest) rest v = Json t v.
Proof.
  unfold node. rewrite length_app_s.
  replace (String.length t + String.length rest - String.length rest)%nat
    with (String.length t) by lia. by rewrite stake_app.
Qed.

(** What may follow a value: nothing that could continue a number. *)
Definition ends (rest : string) : Prop :=
  match rest with
  | EmptyString => True
  | String c _ => is_digit c = false ∧ c ≠ "."%char ∧ c ≠ "e"%char ∧ c ≠ "E"%char
  end.

(** The text [t] reads as [v], nested at most [k] deep. *)
Definition starts (t : string) : Prop :=
  match t with
  | EmptyString => False
  | String c _ => is_space c = false ∧ Ascii.eqb c "]" = false
  end.

Definition reads (k : Z) (t : string) (v : jvalue) : Prop :=
  starts t ∧ ∀ fuel d rest, (2 * String.length t + 1 <= fuel)%nat → d + k <= max_depth → ends rest →
    parse_value fuel d (t +:+ rest) = POk (Json t v) rest.

Lemma reads_parse k t v : reads k t v → k <= max_depth → json_parse t = Ok (Json t v).
Proof.
  intros [_ H] Hk. unfold json_parse.
  rewrite <- (app_nil_r_s t) at 2. rewrite H; [done|unfold json_fuel; lia|lia|done].
Qed.

Lemma reads_null : reads 0 "null" JNull.
Proof.
  split; [done|]. intros [|fuel] d rest Hf _ _; [simpl in Hf; lia|]. by rewrite <- (node_app "null" rest).
Qed.

Lemma scan_digits_app ds rest :
  all_bytes is_digit ds = true → ends rest → scan_digits (ds +:+ rest) = (ds, rest).
Proof.
  intros Hd Hr. induction ds as [|c ds IH].
  - rewrite app_nil_l. destruct rest as [|c rest]; [done|]. simpl.
    destruct Hr as [-> _]. done.
  - rewrite app_cons. simpl in *. zbool.
    match goal with H : is_digit c = true |- _ => rewrite H end. by rewrite IH.
Qed.

Lemma scan_frac_ends rest : ends rest → scan_frac rest = POk "" rest.
Proof.
  destruct rest as [|c rest]; [done|]. intros (_&H1&H2&H3). unfold scan_frac, scan_exp.
  apply Ascii.eqb_neq in H1, H2, H3. by rewrite H1, H2, H3.
Qed.

Lemma scan_number_numeral ds rest :
  numeral ds → ends rest → scan_number (ds +:+ rest) = POk ds rest.
Proof.
  intros (Ha&Hne&Hz) Hr. destruct ds as [|c ds]; [done|].
  rewrite app_cons. unfold scan_number. destruct (Ascii.eqb c "0") eqn:E0.
  - apply Ascii.eqb_eq in E0 as ->.
    destruct Hz as [[= ->]|Hz]; [|by destruct (Hz ds)].
    rewrite app_nil_l, scan_frac_ends; done.
  - assert (is_digit c = true) as Hc by (simpl in Ha; zbool; done).
    rewrite Hc, <- app_cons, scan_digits_app, scan_frac_ends by done.
    by rewrite app_nil_r_s.
Qed.

Lemma digit_cases c : is_digit c = true →
  is_space c = false ∧ Ascii.eqb c "]" = false ∧
  Ascii.eqb c "{" = false ∧ Ascii.eqb c "[" = false ∧
  Ascii.eqb c dq = false ∧ Ascii.eqb c "-" = false.
Proof.
  unfold is_digit, is_space. intros H. zbool.
  split_and!; [|apply Ascii.eqb_neq; intros ->; vm_compute in *; intuition discriminate..].
  repeat (apply orb_false_iff; split); apply Z.eqb_neq; lia.
Qed.

Lemma reads_numeral ds : numeral ds → reads 0 ds (JNumber ds).
Proof.
  intros Hn. pose proof Hn as (Ha&Hne&_). destruct ds as [|c ds]; [done|].
  assert (is_digit c = true) as Hc by (simpl in Ha; zbool; done).
  destruct (digit_cases c Hc) as (E1&E0&E2&E3&E4&E5). split; [done|].
  intros [|fuel] d rest Hf _ Hr; [lia|].
  pose proof (scan_number_numeral _ _ Hn Hr) as Hs. rewrite app_cons in *.
  simpl. rewrite E1, E2, E3, E4, E5, Hc, Hs, <- app_cons, node_app. done.
Qed.

Lemma reads_Itoa z : reads 0 (Itoa z) (JNumber (Itoa z)).
Proof.
  unfold Itoa. destruct (z <? 0) eqn:E; zbool.
  - destruct (Utoa_spec (- z)) as [Hn _]; [lia|].
    split; [done|]. intros [|fuel] d rest Hf _ Hr; [lia|].
    pose proof (scan_number_numeral _ _ Hn Hr) as Hs.
    rewrite app_cons. simpl. rewrite Hs, <- app_cons, node_app. done.
  - apply reads_numeral, Utoa_spec. lia.
Qed.

(** *** Strings *)

(** [tok] is the content of a string literal. *)
Definition str_content (tok : string) : Prop :=
  ∀ rest, scan_string InStr (tok +:+ String dq rest) = POk tok rest.

(** [p] can stand in front of any content. *)
Definition str_piece (p : string) : Prop :=
  ∀ tok, str_content tok → str_content (p +:+ tok).

Lemma scan_string_cons st c s' :
  scan_string st (String c s') =
    let next st := match scan_string st s' with
                   | POk tok rest => POk (String c tok) rest
                   | r => r
                   end in
    match st with
    | InStr =>
        if Ascii.eqb c dq then POk EmptyString s'
        else if Ascii.eqb c "\" then next InEsc
        else if bval c <? 32 then perr c "in string literal"
        else next InStr
    | InEsc =>
        if is_escape c then next InStr
        else if Ascii.eqb c "u" then next (InEscU 4)
        else perr c "in string escape code"
    | InEscU n =>
        if is_hex c then next (match n with S (S n) => InEscU (S n) | _ => InStr end)
        else perr c "in \u hexadecimal character escape"
    end.
Proof. done. Qed.

Lemma content_nil : str_content "".
Proof. intros rest. done. Qed.

Definition plain_byte (c : ascii) : bool :=
  negb (Ascii.eqb c dq) && negb (Ascii.eqb c "\") && (32 <=? bval c).

Lemma piece_plain p : all_bytes plain_byte p = true → str_piece p.
Proof.
  intros Hp tok Ht rest. induction p as [|c p IH]; [apply Ht|].
  simpl in Hp. apply andb_true_iff in Hp as [Hc Hp].
  rewrite !app_cons, scan_string_cons. cbv zeta.
  unfold plain_byte in Hc. zbool.
  repeat match goal with H : Ascii.eqb _ _ = false |- _ => rewrite H end.
  assert ((bval c <? 32) = false) as -> by (apply Z.ltb_ge; lia).
  by rewrite IH.
Qed.

Lemma piece_escape c : is_escape c = true → str_piece (String "\" (String c "")).
Proof.
  intros Hc tok Ht rest. rewrite !app_cons, app_nil_l, scan_string_cons. simpl.
  rewrite scan_string_cons. cbv zeta. rewrite Hc. by rewrite Ht.
Qed.

Lemma piece_u4 h : all_bytes is_hex h = true → String.length h = 4%nat →
  str_piece ("\u" +:+ h).
Proof.
  intros Hh Hl tok Ht rest.
  destruct h as [|h1 [|h2 [|h3 [|h4 [|]]]]]; try done. simpl in Hh. zbool.
  repeat (rewrite ?app_cons, ?app_nil_l; rewrite scan_string_cons; cbv zeta; simpl;
    repeat match goal with H : is_hex _ = true |- _ => rewrite H; clear H end).
  rewrite Ht. done.
Qed.

Lemma piece_nil : str_piece "".
Proof. intros tok Ht. done. Qed.

Lemma piece_app p q : str_piece p → str_piece q → str_piece (p +:+ q).
Proof. intros Hp Hq tok Ht. rewrite app_assoc_s. auto. Qed.

Lemma piece_concat l : Forall str_piece l → str_piece (concat_s l).
Proof.
  induction 1 as [|p l Hp _ IH]; simpl; [apply piece_nil|by apply piece_app].
Qed.

Lemma piece_content p : str_piece p → str_content p.
Proof. intros Hp. rewrite <- (app_nil_r_s p). apply Hp, content_nil. Qed.

Lemma reads_string tok : str_content tok →
  reads 0 (String dq (tok +:+ String dq "")) (JString (unquote 0 tok)).
Proof.
  intros Ht. split; [done|]. intros [|fuel] d rest Hf _ _; [lia|].
  pose proof (Ht rest) as Hs.
  rewrite app_cons, app_assoc_s, app_cons, app_nil_l. simpl. rewrite Hs.
  pose proof (node_app (String dq (tok +:+ String dq "")) rest) as Hn.
  rewrite app_cons, app_assoc_s, app_cons, app_nil_l in Hn. by rewrite Hn.
Qed.

Lemma hex_digit_hex z : 0 <= z < 16 → is_hex (hex_digit z) = true.
Proof.
  intros Hz. unfold is_hex, is_digit, hex_digit.
  rewrite bval_bchr by (split_if; lia).
  destruct (z <? 10) eqn:E; zbool.
  - assert ((48 <=? 48 + z) = true ∧ (48 + z <=? 57) = true) as [-> ->] by lia. done.
  - assert ((97 <=? 87 + z) = true ∧ (87 + z <=? 102) = true) as [-> ->] by lia.
    simpl. by rewrite orb_true_r.
Qed.

Lemma hex_digits_hex n z : 0 <= z → all_bytes is_hex (hex_digits n z) = true.
Proof.
  intros Hz. induction n as [|n IH]; simpl; [done|].
  rewrite hex_digit_hex; [done|]. apply Z.mod_pos_bound. lia.
Qed.

Lemma hex_digits_length n z : String.length (hex_digits n z) = n.
Proof. induction n; simpl; congruence. Qed.

(** *** Arrays and objects *)

Lemma ends_comma t : ends (String "," t). Proof. done. Qed.
Lemma ends_brace t : ends (String "}" t). Proof. done. Qed.
Lemma ends_bracket t : ends (String "]" t). Proof. done. Qed.
#[export] Hint Resolve ends_comma ends_brace ends_bracket : go.


Lemma skip_space_starts t rest : starts t → skip_space (t +:+ rest) = t +:+ rest.
Proof. destruct t; [done|]. intros [Hs _]. rewrite app_cons. simpl. by rewrite Hs. Qed.

Lemma parse_elements_reads k l fuel d rest :
  l ≠ [] → Forall (λ p, reads k p.1 p.2) l →
  (2 * String.length (Join l.*1 ",") + 2 <= fuel)%nat → d + k <= max_depth →
  parse_elements fuel d (Join l.*1 "," +:+ String "]" rest) =
    POk ((λ p, Json p.1 p.2) <$> l) rest.
Proof.
  revert fuel. induction l as [|[t v] l IH]; intros fuel Hl Hall Hf Hd; [done|].
  apply Forall_cons in Hall as [[Hst Ht] Hall]. simpl in Ht, Hst.
  destruct fuel as [|fuel]; [lia|]. destruct l as [|[t2 v2] l].
  - simpl in *. rewrite Ht by (try done; lia). done.
  - cbn [fmap list_fmap Join fst snd] in *. rewrite !length_app_s in Hf. simpl in Hf.
    cbn [parse_elements].
    rewrite !app_assoc_s, Ht by (try done; lia). rewrite app_cons, app_nil_l. simpl skip_space.
    cbv iota. rewrite IH by (try done; simpl; lia). done.
Qed.

(** The text of an array of the given texts, and of an object. *)
Definition arr_text (ts : list string) : string := "[" +:+ Join ts "," +:+ "]".
Definition member_text (key t : string) : string :=
  String dq (key +:+ String dq (String ":" t)).
Definition obj_text (ms : list (string * string)) : string :=
  "{" +:+ Join ((λ m, member_text m.1 m.2) <$> ms) "," +:+ "}".

Lemma Join_starts (ts : list string) rest : ts ≠ [] → Forall starts ts →
  ∃ c t, Join ts "," +:+ rest = String c t ∧ is_space c = false ∧ Ascii.eqb c "]" = false.
Proof.
  intros Hne Hall. destruct ts as [|t ts]; [done|].
  apply Forall_cons in Hall as [Ht _]. destruct t as [|c t]; [done|]. destruct Ht.
  destruct ts; simpl; eauto.
Qed.

Lemma reads_array k l :
  Forall (λ p, reads k p.1 p.2) l → 0 <= k →
  reads (k + 1) (arr_text l.*1) (JArray ((λ p, Json p.1 p.2) <$> l)).
Proof.
  intros Hall Hk. split; [done|]. intros [|fuel] d rest Hf Hd Hr; [lia|].
  unfold arr_text in *.
  pose proof (node_app (String "[" (Join l.*1 "," +:+ "]")) rest) as Hn.
  autorewrite with strs in *. simpl in Hf. rewrite length_app_s in Hf. simpl in Hf.
  cbn [parse_value]. simpl skip_space at 1. cbv iota zeta.
  change (Ascii.eqb "[" "{") with false. change (Ascii.eqb "[" "[") with true. cbv iota.
  destruct (max_depth <=? d) eqn:E; zbool; [lia|].
  destruct l as [|p l].
  - simpl in *. by rewrite Hn.
  - destruct (Join_starts (p :: l).*1 (String "]" rest)) as (c&t&Heq&Hsp&Hb); [done| |].
    { rewrite Forall_fmap. eapply Forall_impl; [done|]. by intros ? []. }
    rewrite Heq. simpl skip_space. rewrite Hsp. cbv iota. rewrite Hb, <- Heq.
    rewrite (parse_elements_reads k) by (try done; lia). by rewrite Hn.
Qed.

(** Members: key content, text, value. *)
Definition member_ok (k : Z) (m : string * string * jvalue) : Prop :=
  str_content m.1.1 ∧ reads k m.1.2 m.2.
Definition member_json (m : string * string * jvalue) : string * json :=
  (unquote 0 m.1.1, Json m.1.2 m.2).

Lemma member_text_app key t rest :
  member_text key t +:+ rest =
    String dq (key +:+ String dq (String ":" (t +:+ rest))).
Proof. unfold member_text. by autorewrite with strs. Qed.

Lemma parse_members_reads k l fuel d rest :
  l ≠ [] → Forall (member_ok k) l →
  (2 * String.length (Join ((λ m, member_text m.1 m.2) <$> l.*1) ",") + 2 <= fuel)%nat →
  d + k <= max_depth →
  parse_members fuel d (Join ((λ m, member_text m.1 m.2) <$> l.*1) "," +:+ String "}" rest) =
    POk (member_json <$> l) rest.
Proof.
  revert fuel. induction l as [|[[key t] v] l IH]; intros fuel Hl Hall Hf Hd; [done|].
  apply Forall_cons in Hall as [[Hkey [Hst Ht]] Hall]. simpl in Hkey, Ht, Hst.
  destruct fuel as [|fuel]; [lia|]. destruct l as [|m2 l].
  - cbn [fmap list_fmap Join fst snd] in *. rewrite member_text_app.
    unfold member_text in Hf. simpl in Hf. rewrite length_app_s in Hf. simpl in Hf.
    cbn [parse_members]. simpl skip_space at 1. cbv iota.
    change (Ascii.eqb dq dq) with true. cbv iota. rewrite Hkey. simpl skip_space at 1.
    cbv iota. change (Ascii.eqb ":" ":") with true. cbv iota.
    rewrite Ht by (try done; lia). done.
  - cbn [fmap list_fmap Join fst snd] in *. rewrite app_assoc_s, member_text_app.
    unfold member_text in Hf at 1. rewrite !length_app_s in Hf. simpl in Hf.
    rewrite !length_app_s in Hf. simpl in Hf.
    cbn [parse_members]. simpl skip_space at 1. cbv iota.
    change (Ascii.eqb dq dq) with true. cbv iota. rewrite Hkey. simpl skip_space at 1.
    cbv iota. change (Ascii.eqb ":" ":") with true. cbv iota.
    rewrite app_cons, app_nil_l.
    rewrite Ht by (try done; lia). simpl skip_space at 1. cbv iota.
    change (Ascii.eqb "," ",") with true. cbv iota.
    rewrite IH by (try done; simpl in *; rewrite ?length_app_s in *; simpl in *; lia). done.
Qed.

Lemma reads_object k l :
  Forall (member_ok k) l → 0 <= k →
  reads (k + 1) (obj_text l.*1) (JObject (member_json <$> l)).
Proof.
  intros Hall Hk. split; [done|]. intros [|fuel] d rest Hf Hd Hr; [lia|].
  unfold obj_text in *.
  set (j := Join _ ",") in *.
  pose proof (node_app (String "{" (j +:+ "}")) rest) as Hn.
  autorewrite with strs in *. simpl in Hf. rewrite length_app_s in Hf. simpl in Hf.
  cbn [parse_value]. simpl skip_space at 1. cbv iota zeta.
  change (Ascii.eqb "{" "{") with true. cbv iota.
  destruct (max_depth <=? d) eqn:E; zbool; [lia|].
  destruct l as [|[[key t] v] l].
  - simpl in *. by rewrite Hn.
  - assert (∃ r, j +:+ String "}" rest = String dq r) as [r Hr'].
    { unfold j. destruct l; simpl; unfold member_text; eauto. }
    rewrite Hr'. simpl skip_space at 1. cbv iota.
    change (Ascii.eqb dq "}") with false. cbv iota. rewrite <- Hr'.
    unfold j in *. rewrite (parse_members_reads k) by (try done; lia). by rewrite Hn.
Qed.

(** ** Encoded strings are valid *)

#[local] Arguments Z.leb : simpl never.
#[local] Arguments Z.ltb : simpl never.
#[local] Arguments Z.eqb : simpl never.

(** Compute the tests [128 <=? b] of the goal. *)
Ltac high :=
  simpl; repeat match goal with
  | |- context [128 <=? ?x] => rewrite (proj2 (Z.leb_le 128 x)) by lia
  end; simpl.

Lemma decode_rune_high c s :
  128 <= bval c →
  128 <= (decode_rune (String c s)).1 ∧
  all_bytes (λ c, 128 <=? bval c) (stake (decode_rune (String c s)).2 (String c s)) = true.
Proof.
  intros Hc. unfold decode_rune. assert (128 <= rune_error) by done.
  destruct (bval c <? 128) eqn:E0; zbool; [lia|].
  destruct (_ || _) eqn:E1; zbool; [by high|].
  destruct s as [|c2 s]; [by high|].
  destruct (bval c <? 224) eqn:E2; zbool.
  { unfold is_cont. destruct (_ && _) eqn:E3; zbool; [|by high]. high.
    split; [lia|by destruct s]. }
  set (lo := if bval c =? 224 then 160 else if bval c =? 240 then 144 else 128).
  set (hi := if bval c =? 237 then 159 else if bval c =? 244 then 143 else 191).
  assert (128 <= lo ∧ (bval c = 224 → lo = 160) ∧ (bval c = 240 → lo = 144)) as (Hlo&Hlo1&Hlo2).
  { unfold lo. repeat split_if; zbool; lia. }
  destruct (negb _) eqn:E3; [by high|].
  apply negb_false_iff in E3. zbool.
  destruct s as [|c3 s]; [by high|].
  unfold is_cont. destruct (negb _) eqn:E4; [by high|].
  apply negb_false_iff in E4. zbool.
  destruct (bval c <? 240) eqn:E5; zbool.
  { high. split; [|by destruct s].
    destruct (decide (bval c = 224)) as [Heq|]; [rewrite Hlo1 in * by done|]; lia. }
  destruct s as [|c4 s]; [by high|].
  destruct (negb _) eqn:E6; [by high|].
  apply negb_false_iff in E6. zbool. high. split; [|by destruct s].
  destruct (decide (bval c = 240)) as [Heq|]; [rewrite Hlo2 in * by done|]; lia.
Qed.

Lemma decode_rune_low c s : bval c < 128 → decode_rune (String c s) = (bval c, 1%nat).
Proof. intros H. simpl. by assert ((bval c <? 128) = true) as -> by lia. Qed.

Lemma runes_from_Forall (P : Z * string → Prop) :
  (∀ c s, P ((decode_rune (String c s)).1, stake (decode_rune (String c s)).2 (String c s))) →
  ∀ s k, Forall P (runes_from k s).
Proof.
  intros HP s. induction s as [|c s IH]; intros k; cbn [runes_from]; [constructor|].
  destruct k as [|k]; [|apply IH]. specialize (HP c s).
  destruct (decode_rune (String c s)) as [r w]. by constructor.
Qed.

Lemma all_bytes_impl (p q : ascii → bool) s :
  (∀ c, p c = true → q c = true) → all_bytes p s = true → all_bytes q s = true.
Proof.
  intros Hpq. induction s as [|c s IH]; simpl; [done|]. intros H. zbool.
  apply andb_true_iff. auto.
Qed.

Lemma high_plain s : all_bytes (λ c, 128 <=? bval c) s = true → all_bytes plain_byte s = true.
Proof.
  apply all_bytes_impl. intros c Hc. unfold plain_byte. zbool.
  rewrite !andb_true_iff, !negb_true_iff. split_and!; [| |lia];
    apply Ascii.eqb_neq; intros ->; vm_compute in Hc; by apply Hc.
Qed.

(** Whatever the bytes, [json.Marshal] of a string is a JSON string. *)
Lemma escape_json_piece c s :
  str_piece (escape_json
    ((decode_rune (String c s)).1, stake (decode_rune (String c s)).2 (String c s))).
Proof.
  destruct (Z.lt_ge_cases (bval c) 128) as [Hc|Hc].
  - rewrite decode_rune_low by done. simpl.
    assert ((bval c <? 128) = true) as -> by lia.
    pose proof (bval_range c).
    destruct ((bval c =? 34) || (bval c =? 92)) eqn:E.
    { rewrite bchr_bval. apply piece_escape.
      apply orb_true_iff in E as [E|E]; apply Z.eqb_eq in E.
      - by assert (c = dq) as -> by (by apply bval_inj).
      - by assert (c = "\"%char) as -> by (by apply bval_inj). }
    repeat (split_if; [apply piece_escape; reflexivity|]).
    split_if.
    + apply (piece_u4 ("00" +:+ hex_digits 2 (bval c))); [|done].
      rewrite all_bytes_app, hex_digits_hex by lia. done.
    + apply piece_plain. simpl. rewrite andb_true_r. rewrite bchr_bval.
      zbool. unfold plain_byte. rewrite !andb_true_iff, !negb_true_iff.
      split_and!; [| |lia]; apply Ascii.eqb_neq; intros ->; vm_compute in *; done.
  - destruct (decode_rune_high c s) as [Hr Hw]; [done|].
    unfold escape_json. assert ((_ <? 128) = false) as -> by lia.
    split_if; [apply (piece_u4 "fffd"); done|].
    split_if; [apply piece_u4; [apply hex_digits_hex; lia|done]|].
    by apply piece_plain, high_plain.
Qed.

Lemma json_string_reads s :
  reads 0 (json_string s) (JString (unquote 0 (concat_s (escape_json <$> runes s)))).
Proof.
  apply reads_string, piece_content, piece_concat.
  apply Forall_fmap, runes_from_Forall. intros c s'. apply escape_json_piece.
Qed.

(** *** Round trip of ASCII strings *)

Definition is_ascii (c : ascii) : bool := bval c <? 128.
Definition is_printable (c : ascii) : bool := (32 <=? bval c) && (bval c <? 127).

Lemma runes_cons c s : is_ascii c = true → runes (String c s) = (bval c, String c "") :: runes s.
Proof.
  unfold is_ascii, runes. intros Hc. zbool. cbn [runes_from].
  rewrite decode_rune_low by done. done.
Qed.

Lemma unquote_escape_json c t : is_ascii c = true →
  unquote 0 (escape_json (bval c, String c "") +:+ t) = String c (unquote 0 t).
Proof.
  intros Hc. destruct c as [[] [] [] [] [] [] [] []];
    first [discriminate Hc | reflexivity].
Qed.

Lemma unquote_quote_one c t : is_printable c = true →
  unquote 0 (quote_one (bval c, String c "") +:+ t) = String c (unquote 0 t) ∧
  str_piece (quote_one (bval c, String c "")).
Proof.
  intros Hc. destruct c as [[] [] [] [] [] [] [] []]; try discriminate Hc;
    (split; [reflexivity|]);
    first [by apply (piece_plain (String _ "")) | by apply (piece_escape _)].
Qed.

Lemma printable_ascii c : is_printable c = true → is_ascii c = true.
Proof. unfold is_printable, is_ascii. intros. zbool. apply Z.ltb_lt. lia. Qed.

(** [json.Marshal] of an ASCII string reads back as that string. *)
Lemma json_string_ascii s : all_bytes is_ascii s = true →
  reads 0 (json_string s) (JString s).
Proof.
  intros Hs. pose proof (json_string_reads s) as Hr.
  replace (unquote 0 (concat_s (escape_json <$> runes s))) with s in Hr; [done|].
  clear Hr. induction s as [|c s IH]; [done|]. simpl in Hs. apply andb_true_iff in Hs as [Hc Hs].
  rewrite runes_cons by done. cbn [fmap list_fmap concat_s]. rewrite unquote_escape_json by done. by rewrite <- IH.
Qed.

(** [strconv.Quote] of a printable ASCII string is a JSON string of it. *)
Lemma Quote_printable s : all_bytes is_printable s = true →
  reads 0 (Quote s) (JString s).
Proof.
  intros Hs. assert (str_piece (concat_s (quote_one <$> runes s)) ∧
    unquote 0 (concat_s (quote_one <$> runes s)) = s) as [Hp Hu].
  { induction s as [|c s IH]; [split; [apply piece_nil|done]|].
    simpl in Hs. apply andb_true_iff in Hs as [Hc Hs].
    rewrite runes_cons by by apply printable_ascii. cbn [fmap list_fmap concat_s].
    destruct (unquote_quote_one c (concat_s (quote_one <$> runes s)) Hc) as [-> Hpc].
    destruct (IH Hs) as [Hp ->]. split; [by apply piece_app|done]. }
  rewrite <- Hu at 2. by apply reads_string, piece_content.
Qed.

(** ** [Compact] *)

Lemma strip_space_id inString escaped s :
  (inString = false → escaped = false) →
  strip_space inString escaped (strip_space inString escaped s) = strip_space inString escaped s.
Proof.
  revert inString escaped. induction s as [|c s IH]; intros i e He; [done|].
  simpl. destruct i.
  - destruct e; [|destruct (Ascii.eqb c "\") eqn:E1; [|destruct (Ascii.eqb c dq) eqn:E2]];
      simpl; rewrite ?E1, ?E2, IH; done.
  - rewrite (He eq_refl) in *. destruct (Ascii.eqb c dq) eqn:E1.
    + simpl. rewrite E1, IH; done.
    + destruct (is_space c) eqn:E2; [by apply IH|]. simpl. rewrite E1, E2, IH; done.
Qed.
