(* ===== verification/Base64.v ===== *)
(** * Go's [base64.StdEncoding] *)

From S2P Require Import Prelude.
From S2P Require Import GoStrings.
Local Open Scope Z_scope.

(** [encodeStd]: the alphabet. *)
Definition b64_char (v : Z) : ascii :=
  bchr (if v <? 26 then 65 + v else if v <? 52 then 71 + v
        else if v <? 62 then v - 4 else if v =? 62 then 43 else 47).

(** [decodeMap]. *)
Definition b64_val (c : ascii) : option Z :=
  let b := bval c in
  if (65 <=? b) && (b <=? 90) then Some (b - 65)
  else if (97 <=? b) && (b <=? 122) then Some (b - 71)
  else if (48 <=? b) && (b <=? 57) then Some (b + 4)
  else if b =? 43 then Some 62
  else if b =? 47 then Some 63
  else None.

Definition pad : ascii := "=".

Fixpoint EncodeToString (s : string) : string :=
  match s with
  | EmptyString => EmptyString
  | String a EmptyString =>
      String (b64_char (bval a / 4)) (String (b64_char (bval a mod 4 * 16))
        (String pad (String pad EmptyString)))
  | String a (String b EmptyString) =>
      String (b64_char (bval a / 4))
        (String (b64_char (bval a mod 4 * 16 + bval b / 16))
          (String (b64_char (bval b mod 16 * 4)) (String pad EmptyString)))
  | String a (String b (String c s)) =>
      String (b64_char (bval a / 4))
        (String (b64_char (bval a mod 4 * 16 + bval b / 16))
          (String (b64_char (bval b mod 16 * 4 + bval c / 64))
            (String (b64_char (bval c mod 64)) (EncodeToString s))))
  end.

(** [decodeQuantum] skips line breaks. *)
Definition is_newline (c : ascii) : bool := (bval c =? 10) || (bval c =? 13).

Fixpoint drop_newlines (s : string) : string :=
  match s with
  | EmptyString => EmptyString
  | String c s => if is_newline c then drop_newlines s else String c (drop_newlines s)
  end.

(** Quanta of four characters; padding ends the input, and the bits that do
    not fill a byte are dropped ([StdEncoding] is not strict). *)
Fixpoint decode_quanta (s : string) : option string :=
  match s with
  | EmptyString => Some EmptyString
  | String c1 (String c2 (String c3 (String c4 s))) =>
      match b64_val c1, b64_val c2 with
      | Some v1, Some v2 =>
          let b1 := bchr (v1 * 4 + v2 / 16) in
          if Ascii.eqb c3 pad then
            if Ascii.eqb c4 pad && String.eqb s "" then Some (String b1 "") else None
          else match b64_val c3 with
          | Some v3 =>
              let b2 := bchr (v2 * 16 + v3 / 4) in
              if Ascii.eqb c4 pad then
                if String.eqb s "" then Some (String b1 (String b2 "")) else None
              else match b64_val c4 with
              | Some v4 =>
                  rest ← decode_quanta s;
                  Some (String b1 (String b2 (String (bchr (v3 * 64 + v4)) rest)))
              | None => None
              end
          | None => None
          end
      | _, _ => None
      end
  | _ => None
  end.

(** [DecodeString]: [None] is a CorruptInputError. *)
Definition DecodeString (s : string) : option string := decode_quanta (drop_newlines s).

(** ** Round trip *)

Lemma b64_char_spec v : 0 <= v < 64 →
  b64_val (b64_char v) = Some v ∧ Ascii.eqb (b64_char v) pad = false ∧
  is_newline (b64_char v) = false.
Proof.
  intros Hv.
  assert (Z.of_nat (Z.to_nat v) = v) as Hz by lia.
  assert (Z.to_nat v < 64)%nat as Hn by lia.
  rewrite <- Hz. clear Hz Hv. revert Hn. generalize (Z.to_nat v). intros n Hn.
  do 64 (destruct n as [|n]; [by vm_compute|]). lia.
Qed.

Lemma encode_no_newlines s : drop_newlines (EncodeToString s) = EncodeToString s.
Proof.
  revert s. fix IH 1. intros [|a [|b [|c s]]]; [done|..]; cbn [EncodeToString drop_newlines].
  all: pose proof (bval_range a); try pose proof (bval_range b); try pose proof (bval_range c).
  all: rewrite ?IH.
  all: repeat match goal with
    | |- context [is_newline (b64_char ?v)] =>
        rewrite (proj2 (proj2 (b64_char_spec v ltac:(Z.to_euclidean_division_equations; lia))))
    end.
  all: done.
Qed.

Lemma bchr_eq z c : z mod 256 = bval c → bchr z = c.
Proof. intros H. unfold bchr. rewrite H. unfold bval. rewrite N2Z.id. apply ascii_N_embedding. Qed.

Lemma decode_encode s : DecodeString (EncodeToString s) = Some s.
Proof.
  unfold DecodeString. rewrite encode_no_newlines.
  revert s. fix IH 1. intros [|a [|b [|c s]]]; [done|..]; cbn [EncodeToString decode_quanta].
  all: pose proof (bval_range a); try pose proof (bval_range b); try pose proof (bval_range c).
  all: rewrite ?IH.
  all: repeat match goal with
    | |- context [b64_val (b64_char ?v)] =>
        let H := fresh in
        destruct (b64_char_spec v ltac:(Z.to_euclidean_division_equations; lia)) as (H&?&_);
        rewrite H
    end.
  all: repeat match goal with H : Ascii.eqb _ pad = false |- _ => rewrite H; clear H end.
  all: simpl; repeat f_equal; apply bchr_eq; Z.to_euclidean_division_equations; lia.
Qed.
