(* ===== verification/JsonText.v ===== *)
(** * JSON texts the program or its clients write

    Derived forms of the [reads] calculus: arrays of one shape, objects with
    literal field names, quoted plain text, and surrounding space. *)

From S2P Require Import Prelude.
From S2P Require Import GoStrings.
From S2P Require Import Strconv.
From S2P Require Import GoErrors.
From S2P Require Import Json.
From S2P Require Import JsonFacts.
From S2P Require Import Base64.
Local Open Scope Z_scope.

Lemma reads_weaken k k' t v : reads k t v → k <= k' → reads k' t v.
Proof. intros [Hs Hr] Hk. split; [done|]. intros. apply Hr; [done|lia|done]. Qed.

Lemma reads_array_map {A} (f : A → string) (g : A → jvalue) k l :
  Forall (λ a, reads k (f a) (g a)) l → 0 <= k →
  reads (k + 1) (arr_text (f <$> l)) (JArray ((λ a, Json (f a) (g a)) <$> l)).
Proof.
  intros Hl Hk. pose proof (reads_array k ((λ a, (f a, g a)) <$> l)) as H.
  rewrite <- !list_fmap_compose in H. apply H; [|done]. by apply Forall_fmap.
Qed.

(** *** Plain text *)

Definition plain_ascii (c : ascii) : bool := plain_byte c && is_ascii c.

Lemma unquote_plain s : all_bytes plain_ascii s = true → unquote 0 s = s.
Proof.
  induction s as [|c s IH]; [done|]. cbn [all_bytes]. intros H.
  apply andb_true_iff in H as [Hc Hs]. specialize (IH Hs).
  rewrite <- IH at 2. destruct c as [[] [] [] [] [] [] [] []];
    first [discriminate Hc | reflexivity].
Qed.

Lemma plain_content s : all_bytes plain_ascii s = true → str_content s.
Proof.
  intros Hs. apply piece_content, piece_plain. revert Hs. apply all_bytes_impl.
  intros c Hc. by apply andb_true_iff in Hc as [? _].
Qed.

Definition quoted (s : string) : string := String dq (s +:+ String dq "").

Lemma reads_quoted s : all_bytes plain_ascii s = true → reads 0 (quoted s) (JString s).
Proof.
  intros Hs. rewrite <- (unquote_plain s Hs) at 2. by apply reads_string, plain_content.
Qed.

Lemma b64_plain s : all_bytes plain_ascii (EncodeToString s) = true.
Proof.
  assert (∀ v, 0 <= v < 64 → plain_ascii (b64_char v) = true) as Hb.
  { intros v Hv. assert (Z.of_nat (Z.to_nat v) = v) as <- by lia.
    assert (Z.to_nat v < 64)%nat as Hn by lia. revert Hn. clear Hv. generalize (Z.to_nat v). intros n Hn.
    do 64 (destruct n as [|n]; [by vm_compute|]). lia. }
  revert s. fix IH 1. intros [|a [|b [|c s]]]; [done|..]; cbn [EncodeToString all_bytes].
  all: pose proof (bval_range a); try pose proof (bval_range b); try pose proof (bval_range c).
  all: rewrite ?IH.
  all: repeat match goal with
    | |- context [plain_ascii (b64_char ?v)] =>
        rewrite (Hb v) by (Z.to_euclidean_division_equations; lia)
    end.
  all: done.
Qed.

(** *** Objects with literal field names *)

(** Name, text and value of each member. *)
Definition field_ok (k : Z) (m : string * string * jvalue) : Prop :=
  all_bytes plain_ascii m.1.1 = true ∧ reads k m.1.2 m.2.
Definition field_json (m : string * string * jvalue) : string * json :=
  (m.1.1, Json m.1.2 m.2).

Lemma reads_fields k l :
  Forall (field_ok k) l → 0 <= k →
  reads (k + 1) (obj_text l.*1) (JObject (field_json <$> l)).
Proof.
  intros Hl Hk. replace (field_json <$> l) with (member_json <$> l).
  - apply reads_object; [|done]. eapply Forall_impl; [done|].
    intros m [Hp Hr]. split; [by apply plain_content|done].
  - induction Hl as [|m l [Hp _] _ IH]; [done|]. rewrite !fmap_cons, IH.
    unfold member_json, field_json. by rewrite (unquote_plain _ Hp).
Qed.

(** A text followed by space only. *)
Lemma reads_parse_space k t v sp :
  reads k t v → k <= max_depth → ends sp → skip_space sp = "" →
  json_parse (t +:+ sp) = Ok (Json t v).
Proof.
  intros [_ H] Hk He Hsp. unfold json_parse. rewrite H; [by rewrite Hsp| |lia|done].
  unfold json_fuel. rewrite length_app_s. lia.
Qed.

(** ** Trimming *)

(** Bytes that neither begin nor end white space. *)
Definition solid (c : ascii) : bool := is_ascii c && negb (space1 c).

Lemma trim_front_solid sp1 sp2 sp3 c s :
  sp1 c = false → (∀ d, sp2 c d = false) → (∀ d e, sp3 c d e = false) →
  trim_front sp1 sp2 sp3 (String c s) = String c s.
Proof.
  intros H1 H2 H3. destruct s as [|d [|e s]]; cbn [trim_front]; rewrite ?H1, ?H2, ?H3; done.
Qed.

Lemma trim_left_solid c s : solid c = true → TrimLeftSpace (String c s) = String c s.
Proof.
  unfold solid, is_ascii, TrimLeftSpace. intros Hc. zbool. apply trim_front_solid; [done| |].
  - intros d. unfold space2. destruct (Z.eqb_spec (bval c) 194); [lia|done].
  - intros d e. unfold space3.
    repeat match goal with |- context [bval c =? ?n] => destruct (Z.eqb_spec (bval c) n); [lia|] end.
    done.
Qed.

Lemma trim_right_solid s c : solid c = true →
  TrimRightSpace (s +:+ String c "") = s +:+ String c "".
Proof.
  unfold solid, is_ascii, TrimRightSpace. intros Hc. zbool. rewrite rev_snoc, trim_front_solid.
  - by rewrite <- rev_snoc, rev_involutive.
  - done.
  - intros d. unfold space2. destruct (Z.eqb_spec (bval c) 133); [lia|].
    destruct (Z.eqb_spec (bval c) 160); [lia|]. apply andb_false_r.
  - intros d e. unfold space3.
    repeat match goal with
    | |- context [bval c =? ?n] => destruct (Z.eqb_spec (bval c) n); [lia|]
    | |- context [?n <=? bval c] => destruct (Z.leb_spec n (bval c)); [lia|]
    end.
    by rewrite !andb_false_r.
Qed.

(** There is nothing to trim between two solid bytes. *)
Lemma TrimSpace_solid c s d : solid c = true → solid d = true →
  TrimSpace (String c s +:+ String d "") = String c s +:+ String d "".
Proof.
  intros Hc Hd. unfold TrimSpace. rewrite app_cons, trim_left_solid by done.
  by rewrite <- app_cons, trim_right_solid.
Qed.

Lemma TrimSpace_quoted s : TrimSpace (quoted s) = quoted s.
Proof. exact (TrimSpace_solid dq s dq eq_refl eq_refl). Qed.
