(* ===== verification/Url.v ===== *)
(** * The parts of Go's [net/url] that the program uses *)

From S2P Require Import Prelude.
From S2P Require Import GoStrings.
From S2P Require Import Strconv.
From S2P Require Import Json.
Local Open Scope Z_scope.

(** [url.URL], restricted to the fields a server-side request path uses. *)
Record URL := { Path : string; RawPath : string }.

Definition upper_hex (z : Z) : ascii := bchr (if z <? 10 then 48 + z else 55 + z).

(** The two escaping modes in use. *)
Inductive encoding := encodePath | encodePathSegment.

Definition is_alnum (c : ascii) : bool :=
  let b := bval c in
  ((97 <=? b) && (b <=? 122)) || ((65 <=? b) && (b <=? 90)) || ((48 <=? b) && (b <=? 57)).

Definition one_of (l : string) (c : ascii) : bool :=
  existsb (Ascii.eqb c) (String.list_ascii_of_string l).

(** [shouldEscape]. *)
Definition shouldEscape (c : ascii) (mode : encoding) : bool :=
  if is_alnum c then false
  else if one_of "-_.~" c then false
  else if one_of "$&+,/:;=?@" c then
    match mode with
    | encodePath => one_of "?" c
    | encodePathSegment => one_of "/;,?" c
    end
  else true.

Fixpoint escape (s : string) (mode : encoding) : string :=
  match s with
  | EmptyString => EmptyString
  | String c s =>
      if shouldEscape c mode
      then String "%" (String (upper_hex (bval c / 16))
             (String (upper_hex (bval c mod 16)) (escape s mode)))
      else String c (escape s mode)
  end.

(** [unescape] in a path mode: [None] is an EscapeError. *)
Fixpoint unescape (s : string) : option string :=
  match s with
  | EmptyString => Some EmptyString
  | String c s =>
      if Ascii.eqb c "%" then
        match s with
        | String h1 (String h2 s) =>
            if is_hex h1 && is_hex h2
            then String (bchr (hex_val h1 * 16 + hex_val h2)) <$> unescape s
            else None
        | _ => None
        end
      else String c <$> unescape s
  end.

Definition PathEscape (s : string) : string := escape s encodePathSegment.
Definition PathUnescape (s : string) : option string := unescape s.

(** [validEncoded(s, encodePath)]. *)
Fixpoint validEncoded (s : string) : bool :=
  match s with
  | EmptyString => true
  | String c s =>
      (one_of "!$&'()*+,;=:@[]%" c || negb (shouldEscape c encodePath)) && validEncoded s
  end.

(** [URL.setPath], as [url.Parse] applies it to the path of the request line. *)
Definition setPath (p : string) : option URL :=
  match unescape p with
  | None => None
  | Some path =>
      Some {| Path := path;
              RawPath := if String.eqb p (escape path encodePath) then "" else p |}
  end.

(** [URL.EscapedPath]. *)
Definition EscapedPath (u : URL) : string :=
  if negb (String.eqb (RawPath u) "") && validEncoded (RawPath u) &&
     bool_decide (unescape (RawPath u) = Some (Path u))
  then RawPath u
  else if String.eqb (Path u) "*" then "*"
  else escape (Path u) encodePath.

(** ** [path.Clean] and [path.Join] *)

(** Process the elements of a path left to right; [acc] is the output so far,
    last element first. *)
Fixpoint clean_elems (rooted : bool) (acc : list string) (l : list string) : list string :=
  match l with
  | [] => reverse acc
  | e :: l =>
      if String.eqb e "" || String.eqb e "." then clean_elems rooted acc l
      else if String.eqb e ".." then
        match acc with
        | a :: acc' => if String.eqb a ".." then clean_elems rooted (e :: acc) l
                       else clean_elems rooted acc' l
        | [] => if rooted then clean_elems rooted [] l else clean_elems rooted [e] l
        end
      else clean_elems rooted (e :: acc) l
  end.

Definition Clean (p : string) : string :=
  let rooted := HasPrefix p "/" in
  let body := Join (clean_elems rooted [] (Split p "/")) "/" in
  if rooted then String "/" body else if String.eqb body "" then "." else body.

(** [path.Join(a, b)]. *)
Definition path_Join (a b : string) : string :=
  if String.eqb a "" then if String.eqb b "" then "" else Clean b
  else Clean (if String.eqb b "" then a else a +:+ "/" +:+ b).

Example clean_ex :
  (Clean "/a//b/./../c/", path_Join "/base/" "/subjects/../x", Clean "../..", path_Join "" "/s")
  = ("/a/c", "/base/x", "../..", "/s").
Proof. reflexivity. Qed.

(** ** Lemmas *)

Lemma upper_hex_spec z : 0 <= z < 16 →
  is_hex (upper_hex z) = true ∧ hex_val (upper_hex z) = z ∧ is_alnum (upper_hex z) = true.
Proof.
  intros Hz. assert (Z.of_nat (Z.to_nat z) = z) as <- by lia.
  assert (Z.to_nat z < 16)%nat as Hn by lia. revert Hn. generalize (Z.to_nat z).
  intros n Hn. do 16 (destruct n as [|n]; [by vm_compute|]). lia.
Qed.

Lemma unescape_escape s mode : unescape (escape s mode) = Some s.
Proof.
  induction s as [|c s IH]; [done|]. simpl escape. destruct (shouldEscape c mode) eqn:E.
  - pose proof (bval_range c).
    destruct (upper_hex_spec (bval c / 16)) as (H1&H2&_); [Z.to_euclidean_division_equations; lia|].
    destruct (upper_hex_spec (bval c mod 16)) as (H3&H4&_); [Z.to_euclidean_division_equations; lia|].
    cbn [unescape]. change (Ascii.eqb "%" "%") with true. cbv iota.
    rewrite H1, H2, H3, H4, IH. simpl. do 2 f_equal.
    rewrite <- (bchr_bval c) at 3. f_equal. Z.to_euclidean_division_equations; lia.
  - cbn [unescape]. destruct (Ascii.eqb c "%") eqn:Ec.
    + apply Ascii.eqb_eq in Ec as ->. by destruct mode.
    + by rewrite IH.
Qed.

(** A well-formed request path comes back from [EscapedPath] unchanged. *)
Lemma EscapedPath_setPath p u :
  setPath (String "/" p) = Some u → validEncoded p = true → EscapedPath u = String "/" p.
Proof.
  unfold setPath. simpl unescape. destruct (unescape p) as [path|] eqn:Hp; [|done].
  intros [= <-] Hv. unfold EscapedPath. simpl.
  destruct (String.eqb p (escape path encodePath)) eqn:E.
  - apply String.eqb_eq in E. subst p. done.
  - simpl. rewrite Hv, Hp. simpl. by rewrite bool_decide_eq_true_2.
Qed.

Lemma validEncoded_app s t : validEncoded (s +:+ t) = validEncoded s && validEncoded t.
Proof.
  induction s as [|c s IH]; [done|]. rewrite app_cons. simpl. by rewrite IH, andb_assoc.
Qed.

Lemma validEncoded_alnum c : is_alnum c = true →
  (one_of "!$&'()*+,;=:@[]%" c || negb (shouldEscape c encodePath)) = true.
Proof. intros H. unfold shouldEscape. rewrite H. apply orb_true_r. Qed.

Lemma validEncoded_escape s : validEncoded (escape s encodePathSegment) = true.
Proof.
  induction s as [|c s IH]; [done|]. simpl escape.
  destruct (shouldEscape c encodePathSegment) eqn:E.
  - pose proof (bval_range c).
    destruct (upper_hex_spec (bval c / 16)) as (_&_&H1); [Z.to_euclidean_division_equations; lia|].
    destruct (upper_hex_spec (bval c mod 16)) as (_&_&H2); [Z.to_euclidean_division_equations; lia|].
    cbn [validEncoded]. rewrite (validEncoded_alnum _ H1), (validEncoded_alnum _ H2), IH. done.
  - cbn [validEncoded]. rewrite IH, andb_true_r. apply orb_true_iff. right.
    unfold shouldEscape in *.
    destruct (is_alnum c); [done|]. destruct (one_of "-_.~" c); [done|].
    destruct (one_of "$&+,/:;=?@" c); [|done]. unfold one_of in *. simpl in *.
    destruct (Ascii.eqb c "?"); [|done]. by rewrite !orb_true_r in E.
Qed.

(** An escaped segment holds no separator. *)
Lemma PathEscape_no_slash s t :
  Split (PathEscape s +:+ String "/" t) "/" = PathEscape s :: Split t "/" ∧
  Split (PathEscape s) "/" = [PathEscape s].
Proof.
  unfold PathEscape. induction s as [|c s [IH1 IH2]].
  { simpl. done. }
  simpl escape. destruct (shouldEscape c encodePathSegment) eqn:E.
  - pose proof (bval_range c).
    destruct (upper_hex_spec (bval c / 16)) as (_&_&H1); [Z.to_euclidean_division_equations; lia|].
    destruct (upper_hex_spec (bval c mod 16)) as (_&_&H2); [Z.to_euclidean_division_equations; lia|].
    assert (∀ d, is_alnum d = true → Ascii.eqb d "/" = false) as Hd.
    { intros d Hd. apply Ascii.eqb_neq. intros ->. done. }
    rewrite !app_cons. cbn [Split]. change (Ascii.eqb "%" "/") with false. cbv iota.
    rewrite !Hd, IH1, IH2 by done. done.
  - rewrite !app_cons. cbn [Split]. destruct (Ascii.eqb c "/") eqn:Ec.
    + apply Ascii.eqb_eq in Ec as ->. done.
    + by rewrite IH1, IH2.
Qed.

(** ** Prefixes and escaped paths *)

(** Unescaping goes through an escaped segment. *)
Lemma unescape_escape_app s mode t :
  unescape (escape s mode +:+ t) = String.app s <$> unescape t.
Proof.
  induction s as [|c s IH]; [simpl escape; rewrite app_nil_l; by destruct (unescape t)|]. simpl escape.
  destruct (shouldEscape c mode) eqn:E.
  - pose proof (bval_range c).
    destruct (upper_hex_spec (bval c / 16)) as (H1&H2&_); [Z.to_euclidean_division_equations; lia|].
    destruct (upper_hex_spec (bval c mod 16)) as (H3&H4&_); [Z.to_euclidean_division_equations; lia|].
    rewrite !app_cons. cbn [unescape]. change (Ascii.eqb "%" "%") with true. cbv iota.
    rewrite H1, H2, H3, H4, IH.
    replace (bval c / 16 * 16 + bval c mod 16) with (bval c) by
      (Z.to_euclidean_division_equations; lia).
    rewrite bchr_bval. by destruct (unescape t).
  - rewrite app_cons. cbn [unescape]. destruct (Ascii.eqb c "%") eqn:Ec.
    + apply Ascii.eqb_eq in Ec as ->. by destruct mode.
    + rewrite IH. by destruct (unescape t).
Qed.

Lemma PathEscape_plain s :
  all_bytes (λ c, negb (shouldEscape c encodePathSegment)) s = true → PathEscape s = s.
Proof.
  unfold PathEscape. induction s as [|c s IH]; [done|]. cbn [all_bytes].
  intros [Hc Hs]%andb_true_iff. apply negb_true_iff in Hc. cbn [escape]. by rewrite Hc, IH.
Qed.

Lemma Join_cons2 s s' l sep : Join (s :: s' :: l) sep = s +:+ sep +:+ Join (s' :: l) sep.
Proof. done. Qed.

Lemma unescape_Join l : unescape (Join (PathEscape <$> l) "/") = Some (Join l "/").
Proof.
  induction l as [|s [|s' l] IH]; [done|apply unescape_escape|].
  cbn [fmap list_fmap] in *. rewrite !Join_cons2. unfold PathEscape at 1.
  rewrite unescape_escape_app. change ("/" +:+ ?t) with (String "/" t). cbn [unescape].
  change (Ascii.eqb "/" "%") with false. cbv iota. by rewrite IH.
Qed.

Lemma validEncoded_Join l : validEncoded (Join (PathEscape <$> l) "/") = true.
Proof.
  induction l as [|s [|s' l] IH]; [done|apply validEncoded_escape|].
  cbn [fmap list_fmap] in *. rewrite Join_cons2, validEncoded_app.
  unfold PathEscape at 1. rewrite validEncoded_escape. exact IH.
Qed.

Lemma Split_Join l : l ≠ [] → Split (Join (PathEscape <$> l) "/") "/" = PathEscape <$> l.
Proof.
  intros Hl. induction l as [|s [|s' l] IH]; [done|apply (PathEscape_no_slash s "")|].
  cbn [fmap list_fmap] in *. rewrite Join_cons2. change ("/" +:+ ?t) with (String "/" t).
  rewrite (proj1 (PathEscape_no_slash s _)). by rewrite IH.
Qed.

(** A path of escaped segments parses, and its segments come back. *)
Lemma escaped_path l : l ≠ [] → ∃ u,
  setPath ("/" +:+ Join (PathEscape <$> l) "/") = Some u ∧
  EscapedPath u = "/" +:+ Join (PathEscape <$> l) "/" ∧
  Split (Join (PathEscape <$> l) "/") "/" = PathEscape <$> l.
Proof.
  intros Hl. set (s := Join (PathEscape <$> l) "/").
  assert (∃ u, setPath (String "/" s) = Some u) as [u Hu].
  { unfold setPath. cbn [unescape]. change (Ascii.eqb "/" "%") with false. cbv iota.
    unfold s. rewrite unescape_Join. cbn. eauto. }
  exists u. split_and!; [exact Hu| |by apply Split_Join].
  apply (EscapedPath_setPath s u Hu), validEncoded_Join.
Qed.
