(* ===== verification/Paths.v ===== *)
(** * Go's [path/filepath] on Unix

    [Join] and [Base], and what they do to the clean paths a program builds from
    a directory and plain file names. *)

From S2P Require Import Prelude.
From S2P Require Import GoStrings.
From S2P Require Import Url.
Local Open Scope Z_scope.

(** [filepath.Join]: leading empty elements are skipped. *)
Fixpoint filepath_Join (elem : list string) : string :=
  match elem with
  | [] => ""
  | e :: rest => if String.eqb e "" then filepath_Join rest else Clean (Join elem "/")
  end.

(** [filepath.Base]. *)
Definition filepath_Base (path : string) : string :=
  if String.eqb path "" then "."
  else
    let base := List.last (Split (TrimRightByte path "/") "/") "" in
    if String.eqb base "" then "/" else base.

Example filepath_ex :
  (filepath_Join ["out/"; "modules"; "a"], filepath_Join [""; "x"; "../y"], filepath_Base "a/b//",
   filepath_Base "", filepath_Base "//") = ("out/modules/a", "y", "b", ".", "/").
Proof. reflexivity. Qed.

(** ** Segments *)

Definition slash_free (s : string) : Prop := all_bytes (λ c, negb (Ascii.eqb c "/")) s = true.
#[export] Instance slash_free_dec s : Decision (slash_free s).
Proof. unfold slash_free. apply _. Defined.

Definition ordinary (s : string) : Prop := s ≠ "" ∧ s ≠ "." ∧ s ≠ "..".

Lemma Split_cons s t : slash_free s → Split (s +:+ String "/" t) "/" = s :: Split t "/".
Proof.
  unfold slash_free. induction s as [|c s IH]; [done|]. rewrite app_cons. simpl.
  intros [Hc Hs]%andb_true_iff. apply negb_true_iff in Hc. rewrite Hc. by rewrite IH.
Qed.

Lemma Split_one s : slash_free s → Split s "/" = [s].
Proof.
  unfold slash_free. induction s as [|c s IH]; [done|]. simpl.
  intros [Hc Hs]%andb_true_iff. apply negb_true_iff in Hc. rewrite Hc. by rewrite IH.
Qed.

Lemma Split_Join_free l : l ≠ [] → Forall slash_free l → Split (Join l "/") "/" = l.
Proof.
  intros Hn Hl. induction Hl as [|s [|t l] Hs Hl IH]; [done|by apply Split_one|].
  rewrite Join_cons2. change ("/" +:+ ?t) with (String "/" t). rewrite Split_cons by done.
  by rewrite IH.
Qed.

Lemma Split_nonempty s : Split s "/" ≠ [].
Proof. destruct s as [|c s]; [done|]. cbn. destruct (Ascii.eqb c "/"), (Split s "/"); done. Qed.

Lemma Split_app_slash s t : Split (s +:+ String "/" t) "/" = Split s "/" ++ Split t "/".
Proof.
  induction s as [|c s IH]; [done|]. rewrite app_cons. cbn [Split]. rewrite IH.
  pose proof (Split_nonempty s). destruct (Split s "/") as [|x l]; [done|].
  by destruct (Ascii.eqb c "/").
Qed.

Lemma Split_slash s : Split (s +:+ "/") "/" = Split s "/" ++ [""].
Proof. exact (Split_app_slash s ""). Qed.

Lemma Split_single s x : Split s "/" = [x] → s = x.
Proof.
  revert x. induction s as [|c s IH]; intros x; cbn [Split]; [congruence|].
  pose proof (Split_nonempty s). destruct (Ascii.eqb c "/"); [by intros [= <- ?]|].
  destruct (Split s "/") as [|y [|]]; [done| |done]. intros [= <-]. f_equal. by apply IH.
Qed.

Lemma Split_free s : Forall slash_free (Split s "/").
Proof.
  induction s as [|c s IH]; [by repeat constructor|]. cbn [Split].
  destruct (Ascii.eqb c "/") eqn:E; [by constructor|].
  destruct (Split s "/") as [|x l]; [repeat constructor; unfold slash_free; simpl; by rewrite E|].
  inversion IH as [|? ? Hx Hl]; subst. constructor; [|done].
  unfold slash_free in *. simpl. by rewrite E.
Qed.

(** ** Clean paths *)

(** The elements of a clean path: parent references only at the front of a
    relative one. *)
Definition normal (rooted : bool) (l : list string) : Prop :=
  ∃ k rest, l = replicate k ".." ++ rest ∧ Forall ordinary rest ∧ (rooted = true → k = O).

Definition path_of (rooted : bool) (l : list string) : string :=
  (if rooted then "/" else "") +:+ Join l "/".

Lemma clean_elems_step rooted acc e l : ordinary e →
  clean_elems rooted acc (e :: l) = clean_elems rooted (e :: acc) l.
Proof.
  intros (H1&H2&H3). cbn [clean_elems]. apply String.eqb_neq in H1, H2, H3. by rewrite H1, H2, H3.
Qed.

Lemma clean_elems_snoc rooted l s : ordinary s → ∀ acc,
  clean_elems rooted acc (l ++ [s]) = clean_elems rooted acc l ++ [s].
Proof.
  intros Hs. induction l as [|e l IH]; intros acc.
  - cbn [app]. rewrite clean_elems_step by done. cbn [clean_elems]. by rewrite reverse_cons.
  - cbn [app clean_elems]. repeat case_match; apply IH.
Qed.

Lemma clean_elems_normal rooted rest : Forall ordinary rest → ∀ acc,
  clean_elems rooted acc rest = reverse acc ++ rest.
Proof.
  induction 1 as [|s l Hs Hl IH]; intros acc; [by rewrite app_nil_r|].
  rewrite clean_elems_step by done. by rewrite IH, reverse_cons, <- app_assoc.
Qed.

Lemma clean_elems_parents k l : ∀ j,
  clean_elems false (replicate j "..") (replicate k ".." ++ l) =
  clean_elems false (replicate (k + j) "..") l.
Proof.
  induction k as [|k IH]; intros j; [done|]. cbn [replicate app clean_elems].
  change (String.eqb ".." "") with false. change (String.eqb ".." ".") with false.
  change (String.eqb ".." "..") with true. cbn [orb].
  replace (S k + j)%nat with (k + S j)%nat by lia. rewrite <- IH. by destruct j.
Qed.

Lemma clean_elems_id rooted l : normal rooted l → clean_elems rooted [] l = l.
Proof.
  intros (k&rest&->&Hr&Hk). destruct rooted.
  - rewrite Hk by done. by apply (clean_elems_normal true rest Hr []).
  - etrans; [exact (clean_elems_parents k rest 0)|]. rewrite Nat.add_0_r, clean_elems_normal by done.
    f_equal. apply reverse_replicate.
Qed.

Lemma clean_elems_is_normal rooted l : ∀ acc,
  normal rooted (reverse acc) → normal rooted (clean_elems rooted acc l).
Proof.
  induction l as [|e l IH]; intros acc Ha; [done|]. cbn [clean_elems].
  destruct (String.eqb_spec e ""); [by apply IH|]. destruct (String.eqb_spec e "."); [by apply IH|].
  cbn [orb]. destruct Ha as (k&rest&Hacc&Hr&Hk).
  assert (acc = reverse rest ++ replicate k "..") as ->.
  { rewrite <- (reverse_involutive acc), Hacc, reverse_app. f_equal. apply reverse_replicate. }
  destruct (String.eqb_spec e "..") as [->|Hdd].
  - destruct rest as [|a rest _] using rev_ind.
    + cbn [reverse rev_append app] in *. destruct k as [|k]; cbn [replicate].
      * destruct rooted; [by apply IH; exists O, []|]. apply IH. by exists 1%nat, [].
      * cbn. destruct rooted; [by specialize (Hk eq_refl)|]. apply IH.
        exists (S (S k)), []. rewrite app_nil_r. split; [|done].
        by rewrite <- (reverse_replicate (S (S k)) "..").
    + rewrite reverse_app. cbn [reverse rev_append app].
      apply Forall_app in Hr as [Hr [(_&_&Ha)%id _]%Forall_cons]. apply String.eqb_neq in Ha.
      rewrite Ha. apply IH. exists k, rest. split; [|done].
      by rewrite reverse_app, reverse_involutive, reverse_replicate.
  - apply IH. exists k, (rest ++ [e]). split_and!; [|by apply Forall_app; repeat constructor|done].
    by rewrite reverse_cons, Hacc, app_assoc.
Qed.

Lemma clean_elems_free rooted l : Forall slash_free l → ∀ acc, Forall slash_free acc →
  Forall slash_free (clean_elems rooted acc l).
Proof.
  induction 1 as [|e l He Hl IH]; intros acc Ha; cbn [clean_elems]; [by apply Forall_reverse|].
  repeat case_match; apply IH; repeat constructor; try done; by inversion Ha.
Qed.

Lemma normal_nonempty rooted l : normal rooted l → Forall (λ s, s ≠ "") l.
Proof.
  intros (k&rest&->&Hr&_). apply Forall_app. split.
  - apply Forall_forall. by intros s [-> _]%elem_of_replicate.
  - eapply Forall_impl; [exact Hr|]. by intros s [].
Qed.

Lemma normal_snoc rooted l s : normal rooted l → ordinary s → normal rooted (l ++ [s]).
Proof.
  intros (k&rest&->&Hr&Hk) Hs. exists k, (rest ++ [s]). split_and!; [by rewrite app_assoc| |done].
  apply Forall_app. split; [done|by apply Forall_singleton].
Qed.

Lemma Join_nonempty l : l ≠ [] → Forall (λ s, s ≠ "") l → Join l "/" ≠ "".
Proof.
  intros Hn Hl. destruct Hl as [|s l Hs Hl]; [done|]. destruct s as [|c s]; [done|].
  destruct l; done.
Qed.

Lemma Join_snoc l s : l ≠ [] → Join (l ++ [s]) "/" = Join l "/" +:+ "/" +:+ s.
Proof.
  induction l as [|x [|y l] IH]; intros Hn; [done|done|]. cbn [app] in *.
  rewrite !Join_cons2, IH by done. by rewrite <- !app_assoc_s.
Qed.

Lemma Clean_path_of p l : clean_elems (HasPrefix p "/") [] (Split p "/") = l → l ≠ [] →
  Clean p = path_of (HasPrefix p "/") l.
Proof.
  intros Hl Hn. unfold Clean, path_of. rewrite Hl. destruct (HasPrefix p "/"); [done|].
  assert (normal false l) as Ho.
  { rewrite <- Hl. apply clean_elems_is_normal. by exists O, []. }
  apply normal_nonempty in Ho. pose proof (Join_nonempty l Hn Ho) as Hj.
  apply String.eqb_neq in Hj. by rewrite Hj.
Qed.

Lemma HasPrefix_slash_app s t : s ≠ "" → HasPrefix (s +:+ t) "/" = HasPrefix s "/".
Proof.
  destruct s as [|c s]; [done|]. intros _. rewrite app_cons. unfold HasPrefix.
  cbn [String.prefix]. destruct (ascii_dec "/" c); [|done]. by destruct s, t.
Qed.

(** A plain name below a directory. *)
Lemma filepath_Join_dir dir : ∃ rooted l, normal rooted l ∧ Forall slash_free l ∧
  ∀ s, ordinary s → slash_free s → filepath_Join [dir; s] = path_of rooted (l ++ [s]).
Proof.
  destruct (decide (dir = "")) as [->|Hd].
  - exists false, []. split; [by exists O, []|]. split; [constructor|]. intros s Hs Hf.
    cbn [filepath_Join]. change (String.eqb "" "") with true. cbv iota.
    destruct Hs as (H1&H2&H3). pose proof H1 as He. apply String.eqb_neq in He. rewrite He.
    cbn [Join]. assert (HasPrefix s "/" = false) as Hp.
    { apply not_true_is_false. intros [t ->]%HasPrefix_iff. discriminate Hf. }
    rewrite (Clean_path_of s [s]); [by rewrite Hp| |done].
    rewrite Hp, Split_one by done. by rewrite clean_elems_step.
  - exists (HasPrefix dir "/"), (clean_elems (HasPrefix dir "/") [] (Split dir "/")).
    split; [apply clean_elems_is_normal; by exists O, []|].
    split; [apply clean_elems_free; [apply Split_free|constructor]|]. intros s Hs Hf.
    cbn [filepath_Join]. apply String.eqb_neq in Hd as He. rewrite He.
    change (Join [dir; s] "/") with (dir +:+ String "/" s).
    rewrite <- (HasPrefix_slash_app dir (String "/" s) Hd). apply Clean_path_of.
    + rewrite (HasPrefix_slash_app dir) by done.
      rewrite Split_app_slash, (Split_one s) by done. by rewrite clean_elems_snoc.
    + by destruct (clean_elems _ _ _).
Qed.

Lemma path_of_nonempty rooted l : normal rooted l → l ≠ [] → path_of rooted l ≠ "".
Proof.
  intros Hl%normal_nonempty Hn. pose proof (Join_nonempty l Hn Hl). unfold path_of.
  by destruct rooted.
Qed.

Lemma path_of_rooted rooted l : normal rooted l → Forall slash_free l → l ≠ [] →
  HasPrefix (path_of rooted l) "/" = rooted ∧
  clean_elems rooted [] (Split (path_of rooted l) "/") = l.
Proof.
  intros Hl Hf Hn. unfold path_of. destruct rooted.
  - split; [apply HasPrefix_app|]. change ("/" +:+ ?t) with ("" +:+ String "/" t).
    rewrite Split_cons by done. rewrite Split_Join_free by done.
    change (clean_elems true [] ("" :: l)) with (clean_elems true [] l). by apply clean_elems_id.
  - rewrite app_nil_l, Split_Join_free by done. split; [|by apply clean_elems_id].
    apply not_true_is_false. intros [t Ht]%HasPrefix_iff. apply normal_nonempty in Hl.
    destruct Hf as [|s l Hs Hf]; [done|]. inversion Hl; subst. destruct s as [|c s]; [done|].
    assert (c = "/"%char) as -> by (destruct l; by injection Ht). discriminate Hs.
Qed.

Lemma filepath_Join_path rooted l s : normal rooted l → Forall slash_free l → l ≠ [] →
  ordinary s → slash_free s → filepath_Join [path_of rooted l; s] = path_of rooted (l ++ [s]).
Proof.
  intros Hl Hf Hn Hs Hsf. destruct (path_of_rooted _ _ Hl Hf Hn) as [Hp Hc].
  pose proof (path_of_nonempty _ _ Hl Hn) as Hne. apply String.eqb_neq in Hne as He.
  cbn [filepath_Join]. rewrite He. change (Join [?d; s] "/") with (d +:+ String "/" s).
  pose proof (HasPrefix_slash_app (path_of rooted l) (String "/" s) Hne) as Hr. rewrite Hp in Hr.
  rewrite <- Hr at 2. apply Clean_path_of; [|by destruct l].
  rewrite Hr, Split_app_slash, (Split_one s) by done. by rewrite clean_elems_snoc, Hc.
Qed.

Lemma path_of_inj rooted l l' : l ≠ [] → l' ≠ [] → Forall slash_free l → Forall slash_free l' →
  path_of rooted l = path_of rooted l' → l = l'.
Proof.
  intros Hn Hn' Hl Hl' H. unfold path_of in H.
  assert (Join l "/" = Join l' "/") as E by (destruct rooted; [by injection H|exact H]).
  rewrite <- (Split_Join_free l Hn Hl), <- (Split_Join_free l' Hn' Hl'). by rewrite E.
Qed.

(** Siblings share everything before their names. *)
Lemma path_of_snoc rooted l : ∃ pre, ∀ s, path_of rooted (l ++ [s]) = pre +:+ s.
Proof.
  destruct (decide (l = [])) as [->|Hn]; [by exists (if rooted then "/" else "")|].
  exists (path_of rooted l +:+ "/"). intros s. unfold path_of. rewrite Join_snoc by done.
  by rewrite !app_assoc_s.
Qed.

Lemma HasPrefix_cancel p s t : HasPrefix (p +:+ s) (p +:+ t) = HasPrefix s t.
Proof.
  induction p as [|c p IH]; [done|]. rewrite !app_cons. unfold HasPrefix in *. simpl.
  by destruct (ascii_dec c c).
Qed.

(** The base of a plain name is the name. *)
Lemma filepath_Base_plain s : s ≠ "" → slash_free s → filepath_Base s = s.
Proof.
  intros Hn Hf. unfold filepath_Base. apply String.eqb_neq in Hn as He. rewrite He.
  assert (TrimRightByte s "/" = s) as ->.
  { unfold TrimRightByte. destruct (String.rev s) as [|c r] eqn:E.
    - apply (f_equal String.rev) in E. by rewrite rev_involutive in E.
    - assert (s = String.rev r +:+ String c "") as Es.
      { rewrite <- (rev_involutive s), E. change (String c r) with (String c "" +:+ r).
        by rewrite rev_app_s. }
      assert (Ascii.eqb "/" c = false) as Hc.
      { rewrite Es in Hf. unfold slash_free in Hf. rewrite all_bytes_app in Hf. simpl in Hf.
        rewrite andb_true_r in Hf. apply andb_true_iff in Hf as [_ Hf]. rewrite Ascii.eqb_sym.
        by apply negb_true_iff. }
      assert (trim_front (Ascii.eqb "/") (λ _ _, false) (λ _ _ _, false) (String c r) = String c r)
        as ->.
      { destruct r as [|d [|e r]]; cbn [trim_front]; by rewrite Hc. }
      by rewrite <- E, rev_involutive. }
  rewrite Split_one by done. cbn [List.last]. by rewrite He.
Qed.
