(* ===== verification/Mime.v ===== *)
(** * Go's [mime.ParseMediaType], as far as its media type and error go *)

From S2P Require Import Prelude.
From S2P Require Import GoStrings.
Local Open Scope Z_scope.

(** [isTSpecial] and [isTokenChar]. *)
Definition isTSpecial (c : ascii) : bool :=
  Ascii.eqb c dq || Ascii.eqb c "\" ||
  existsb (Ascii.eqb c) (String.list_ascii_of_string "()<>@,;:/[]?=").
Definition isTokenChar (c : ascii) : bool :=
  (32 <? bval c) && (bval c <? 127) && negb (isTSpecial c).

Fixpoint consumeToken (v : string) : string * string :=
  match v with
  | String c v' =>
      if isTokenChar c then let '(t, rest) := consumeToken v' in (String c t, rest) else ("", v)
  | EmptyString => ("", v)
  end.

(** The body of a quoted parameter value: value and rest, [None] when no
    closing quote is found. *)
Fixpoint consumeQuoted (escaped : bool) (v : string) : option (string * string) :=
  match v with
  | EmptyString => None
  | String c v' =>
      let keep := match consumeQuoted false v' with
                  | Some (t, rest) => Some (String c t, rest)
                  | None => None
                  end in
      if escaped then keep
      else if Ascii.eqb c dq then Some ("", v')
      else if Ascii.eqb c "\" && match v' with String d _ => isTSpecial d | _ => false end
      then consumeQuoted true v'
      else if (bval c =? 13) || (bval c =? 10) then None
      else keep
  end.

Definition consumeValue (v : string) : string * string :=
  match v with
  | EmptyString => ("", "")
  | String c v' =>
      if Ascii.eqb c dq then default ("", v) (consumeQuoted false v')
      else consumeToken v
  end.

(** [consumeMediaParam]: parameter name, value, rest; an empty name with the
    whole input as rest is a failure. *)
Definition consumeMediaParam (v : string) : string * string * string :=
  let fail := ("", "", v) in
  match TrimLeftSpace v with
  | String c rest =>
      if negb (Ascii.eqb c ";") then fail
      else
        let '(param, rest) := consumeToken (TrimLeftSpace rest) in
        let param := ToLower param in
        if String.eqb param "" then fail
        else match TrimLeftSpace rest with
        | String c rest =>
            if negb (Ascii.eqb c "=") then fail
            else
              let rest := TrimLeftSpace rest in
              let '(value, rest2) := consumeValue rest in
              if String.eqb value "" && String.eqb rest2 rest then fail
              else (param, value, rest2)
        | EmptyString => fail
        end
  | EmptyString => fail
  end.

(** [checkMediaTypeDisposition]. *)
Definition checkMediaType (s : string) : bool :=
  let '(typ, rest) := consumeToken s in
  if String.eqb typ "" then false
  else match rest with
  | EmptyString => true
  | String c rest =>
      if negb (Ascii.eqb c "/") then false
      else let '(subtype, rest) := consumeToken rest in
           negb (String.eqb subtype "") && String.eqb rest ""
  end.

(** The parameter loop: [true] when it ends without an error.  A continued
    parameter [name*n] is keyed by itself, so [seen] serves both maps.  Every
    turn consumes at least the semicolon, so the length of the input is
    enough fuel. *)
Fixpoint params_ok (fuel : nat) (seen : list (string * string)) (v : string) : bool :=
  match fuel with
  | O => true
  | S fuel =>
      match TrimLeftSpace v with
      | EmptyString => true
      | v =>
          let '(key, value, rest) := consumeMediaParam v in
          if String.eqb key "" then String.eqb (TrimSpace rest) ";"
          else if existsb (λ p, String.eqb p.1 key && negb (String.eqb p.2 value)) seen
          then false
          else params_ok fuel ((key, value) :: seen) rest
      end
  end.

(** [mime.ParseMediaType]: the media type, [None] on error. *)
Definition ParseMediaType (v : string) : option string :=
  let '(base, _, _) := Cut v ";" in
  let mediatype := TrimSpace (ToLower base) in
  if negb (checkMediaType mediatype) then None
  else if params_ok (S (String.length v)) [] (sdrop (String.length base) v)
  then Some mediatype else None.

Example mime_ex :
  (ParseMediaType "Application/JSON; charset=utf-8", ParseMediaType "*/*;q=0.8",
   ParseMediaType "a/b; x", ParseMediaType "text", ParseMediaType "a/b;", ParseMediaType "a/b c")
  = (Some "application/json", Some "*/*", None, Some "text", Some "a/b", None).
Proof. vm_compute. reflexivity. Qed.
