(* ===== verification/Admission.v ===== *)
(** * internal/limits/admission.go

    The byte-and-record admission controller in front of the Kafka producer.
    Every method runs under the mutex of the object, so each one is one
    atomic state transformer; a nil receiver is [None]. *)

From S2P Require Import Prelude.
Local Open Scope Z_scope.

(** [type Admission struct]: the four counters (the mutex is the atomicity of
    the operations below). *)
Record Admission := {
  maxRecords : Z;
  maxBytes : Z;
  usedRecords : Z;
  usedBytes : Z;
}.

Definition NewAdmission (maxRecords maxBytes : Z) : Admission :=
  {| maxRecords := maxRecords; maxBytes := maxBytes;
     usedRecords := 0; usedBytes := 0 |}.

Definition TryAcquire (a : option Admission) (records bytes : Z)
  : option Admission * bool :=
  match a with
  | None => (None, true)
  | Some a =>
      if (records <? 0) || (bytes <? 0) then (Some a, false)
      else if (0 <? maxRecords a) && (maxRecords a <? i64 (usedRecords a + records))
      then (Some a, false)
      else if (0 <? maxBytes a) && (maxBytes a <? i64 (usedBytes a + bytes))
      then (Some a, false)
      else (Some {| maxRecords := maxRecords a; maxBytes := maxBytes a;
                    usedRecords := i64 (usedRecords a + records);
                    usedBytes := i64 (usedBytes a + bytes) |}, true)
  end.

Definition Release (a : option Admission) (records bytes : Z) : option Admission :=
  match a with
  | None => None
  | Some a =>
      let r := i64 (usedRecords a - records) in
      let r := if r <? 0 then 0 else r in
      let b := i64 (usedBytes a - bytes) in
      let b := if b <? 0 then 0 else b in
      Some {| maxRecords := maxRecords a; maxBytes := maxBytes a;
              usedRecords := r; usedBytes := b |}
  end.

Definition Snapshot (a : option Admission) : Z * Z * Z * Z :=
  match a with
  | None => (0, 0, 0, 0)
  | Some a => (usedRecords a, maxRecords a, usedBytes a, maxBytes a)
  end.

(** ** Specification *)

(** The counters a constructed controller can reach: non-negative, inside
    int64, and below a limit that is switched on (a limit [<= 0] is off). *)
Record admission_wf (a : Admission) : Prop := {
  wf_records : 0 <= usedRecords a < 2 ^ 63;
  wf_bytes : 0 <= usedBytes a < 2 ^ 63;
  wf_max_records : maxRecords a < 2 ^ 63;
  wf_max_bytes : maxBytes a < 2 ^ 63;
  wf_records_cap : 0 < maxRecords a → usedRecords a <= maxRecords a;
  wf_bytes_cap : 0 < maxBytes a → usedBytes a <= maxBytes a;
}.

(** What the controller means to decide, over unbounded integers. *)
Definition fits (a : Admission) (records bytes : Z) : Prop :=
  0 <= records ∧ 0 <= bytes ∧
  (0 < maxRecords a → usedRecords a + records <= maxRecords a) ∧
  (0 < maxBytes a → usedBytes a + bytes <= maxBytes a).

(** The additions of [TryAcquire] stay inside int64. *)
Definition headroom (a : Admission) (records bytes : Z) : Prop :=
  records < 2 ^ 63 - usedRecords a ∧ bytes < 2 ^ 63 - usedBytes a.

Definition charge (a : Admission) (records bytes : Z) : Admission :=
  {| maxRecords := maxRecords a; maxBytes := maxBytes a;
     usedRecords := usedRecords a + records; usedBytes := usedBytes a + bytes |}.

#[export] Instance fits_dec a records bytes : Decision (fits a records bytes).
Proof.
  refine (cast_if (decide ((0 <= records ∧ 0 <= bytes) ∧
    (maxRecords a <= 0 ∨ usedRecords a + records <= maxRecords a) ∧
    (maxBytes a <= 0 ∨ usedBytes a + bytes <= maxBytes a)))); unfold fits; lia.
Defined.

(** ** Lemmas *)

Lemma i64_sum_id x y : 0 <= x → 0 <= y → y < 2 ^ 63 - x → i64 (x + y) = x + y.
Proof. intros. apply i64_id. unfold in_i64. lia. Qed.

Lemma i64_diff_id x y : 0 <= x < 2 ^ 63 → 0 <= y < 2 ^ 63 → i64 (x - y) = x - y.
Proof. intros. apply i64_id. unfold in_i64. lia. Qed.

Lemma try_acquire_spec a records bytes :
  admission_wf a → headroom a records bytes →
  TryAcquire (Some a) records bytes =
    if decide (fits a records bytes) then (Some (charge a records bytes), true)
    else (Some a, false).
Proof.
  intros [] [Hr Hb]. unfold TryAcquire, charge.
  destruct (records <? 0) eqn:E1, (bytes <? 0) eqn:E2; simpl; zbool;
    try (rewrite decide_False; [done|unfold fits; lia]).
  rewrite !i64_sum_id by lia.
  repeat split_if; case_decide as Hf; unfold fits in Hf; zbool; try done; lia.
Qed.

Lemma charge_wf a records bytes :
  admission_wf a → headroom a records bytes → fits a records bytes →
  admission_wf (charge a records bytes).
Proof. intros [] [] (?&?&?&?). split; simpl; lia. Qed.

Lemma release_spec a records bytes :
  admission_wf a → 0 <= records < 2 ^ 63 → 0 <= bytes < 2 ^ 63 →
  Release (Some a) records bytes =
    Some {| maxRecords := maxRecords a; maxBytes := maxBytes a;
            usedRecords := Z.max 0 (usedRecords a - records);
            usedBytes := Z.max 0 (usedBytes a - bytes) |}.
Proof.
  intros [] ??. unfold Release. rewrite !i64_diff_id by lia.
  repeat split_if; zbool; f_equal; f_equal; lia.
Qed.

Lemma release_wf a records bytes a' :
  admission_wf a → 0 <= records < 2 ^ 63 → 0 <= bytes < 2 ^ 63 →
  Release (Some a) records bytes = Some a' → admission_wf a'.
Proof.
  intros Hwf ??. rewrite release_spec by done. intros [= <-].
  destruct Hwf. split; simpl; lia.
Qed.

Lemma new_admission_wf mr mb : mr < 2 ^ 63 → mb < 2 ^ 63 → admission_wf (NewAdmission mr mb).
Proof. split; simpl; lia. Qed.

#[export] Hint Resolve charge_wf release_wf new_admission_wf : go.

(** ** Properties *)

(** C14: [TryAcquire] decides exactly whether the request fits: when the
    additions stay in int64 it accepts iff both counters stay within every
    limit that is switched on, charges exactly the request on acceptance,
    leaves the controller untouched on rejection, and keeps it well formed. *)
Theorem try_acquire_correct (a : Admission) (records bytes : Z) :
  admission_wf a → headroom a records bytes →
  (TryAcquire (Some a) records bytes = (Some (charge a records bytes), true) ∧
     fits a records bytes ∧ admission_wf (charge a records bytes)) ∨
  (TryAcquire (Some a) records bytes = (Some a, false) ∧ ¬ fits a records bytes).
Proof.
  intros Hwf Hh. rewrite try_acquire_spec by done.
  case_decide; [left|right]; auto with go.
Qed.

Lemma try_acquire_correct_witness :
  TryAcquire (Some (charge (NewAdmission 2 10) 1 9)) 1 1
    = (Some (charge (NewAdmission 2 10) 2 10), true).
Proof.
  destruct (try_acquire_correct (charge (NewAdmission 2 10) 1 9) 1 1) as [(?&?&?)|[? Hn]].
  - split; simpl; lia.
  - split; simpl; lia.
  - done.
  - exfalso. apply Hn. unfold fits. simpl. lia.
Defined.

(** A successful acquire followed by the matching release restores the
    controller exactly, so a grant never leaks nor invents capacity. *)
Lemma acquire_release_roundtrip (a : Admission) (records bytes : Z) a' :
  admission_wf a → headroom a records bytes →
  TryAcquire (Some a) records bytes = (a', true) →
  Release a' records bytes = Some a.
Proof.
  intros Hwf Hh. rewrite try_acquire_spec by done.
  case_decide as Hf; [|done]. intros [= <-].
  assert (0 <= records < 2 ^ 63 ∧ 0 <= bytes < 2 ^ 63) as [??].
  { destruct Hwf, Hh, Hf as (?&?&_). lia. }
  rewrite release_spec by auto with go.
  destruct Hwf, a; simpl in *. f_equal; f_equal; lia.
Qed.

Lemma acquire_release_roundtrip_witness :
  Release (fst (TryAcquire (Some (charge (NewAdmission 3 10) 1 4)) 2 5)) 2 5
    = Some (charge (NewAdmission 3 10) 1 4).
Proof.
  apply (acquire_release_roundtrip (charge (NewAdmission 3 10) 1 4) 2 5).
  - split; simpl; lia.
  - split; simpl; lia.
  - reflexivity.
Defined.

(** Outside int64 the cap does not hold: when [usedRecords + records]
    reaches 2^63 the sum wraps to a negative number, passes the limit test,
    and the request is admitted with a negative counter. *)
Theorem try_acquire_overflow_admits (a : Admission) (records : Z) :
  admission_wf a → 0 < maxRecords a → maxBytes a <= 0 →
  records < 2 ^ 63 <= usedRecords a + records →
  ∃ a', TryAcquire (Some a) records 0 = (Some a', true) ∧
        usedRecords a' = usedRecords a + records - 2 ^ 64 ∧ usedRecords a' < 0.
Proof.
  intros [] Hm Hb [H1 H2].
  assert (i64 (usedRecords a + records) = usedRecords a + records - 2 ^ 64) as Hw.
  { unfold i64.
    rewrite <- (Z.mod_unique_pos _ (2 ^ 64) 1 (usedRecords a + records - 2 ^ 63)); lia. }
  unfold TryAcquire. rewrite Hw.
  destruct (records <? 0) eqn:E1; zbool; [lia|]. simpl.
  repeat split_if; zbool; try lia.
  eexists; split; [done|]. simpl. lia.
Qed.

Lemma try_acquire_overflow_admits_witness :
  ∃ a', TryAcquire (Some (charge (NewAdmission 5 0) 1 0)) (2 ^ 63 - 1) 0 = (Some a', true) ∧
        usedRecords a' = 1 + (2 ^ 63 - 1) - 2 ^ 64 ∧ usedRecords a' < 0.
Proof.
  apply (try_acquire_overflow_admits (charge (NewAdmission 5 0) 1 0)).
  - split; simpl; lia.
  - simpl. lia.
  - simpl. lia.
  - simpl. lia.
Defined.
