(* ===== verification/SchemaTypes.v ===== *)
(** * internal/schema/types.go *)

From S2P Require Import Prelude.
From S2P Require Import GoStrings.
From S2P Require Import Strconv.
From S2P Require Import GoErrors.
From S2P Require Import Json.
Local Open Scope Z_scope.

Definition TypeBinary : string := "BINARY".
Definition TypeJSON : string := "JSON".
Definition TypeString : string := "STRING".
Definition TypeAvro : string := "AVRO".
Definition TypeJSONSchema : string := "JSONSCHEMA".
Definition TypeProtobuf : string := "PROTOBUF".

Definition StrategyTopicName : string := "TOPIC_NAME".
Definition StrategyRecordName : string := "RECORD_NAME".
Definition StrategyTopicRecordName : string := "TOPIC_RECORD_NAME".

(** [type RequestData struct]; [Data] is meaningful when [DataPresent]. *)
Record RequestData := {
  rd_Type : string;
  rd_Subject : string;
  rd_SubjectNameStrategy : string;
  rd_SchemaID : option Z;
  rd_SchemaVersion : option Z;
  rd_Schema : string;
  rd_Data : string;
  rd_DataPresent : bool;
}.

Definition zero_RequestData : RequestData := Build_RequestData "" "" "" None None "" "" false.

(** The anonymous struct [UnmarshalJSON] decodes into: the promoted fields of
    [alias] and the outer [Data], which shadows [alias.Data] (nil is [None]). *)
Record raw_data := { rw_alias : RequestData; rw_Data : option string }.

Definition raw_fields : list string :=
  ["type"; "subject"; "subject_name_strategy"; "schema_id"; "schema_version"; "schema"; "data"].

Definition raw_field (cur : raw_data) (key : string) (j : json) : dec raw_data :=
  let a := rw_alias cur in
  let cx f := {| ctx_struct := ""; ctx_path := ["alias"; f] |} in
  let set a := {| rw_alias := a; rw_Data := rw_Data cur |} in
  let '(Build_RequestData ty su st id ve sc d p) := a in
  match field_of raw_fields key with
  | Some 0%nat => let! x := decode_string (cx "type") ty j in
                  dret (set (Build_RequestData x su st id ve sc d p))
  | Some 1%nat => let! x := decode_string (cx "subject") su j in
                  dret (set (Build_RequestData ty x st id ve sc d p))
  | Some 2%nat => let! x := decode_string (cx "subject_name_strategy") st j in
                  dret (set (Build_RequestData ty su x id ve sc d p))
  | Some 3%nat => let! x := decode_int_ptr 64 "int" (cx "schema_id") id j in
                  dret (set (Build_RequestData ty su st x ve sc d p))
  | Some 4%nat => let! x := decode_int_ptr 64 "int" (cx "schema_version") ve j in
                  dret (set (Build_RequestData ty su st id x sc d p))
  | Some 5%nat => let! x := decode_string (cx "schema") sc j in
                  dret (set (Build_RequestData ty su st id ve x d p))
  | Some 6%nat => dret {| rw_alias := a; rw_Data := Some (jraw j) |}
  | _ => dret cur
  end.

Definition raw_type : string :=
  qt "struct { schema.alias; Data json.RawMessage 'json:\'data\'' }".

(** [RequestData.UnmarshalJSON] on the bytes of one value. *)
Definition UnmarshalJSON (b : string) : res RequestData :=
  let? raw := Unmarshal (decode_struct raw_field raw_type ctx0)
                {| rw_alias := zero_RequestData; rw_Data := None |} b in
  let '(Build_RequestData ty su st id ve sc _ _) := rw_alias raw in
  Ok (match rw_Data raw with
      | Some data => Build_RequestData ty su st id ve sc data true
      | None => Build_RequestData ty su st id ve sc "" false
      end).

(** A [*RequestData] field: null is nil, anything else goes through
    [UnmarshalJSON], whose error ends the decoding. *)
Definition decode_RequestData (cx : dctx) (cur : option RequestData) (j : json)
  : dec (option RequestData) :=
  match jval j with
  | JNull => dret None
  | _ => match UnmarshalJSON (jraw j) with
         | Ok d => dret (Some d)
         | Err e => dfail (add_context cx e)
         end
  end.

Definition NormalizedType (d : RequestData) : string := ToUpper (TrimSpace (rd_Type d)).

Definition is_some {A} (o : option A) : bool := match o with Some _ => true | None => false end.

Definition IsSchemaAware (d : RequestData) : bool :=
  let t := NormalizedType d in
  String.eqb t TypeAvro || String.eqb t TypeJSONSchema || String.eqb t TypeProtobuf ||
  negb (String.eqb (rd_Schema d) "") ||
  is_some (rd_SchemaID d) ||
  is_some (rd_SchemaVersion d).

(** [type Metadata struct]. *)
Record Metadata := {
  md_Type : string;
  md_Size : Z;
  md_Subject : string;
  md_SchemaID : option Z;
  md_SchemaVersion : option Z;
}.

Definition zero_Metadata : Metadata := Build_Metadata "" 0 "" None None.

(** [type ResolveRequest struct]. *)
Record ResolveRequest := {
  rq_Subject : string;
  rq_Type : string;
  rq_SchemaID : option Z;
  rq_SchemaVersion : option Z;
  rq_Schema : string;
}.

(** [type Resolved struct]. *)
Record Resolved := {
  rs_Subject : string;
  rs_Type : string;
  rs_SchemaID : Z;
  rs_SchemaVersion : option Z;
  rs_Schema : string;
}.

(** [type Registry interface]: one operation on the state of the registry. *)
Class Registry (R : Type) := Resolve : ResolveRequest → R → res Resolved * R.

Example unmarshal_data_ex :
  UnmarshalJSON (qt "{'type':'avro','SCHEMA_ID': 7, 'data' : {'a':1} }") =
  Ok (Build_RequestData "avro" "" "" (Some 7) None "" (qt "{'a':1}") true).
Proof. vm_compute. reflexivity. Qed.
