(* ===== verification/SchemaRegistry.v ===== *)
(** * internal/schema/registry.go

    The HTTP registry client (its transport is the standard library's
    [http.Client], a function on the outside world) and the in-memory
    registry. *)

From S2P Require Import Prelude.
From S2P Require Import GoStrings.
From S2P Require Import Strconv.
From S2P Require Import GoErrors.
From S2P Require Import Json.
From S2P Require Import Url.
From S2P Require Import SchemaTypes.
Local Open Scope Z_scope.

(** ** Names *)

(** [firstNonEmpty]: the first value that is not blank. *)
Fixpoint firstNonEmpty (values : list string) : string :=
  match values with
  | [] => ""
  | v :: values =>
      if negb (String.eqb (TrimSpace v) "") then v else firstNonEmpty values
  end.

Definition normalizeSchemaType (typ : string) : string :=
  let t := ToUpper (TrimSpace typ) in
  if String.eqb t TypeJSONSchema || String.eqb t "JSON_SCHEMA" || String.eqb t "JSON"
  then TypeJSONSchema
  else if String.eqb t TypeProtobuf || String.eqb t "PROTO" then TypeProtobuf
  else if String.eqb t TypeAvro || String.eqb t "" then TypeAvro
  else t.

Definition normalizeRegistrySchemaType (typ : string) : string :=
  let t := ToUpper (TrimSpace typ) in
  if String.eqb t "JSON" then TypeJSONSchema
  else if String.eqb t "PROTOBUF" then TypeProtobuf
  else if String.eqb t "AVRO" || String.eqb t "" then TypeAvro
  else t.

Definition registrySchemaType (typ : string) : string :=
  let t := normalizeSchemaType typ in
  if String.eqb t TypeJSONSchema then "JSON"
  else if String.eqb t TypeProtobuf then "PROTOBUF"
  else if String.eqb t TypeAvro then "AVRO"
  else "".

(** ** The HTTP registry *)

(** [type HTTPRegistry struct]: the path of the base URL (scheme and host go
    with the transport) and the credentials. *)
Record HTTPRegistry := {
  baseURL : URL;
  username : string;
  password : string;
}.

(** What [doJSON] hands to [http.Client.Do]. *)
Record HTTPRequest := {
  hr_method : string;
  hr_path : string;                       (* the escaped path on the wire *)
  hr_headers : list (string * string);
  hr_auth : option (string * string);
  hr_body : string;
}.

Record HTTPResponse := {
  hs_code : Z;
  hs_status : string;                     (* e.g. 404 Not Found *)
  hs_body : string;
}.

(** [http.Client.Do] on the state of the outside world. *)
Class HTTPClient (W : Type) := Do : HTTPRequest → W → res HTTPResponse * W.

(** [json.Marshal] of a [map[string]string] listed in key order. *)
Definition marshal_map (l : list (string * string)) : string :=
  "{" +:+ Join ((λ p, json_string p.1 +:+ ":" +:+ json_string p.2) <$> l) "," +:+ "}".

(** The error document of the registry. *)
Definition error_field (cur : Z * string) (key : string) (j : json) : dec (Z * string) :=
  match field_of ["error_code"; "message"] key with
  | Some 0%nat => let! x := decode_int ctx0 cur.1 j in dret (x, cur.2)
  | Some 1%nat => let! x := decode_string ctx0 cur.2 j in dret (cur.1, x)
  | _ => dret cur
  end.

(** [Decode] whose error is ignored, as for the registry's error document. *)
Definition error_message (body : string) : string :=
  match read_value body with
  | Err _ => ""
  | Ok (j, _) =>
      match decode_struct error_field "" ctx0 (0, "") j None with
      | (inr r, _) => r.2
      | (inl _, _) => ""
      end
  end.

(** The three response documents. *)
Definition id_field (cur : Z) (key : string) (j : json) : dec Z :=
  match field_of ["id"] key with
  | Some 0%nat => decode_int {| ctx_struct := ""; ctx_path := ["id"] |} cur j
  | _ => dret cur
  end.

Record version_doc := {
  vd_subject : string; vd_id : Z; vd_version : Z; vd_schema : string; vd_schemaType : string }.

Definition version_field (cur : version_doc) (key : string) (j : json) : dec version_doc :=
  let cx f := {| ctx_struct := ""; ctx_path := [f] |} in
  let '(Build_version_doc su id ve sc ty) := cur in
  match field_of ["subject"; "id"; "version"; "schema"; "schemaType"] key with
  | Some 0%nat => let! x := decode_string (cx "subject") su j in
                  dret (Build_version_doc x id ve sc ty)
  | Some 1%nat => let! x := decode_int (cx "id") id j in
                  dret (Build_version_doc su x ve sc ty)
  | Some 2%nat => let! x := decode_int (cx "version") ve j in
                  dret (Build_version_doc su id x sc ty)
  | Some 3%nat => let! x := decode_string (cx "schema") sc j in
                  dret (Build_version_doc su id ve x ty)
  | Some 4%nat => let! x := decode_string (cx "schemaType") ty j in
                  dret (Build_version_doc su id ve sc x)
  | _ => dret cur
  end.

Definition schema_field (cur : string * string) (key : string) (j : json)
  : dec (string * string) :=
  let cx f := {| ctx_struct := ""; ctx_path := [f] |} in
  match field_of ["schema"; "schemaType"] key with
  | Some 0%nat => let! x := decode_string (cx "schema") cur.1 j in dret (x, cur.2)
  | Some 1%nat => let! x := decode_string (cx "schemaType") cur.2 j in dret (cur.1, x)
  | _ => dret cur
  end.

(** The Go types of these documents, as type errors print them. *)
Definition id_type : string := qt "struct { ID int 'json:\'id\'' }".
Definition version_type : string :=
  qt "struct { Subject string 'json:\'subject\''; ID int 'json:\'id\''; Version int 'json:\'version\''; Schema string 'json:\'schema\''; SchemaType string 'json:\'schemaType\'' }".
Definition schema_type : string :=
  qt "struct { Schema string 'json:\'schema\''; SchemaType string 'json:\'schemaType\'' }".

(** The path of the request for a suffix of the registry API. *)
Definition request_path (r : HTTPRegistry) (suffix : string) : string :=
  EscapedPath {| Path := path_Join (Path (baseURL r)) suffix;
                 RawPath := RawPath (baseURL r) |}.

Section http.
Context {W : Type} `{HTTPClient W}.

Definition doJSON {A} (r : HTTPRegistry) (method suffix : string)
    (body : option (list (string * string)))
    (decode : A → json → dec A) (zero : A) (w : W) : res A * W :=
  let b := match body with None => "" | Some l => marshal_map l end in
  let req := {|
    hr_method := method;
    hr_path := request_path r suffix;
    hr_headers :=
      ("Accept", "application/vnd.schemaregistry.v1+json, application/json") ::
      match body with
      | None => []
      | Some _ => [("Content-Type", "application/vnd.schemaregistry.v1+json")]
      end;
    hr_auth := if negb (String.eqb (username r) "") || negb (String.eqb (password r) "")
               then Some (username r, password r) else None;
    hr_body := b |} in
  match Do req w with
  | (Err e, w) => (Err e, w)
  | (Ok resp, w) =>
      if (hs_code resp <? 200) || (299 <? hs_code resp) then
        let m := error_message (hs_body resp) in
        let m := if String.eqb m "" then hs_status resp else m in
        (Err (ENew ("schema registry " +:+ method +:+ " " +:+ suffix +:+ ": " +:+ m)), w)
      else (Decode decode zero (hs_body resp), w)
  end.

Definition register (r : HTTPRegistry) (req : ResolveRequest) (w : W) : res Resolved * W :=
  let registryType := registrySchemaType (rq_Type req) in
  let body := ("schema", rq_Schema req) ::
    (if negb (String.eqb registryType "") then [("schemaType", registryType)] else []) in
  match doJSON r "POST" ("/subjects/" +:+ PathEscape (rq_Subject req) +:+ "/versions")
          (Some body) (decode_struct id_field id_type ctx0) 0 w with
  | (Err e, w) => (Err e, w)
  | (Ok id, w) =>
      (Ok {| rs_Subject := rq_Subject req; rs_Type := normalizeSchemaType (rq_Type req);
             rs_SchemaID := id; rs_SchemaVersion := None; rs_Schema := rq_Schema req |}, w)
  end.

Definition getSubjectVersion (r : HTTPRegistry) (subject version : string) (w : W)
  : res Resolved * W :=
  match doJSON r "GET" ("/subjects/" +:+ PathEscape subject +:+ "/versions/" +:+
                        PathEscape version) None
          (decode_struct version_field version_type ctx0)
          (Build_version_doc "" 0 0 "" "") w with
  | (Err e, w) => (Err e, w)
  | (Ok d, w) =>
      (Ok {| rs_Subject := firstNonEmpty [vd_subject d; subject];
             rs_Type := normalizeRegistrySchemaType (vd_schemaType d);
             rs_SchemaID := vd_id d; rs_SchemaVersion := Some (vd_version d);
             rs_Schema := vd_schema d |}, w)
  end.

Definition getSchemaByID (r : HTTPRegistry) (id : Z) (typ subject : string) (w : W)
  : res Resolved * W :=
  match doJSON r "GET" ("/schemas/ids/" +:+ Itoa id) None
          (decode_struct schema_field schema_type ctx0) ("", "") w with
  | (Err e, w) => (Err e, w)
  | (Ok d, w) =>
      (Ok {| rs_Subject := subject;
             rs_Type := firstNonEmpty [normalizeRegistrySchemaType d.2; normalizeSchemaType typ];
             rs_SchemaID := id; rs_SchemaVersion := None; rs_Schema := d.1 |}, w)
  end.

(** [HTTPRegistry.Resolve]; a nil receiver is [None]. *)
Definition http_Resolve (r : option HTTPRegistry) (req : ResolveRequest) (w : W)
  : res Resolved * W :=
  match r with
  | None => (Err (ENew "schema registry is not configured"), w)
  | Some r =>
      if String.eqb (TrimSpace (rq_Subject req)) "" && negb (is_some (rq_SchemaID req))
      then (Err (ENew "schema subject is required"), w)
      else if negb (String.eqb (TrimSpace (rq_Schema req)) "") then register r req w
      else match rq_SchemaVersion req, rq_SchemaID req with
           | Some v, _ => getSubjectVersion r (rq_Subject req) (Itoa v) w
           | None, Some id => getSchemaByID r id (rq_Type req) (rq_Subject req) w
           | None, None => getSubjectVersion r (rq_Subject req) "latest" w
           end
  end.
End http.

(** ** The in-memory registry *)

(** [type MemoryRegistry struct]. *)
Record MemoryRegistry := {
  nextID : Z;
  byID : gmap Z Resolved;
  versions : gmap string (list Resolved);
}.

Definition NewMemoryRegistry : MemoryRegistry :=
  {| nextID := 1; byID := ∅; versions := ∅ |}.

(** The versions of a subject: a missing key reads as nil. *)
Definition versions_of (r : MemoryRegistry) (subject : string) : list Resolved :=
  default [] (versions r !! subject).

Definition with_subject (res : Resolved) (subject : string) : Resolved :=
  {| rs_Subject := subject; rs_Type := rs_Type res; rs_SchemaID := rs_SchemaID res;
     rs_SchemaVersion := rs_SchemaVersion res; rs_Schema := rs_Schema res |}.

(** [MemoryRegistry.Resolve], one critical section. *)
Definition memory_Resolve (req : ResolveRequest) (r : MemoryRegistry)
  : res Resolved * MemoryRegistry :=
  let r := {| nextID := if nextID r =? 0 then 1 else nextID r;
              byID := byID r; versions := versions r |} in
  match rq_SchemaID req with
  | Some id =>
      match byID r !! id with
      | None => (Err (ENew ("schema id " +:+ Itoa id +:+ " not found")), r)
      | Some res =>
          (Ok (if negb (String.eqb (rq_Subject req) "") then with_subject res (rq_Subject req)
               else res), r)
      end
  | None =>
      if String.eqb (rq_Subject req) "" then (Err (ENew "schema subject is required"), r)
      else match rq_SchemaVersion req with
      | Some v =>
          let vs := versions_of r (rq_Subject req) in
          let idx := i64 (v - 1) in
          match (if (idx <? 0) || (Z.of_nat (length vs) <=? idx) then None
                 else vs !! Z.to_nat idx) with
          | None => (Err (ENew ("schema subject " +:+ Quote (rq_Subject req) +:+ " version " +:+
                                Itoa v +:+ " not found")), r)
          | Some res => (Ok res, r)
          end
      | None =>
          if negb (String.eqb (rq_Schema req) "") then
            let version := Z.of_nat (length (versions_of r (rq_Subject req))) + 1 in
            let id := nextID r in
            let res := {| rs_Subject := rq_Subject req;
                          rs_Type := normalizeSchemaType (rq_Type req);
                          rs_SchemaID := id; rs_SchemaVersion := Some version;
                          rs_Schema := rq_Schema req |} in
            (Ok res, {| nextID := i64 (id + 1);
                        byID := <[id := res]> (byID r);
                        versions := <[rq_Subject req :=
                          versions_of r (rq_Subject req) ++ [res]]> (versions r) |})
          else match last (versions_of r (rq_Subject req)) with
               | None => (Err (ENew ("schema subject " +:+ Quote (rq_Subject req) +:+
                                     " not found")), r)
               | Some res => (Ok res, r)
               end
      end
  end.

#[export] Instance memory_registry : Registry MemoryRegistry := memory_Resolve.
#[export] Instance http_registry {W} `{HTTPClient W} : Registry (option HTTPRegistry * W) :=
  λ req s, let '(res, w) := http_Resolve s.1 req s.2 in (res, (s.1, w)).
