(* ===== verification/SchemaEncoder.v ===== *)
(** * internal/schema/encoder.go

    The v3 payload encoder.  The Avro, JSON Schema and Protobuf libraries are
    outside the program: they are the operations of the class [Codecs]. *)

From S2P Require Import Prelude.
From S2P Require Import GoStrings.
From S2P Require Import Strconv.
From S2P Require Import GoErrors.
From S2P Require Import Json.
From S2P Require Import Base64.
From S2P Require Import SchemaTypes.
From S2P Require Import SchemaRegistry.
Local Open Scope Z_scope.

(** [protoreflect.MessageDescriptor]: a name and the nested messages. *)
Inductive message := Message (name : string) (nested : list message).

(** The third-party operations, one per call of the source. *)
Class Codecs := {
  avro_codec : Type;
  avro_NewCodec : string → res avro_codec;
  avro_native : Type;
  avro_NativeFromTextual : avro_codec → string → res avro_native;
  avro_BinaryFromNative : avro_codec → avro_native → res string;
  js_schema : Type;
  js_AddResource_Compile : json → res js_schema;
  js_instance : Type;
  js_UnmarshalJSON : string → res js_instance;
  js_Validate : js_schema → js_instance → res unit;
  pb_Compile : string → res (list (list message));   (* the messages of each file *)
  pb_message : Type;
  pb_Unmarshal : message → string → res pb_message;
  pb_Marshal : pb_message → res string;
}.

Definition isJSONNull (raw : string) : bool := String.eqb (TrimSpace raw) "null".

(** A [string] variable decoded by [json.Unmarshal]. *)
Definition Unmarshal_string (data : string) : res string :=
  Unmarshal (decode_string ctx0) "" data.

Definition encodeBinary (data : RequestData) : res (option string) :=
  if negb (rd_DataPresent data) || isJSONNull (rd_Data data) then Ok None
  else match Unmarshal_string (rd_Data data) with
       | Err _ => Err (ENew "BINARY data must be a base64 string")
       | Ok encoded =>
           match DecodeString encoded with
           | None => Err (ENew "BINARY data is not valid base64")
           | Some decoded => Ok (Some decoded)
           end
       end.

Definition encodeString (data : RequestData) : res (option string) :=
  if negb (rd_DataPresent data) || isJSONNull (rd_Data data) then Ok None
  else match Unmarshal_string (rd_Data data) with
       | Err _ => Err (ENew "STRING data must be a string")
       | Ok s => Ok (Some s)
       end.

Definition encodeJSON (data : RequestData) : res (option string) :=
  if negb (rd_DataPresent data) || isJSONNull (rd_Data data) then Ok None
  else let? b := Compact (rd_Data data) in Ok (Some b).

(** [firstMessage]: the first message, and in it the first nested one, down
    to a message that nests none. *)
Fixpoint first_nested (m : message) : message :=
  match m with
  | Message _ (m' :: _) => first_nested m'
  | Message _ [] => m
  end.

Definition firstMessage (messages : list message) : option message :=
  first_nested <$> head messages.

Section codecs.
Context `{Codecs}.

Definition encodeAvro (schemaText raw : string) : res string :=
  let? codec := avro_NewCodec schemaText in
  let? native := avro_NativeFromTextual codec raw in
  avro_BinaryFromNative codec native.

Definition encodeJSONSchema (schemaText raw : string) : res string :=
  let? doc := read_value schemaText in
  let? sch := js_AddResource_Compile doc.1 in
  let? instance := js_UnmarshalJSON raw in
  let? _ := js_Validate sch instance in
  Compact raw.

Definition encodeProtobuf (schemaText raw : string) : res string :=
  let? files := pb_Compile schemaText in
  match firstMessage (default [] (head files)) with
  | None => Err (ENew "protobuf schema must define at least one message")
  | Some msgDesc =>
      let? msg := pb_Unmarshal msgDesc raw in
      pb_Marshal msg
  end.
End codecs.

(** [binary.BigEndian.PutUint32]. *)
Definition PutUint32 (v : Z) : string :=
  let v := u32 v in
  String (bchr (Z.shiftr v 24)) (String (bchr (Z.shiftr v 16))
    (String (bchr (Z.shiftr v 8)) (String (bchr v) ""))).

Definition appendConfluentWireFormat (dst : string) (schemaID : Z) (typ payload : string)
  : string :=
  let dst := dst +:+ String "000" "" in
  let dst := dst +:+ PutUint32 schemaID in
  let dst := if String.eqb typ TypeProtobuf then dst +:+ String "000" "" else dst in
  dst +:+ payload.

(** The regular expression of [schemaRecordName], anchored at a line start:
    [\s*message\s+([A-Za-z_][A-Za-z0-9_]* )\s*\{]. *)
Definition re_space (c : ascii) : bool :=
  (bval c =? 9) || (bval c =? 10) || (bval c =? 12) || (bval c =? 13) || (bval c =? 32).
Definition ident_start (c : ascii) : bool :=
  let b := bval c in
  ((65 <=? b) && (b <=? 90)) || ((97 <=? b) && (b <=? 122)) || (b =? 95).
Definition ident_char (c : ascii) : bool := ident_start c || is_digit c.

Fixpoint skip_re_space (s : string) : string :=
  match s with
  | EmptyString => EmptyString
  | String c s' => if re_space c then skip_re_space s' else s
  end.

Fixpoint span (p : ascii → bool) (s : string) : string * string :=
  match s with
  | String c s' => if p c then let '(a, b) := span p s' in (String c a, b) else ("", s)
  | EmptyString => ("", s)
  end.

Definition match_message_here (s : string) : option string :=
  let s := skip_re_space s in
  if negb (HasPrefix s "message") then None
  else match TrimPrefix s "message" with
  | String c s =>
      if negb (re_space c) then None
      else match skip_re_space s with
      | String i rest =>
          if negb (ident_start i) then None
          else let '(tl, rest) := span ident_char rest in
               match skip_re_space rest with
               | String b _ => if Ascii.eqb b "{" then Some (String i tl) else None
               | EmptyString => None
               end
      | EmptyString => None
      end
  | EmptyString => None
  end.

(** The leftmost match: [line_start] holds after a line feed and at the start
    of the text. *)
Fixpoint find_message (line_start : bool) (s : string) : option string :=
  match (if line_start then match_message_here s else None) with
  | Some name => Some name
  | None =>
      match s with
      | EmptyString => None
      | String c s => find_message (Ascii.eqb c "010") s
      end
  end.

(** The documents [schemaRecordName] peeks into. *)
Definition avro_name_field (cur : string * string) (key : string) (j : json)
  : dec (string * string) :=
  match field_of ["namespace"; "name"] key with
  | Some 0%nat => let! x := decode_string ctx0 cur.1 j in dret (x, cur.2)
  | Some 1%nat => let! x := decode_string ctx0 cur.2 j in dret (cur.1, x)
  | _ => dret cur
  end.

Definition title_field (cur : string) (key : string) (j : json) : dec string :=
  match field_of ["title"] key with
  | Some 0%nat => decode_string ctx0 cur j
  | _ => dret cur
  end.

Definition schemaRecordName (typ schemaText : string) : string :=
  let t := normalizeSchemaType typ in
  if String.eqb t TypeAvro then
    let '(namespace, name) :=
      Unmarshal_partial (decode_struct avro_name_field "" ctx0) ("", "") schemaText in
    if String.eqb name "" then ""
    else if negb (String.eqb namespace "") then namespace +:+ "." +:+ name
    else name
  else if String.eqb t TypeJSONSchema then
    Unmarshal_partial (decode_struct title_field "" ctx0) "" schemaText
  else if String.eqb t TypeProtobuf then default "" (find_message true schemaText)
  else "".

Definition resolveSubject (topic : string) (key : bool) (data : RequestData) (typ : string)
  : string :=
  if negb (String.eqb (TrimSpace (rd_Subject data)) "") then TrimSpace (rd_Subject data)
  else
    let strategy := ToUpper (TrimSpace (rd_SubjectNameStrategy data)) in
    let strategy := if String.eqb strategy "" then StrategyTopicName else strategy in
    let suffix := if key then "key" else "value" in
    let fallback := topic +:+ "-" +:+ suffix in
    if String.eqb strategy StrategyRecordName then
      let name := schemaRecordName typ (rd_Schema data) in
      if negb (String.eqb name "") then name else fallback
    else if String.eqb strategy StrategyTopicRecordName then
      let name := schemaRecordName typ (rd_Schema data) in
      if negb (String.eqb name "") then topic +:+ "-" +:+ name else fallback
    else fallback.

(** [type Encoder struct]: whether its [Registry] is set; the registry itself
    is the state the operations thread. *)
Record Encoder := { has_Registry : bool }.

Section encoder.
Context `{Codecs} {R : Type} `{Registry R}.

(** [encodeSchemaAware]; a nil receiver is [None]. *)
Definition encodeSchemaAware (e : option Encoder) (topic : string) (key : bool)
    (typ : string) (data : RequestData) (reg : R)
  : res (option string * Metadata) * R :=
  if negb (rd_DataPresent data) || isJSONNull (rd_Data data)
  then (Ok (None, Build_Metadata typ 0 "" None None), reg)
  else if negb (match e with Some e => has_Registry e | None => false end)
  then (Err (ENew ("schema registry is required for " +:+ typ +:+ " records")), reg)
  else
    let subject := resolveSubject topic key data typ in
    match Resolve {| rq_Subject := subject; rq_Type := typ;
                     rq_SchemaID := rd_SchemaID data;
                     rq_SchemaVersion := rd_SchemaVersion data;
                     rq_Schema := rd_Schema data |} reg with
    | (Err err, reg) => (Err err, reg)
    | (Ok resolved, reg) =>
        let typ := if negb (String.eqb (rs_Type resolved) "") then rs_Type resolved else typ in
        let encoded :=
          if String.eqb typ TypeAvro then encodeAvro (rs_Schema resolved) (rd_Data data)
          else if String.eqb typ TypeJSONSchema
          then encodeJSONSchema (rs_Schema resolved) (rd_Data data)
          else if String.eqb typ TypeProtobuf
          then encodeProtobuf (rs_Schema resolved) (rd_Data data)
          else Err (ENew ("unsupported schema type " +:+ Quote typ)) in
        match encoded with
        | Err err => (Err err, reg)
        | Ok encoded =>
            let wire := appendConfluentWireFormat "" (rs_SchemaID resolved) typ encoded in
            (Ok (Some wire,
                 {| md_Type := typ; md_Size := slen wire;
                    md_Subject := firstNonEmpty [rs_Subject resolved; subject];
                    md_SchemaID := Some (rs_SchemaID resolved);
                    md_SchemaVersion := rs_SchemaVersion resolved |}), reg)
        end
    end.

(** [Encoder.Encode]; nil data is [None]. *)
Definition Encode (e : option Encoder) (topic : string) (key : bool)
    (data : option RequestData) (reg : R) : res (option string * Metadata) * R :=
  match data with
  | None => (Ok (None, zero_Metadata), reg)
  | Some data =>
      let typ := NormalizedType data in
      let typ := if String.eqb typ "" && IsSchemaAware data then TypeAvro else typ in
      let typ := if String.eqb typ "" then TypeJSON else typ in
      let plain (p : res (option string)) :=
        (let? payload := p in Ok (payload, Build_Metadata typ 0 "" None None), reg) in
      let '(r, reg) :=
        if String.eqb typ TypeBinary then plain (encodeBinary data)
        else if String.eqb typ TypeString then plain (encodeString data)
        else if String.eqb typ TypeJSON then plain (encodeJSON data)
        else if String.eqb typ TypeAvro || String.eqb typ TypeJSONSchema ||
                String.eqb typ TypeProtobuf
        then encodeSchemaAware e topic key typ data reg
        else (Err (ENew ("unsupported record data type " +:+ Quote (rd_Type data))), reg) in
      match r with
      | Err err => (Err err, reg)
      | Ok (payload, meta) =>
          let meta := {|
            md_Type := if String.eqb (md_Type meta) "" then typ else md_Type meta;
            md_Size := blen payload;
            md_Subject := md_Subject meta;
            md_SchemaID := md_SchemaID meta;
            md_SchemaVersion := md_SchemaVersion meta |} in
          (Ok (payload, meta), reg)
      end
  end.
End encoder.

Example record_name_ex :
  (schemaRecordName "proto" ("syntax = 'proto3';" +:+ nl +:+ "  message  Order_1 {"),
   schemaRecordName "AVRO" (qt "{'name':'N','namespace':'a.b'}"),
   schemaRecordName "json" (qt "{'title':'T','x':[}")) = ("Order_1", "a.b.N", "").
Proof. vm_compute. reflexivity. Qed.
