(* ===== verification/SchemaFacts.v ===== *)
(** * Correctness of the schema encoder and the registries *)

From S2P Require Import Prelude.
From S2P Require Import GoStrings.
From S2P Require Import Strconv.
From S2P Require Import GoErrors.
From S2P Require Import Json.
From S2P Require Import JsonFacts.
From S2P Require Import Base64.
From S2P Require Import JsonText.
From S2P Require Import Url.
From S2P Require Import SchemaTypes.
From S2P Require Import SchemaRegistry.
From S2P Require Import SchemaEncoder.
Local Open Scope Z_scope.

(** ** The Confluent wire format *)

(** What a consumer reads: the magic byte, the schema id in big-endian order,
    and, for Protobuf, the message index of the first message. *)
Definition GetUint32 (s : string) : option (Z * string) :=
  match s with
  | String a (String b (String c (String d s))) =>
      Some (bval a * 2 ^ 24 + bval b * 2 ^ 16 + bval c * 2 ^ 8 + bval d, s)
  | _ => None
  end.

Definition parse_wire (protobuf : bool) (s : string) : option (Z * string) :=
  match s with
  | String m s =>
      if negb (bval m =? 0) then None
      else r ← GetUint32 s;
           if protobuf then
             match r.2 with
             | String i payload => if bval i =? 0 then Some (r.1, payload) else None
             | EmptyString => None
             end
           else Some r
  | EmptyString => None
  end.

Lemma bval_bchr_mod z : bval (bchr z) = z mod 256.
Proof.
  unfold bchr, bval. rewrite N_ascii_embedding; [|pose proof (Z.mod_pos_bound z 256); lia].
  pose proof (Z.mod_pos_bound z 256). lia.
Qed.

Lemma GetUint32_PutUint32 v s : GetUint32 (PutUint32 v +:+ s) = Some (u32 v, s).
Proof.
  unfold PutUint32. rewrite !app_cons, app_nil_l. cbn [GetUint32]. do 2 f_equal.
  rewrite !bval_bchr_mod, !Z.shiftr_div_pow2 by lia.
  unfold u32. Z.to_euclidean_division_equations. lia.
Qed.

Lemma parse_wire_append dst id typ payload :
  ∃ wire, appendConfluentWireFormat dst id typ payload = dst +:+ wire ∧
          parse_wire (String.eqb typ TypeProtobuf) wire = Some (u32 id, payload).
Proof.
  unfold appendConfluentWireFormat. destruct (String.eqb typ TypeProtobuf).
  - eexists. rewrite !app_assoc_s. split; [done|]. rewrite app_cons, app_nil_l. cbn [parse_wire].
    change (bval "000" =? 0) with true. cbn [negb]. by rewrite GetUint32_PutUint32.
  - eexists. rewrite !app_assoc_s. split; [done|]. rewrite app_cons, app_nil_l. cbn [parse_wire].
    change (bval "000" =? 0) with true. cbn [negb]. by rewrite GetUint32_PutUint32.
Qed.

(** C17: the wire format round-trips: a consumer of the Confluent wire format
    reads back the schema id and the encoded payload from what the encoder
    appends, for every payload and every type, with the message index that
    Protobuf needs; ids are written modulo 2^32. *)
Theorem wire_format_roundtrip (dst : string) (id : Z) (typ payload : string) :
  ∃ wire, appendConfluentWireFormat dst id typ payload = dst +:+ wire ∧
          parse_wire (String.eqb typ TypeProtobuf) wire = Some (id mod 2 ^ 32, payload).
Proof. apply parse_wire_append. Qed.

Section encoder.
Context `{Codecs} {R : Type} `{Registry R}.

(** C31: the metadata of an encoded value describe its bytes: the size is the
    length of the payload, and when a schema id is reported the payload is a
    wire-format message under exactly that id, whatever the registry answered. *)
Theorem encode_metadata_match e topic key data (reg : R) payload meta reg' :
  Encode e topic key data reg = (Ok (payload, meta), reg') →
  md_Size meta = blen payload ∧
  (md_SchemaID meta = None ∨
   ∃ id wire encoded, md_SchemaID meta = Some id ∧ payload = Some wire ∧
     parse_wire (String.eqb (md_Type meta) TypeProtobuf) wire = Some (id mod 2 ^ 32, encoded)).
Proof.
  unfold Encode. destruct data as [data|]; [|intros [= <- <- _]; by split; [|left]].
  set (typ := if String.eqb (if _ && _ then _ else _) "" then _ else _).
  destruct (if String.eqb typ TypeBinary then _ else _) as [r reg1] eqn:Er.
  destruct r as [[p m]|]; [|done]. intros [= <- <- <-]. cbn [md_Size md_SchemaID md_Type].
  split; [done|].
  assert (∀ q : res (option string),
    (let? payload := q in Ok (payload, Build_Metadata typ 0 "" None None), reg) =
      (Ok (p, m), reg1) → md_SchemaID m = None) as Hplain.
  { intros [q|]; [|done]. by intros [= _ <- _]. }
  destruct (String.eqb typ TypeBinary); [left; by eapply Hplain|].
  destruct (String.eqb typ TypeString); [left; by eapply Hplain|].
  destruct (String.eqb typ TypeJSON); [left; by eapply Hplain|].
  destruct (_ || _ || _); [|done]. unfold encodeSchemaAware in Er.
  destruct (negb (rd_DataPresent data) || _); [injection Er as _ <- _; by left|].
  destruct (negb _); [done|]. destruct (Resolve _ reg) as [[resolved|] reg2]; [|done].
  destruct (if String.eqb _ TypeAvro then _ else _) as [encoded|]; [|done].
  injection Er as <- <- _. cbn [md_Type md_SchemaID]. right.
  set (typ' := if negb _ then rs_Type resolved else typ).
  destruct (parse_wire_append "" (rs_SchemaID resolved) typ' encoded) as (wire&Hw&Hp).
  rewrite app_nil_l in Hw. exists (rs_SchemaID resolved), wire, encoded.
  split; [done|]. split; [by rewrite Hw|].
  assert ((if String.eqb typ' "" then typ else typ') = typ') as ->; [|exact Hp].
  unfold typ'. destruct (String.eqb (rs_Type resolved) "") eqn:Et; cbn [negb].
  - by destruct (String.eqb typ "").
  - by rewrite Et.
Qed.
End encoder.

(** Schema libraries that take any text as their own encoding. *)
Definition echo_codecs : Codecs :=
  {| avro_codec := unit; avro_NewCodec _ := Ok tt;
     avro_native := string; avro_NativeFromTextual _ s := Ok s;
     avro_BinaryFromNative _ s := Ok s;
     js_schema := unit; js_AddResource_Compile _ := Ok tt;
     js_instance := string; js_UnmarshalJSON s := Ok s; js_Validate _ _ := Ok tt;
     pb_Compile _ := Ok [[Message "M" []]];
     pb_message := string; pb_Unmarshal _ s := Ok s; pb_Marshal s := Ok s |}.

Lemma encode_metadata_match_witness :
  let data := Build_RequestData "avro" "" "" None None "{}" "1" true in
  let '(r, reg) := Encode (H := echo_codecs) (Some {| has_Registry := true |}) "t" false
                     (Some data) NewMemoryRegistry in
  ∃ payload meta, r = Ok (payload, meta) ∧ md_Size meta = blen payload ∧
  (md_SchemaID meta = None ∨
   ∃ id wire encoded, md_SchemaID meta = Some id ∧ payload = Some wire ∧
     parse_wire (String.eqb (md_Type meta) TypeProtobuf) wire = Some (id mod 2 ^ 32, encoded)).
Proof.
  cbv zeta. destruct (Encode _ _ _ _ _) as [[[payload meta]|] reg] eqn:E; [|by vm_compute in E].
  exists payload, meta. split; [done|]. exact (encode_metadata_match (H := echo_codecs) _ _ _ _ _ _ _ _ E).
Defined.

(** ** The in-memory registry *)

(** Its specification: a log of the schemas in the order of their registration.
    The id of a schema is its position in the log, its version the position
    among the schemas of its subject, both counted from one. *)
Definition subject_log (log : list Resolved) (subject : string) : list Resolved :=
  filter (λ e, rs_Subject e = subject) log.

Definition nth_from_1 (l : list Resolved) (n : Z) : option Resolved :=
  if 1 <=? n then l !! Z.to_nat (n - 1) else None.

Definition log_entry (log : list Resolved) (req : ResolveRequest) : Resolved :=
  {| rs_Subject := rq_Subject req; rs_Type := normalizeSchemaType (rq_Type req);
     rs_SchemaID := Z.of_nat (length log) + 1;
     rs_SchemaVersion := Some (Z.of_nat (length (subject_log log (rq_Subject req))) + 1);
     rs_Schema := rq_Schema req |}.

(** The schema a request asks for, [None] when there is none, and the log
    afterwards; a schema text counts only without an id and a version. *)
Definition log_resolve (req : ResolveRequest) (log : list Resolved)
  : option Resolved * list Resolved :=
  let subject := rq_Subject req in
  match rq_SchemaID req, rq_SchemaVersion req with
  | Some id, _ =>
      ((λ e, if String.eqb subject "" then e else with_subject e subject) <$> nth_from_1 log id,
       log)
  | None, _ =>
      if String.eqb subject "" then (None, log)
      else match rq_SchemaVersion req with
      | Some v => (nth_from_1 (subject_log log subject) v, log)
      | None =>
          if String.eqb (rq_Schema req) "" then (last (subject_log log subject), log)
          else (Some (log_entry log req), log ++ [log_entry log req])
      end
  end.

(** The registry holds the log. *)
Record holds_log (log : list Resolved) (r : MemoryRegistry) : Prop := {
  hl_next : nextID r = Z.of_nat (length log) + 1;
  hl_ids : ∀ id, byID r !! id = nth_from_1 log id;
  hl_versions : ∀ subject, versions_of r subject = subject_log log subject;
}.

Lemma NewMemoryRegistry_log : holds_log [] NewMemoryRegistry.
Proof.
  split; [done| |].
  - intros id. cbn. rewrite lookup_empty. unfold nth_from_1. by destruct (1 <=? id).
  - intros subject. unfold versions_of. cbn. by rewrite lookup_empty.
Qed.

Lemma nth_from_1_app log e id :
  nth_from_1 (log ++ [e]) id =
  if decide (id = Z.of_nat (length log) + 1) then Some e else nth_from_1 log id.
Proof.
  unfold nth_from_1. destruct (decide _) as [->|Hne].
  - rewrite (proj2 (Z.leb_le _ _)) by lia. rewrite lookup_app_r by lia.
    by replace (Z.to_nat _ - length log)%nat with 0%nat by lia.
  - destruct (1 <=? id) eqn:E; zbool; [|done].
    destruct (decide (Z.to_nat (id - 1) < length log)%nat); [by rewrite lookup_app_l|].
    rewrite (lookup_ge_None_2 log) by lia. apply lookup_ge_None_2. rewrite length_app. simpl. lia.
Qed.

Lemma holds_log_register log r req : holds_log log r → Z.of_nat (length log) + 2 < 2 ^ 63 →
  holds_log (log ++ [log_entry log req])
    {| nextID := i64 (nextID r + 1);
       byID := <[nextID r := log_entry log req]> (byID r);
       versions := <[rq_Subject req := versions_of r (rq_Subject req) ++ [log_entry log req]]>
                     (versions r) |}.
Proof.
  intros [Hn Hi Hv] Hb. split.
  - cbn. rewrite Hn, length_app, i64_id by (unfold in_i64; lia). simpl. lia.
  - intros id. cbn [byID]. rewrite nth_from_1_app, <- Hn, <- Hi.
    destruct (decide _) as [->|]; [by rewrite lookup_insert_eq|by rewrite lookup_insert_ne].
  - intros subject. unfold versions_of at 1, subject_log. cbn [versions].
    rewrite filter_app, filter_cons, filter_nil. cbn [rs_Subject log_entry].
    destruct (decide (rq_Subject req = subject)) as [->|Hne].
    + rewrite lookup_insert_eq. cbn. by rewrite Hv.
    + rewrite lookup_insert_ne, app_nil_r by done. apply Hv.
Qed.

Lemma version_lookup (l : list Resolved) v : in_i64 v → Z.of_nat (length l) < 2 ^ 63 →
  (if (i64 (v - 1) <? 0) || (Z.of_nat (length l) <=? i64 (v - 1)) then None
   else l !! Z.to_nat (i64 (v - 1))) = nth_from_1 l v.
Proof.
  unfold in_i64. intros Hv Hl. destruct (decide (v = - 2 ^ 63)) as [->|].
  { change (i64 (- 2 ^ 63 - 1)) with (2 ^ 63 - 1).
    destruct (Z.leb_spec (Z.of_nat (length l)) (2 ^ 63 - 1)); [done|lia]. }
  rewrite i64_id by (unfold in_i64; lia). unfold nth_from_1.
  destruct (1 <=? v) eqn:E, (v - 1 <? 0) eqn:E1; zbool; try lia; cbn [orb]; [|done].
  destruct (Z.of_nat (length l) <=? v - 1) eqn:E2; zbool; [|done].
  symmetry. apply lookup_ge_None_2. lia.
Qed.

Lemma memory_step (log : list Resolved) (r : MemoryRegistry) (req : ResolveRequest) :
  holds_log log r → Z.of_nat (length log) + 2 < 2 ^ 63 → from_option in_i64 True (rq_SchemaVersion req) →
  let '(answer, r') := memory_Resolve req r in
  let '(spec, log') := log_resolve req log in
  holds_log log' r' ∧
  match spec with Some e => answer = Ok e | None => is_ok answer = false end.
Proof.
  intros Hr Hb Hver. pose proof Hr as [Hn Hi Hv]. unfold memory_Resolve, log_resolve.
  assert ({| nextID := if nextID r =? 0 then 1 else nextID r; byID := byID r;
             versions := versions r |} = r) as ->.
  { destruct r as [n b v]. cbn in *. by destruct (Z.eqb_spec n 0); [lia|]. }
  destruct (rq_SchemaID req) as [id|].
  { rewrite Hi. destruct (nth_from_1 log id) as [e|]; cbn; [|done]. split; [done|].
    by destruct (String.eqb (rq_Subject req) ""). }
  destruct (String.eqb (rq_Subject req) ""); [by destruct (rq_SchemaVersion req)|].
  destruct (rq_SchemaVersion req) as [v|].
  - rewrite Hv, version_lookup; [by destruct (nth_from_1 _ v)|exact Hver|].
    pose proof (length_filter (λ e, rs_Subject e = rq_Subject req) log). unfold subject_log. lia.
  - destruct (String.eqb (rq_Schema req) ""); cbn [negb].
    + rewrite Hv. by destruct (last _).
    + pose proof (holds_log_register log r req Hr Hb) as Hreg. unfold log_entry in *.
      rewrite <- Hn in *. by rewrite Hv in *.
Qed.

(** C18: the in-memory registry implements its specification: on every request
    it answers exactly what the log of registered schemas says, with an error
    where the log has nothing, and it goes on to hold the log the specification
    arrives at (below 2^63 registrations). *)
Theorem memory_refines_log (log : list Resolved) (r : MemoryRegistry) (req : ResolveRequest) :
  holds_log log r → Z.of_nat (length log) + 2 < 2 ^ 63 → from_option in_i64 True (rq_SchemaVersion req) →
  let '(answer, r') := memory_Resolve req r in
  let '(spec, log') := log_resolve req log in
  holds_log log' r' ∧
  match spec with Some e => answer = Ok e | None => is_ok answer = false end.
Proof. apply memory_step. Qed.

Lemma memory_refines_log_witness :
  let req := Build_ResolveRequest "s" "AVRO" None None "{}" in
  let '(answer, r') := memory_Resolve req NewMemoryRegistry in
  let '(spec, log') := log_resolve req [] in
  holds_log log' r' ∧
  match spec with Some e => answer = Ok e | None => is_ok answer = false end.
Proof. apply (memory_refines_log [] NewMemoryRegistry); [apply NewMemoryRegistry_log|simpl; lia|done]. Defined.

(** A registered schema stays what it was: once a schema is registered and
    whatever is registered after it, its id, and its subject with its version,
    resolve to exactly that schema; right after the registration the subject
    alone does too. *)
Lemma registered_schema_resolves (log later : list Resolved) (r : MemoryRegistry) subject typ text :
  subject ≠ "" → text ≠ "" →
  let e := log_entry log (Build_ResolveRequest subject typ None None text) in
  holds_log (log ++ [e] ++ later) r → Z.of_nat (length (log ++ [e] ++ later)) + 2 < 2 ^ 63 →
  (memory_Resolve (Build_ResolveRequest subject typ (Some (rs_SchemaID e)) None "") r).1 = Ok e ∧
  (memory_Resolve (Build_ResolveRequest subject typ None (rs_SchemaVersion e) "") r).1 = Ok e ∧
  (later = [] → (memory_Resolve (Build_ResolveRequest subject typ None None "") r).1 = Ok e).
Proof.
  intros Hs Ht e Hr Hb. apply String.eqb_neq in Hs, Ht.
  assert (∀ req a, from_option in_i64 True (rq_SchemaVersion req) →
    (log_resolve req (log ++ [e] ++ later)).1 = Some a → (memory_Resolve req r).1 = Ok a) as Hstep.
  { intros req a Hv Ha. pose proof (memory_step _ r req Hr Hb Hv) as H.
    destruct (memory_Resolve req r), (log_resolve req _) as [o l]. cbn in *. subst o. apply H. }
  assert (subject_log (log ++ [e] ++ later) subject =
    subject_log log subject ++ e :: subject_log later subject) as Hlog.
  { unfold subject_log. rewrite !filter_app. cbn [app]. by rewrite filter_cons_True. }
  assert (length (subject_log log subject) <= length log)%nat as Hlen by apply length_filter.
  rewrite !length_app in Hb. simpl in Hb. split_and!; [..|intros ->]; apply Hstep; try done.
  - cbn [log_resolve rq_SchemaID rq_Subject fst]. rewrite Hs. unfold nth_from_1.
    cbn [e log_entry rs_SchemaID]. rewrite (proj2 (Z.leb_le _ _)) by lia.
    replace (Z.to_nat _) with (length log) by lia.
    change ([e] ++ later) with (e :: later). by rewrite list_lookup_middle.
  - cbn. unfold in_i64. lia.
  - cbn [log_resolve rq_SchemaID rq_SchemaVersion rq_Subject fst e log_entry rs_SchemaVersion].
    rewrite Hs, Hlog. unfold nth_from_1. rewrite (proj2 (Z.leb_le _ _)) by lia. cbn [fst].
    replace (Z.to_nat _) with (length (subject_log log subject)) by lia.
    by rewrite list_lookup_middle.
  - cbn [log_resolve rq_SchemaID rq_SchemaVersion rq_Subject rq_Schema fst]. rewrite Hs, Hlog.
    cbn. apply last_snoc.
Qed.

Lemma registered_schema_resolves_witness :
  let e := log_entry [] (Build_ResolveRequest "s" "avro" None None "{}") in
  let r := (memory_Resolve (Build_ResolveRequest "s" "avro" None None "{}") NewMemoryRegistry).2 in
  (memory_Resolve (Build_ResolveRequest "s" "avro" (Some (rs_SchemaID e)) None "") r).1 = Ok e ∧
  (memory_Resolve (Build_ResolveRequest "s" "avro" None (rs_SchemaVersion e) "") r).1 = Ok e ∧
  ([] = [] :> list Resolved → (memory_Resolve (Build_ResolveRequest "s" "avro" None None "") r).1 = Ok e).
Proof.
  apply (registered_schema_resolves [] []); [done|done| |simpl; lia].
  apply (holds_log_register [] NewMemoryRegistry (Build_ResolveRequest "s" "avro" None None "{}"));
    [apply NewMemoryRegistry_log|simpl; lia].
Defined.

(** ** Subjects on the wire *)

Lemma Join_escaped_suffix s :
  "/subjects/" +:+ PathEscape s +:+ "/versions" =
  "/" +:+ Join (PathEscape <$> ["subjects"; s; "versions"]) "/".
Proof. done. Qed.

Lemma PathEscape_not_dots s : s ≠ "" → s ≠ "." → s ≠ ".." →
  PathEscape s ≠ "" ∧ PathEscape s ≠ "." ∧ PathEscape s ≠ "..".
Proof.
  intros H0 H1 H2. pose proof (unescape_escape s encodePathSegment) as Hu.
  split_and!; intros E; unfold PathEscape in E; rewrite E in Hu; injection Hu as <-; done.
Qed.

Lemma Clean_escaped s : s ≠ "" → s ≠ "." → s ≠ ".." →
  Clean ("/subjects/" +:+ PathEscape s +:+ "/versions") =
    "/subjects/" +:+ PathEscape s +:+ "/versions".
Proof.
  intros H0 H1 H2. destruct (PathEscape_not_dots s H0 H1 H2) as (E0&E1&E2).
  apply String.eqb_neq in E0, E1, E2. rewrite Join_escaped_suffix. unfold Clean.
  rewrite HasPrefix_app. change ("/" +:+ ?t) with (String "/" t). cbn [Split].
  change (Ascii.eqb "/" "/") with true. cbv iota. rewrite Split_Join by done.
  cbn [fmap list_fmap clean_elems]. change (PathEscape "subjects") with "subjects".
  change (PathEscape "versions") with "versions". cbn [String.eqb Ascii.eqb Bool.eqb orb].
  by rewrite E0, E1, E2.
Qed.

(** The subject of a registry request is escaped twice: the HTTP client of
    the registry puts the escaped subject into the path it hands to [net/url],
    which escapes it again; a registry that decodes the path of the request
    gets the escaped subject, another name than the subject whenever it holds a
    byte that has to be escaped. *)
Lemma registry_subject_double_escaped (r : HTTPRegistry) (subject : string) :
  Path (baseURL r) = "" → RawPath (baseURL r) = "" →
  subject ≠ "" → subject ≠ "." → subject ≠ ".." →
  unescape (request_path r ("/subjects/" +:+ PathEscape subject +:+ "/versions")) =
    Some ("/subjects/" +:+ PathEscape subject +:+ "/versions").
Proof.
  intros Hp Hr H0 H1 H2. unfold request_path, path_Join. rewrite Hp, Hr.
  change (String.eqb "" "") with true. cbv iota.
  destruct (String.eqb _ "") eqn:E; [by cbn in E|]. rewrite Clean_escaped by done.
  unfold EscapedPath. cbn [RawPath Path]. change (String.eqb "" "") with true. cbn [negb andb].
  destruct (String.eqb _ "*") eqn:Es; [by cbn in Es|]. apply unescape_escape.
Qed.

Lemma registry_subject_double_escaped_witness :
  let r := {| baseURL := {| Path := ""; RawPath := "" |}; username := ""; password := "" |} in
  request_path r ("/subjects/" +:+ PathEscape "a b" +:+ "/versions") =
    "/subjects/a%2520b/versions" ∧
  unescape (request_path r ("/subjects/" +:+ PathEscape "a b" +:+ "/versions")) =
    Some "/subjects/a%20b/versions".
Proof.
  split; [vm_compute; reflexivity|].
  exact (registry_subject_double_escaped
    {| baseURL := {| Path := ""; RawPath := "" |}; username := ""; password := "" |} "a b"
    eq_refl eq_refl ltac:(done) ltac:(done) ltac:(done)).
Defined.
