(* ===== verification/Producer.v ===== *)
(** * internal/producer/producer.go

    Records, per-record results, and the contract of a producer. *)

From S2P Require Import Prelude.
From S2P Require Import GoStrings.
From S2P Require Import GoErrors.
Local Open Scope Z_scope.

(** [type Header struct]. *)
Record Header := { h_Key : string; h_Value : option string }.

(** [type Record struct]: nil byte slices and a nil partition are [None]. *)
Record PRecord := {
  r_Topic : string;
  r_Key : option string;
  r_Value : option string;
  r_Headers : list Header;
  r_Partition : option Z;
}.

#[export] Instance Header_eq_dec : EqDecision Header.
Proof. solve_decision. Defined.
#[export] Instance PRecord_eq_dec : EqDecision PRecord.
Proof. solve_decision. Defined.

(** [Record.SizeBytes].  The lengths are those of slices in memory, so their
    sum stays inside [int]. *)
Definition header_bytes (n : Z) (h : Header) : Z := n + (slen (h_Key h) + blen (h_Value h)).
Definition SizeBytes (r : PRecord) : Z :=
  foldl header_bytes (blen (r_Key r) + blen (r_Value r)) (r_Headers r).

(** [type Result struct]. *)
Record Result := {
  res_Partition : Z;
  res_Offset : Z;
  res_ErrorCode : option Z;
  res_Err : option error;
}.

#[export] Instance Result_eq_dec : EqDecision Result.
Proof. solve_decision. Defined.

Definition zero_Result : Result := Build_Result 0 0 None None.

(** [type Producer interface]: operations on the state [P] of a producer and
    of the Kafka cluster behind it.  The first argument of [Produce] is the
    deadline its context carries. *)
Class Producer (P : Type) := {
  Produce : Z → list PRecord → P → res (list Result) * P;
  Ping : P → option error * P;
}.

(** The documented contract: one result per record. *)
Class ProducerLaws (P : Type) `{Producer P} :=
  produce_length : ∀ d rs p results p',
    Produce d rs p = (Ok results, p') → length results = length rs.

Lemma slen_nonneg s : 0 <= slen s.
Proof. unfold slen. lia. Qed.
Lemma blen_nonneg b : 0 <= blen b.
Proof. destruct b; simpl; [apply slen_nonneg|lia]. Qed.

Lemma header_bytes_mono hs n : n <= foldl header_bytes n hs.
Proof.
  revert n. induction hs as [|h hs IH]; intros n; simpl; [lia|].
  etrans; [|apply IH]. unfold header_bytes.
  pose proof (slen_nonneg (h_Key h)). pose proof (blen_nonneg (h_Value h)). lia.
Qed.

Lemma SizeBytes_bounds r : 0 <= blen (r_Key r) <= SizeBytes r ∧ 0 <= blen (r_Value r) <= SizeBytes r.
Proof.
  unfold SizeBytes. pose proof (header_bytes_mono (r_Headers r) (blen (r_Key r) + blen (r_Value r))).
  pose proof (blen_nonneg (r_Key r)). pose proof (blen_nonneg (r_Value r)). lia.
Qed.
#[export] Hint Resolve slen_nonneg blen_nonneg : go.
