(* ===== verification/Media.v ===== *)
(** * internal/api/media.go and internal/api/errors.go

    Content negotiation of the v2 endpoints and the error responses. *)

From S2P Require Import Prelude.
From S2P Require Import GoStrings.
From S2P Require Import Strconv.
From S2P Require Import GoErrors.
From S2P Require Import Json.
From S2P Require Import Mime.
Local Open Scope Z_scope.

(** ** media.go *)

Definition mediaKafkaV2 : string := "application/vnd.kafka.v2+json".
Definition mediaKafkaJSONV2 : string := "application/vnd.kafka.json.v2+json".
Definition mediaKafkaBinaryV2 : string := "application/vnd.kafka.binary.v2+json".
Definition mediaKafkaAvroV2 : string := "application/vnd.kafka.avro.v2+json".
Definition mediaKafkaProtobufV2 : string := "application/vnd.kafka.protobuf.v2+json".
Definition mediaKafkaJSONSchV2 : string := "application/vnd.kafka.jsonschema.v2+json".
Definition mediaJSON : string := "application/json".

Inductive payloadFormat :=
  formatJSON | formatBinary | formatAvro | formatProtobuf | formatJSONSchema.

#[export] Instance payloadFormat_eq_dec : EqDecision payloadFormat.
Proof. solve_decision. Defined.

(** [payloadFormat.String]. *)
Definition format_String (f : payloadFormat) : string :=
  match f with
  | formatBinary => "binary"
  | formatAvro => "avro"
  | formatProtobuf => "protobuf"
  | formatJSONSchema => "jsonschema"
  | formatJSON => "json"
  end.

Definition schemaType (f : payloadFormat) : string :=
  match f with
  | formatAvro => "AVRO"
  | formatProtobuf => "PROTOBUF"
  | formatJSONSchema => "JSONSCHEMA"
  | _ => ""
  end.

(** The format, [None] when the second result is false. *)
Definition parseContentType (header : string) : option payloadFormat :=
  if String.eqb (TrimSpace header) "" then Some formatJSON
  else match ParseMediaType header with
  | None => None
  | Some mt =>
      let mt := ToLower mt in
      if bool_decide (mt ∈ [mediaKafkaJSONV2; mediaKafkaV2; mediaJSON]) then Some formatJSON
      else if String.eqb mt mediaKafkaBinaryV2 then Some formatBinary
      else if String.eqb mt mediaKafkaAvroV2 then Some formatAvro
      else if String.eqb mt mediaKafkaProtobufV2 then Some formatProtobuf
      else if String.eqb mt mediaKafkaJSONSchV2 then Some formatJSONSchema
      else None
  end.

Definition accepted_types : list string :=
  ["*/*"; "application/*"; mediaKafkaV2; mediaKafkaJSONV2; mediaKafkaBinaryV2;
   mediaKafkaAvroV2; mediaKafkaProtobufV2; mediaKafkaJSONSchV2; mediaJSON].

Definition accepts_part (part : string) : bool :=
  match ParseMediaType (TrimSpace part) with
  | None => false
  | Some mt => bool_decide (ToLower mt ∈ accepted_types)
  end.

(** [acceptsResponse] on the value of the Accept header. *)
Definition acceptsResponse (header : string) : bool :=
  let accept := TrimSpace header in
  if String.eqb accept "" then true
  else existsb accepts_part (Split accept ",").

(** ** errors.go *)

Definition errorCodeBadRequest : Z := 400.
Definition errorCodeUnauthorized : Z := 401.
Definition errorCodeForbidden : Z := 403.
Definition errorCodeNotAcceptable : Z := 406.
Definition errorCodeUnsupportedMedia : Z := 415.
Definition errorCodeUnprocessable : Z := 422.
Definition errorCodeTooManyRequests : Z := 429.
Definition errorCodeProduceUnavailable : Z := 503.
Definition errorCodeTimeout : Z := 504.

Definition rateLimitMessage : string :=
  "Request rate limit exceeded: The rate limit of requests per second has been exceeded.".

(** [json.NewEncoder(w).Encode(errorResponse{...})]. *)
Definition errorResponse (code : Z) (message : string) : string :=
  qt "{'error_code':" +:+ Itoa code +:+ qt ",'message':" +:+ json_string message +:+ "}" +:+ nl.

(** [classifyProduceError]: status, code, message. *)
Definition classifyProduceError (err : error) : Z * Z * string :=
  if errors_Is err ErrOverloaded
  then (429, errorCodeTooManyRequests, "producer is overloaded")
  else if errors_Is err errContextCanceled
  then (504, errorCodeTimeout, "produce request timed out")
  else (503, errorCodeProduceUnavailable, Error err).
