(* ===== verification/Types.v ===== *)
(** * internal/api/types.go

    Decoding and validation of v2 produce requests, and the v2 response. *)

From S2P Require Import Prelude.
From S2P Require Import GoStrings.
From S2P Require Import Strconv.
From S2P Require Import GoErrors.
From S2P Require Import Json.
From S2P Require Import Base64.
From S2P Require Import SchemaTypes.
From S2P Require Import Producer.
From S2P Require Import Media.
Local Open Scope Z_scope.

(** ** The request document *)

(** [type nullableRaw struct] and its [UnmarshalJSON]. *)
Record nullableRaw := { Present : bool; Raw : string }.
Definition zero_nullableRaw : nullableRaw := {| Present := false; Raw := "" |}.
Definition nullableRaw_UnmarshalJSON (b : string) : nullableRaw :=
  {| Present := true; Raw := b |}.

(** [type rawHeader struct]. *)
Record rawHeader := { rh_Key : string; rh_Value : nullableRaw }.
Definition zero_rawHeader : rawHeader := {| rh_Key := ""; rh_Value := zero_nullableRaw |}.

(** [type rawRecord struct]. *)
Record rawRecord := {
  rr_Key : nullableRaw;
  rr_Value : nullableRaw;
  rr_Partition : option Z;
  rr_Headers : gslice rawHeader;
}.
Definition zero_rawRecord : rawRecord :=
  {| rr_Key := zero_nullableRaw; rr_Value := zero_nullableRaw; rr_Partition := None;
     rr_Headers := Build_gslice None [] |}.

(** [type rawProduceRequest struct]. *)
Record rawProduceRequest := {
  rp_KeySchemaID : option Z;
  rp_KeySchema : string;
  rp_ValueSchemaID : option Z;
  rp_ValueSchema : string;
  rp_Records : gslice rawRecord;
}.
Definition zero_rawProduceRequest : rawProduceRequest :=
  {| rp_KeySchemaID := None; rp_KeySchema := ""; rp_ValueSchemaID := None;
     rp_ValueSchema := ""; rp_Records := Build_gslice None [] |}.

(** The decoding [json.Unmarshal] derives from the field tags. *)
Definition rawHeader_field (cx : dctx) (cur : rawHeader) (key : string) (j : json)
  : dec rawHeader :=
  match field_of ["key"; "value"] key with
  | Some 0%nat =>
      let! x := decode_string (in_field cx "rawHeader" "key") (rh_Key cur) j in
      dret {| rh_Key := x; rh_Value := rh_Value cur |}
  | Some 1%nat =>
      dret {| rh_Key := rh_Key cur; rh_Value := nullableRaw_UnmarshalJSON (jraw j) |}
  | _ => dret cur
  end.

Definition rawRecord_field (cx : dctx) (cur : rawRecord) (key : string) (j : json)
  : dec rawRecord :=
  let '(Build_rawRecord k v p hs) := cur in
  match field_of ["key"; "value"; "partition"; "headers"] key with
  | Some 0%nat => dret (Build_rawRecord (nullableRaw_UnmarshalJSON (jraw j)) v p hs)
  | Some 1%nat => dret (Build_rawRecord k (nullableRaw_UnmarshalJSON (jraw j)) p hs)
  | Some 2%nat =>
      let! x := decode_int_ptr 32 "int32" (in_field cx "rawRecord" "partition") p j in
      dret (Build_rawRecord k v x hs)
  | Some 3%nat =>
      let cx := in_field cx "rawRecord" "headers" in
      let! x := decode_slice zero_rawHeader
                  (decode_struct (rawHeader_field cx) "api.rawHeader" cx)
                  "[]api.rawHeader" cx hs j in
      dret (Build_rawRecord k v p x)
  | _ => dret cur
  end.

Definition rawProduceRequest_field (cur : rawProduceRequest) (key : string) (j : json)
  : dec rawProduceRequest :=
  let '(Build_rawProduceRequest ki ks vi vs rs) := cur in
  let cx f := in_field ctx0 "rawProduceRequest" f in
  match field_of ["key_schema_id"; "key_schema"; "value_schema_id"; "value_schema"; "records"]
          key with
  | Some 0%nat => let! x := decode_int_ptr 64 "int" (cx "key_schema_id") ki j in
                  dret (Build_rawProduceRequest x ks vi vs rs)
  | Some 1%nat => let! x := decode_string (cx "key_schema") ks j in
                  dret (Build_rawProduceRequest ki x vi vs rs)
  | Some 2%nat => let! x := decode_int_ptr 64 "int" (cx "value_schema_id") vi j in
                  dret (Build_rawProduceRequest ki ks x vs rs)
  | Some 3%nat => let! x := decode_string (cx "value_schema") vs j in
                  dret (Build_rawProduceRequest ki ks vi x rs)
  | Some 4%nat =>
      let! x := decode_slice zero_rawRecord
                  (decode_struct (rawRecord_field (cx "records")) "api.rawRecord" (cx "records"))
                  "[]api.rawRecord" (cx "records") rs j in
      dret (Build_rawProduceRequest ki ks vi vs x)
  | _ => dret cur
  end.

Definition Unmarshal_request (body : string) : res rawProduceRequest :=
  Unmarshal (decode_struct rawProduceRequest_field "api.rawProduceRequest" ctx0)
    zero_rawProduceRequest body.

(** ** Limits *)

(** [type decodeLimits struct]. *)
Record decodeLimits := {
  MaxRecords : Z;
  MaxRecordBytes : Z;
  MaxKeyBytes : Z;
  MaxHeaders : Z;
  MaxHeaderBytes : Z;
}.

Definition positive_or (v def : Z) : Z := if v <=? 0 then def else v.

(** [decodeLimits.withDefaults]. *)
Definition limits_withDefaults (l : decodeLimits) : decodeLimits :=
  {| MaxRecords := positive_or (MaxRecords l) 1000;
     MaxRecordBytes := positive_or (MaxRecordBytes l) (1024 * 1024);
     MaxKeyBytes := positive_or (MaxKeyBytes l) (1024 * 1024);
     MaxHeaders := positive_or (MaxHeaders l) 64;
     MaxHeaderBytes := positive_or (MaxHeaderBytes l) (64 * 1024) |}.

(** ** Values *)

Fixpoint raw_is_compact (inString escaped : bool) (raw : string) : bool :=
  match raw with
  | EmptyString => true
  | String b raw =>
      if inString then
        if escaped then raw_is_compact true false raw
        else if Ascii.eqb b "\" then raw_is_compact true true raw
        else if Ascii.eqb b dq then raw_is_compact false false raw
        else raw_is_compact true false raw
      else if Ascii.eqb b dq then raw_is_compact true false raw
      else if is_space b then false
      else raw_is_compact false false raw
  end.

Definition jsonRawIsCompact (raw : string) : bool := raw_is_compact false false raw.

Definition api_isJSONNull (raw : string) : bool := String.eqb (TrimSpace raw) "null".

Definition decodeJSONValue (raw : string) : res string :=
  let trimmed := TrimSpace raw in
  if jsonRawIsCompact trimmed then Ok trimmed else Compact trimmed.

Definition decodeNullableValue (v : nullableRaw) (format : payloadFormat)
  : res (option string) :=
  if negb (Present v) || api_isJSONNull (Raw v) then Ok None
  else match format with
  | formatBinary =>
      match Unmarshal (decode_string ctx0) "" (Raw v) with
      | Err _ => Err (ENew "binary payloads must be base64 strings or null")
      | Ok encoded =>
          match DecodeString encoded with
          | None => Err (EBinaryDecode encoded)
          | Some decoded => Ok (Some decoded)
          end
      end
  | _ => let? b := decodeJSONValue (Raw v) in Ok (Some b)
  end.

(** ** Headers *)

Fixpoint decode_headers_from (i : Z) (headers : list rawHeader) (format : payloadFormat)
    (limits : decodeLimits) : res (list Header) :=
  match headers with
  | [] => Ok []
  | h :: headers =>
      if String.eqb (rh_Key h) "" then
        Err (ENew ("headers[" +:+ Itoa i +:+ "].key is required"))
      else if negb (Present (rh_Value h)) then
        Err (ENew ("headers[" +:+ Itoa i +:+ "].value is required"))
      else match decodeNullableValue (rh_Value h) format with
      | Err e => Err (EWrap ("headers[" +:+ Itoa i +:+ "].value: ") e)
      | Ok v =>
          if MaxHeaderBytes limits <? slen (rh_Key h) + blen v then
            Err (ENew ("headers[" +:+ Itoa i +:+ "] exceeds configured size limit"))
          else
            let? out := decode_headers_from (i + 1) headers format limits in
            Ok ({| h_Key := rh_Key h; h_Value := v |} :: out)
      end
  end.

Definition decodeHeaders (headers : list rawHeader) (format : payloadFormat)
    (limits : decodeLimits) : res (list Header) :=
  if (length headers =? 0)%nat then Ok []
  else if MaxHeaders limits <? Z.of_nat (length headers) then
    Err (ENew ("too many headers: got " +:+ Itoa (Z.of_nat (length headers)) +:+
               ", limit " +:+ Itoa (MaxHeaders limits)))
  else decode_headers_from 0 headers format limits.

(** ** Requests *)

(** [type produceMetadata struct]. *)
Record produceMetadata := { pm_KeySchemaID : option Z; pm_ValueSchemaID : option Z }.

Section decode.
(** The state behind the schema encoder. *)
Context {R : Type}.

(** A value of the interface [schemaEncoder]: nil is [None].  An interface
    that holds a nil [*Encoder] is not nil. *)
Definition schemaEncoder : Type :=
  option (string → bool → option RequestData → R → res (option string * Metadata) * R).

Definition decodeV2NullableValue (topic : string) (key : bool) (v : nullableRaw)
    (format : payloadFormat) (schemaID : option Z) (schemaText : string)
    (enc : schemaEncoder) (r : R) : res (option string * Metadata) * R :=
  if String.eqb (schemaType format) "" then
    (let? value := decodeNullableValue v format in Ok (value, zero_Metadata), r)
  else match enc with
  | None => (Err (ENew ("schema registry is required for " +:+ format_String format +:+
                        " payloads")), r)
  | Some encode =>
      encode topic key (Some
        {| rd_Type := schemaType format;
           rd_Subject := "";
           rd_SubjectNameStrategy :=
             if is_some schemaID then StrategyTopicName else "";
           rd_SchemaID := schemaID;
           rd_SchemaVersion := None;
           rd_Schema := schemaText;
           rd_Data := Raw v;
           rd_DataPresent := Present v |}) r
  end.

Definition record_prefix (i : Z) (what : string) : string :=
  "records[" +:+ Itoa i +:+ "]" +:+ what.

(** The error of a key or value, as the handler reports it. *)
Definition value_error (i : Z) (what : string) (err : error) : error :=
  match as_binary_decode err with
  | Some data => EValidation (binary_decode_msg data)
  | None => EValidation (record_prefix i (what +:+ ": " +:+ Error err))
  end.

(** The end of a turn of the loop: build the record and check its size. *)
Definition record_sized (i : Z) (limits : decodeLimits) (meta : produceMetadata) (r : R)
    (topic : string) (key value : option string) (headers : list Header)
    (partition : option Z) : res PRecord * produceMetadata * R :=
  let record := {| r_Topic := topic; r_Key := key; r_Value := value;
                   r_Headers := headers; r_Partition := partition |} in
  if MaxRecordBytes limits <? SizeBytes record then
    (Err (EValidation (record_prefix i " exceeds configured record size limit")), meta, r)
  else (Ok record, meta, r).

(** One turn of the loop of [decodeProduceRequestWithSchema]. *)
Definition decode_record (topic : string) (format : payloadFormat) (limits : decodeLimits)
    (enc : schemaEncoder) (pathPartition : option Z) (req : rawProduceRequest)
    (i : Z) (rr : rawRecord) (meta : produceMetadata) (r : R)
  : res PRecord * produceMetadata * R :=
  match decodeV2NullableValue topic true (rr_Key rr) format (rp_KeySchemaID req)
          (rp_KeySchema req) enc r with
  | (Err err, r) => (Err (value_error i ".key" err), meta, r)
  | (Ok (key, keyMeta), r) =>
      let meta := {| pm_KeySchemaID := match pm_KeySchemaID meta with
                                       | None => md_SchemaID keyMeta
                                       | Some x => Some x end;
                     pm_ValueSchemaID := pm_ValueSchemaID meta |} in
      match decodeV2NullableValue topic false (rr_Value rr) format (rp_ValueSchemaID req)
              (rp_ValueSchema req) enc r with
      | (Err err, r) => (Err (value_error i ".value" err), meta, r)
      | (Ok (value, valueMeta), r) =>
          let meta := {| pm_KeySchemaID := pm_KeySchemaID meta;
                         pm_ValueSchemaID := match pm_ValueSchemaID meta with
                                             | None => md_SchemaID valueMeta
                                             | Some x => Some x end |} in
          match decodeHeaders (default [] (elems (rr_Headers rr))) format limits with
          | Err err => (Err (EValidation (record_prefix i (".headers: " +:+ Error err))), meta, r)
          | Ok headers =>
              if MaxKeyBytes limits <? blen key then
                (Err (EValidation (record_prefix i ".key exceeds configured size limit")), meta, r)
              else
                let partition :=
                  match pathPartition with Some p => Some p | None => rr_Partition rr end in
                match pathPartition, rr_Partition rr with
                | None, Some p =>
                    if p <? 0 then
                      (Err (EValidation (record_prefix i ".partition must be non-negative")),
                       meta, r)
                    else record_sized i limits meta r topic key value headers partition
                | _, _ => record_sized i limits meta r topic key value headers partition
                end
          end
      end
  end.

Fixpoint decode_records (topic : string) (format : payloadFormat) (limits : decodeLimits)
    (enc : schemaEncoder) (pathPartition : option Z) (req : rawProduceRequest)
    (i : Z) (rrs : list rawRecord) (meta : produceMetadata) (r : R)
  : res (list PRecord) * produceMetadata * R :=
  match rrs with
  | [] => (Ok [], meta, r)
  | rr :: rrs =>
      match decode_record topic format limits enc pathPartition req i rr meta r with
      | (Err err, meta, r) => (Err err, meta, r)
      | (Ok record, meta, r) =>
          match decode_records topic format limits enc pathPartition req (i + 1) rrs meta r with
          | (Err err, meta, r) => (Err err, meta, r)
          | (Ok records, meta, r) => (Ok (record :: records), meta, r)
          end
      end
  end.

Definition zero_produceMetadata : produceMetadata := Build_produceMetadata None None.

Definition decodeProduceRequestWithSchema (topic body : string) (format : payloadFormat)
    (limits : decodeLimits) (enc : schemaEncoder) (forcedPartition : option Z) (r : R)
  : res (list PRecord) * produceMetadata * R :=
  let limits := limits_withDefaults limits in
  match Unmarshal_request body with
  | Err err => (Err (EValidation (Error err)), zero_produceMetadata, r)
  | Ok req =>
      match elems (rp_Records req) with
      | None => (Err (EUnprocessable "request body must include records"),
                 zero_produceMetadata, r)
      | Some [] => (Err (EUnprocessable "records must not be empty"),
                    zero_produceMetadata, r)
      | Some rrs =>
          if MaxRecords limits <? Z.of_nat (length rrs) then
            (Err (EValidation ("too many records: got " +:+ Itoa (Z.of_nat (length rrs)) +:+
                               ", limit " +:+ Itoa (MaxRecords limits))),
             zero_produceMetadata, r)
          else decode_records topic format limits enc forcedPartition req 0 rrs
                 zero_produceMetadata r
      end
  end.
End decode.

Definition decodeProduceRequest (topic body : string) (format : payloadFormat)
    (limits : decodeLimits) (forcedPartition : option Z) : res (list PRecord) :=
  (decodeProduceRequestWithSchema topic body format limits None forcedPartition tt).1.1.

(** ** Responses *)

Definition confluentKafkaRecordErrorCode : Z := 50002.

Definition resultFailed (r : Result) : bool :=
  is_some (res_Err r) || is_some (res_ErrorCode r).

Definition appendNullableInt (value : option Z) : string :=
  match value with None => "null" | Some v => Itoa v end.

(** One element of the offsets. *)
Definition produceOffset (r : Result) : string :=
  "{" +:+
  (if resultFailed r then
     qt "'partition':null,'offset':null,'error_code':" +:+
     Itoa (default confluentKafkaRecordErrorCode (res_ErrorCode r)) +:+
     qt ",'error':" +:+
     Quote (match res_Err r with Some e => Error e | None => "Kafka produce failed" end)
   else
     qt "'partition':" +:+ Itoa (res_Partition r) +:+ qt ",'offset':" +:+
     Itoa (res_Offset r) +:+ qt ",'error_code':null,'error':null") +:+
  "}".

Definition appendProduceResponse (results : list Result) (meta : produceMetadata) : string :=
  qt "{'offsets':[" +:+ Join (produceOffset <$> results) "," +:+
  qt "],'key_schema_id':" +:+ appendNullableInt (pm_KeySchemaID meta) +:+
  qt ",'value_schema_id':" +:+ appendNullableInt (pm_ValueSchemaID meta) +:+ "}" +:+ nl.

(** Successes and failures. *)
Definition countResultStatus (results : list Result) : Z * Z :=
  foldl (λ n r, if resultFailed r then (n.1, n.2 + 1) else (n.1 + 1, n.2)) (0, 0) results.
