(* ===== verification/TypesFacts.v ===== *)
(** * Correctness of internal/api/types.go

    What a decoded v2 request satisfies, the errors it can fail with, the JSON
    fast path, and the round trips through request and response texts. *)

From S2P Require Import Prelude.
From S2P Require Import GoStrings.
From S2P Require Import Strconv.
From S2P Require Import GoErrors.
From S2P Require Import Json.
From S2P Require Import JsonFacts.
From S2P Require Import Base64.
From S2P Require Import SchemaTypes.
From S2P Require Import Producer.
From S2P Require Import Media.
From S2P Require Import Types.
Local Open Scope Z_scope.

(** ** Invariants of decoding *)

(** Every value the decoder can end with satisfies [P], saved errors aside. *)
Definition yields {A} (P : A → Prop) (m : dec A) : Prop :=
  ∀ sv a sv', m sv = (inr a, sv') → P a.

Lemma yields_ret {A} (P : A → Prop) a : P a → yields P (dret a).
Proof. intros Ha sv b sv' [= <- <-]. done. Qed.

Lemma yields_type_error {A} (P : A → Prop) cx value typ a :
  P a → yields P (type_error cx value typ a).
Proof. intros Ha sv b sv' [= <- <-]. done. Qed.

Lemma yields_bind {A B} (P : A → Prop) (Q : B → Prop) (m : dec B) f :
  yields Q m → (∀ b, Q b → yields P (f b)) → yields P (dbind m f).
Proof.
  intros Hm Hf sv a sv'. unfold dbind. destruct (m sv) as [[e|b] s] eqn:E; [done|].
  apply Hf. by eapply Hm.
Qed.

Section yields.
Context {A : Type} (P : A → Prop).

Definition slice_all (g : gslice A) : Prop :=
  Forall P (default [] (elems g)) ∧ Forall P (spare g).

Context (zero : A) (decode : A → json → dec A).
Context (Hzero : P zero) (Hdecode : ∀ cur j, P cur → yields P (decode cur j)).

Lemma yields_elems l cells : Forall P cells →
  yields (λ r, Forall P r.1 ∧ Forall P r.2) (decode_elems zero decode cells l).
Proof.
  revert cells. induction l as [|j l IH]; intros cells Hc; simpl.
  - intros ??? [= <- <-]. done.
  - intros sv a sv'. unfold dbind.
    destruct (decode _ j sv) as [[e|b] s] eqn:E; [done|].
    destruct (decode_elems _ _ _ l s) as [[e|r] s'] eqn:E'; [done|].
    intros [= <- <-]. apply IH in E' as [H1 H2]; [|by destruct Hc].
    apply Hdecode in E; [split; [by constructor|done]|by destruct Hc].
Qed.

Lemma yields_slice typ cx cur j :
  slice_all cur → yields slice_all (decode_slice zero decode typ cx cur j).
Proof.
  intros [H1 H2]. unfold decode_slice.
  destruct (jval j) as [| | | |[|j' l]|];
    try (by apply yields_type_error); try (by intros ??? [= <- <-]; split; constructor).
  intros sv a sv'. unfold dbind.
  destruct (decode_elems _ _ _ _ sv) as [[e|r] s] eqn:E; [done|].
  intros [= <- <-]. apply yields_elems in E; [done|]. by apply Forall_app.
Qed.

Lemma yields_struct field typ cx cur j :
  (∀ cur k j, P cur → yields P (field cur k j)) →
  P cur → yields P (decode_struct field typ cx cur j).
Proof.
  intros Hf Hc. unfold decode_struct.
  destruct (jval j); try (by apply yields_type_error); [by apply yields_ret|].
  revert cur Hc. induction l as [|[k j'] l IH]; intros cur Hc; simpl; [by apply yields_ret|].
  intros sv a sv'. unfold dbind. destruct (field cur k j' sv) as [[e|b] s] eqn:E; [done|].
  intros H. eapply IH; [|exact H]. exact (Hf _ _ _ Hc _ _ _ E).
Qed.

Lemma Unmarshal_all data a : Unmarshal decode zero data = Ok a → P a.
Proof.
  unfold Unmarshal. destruct (json_parse data) as [j|]; [|done].
  destruct (decode zero j None) as [[e|b] [e'|]] eqn:E; try done.
  intros [= <-]. by eapply Hdecode.
Qed.
End yields.

Definition int_in (bits : Z) (o : option Z) : Prop :=
  match o with Some z => - 2 ^ (bits - 1) <= z < 2 ^ (bits - 1) | None => True end.

Lemma ParseInt_in bits s z : ParseInt bits s = Some z → int_in bits (Some z).
Proof.
  unfold ParseInt, int_in. destruct (match s with "" => _ | String _ _ => _ end) as [neg ds].
  destruct (parse_nat ds) as [n|]; [|done]. destruct (_ && _)%bool eqn:E; [|done].
  zbool. intros [= <-]. lia.
Qed.

Lemma yields_int_ptr bits typ cx cur j :
  0 < bits → int_in bits cur → yields (int_in bits) (decode_int_ptr bits typ cx cur j).
Proof.
  intros Hb Hc. unfold decode_int_ptr.
  assert (int_in bits (Some (default 0 cur))).
  { destruct cur; [done|]. simpl. pose proof (Z.pow_pos_nonneg 2 (bits - 1)). lia. }
  destruct (jval j); try (by apply yields_type_error); [by apply yields_ret|].
  destruct (ParseInt bits lit) eqn:E; [|by apply yields_type_error].
  apply yields_ret. by apply ParseInt_in in E.
Qed.

(** The integers of a decoded request are inside their Go types. *)
Definition record_ints (rr : rawRecord) : Prop := int_in 32 (rr_Partition rr).
Definition request_ints (req : rawProduceRequest) : Prop :=
  int_in 64 (rp_KeySchemaID req) ∧ int_in 64 (rp_ValueSchemaID req) ∧
  slice_all record_ints (rp_Records req).

Lemma yields_trivial {A} (m : dec A) : yields (λ _, True) m.
Proof. done. Qed.

Lemma rawRecord_field_ints cx cur k j :
  record_ints cur → yields record_ints (rawRecord_field cx cur k j).
Proof.
  intros H. unfold rawRecord_field. destruct cur as [key v p hs].
  destruct (field_of _ k) as [[|[|[|[|]]]]|]; try (by apply yields_ret).
  - eapply yields_bind; [by apply (yields_int_ptr 32)|]. intros. by apply yields_ret.
  - eapply yields_bind; [apply yields_trivial|]. intros. by apply yields_ret.
Qed.

Lemma request_field_ints cur k j :
  request_ints cur → yields request_ints (rawProduceRequest_field cur k j).
Proof.
  intros (H1&H2&H3). unfold rawProduceRequest_field. destruct cur as [ki ks vi vs rs].
  destruct (field_of _ k) as [[|[|[|[|[|]]]]]|]; try (by apply yields_ret).
  - eapply yields_bind; [by apply (yields_int_ptr 64)|]. intros. by apply yields_ret.
  - eapply yields_bind; [apply yields_trivial|]. intros. by apply yields_ret.
  - eapply yields_bind; [by apply (yields_int_ptr 64)|]. intros. by apply yields_ret.
  - eapply yields_bind; [apply yields_trivial|]. intros. by apply yields_ret.
  - eapply yields_bind; [|intros; by apply yields_ret]. apply yields_slice; [done| |done].
    intros. apply yields_struct; [|done]. intros. by apply rawRecord_field_ints.
Qed.

Lemma Unmarshal_request_ints body req : Unmarshal_request body = Ok req → request_ints req.
Proof.
  intros H. eapply (Unmarshal_all request_ints); [| |exact H].
  - repeat split; constructor.
  - intros. apply yields_struct; [|done]. intros. by apply request_field_ints.
Qed.

(** ** What is accepted *)

Definition header_within (limits : decodeLimits) (h : Header) : Prop :=
  h_Key h ≠ "" ∧ slen (h_Key h) + blen (h_Value h) <= MaxHeaderBytes limits.

(** A record that respects every limit the proxy was configured with. *)
Record within_limits (topic : string) (limits : decodeLimits) (forced : option Z)
    (r : PRecord) : Prop := {
  within_topic : r_Topic r = topic;
  within_key : blen (r_Key r) <= MaxKeyBytes limits;
  within_headers : Z.of_nat (length (r_Headers r)) <= MaxHeaders limits;
  within_header : Forall (header_within limits) (r_Headers r);
  within_size : SizeBytes r <= MaxRecordBytes limits;
  within_forced : ∀ p, forced = Some p → r_Partition r = Some p;
  within_partition : ∀ p, forced = None → r_Partition r = Some p → 0 <= p < 2 ^ 31;
}.

(** The record a v2 record document stands for: one key, value and header
    payload each, in the payload format of the request. *)
Definition header_of (format : payloadFormat) (rh : rawHeader) (h : Header) : Prop :=
  h_Key h = rh_Key rh ∧ Present (rh_Value rh) = true ∧
  decodeNullableValue (rh_Value rh) format = Ok (h_Value h).

Record record_of (format : payloadFormat) (forced : option Z) (rr : rawRecord) (r : PRecord)
  : Prop := {
  of_key : decodeNullableValue (rr_Key rr) format = Ok (r_Key r);
  of_value : decodeNullableValue (rr_Value rr) format = Ok (r_Value r);
  of_headers : Forall2 (header_of format) (default [] (elems (rr_Headers rr))) (r_Headers r);
  of_partition : r_Partition r = match forced with Some p => Some p | None => rr_Partition rr end;
}.

Lemma limits_positive l :
  0 < MaxRecords (limits_withDefaults l) ∧ 0 < MaxRecordBytes (limits_withDefaults l) ∧
  0 < MaxKeyBytes (limits_withDefaults l) ∧ 0 < MaxHeaders (limits_withDefaults l) ∧
  0 < MaxHeaderBytes (limits_withDefaults l).
Proof.
  unfold limits_withDefaults, positive_or. simpl. repeat split; split_if; zbool; lia.
Qed.

Lemma decode_headers_from_iff i headers format limits out :
  decode_headers_from i headers format limits = Ok out ↔
  Forall2 (header_of format) headers out ∧ Forall (header_within limits) out.
Proof.
  revert i out. induction headers as [|h headers IH]; intros i out; simpl.
  { split; [intros [= <-]; split; constructor|].
    intros [H _]. by apply Forall2_nil_inv_l in H as ->. }
  split.
  - intros H. repeat split_if_in H; try done.
    destruct (decodeNullableValue (rh_Value h) format) as [v|] eqn:Ev; [|done].
    split_if_in H; [done|]. zbool.
    destruct (decode_headers_from _ headers format limits) eqn:E; [|done].
    injection H as <-. apply IH in E as [H1 H2].
    split; constructor; try done; split; simpl; try done.
    by apply String.eqb_neq.
  - intros [H1 H2]. inversion H1 as [|? h' ? out' (Hk&Hp&Hv) Ht]; subst.
    apply Forall_cons in H2 as [[Hne Hs] H2].
    rewrite Hp, Hv. rewrite Hk in Hne, Hs. apply String.eqb_neq in Hne. rewrite Hne. simpl.
    destruct (MaxHeaderBytes limits <? _) eqn:E; zbool; [lia|].
    rewrite (proj2 (IH (i + 1) out') (conj Ht H2)), <- Hk. by destruct h'.
Qed.

Lemma decodeHeaders_iff headers format limits out :
  0 < MaxHeaders limits →
  decodeHeaders headers format limits = Ok out ↔
  Forall2 (header_of format) headers out ∧ Forall (header_within limits) out ∧
  Z.of_nat (length out) <= MaxHeaders limits.
Proof.
  intros Hpos. unfold decodeHeaders. destruct headers as [|h headers].
  { simpl. split; [intros [= <-]; repeat split; try constructor; simpl; lia|].
    intros [H _]. by apply Forall2_nil_inv_l in H as ->. }
  set (hs := h :: headers). simpl (_ =? 0)%nat. cbv iota.
  destruct (MaxHeaders limits <? Z.of_nat (length hs)) eqn:E; zbool.
  - split; [done|]. intros (H1&_&H2). apply Forall2_length in H1. lia.
  - rewrite decode_headers_from_iff. split; [|by intros (?&?&_)].
    intros [H1 H2]. split_and!; [done..|]. apply Forall2_length in H1. lia.
Qed.

Section decode_facts.
Context {R : Type} (topic : string) (format : payloadFormat) (limits : decodeLimits)
  (enc : @schemaEncoder R) (forced : option Z).
Context (Hheaders : 0 < MaxHeaders limits).

Lemma decode_record_within req i rr meta r record meta' r' :
  record_ints rr →
  decode_record topic format limits enc forced req i rr meta r = (Ok record, meta', r') →
  within_limits topic limits forced record.
Proof.
  intros Hints. unfold decode_record.
  destruct (decodeV2NullableValue _ true _ _ _ _ _ _) as [[[key km]|] r1]; [|done].
  destruct (decodeV2NullableValue _ false _ _ _ _ _ _) as [[[value vm]|] r2]; [|done].
  destruct (decodeHeaders _ _ _) as [headers|] eqn:Eh; [|done].
  apply decodeHeaders_iff in Eh as (Hf&Hw&Hl); [|done].
  destruct (MaxKeyBytes limits <? blen key) eqn:Ek; zbool; [done|].
  assert (∀ partition, (∀ p, forced = Some p → partition = Some p) →
    (∀ p, forced = None → partition = Some p → 0 <= p < 2 ^ 31) → ∀ meta r,
    record_sized i limits meta r topic key value headers partition = (Ok record, meta', r') →
    within_limits topic limits forced record) as Hs.
  { intros partition H1 H2 m s. unfold record_sized. split_if; zbool; [done|].
    intros [= <- _ _]. by split. }
  unfold record_ints, int_in in Hints.
  destruct forced as [p|]; destruct (rr_Partition rr) as [q|];
    [apply Hs; naive_solver..| |apply Hs; naive_solver].
  destruct (q <? 0) eqn:Eq; zbool; [done|]. apply Hs; naive_solver lia.
Qed.

Lemma decode_records_within req i rrs meta r records meta' r' :
  Forall record_ints rrs →
  decode_records topic format limits enc forced req i rrs meta r = (Ok records, meta', r') →
  Forall (within_limits topic limits forced) records ∧ length records = length rrs.
Proof.
  revert i meta r records. induction rrs as [|rr rrs IH]; intros i meta r records Hall; simpl.
  { intros [= <- _ _]. split; [constructor|done]. }
  apply Forall_cons in Hall as [Hrr Hall].
  destruct (decode_record _ _ _ _ _ _ _ _ _ _) as [[[record|] m1] r1] eqn:E1; [|done].
  destruct (decode_records _ _ _ _ _ _ _ _ _ _) as [[[records'|] m2] r2] eqn:E2; [|done].
  intros [= <- -> ->]. apply IH in E2 as [H1 H2]; [|done].
  apply decode_record_within in E1; [|done].
  split; [by constructor|]. simpl. congruence.
Qed.
End decode_facts.

(** What an accepted request satisfies. *)
Lemma accepted_within {R} (topic body : string) (format : payloadFormat)
    (limits : decodeLimits) (enc : @schemaEncoder R) (forced : option Z) (r r' : R)
    records meta :
  decodeProduceRequestWithSchema topic body format limits enc forced r
    = (Ok records, meta, r') →
  0 < Z.of_nat (length records) <= MaxRecords (limits_withDefaults limits) ∧
  Forall (within_limits topic (limits_withDefaults limits) forced) records.
Proof.
  unfold decodeProduceRequestWithSchema. pose proof (limits_positive limits) as (_&_&_&Hmh&_).
  destruct (Unmarshal_request body) as [req|] eqn:Eu; [|done].
  apply Unmarshal_request_ints in Eu as (_&_&Hall&_).
  destruct (elems (rp_Records req)) as [[|rr rrs]|]; [done| |done].
  split_if; [done|]. zbool. intros H. apply decode_records_within in H as [H1 H2]; [|done..].
  split; [|done]. simpl in *. lia.
Qed.

(** C9: whatever the payload format, the schema encoder and the state behind
    it do, an accepted v2 request has between one and [MaxRecords] records, and
    every record is for the topic of the path, respects the key, header and
    record limits (the defaults where the configuration has none), goes to the
    partition of the path when there is one, and otherwise to no partition or
    to a non-negative [int32]. *)
Theorem decode_respects_limits {R} (topic body : string) (format : payloadFormat)
    (limits : decodeLimits) (enc : @schemaEncoder R) (forced : option Z) (r r' : R)
    records meta :
  decodeProduceRequestWithSchema topic body format limits enc forced r
    = (Ok records, meta, r') →
  0 < Z.of_nat (length records) <= MaxRecords (limits_withDefaults limits) ∧
  Forall (within_limits topic (limits_withDefaults limits) forced) records.
Proof. apply accepted_within. Qed.

Definition example_body : string :=
  qt "{'records':[{'key':'k','value':{'a' : 1},'headers':[{'key':'h','value':null}]},{'partition':7}]}".
Definition no_limits : decodeLimits := Build_decodeLimits 0 0 0 0 0.

Definition example_records : list PRecord :=
  [ {| r_Topic := "t"; r_Key := Some (qt "'k'"); r_Value := Some (qt "{'a':1}");
       r_Headers := [Build_Header "h" None]; r_Partition := None |};
    {| r_Topic := "t"; r_Key := None; r_Value := None; r_Headers := [];
       r_Partition := Some 7 |} ].

Lemma decode_respects_limits_witness :
  0 < Z.of_nat (length example_records) <= MaxRecords (limits_withDefaults no_limits) ∧
  Forall (within_limits "t" (limits_withDefaults no_limits) None) example_records.
Proof.
  apply (decode_respects_limits "t" example_body formatJSON no_limits None None tt tt
           example_records zero_produceMetadata).
  vm_compute. reflexivity.
Defined.

(** ** What the plain formats decode to *)

Section plain_facts.
Context {R : Type} (topic : string) (format : payloadFormat) (limits : decodeLimits)
  (enc : @schemaEncoder R) (forced : option Z).
Context (Hformat : schemaType format = "") (Hheaders : 0 < MaxHeaders limits).

Lemma decode_plain_value key v id text (r : R) :
  decodeV2NullableValue topic key v format id text enc r =
    (match decodeNullableValue v format with
     | Ok value => Ok (value, zero_Metadata)
     | Err e => Err e
     end, r).
Proof. unfold decodeV2NullableValue. by rewrite Hformat. Qed.

Lemma decode_record_plain req i rr r res :
  decode_record topic format limits enc forced req i rr zero_produceMetadata r = res →
  res.1.2 = zero_produceMetadata ∧ res.2 = r.
Proof.
  intros <-. unfold decode_record. rewrite !decode_plain_value.
  destruct (decodeNullableValue _ _); [|done].
  destruct (decodeNullableValue _ _); [|done]. simpl.
  destruct (decodeHeaders _ _ _); [|done].
  unfold record_sized. by repeat case_match.
Qed.

Lemma decode_record_iff req i rr (r : R) record :
  record_ints rr →
  decode_record topic format limits enc forced req i rr zero_produceMetadata r
    = (Ok record, zero_produceMetadata, r) ↔
  within_limits topic limits forced record ∧ record_of format forced rr record.
Proof.
  intros Hints. split.
  - intros H. pose proof (decode_record_within _ _ _ _ _ Hheaders _ _ _ _ _ _ _ _ Hints H) as Hw.
    split; [done|]. revert H. unfold decode_record. rewrite !decode_plain_value.
    destruct (decodeNullableValue (rr_Key rr) format) as [key|] eqn:Ek; [|done].
    destruct (decodeNullableValue (rr_Value rr) format) as [value|] eqn:Ev; [|done]. simpl.
    destruct (decodeHeaders _ _ _) as [headers|] eqn:Eh; [|done].
    apply decodeHeaders_iff in Eh as (Hf&_&_); [|done].
    unfold record_sized. intros H.
    repeat case_match; try done; injection H as <-; by split.
  - intros [[Ht Hk Hh Hhs Hs Hfo Hp] [Ek Ev Eh Ep]]. unfold decode_record.
    rewrite !decode_plain_value, Ek, Ev. simpl.
    rewrite (proj2 (decodeHeaders_iff _ format limits _ Hheaders)
               (conj Eh (conj Hhs Hh))).
    unfold record_sized. destruct record as [t k v hs p]; simpl in *. subst t.
    destruct (MaxKeyBytes limits <? blen k) eqn:E1; zbool; [lia|].
    assert ((MaxRecordBytes limits <? SizeBytes (Build_PRecord topic k v hs p)) = false) as E2
      by (apply Z.ltb_ge; done).
    destruct forced as [q|]; subst p; [by rewrite E2; destruct (rr_Partition rr)|].
    rewrite E2. destruct (rr_Partition rr) as [q|] eqn:Eq; [|done].
    destruct (q <? 0) eqn:E3; zbool; [|done].
    specialize (Hp q eq_refl eq_refl). lia.
Qed.

Lemma decode_records_iff req i rrs (r : R) records :
  Forall record_ints rrs →
  decode_records topic format limits enc forced req i rrs zero_produceMetadata r
    = (Ok records, zero_produceMetadata, r) ↔
  Forall (within_limits topic limits forced) records ∧
  Forall2 (record_of format forced) rrs records.
Proof.
  revert i records. induction rrs as [|rr rrs IH]; intros i records Hall; simpl.
  { split; [intros [= <-]; split; constructor|].
    intros [_ H]. by apply Forall2_nil_inv_l in H as ->. }
  apply Forall_cons in Hall as [Hrr Hall].
  destruct (decode_record _ _ _ _ _ _ _ _ _ _) as [[res m1] r1] eqn:E1.
  pose proof (decode_record_plain _ _ _ _ _ E1) as [Hm Hr]. simpl in Hm, Hr. subst m1 r1.
  split.
  - destruct res as [record|]; [|done].
    destruct (decode_records _ _ _ _ _ _ _ _ _ _) as [[[records'|] m2] r2] eqn:E2; [|done].
    intros [= <- -> ->]. apply IH in E2 as [H1 H2]; [|done].
    apply decode_record_iff in E1 as [??]; [|done]. split; by constructor.
  - intros [H1 H2]. inversion H2 as [|? record ? records' Hof Hofs]; subst.
    apply Forall_cons in H1 as [Hw Hws].
    assert (res = Ok record) as ->.
    { pose proof (proj2 (decode_record_iff req i rr r record Hrr) (conj Hw Hof)) as E.
      rewrite E1 in E. by injection E. }
    by rewrite (proj2 (IH (i + 1) records' Hall) (conj Hws Hofs)).
Qed.

Lemma decode_records_plain req i rrs (r : R) :
  (decode_records topic format limits enc forced req i rrs zero_produceMetadata r).1.2 =
    zero_produceMetadata ∧
  (decode_records topic format limits enc forced req i rrs zero_produceMetadata r).2 = r.
Proof.
  revert i. induction rrs as [|rr rrs IH]; intros i; simpl; [done|].
  destruct (decode_record _ _ _ _ _ _ _ _ _ _) as [[res m1] r1] eqn:E1.
  apply decode_record_plain in E1 as [Hm Hr]. simpl in Hm, Hr. subst m1 r1.
  destruct res; [|done]. specialize (IH (i + 1)).
  by destruct (decode_records _ _ _ _ _ _ _ _ _ _) as [[[]?]?].
Qed.
End plain_facts.

(** The plain formats never ask the encoder, and leave the registry alone. *)
Lemma decode_records_encoder {R} topic (format : payloadFormat) limits (enc : @schemaEncoder R)
    forced req i rrs (r : R) :
  schemaType format = "" →
  (decode_records topic format limits enc forced req i rrs zero_produceMetadata r).1.1 =
  (decode_records topic format limits None forced req i rrs zero_produceMetadata tt).1.1.
Proof.
  intros Hf. revert i. induction rrs as [|rr rrs IH]; intros i; [done|]. cbn [decode_records].
  assert ((decode_record topic format limits enc forced req i rr zero_produceMetadata r).1.1 =
    (decode_record topic format limits None forced req i rr zero_produceMetadata tt).1.1) as E.
  { unfold decode_record. rewrite !decode_plain_value by done.
    destruct (decodeNullableValue _ _); [|done]. destruct (decodeNullableValue _ _); [|done].
    cbn. destruct (decodeHeaders _ _ _); [|done]. unfold record_sized. by repeat case_match. }
  pose proof (decode_record_plain topic format limits enc forced Hf req i rr r _ eq_refl) as [Hm Hr].
  pose proof (decode_record_plain topic format limits None forced Hf req i rr tt _ eq_refl)
    as [Hm' _].
  destruct (decode_record _ _ _ enc _ _ _ _ _ _) as [[res m] r1].
  destruct (decode_record _ _ _ None _ _ _ _ _ _) as [[res' m'] []]. cbn in *. subst.
  destruct res' as [record|]; [|done]. specialize (IH (i + 1)).
  destruct (decode_records _ _ _ enc _ _ _ _ _ _) as [[[]?]?];
    destruct (decode_records _ _ _ None _ _ _ _ _ _) as [[[]?]?]; cbn in *; congruence.
Qed.

Lemma decode_plain_encoder {R} topic body (format : payloadFormat) limits (enc : @schemaEncoder R)
    forced (r : R) :
  schemaType format = "" →
  decodeProduceRequestWithSchema topic body format limits enc forced r =
    (decodeProduceRequest topic body format limits forced, zero_produceMetadata, r).
Proof.
  intros Hf. unfold decodeProduceRequest, decodeProduceRequestWithSchema.
  destruct (Unmarshal_request body) as [req|]; [|done].
  destruct (elems (rp_Records req)) as [[|rr rrs]|]; [done| |done].
  destruct (_ <? _); [done|].
  pose proof (decode_records_plain topic format (limits_withDefaults limits) enc forced Hf req 0
    (rr :: rrs) r) as [Hm Hr].
  pose proof (decode_records_encoder topic format (limits_withDefaults limits) enc forced req 0
    (rr :: rrs) r Hf) as E.
  destruct (decode_records _ _ _ enc _ _ _ _ _ _) as [[??]?]. cbn [fst snd] in *. by subst.
Qed.

(** When the plain formats accept. *)
Lemma accepted_iff (topic body : string) (format : payloadFormat)
    (limits : decodeLimits) (forced : option Z) records :
  schemaType format = "" →
  decodeProduceRequest topic body format limits forced = Ok records ↔
  ∃ req rrs, Unmarshal_request body = Ok req ∧ elems (rp_Records req) = Some rrs ∧
    0 < Z.of_nat (length rrs) <= MaxRecords (limits_withDefaults limits) ∧
    Forall2 (record_of format forced) rrs records ∧
    Forall (within_limits topic (limits_withDefaults limits) forced) records.
Proof.
  intros Hf. pose proof (limits_positive limits) as (_&_&_&Hmh&_).
  unfold decodeProduceRequest, decodeProduceRequestWithSchema.
  destruct (Unmarshal_request body) as [req|] eqn:Eu; [|split; [done|by intros (?&?&?&_)]].
  pose proof (Unmarshal_request_ints _ _ Eu) as (_&_&Hall&_).
  split.
  - destruct (elems (rp_Records req)) as [[|rr rrs]|] eqn:Ee; [done| |done].
    split_if; [done|]. zbool. intros H. exists req, (rr :: rrs).
    set (rs := rr :: rrs) in *.
    destruct (decode_records_plain topic format (limits_withDefaults limits) None forced
                Hf req 0 rs tt) as [Hm Hr].
    assert (decode_records topic format (limits_withDefaults limits) None forced req 0 rs
              zero_produceMetadata tt = (Ok records, zero_produceMetadata, tt)) as E.
    { destruct (decode_records _ _ _ _ _ _ _ _ _ _) as [[??]?]. simpl in *. by subst. }
    apply decode_records_iff in E as [H1 H2]; [|done..].
    split_and!; try done; simpl; lia.
  - intros (req'&rrs&[= <-]&Ee&Hl&H2&H1). rewrite Ee in *.
    destruct rrs as [|rr rrs]; [simpl in Hl; lia|]. set (rs := rr :: rrs) in *.
    destruct (_ <? Z.of_nat (length rs)) eqn:El; zbool; [lia|].
    by rewrite (proj2 (decode_records_iff topic format (limits_withDefaults limits) None forced
                 Hf Hmh req 0 rs tt records Hall) (conj H1 H2)).
Qed.

(** C8: for the JSON and binary formats the decoder implements its
    specification exactly: it returns [records] if and only if the body is a
    request document with between one and [MaxRecords] record documents, the
    i-th record is the one the i-th document stands for (its key, value,
    headers and partition), and every record is within the limits. *)
Theorem decode_plain_iff (topic body : string) (format : payloadFormat)
    (limits : decodeLimits) (forced : option Z) records :
  schemaType format = "" →
  decodeProduceRequest topic body format limits forced = Ok records ↔
  ∃ req rrs, Unmarshal_request body = Ok req ∧ elems (rp_Records req) = Some rrs ∧
    0 < Z.of_nat (length rrs) <= MaxRecords (limits_withDefaults limits) ∧
    Forall2 (record_of format forced) rrs records ∧
    Forall (within_limits topic (limits_withDefaults limits) forced) records.
Proof. apply accepted_iff. Qed.

Lemma decode_plain_iff_witness :
  ∃ req rrs, Unmarshal_request example_body = Ok req ∧ elems (rp_Records req) = Some rrs ∧
    0 < Z.of_nat (length rrs) <= MaxRecords (limits_withDefaults no_limits) ∧
    Forall2 (record_of formatJSON None) rrs example_records ∧
    Forall (within_limits "t" (limits_withDefaults no_limits) None) example_records.
Proof.
  apply (decode_plain_iff "t" example_body formatJSON no_limits None example_records eq_refl).
  vm_compute. reflexivity.
Defined.

(** ** Errors *)

Lemma value_error_validation i what err : ∃ m, value_error i what err = EValidation m.
Proof. unfold value_error. case_match; eauto. Qed.

Section decode_errors.
Context {R : Type} (topic : string) (format : payloadFormat) (limits : decodeLimits)
  (enc : @schemaEncoder R) (forced : option Z).

Lemma decode_record_error req i rr meta r err meta' r' :
  decode_record topic format limits enc forced req i rr meta r = (Err err, meta', r') →
  ∃ m, err = EValidation m.
Proof.
  pose proof (value_error_validation i) as Hv.
  unfold decode_record. destruct (decodeV2NullableValue _ true _ _ _ _ _ _) as [[[]|e] ?];
    [|intros [= <- _ _]; apply Hv].
  destruct (decodeV2NullableValue _ false _ _ _ _ _ _) as [[[]|e] ?];
    [|intros [= <- _ _]; apply Hv].
  unfold record_sized. intros H. repeat case_match; injection H as <- _ _ || discriminate H; eauto.
Qed.

Lemma decode_records_error req i rrs meta r err meta' r' :
  decode_records topic format limits enc forced req i rrs meta r = (Err err, meta', r') →
  ∃ m, err = EValidation m.
Proof.
  revert i meta r. induction rrs as [|rr rrs IH]; intros i meta r; simpl; [done|].
  destruct (decode_record _ _ _ _ _ _ _ _ _ _) as [[[]?]?] eqn:E1.
  - destruct (decode_records _ _ _ _ _ _ _ _ _ _) as [[[]?]?] eqn:E2; [done|].
    intros [= <- <- <-]. by eapply IH.
  - intros [= <- <- <-]. by eapply decode_record_error.
Qed.
End decode_errors.

(** C30: a rejected request is reported in exactly one of two ways: as
    unprocessable when the document is well typed but its records are missing,
    null or empty, and as a validation error in every other case, so that no
    error of a schema encoder or of a payload reaches the client unclassified. *)
Theorem decode_error_classified {R} (topic body : string) (format : payloadFormat)
    (limits : decodeLimits) (enc : @schemaEncoder R) (forced : option Z) (r r' : R) err meta :
  decodeProduceRequestWithSchema topic body format limits enc forced r = (Err err, meta, r') →
  ((∃ req, Unmarshal_request body = Ok req ∧ default [] (elems (rp_Records req)) = []) ∧
     ∃ m, err = EUnprocessable m) ∨
  ((∀ req, Unmarshal_request body = Ok req → default [] (elems (rp_Records req)) ≠ []) ∧
     ∃ m, err = EValidation m).
Proof.
  unfold decodeProduceRequestWithSchema.
  destruct (Unmarshal_request body) as [req|] eqn:Eu; [|intros [= <- _ _]; right; eauto].
  destruct (elems (rp_Records req)) as [[|rr rrs]|] eqn:Ee;
    [intros [= <- _ _]; left; split; eauto; exists req; by rewrite Ee| |
     intros [= <- _ _]; left; split; eauto; exists req; by rewrite Ee].
  intros H. right. split; [intros ? [= <-]; by rewrite Ee|].
  split_if_in H; [injection H as <- _ _; eauto|]. by eapply decode_records_error.
Qed.

Lemma decode_error_classified_witness :
  (∃ req, Unmarshal_request (qt "{'records':[]}") = Ok req ∧
          default [] (elems (rp_Records req)) = []) ∧
     (∃ m, EUnprocessable "records must not be empty" = EUnprocessable m) ∨
  (∀ req, Unmarshal_request (qt "{'records':[]}") = Ok req →
          default [] (elems (rp_Records req)) ≠ []) ∧
     (∃ m, EUnprocessable "records must not be empty" = EValidation m).
Proof.
  apply (decode_error_classified "t" (qt "{'records':[]}") formatJSON no_limits None None tt tt _
           zero_produceMetadata).
  vm_compute. reflexivity.
Defined.

(** ** The JSON fast path *)

Lemma raw_is_compact_strip i e s : raw_is_compact i e s = true → strip_space i e s = s.
Proof.
  revert i e. induction s as [|c s IH]; intros i e; simpl; [done|].
  destruct i; [destruct e|]; repeat split_if; intros H; try done; f_equal; auto.
Qed.

(** C32: the fast path of [decodeJSONValue] never changes the result: on every
    valid JSON text it is [json.Compact] of the trimmed text, so skipping the
    compaction when no insignificant space is found is only an optimisation. *)
Theorem decode_json_fast_path (raw : string) :
  Valid (TrimSpace raw) = true → decodeJSONValue raw = Compact (TrimSpace raw).
Proof.
  unfold Valid, decodeJSONValue, Compact. intros Hv.
  destruct (jsonRawIsCompact _) eqn:E; [|done].
  destruct (json_parse _); [|done]. by rewrite raw_is_compact_strip.
Qed.

Lemma decode_json_fast_path_witness :
  decodeJSONValue (qt " {'a b':[1,2]}") = Compact (qt "{'a b':[1,2]}").
Proof. apply (decode_json_fast_path (qt " {'a b':[1,2]}")). vm_compute. reflexivity. Defined.
