(* ===== verification/TypesText.v ===== *)
(** * Round trips of internal/api/types.go

    Any batch of records written as a v2 binary request decodes to itself, and
    the response document reads back as the results it was written from. *)

From S2P Require Import Prelude.
From S2P Require Import GoStrings.
From S2P Require Import Strconv.
From S2P Require Import GoErrors.
From S2P Require Import Json.
From S2P Require Import JsonFacts.
From S2P Require Import JsonText.
From S2P Require Import Base64.
From S2P Require Import SchemaTypes.
From S2P Require Import Producer.
From S2P Require Import Media.
From S2P Require Import Types.
From S2P Require Import TypesFacts.
Local Open Scope Z_scope.

(** ** The v2 binary request a client writes *)

Definition payload_text (v : option string) : string :=
  match v with None => "null" | Some s => quoted (EncodeToString s) end.
Definition int_text (p : option Z) : string := from_option Itoa "null" p.
Definition header_text (h : Header) : string :=
  obj_text [("key", json_string (h_Key h)); ("value", payload_text (h_Value h))].
Definition record_text (r : PRecord) : string :=
  obj_text [("key", payload_text (r_Key r)); ("value", payload_text (r_Value r));
            ("partition", int_text (r_Partition r));
            ("headers", arr_text (header_text <$> r_Headers r))].
Definition request_text (rs : list PRecord) : string :=
  obj_text [("records", arr_text (record_text <$> rs))].

(** The values these texts read as. *)
Definition payload_val (v : option string) : jvalue :=
  match v with None => JNull | Some s => JString (EncodeToString s) end.
Definition int_val (p : option Z) : jvalue := from_option (λ p, JNumber (Itoa p)) JNull p.
Definition header_val (h : Header) : jvalue :=
  JObject [("key", Json (json_string (h_Key h)) (JString (h_Key h)));
           ("value", Json (payload_text (h_Value h)) (payload_val (h_Value h)))].
Definition headers_val (hs : list Header) : jvalue :=
  JArray ((λ h, Json (header_text h) (header_val h)) <$> hs).
Definition record_val (r : PRecord) : jvalue :=
  JObject [("key", Json (payload_text (r_Key r)) (payload_val (r_Key r)));
           ("value", Json (payload_text (r_Value r)) (payload_val (r_Value r)));
           ("partition", Json (int_text (r_Partition r)) (int_val (r_Partition r)));
           ("headers", Json (arr_text (header_text <$> r_Headers r)) (headers_val (r_Headers r)))].

Definition ascii_keys (r : PRecord) : Prop :=
  Forall (λ h, all_bytes is_ascii (h_Key h) = true) (r_Headers r).

Lemma payload_reads v : reads 0 (payload_text v) (payload_val v).
Proof. destruct v as [s|]; [apply reads_quoted, b64_plain|apply reads_null]. Qed.

Lemma int_reads p : reads 0 (int_text p) (int_val p).
Proof. destruct p; [apply reads_Itoa|apply reads_null]. Qed.

Lemma header_reads h : all_bytes is_ascii (h_Key h) = true → reads 1 (header_text h) (header_val h).
Proof.
  intros Hk. apply (reads_fields 0
    [("key", json_string (h_Key h), JString (h_Key h));
     ("value", payload_text (h_Value h), payload_val (h_Value h))]); [|done].
  repeat constructor; cbn [fst snd]; [by apply json_string_ascii|apply payload_reads..].
Qed.

Lemma record_reads r : ascii_keys r → reads 3 (record_text r) (record_val r).
Proof.
  intros Hk. apply (reads_fields 2
    [("key", payload_text (r_Key r), payload_val (r_Key r));
     ("value", payload_text (r_Value r), payload_val (r_Value r));
     ("partition", int_text (r_Partition r), int_val (r_Partition r));
     ("headers", arr_text (header_text <$> r_Headers r), headers_val (r_Headers r))]); [|done].
  repeat constructor; cbn [fst snd]; try done;
    try (eapply reads_weaken; [apply payload_reads || apply int_reads|done]).
  apply (reads_array_map header_text header_val 1); [|done].
  eapply Forall_impl; [exact Hk|]. intros h. apply header_reads.
Qed.

Lemma request_reads rs : Forall ascii_keys rs →
  reads 5 (request_text rs)
    (JObject [("records", Json (arr_text (record_text <$> rs))
                            (JArray ((λ r, Json (record_text r) (record_val r)) <$> rs)))]).
Proof.
  intros Hk. apply (reads_fields 4 [("records", arr_text (record_text <$> rs),
    JArray ((λ r, Json (record_text r) (record_val r)) <$> rs))]); [|done].
  constructor; [|constructor]. split; [done|]. cbn [fst snd].
  apply (reads_array_map record_text record_val 3); [|done].
  eapply Forall_impl; [exact Hk|]. intros h. apply record_reads.
Qed.

(** *** Unmarshalling *)

(** A list of elements into fresh cells. *)
Lemma decode_elems_map {A B} (zero : A) (decode : A → json → dec A) (f : B → json) (g : B → A) l :
  Forall (λ b, ∀ sv, decode zero (f b) sv = (inr (g b), sv)) l → ∀ sv,
  decode_elems zero decode [] (f <$> l) sv = (inr (g <$> l, []), sv).
Proof.
  induction 1 as [|b l Hb _ IH]; intros sv; [done|].
  rewrite fmap_cons. cbn [decode_elems]. unfold dbind. simpl head. simpl default.
  rewrite Hb. simpl tail. by rewrite IH.
Qed.

Definition fresh {A} (l : list A) : gslice A := {| elems := Some l; spare := [] |}.

Lemma decode_slice_map {A B} (zero : A) (decode : A → json → dec A) typ cx (f : B → json)
    (g : B → A) text l sv :
  Forall (λ b, ∀ sv, decode zero (f b) sv = (inr (g b), sv)) l →
  decode_slice zero decode typ cx (Build_gslice None []) (Json text (JArray (f <$> l))) sv =
    (inr (fresh (g <$> l)), sv).
Proof.
  intros Hl. unfold decode_slice. cbn [jval]. destruct l as [|b l]; [done|].
  pose proof (decode_elems_map zero decode f g (b :: l) Hl sv) as H.
  rewrite fmap_cons in H. rewrite fmap_cons. cbv iota. unfold dbind. simpl app. by rewrite H.
Qed.

Definition raw_payload (v : option string) : nullableRaw :=
  {| Present := true; Raw := payload_text v |}.
Definition raw_header (h : Header) : rawHeader :=
  {| rh_Key := h_Key h; rh_Value := raw_payload (h_Value h) |}.
Definition raw_record (r : PRecord) : rawRecord :=
  {| rr_Key := raw_payload (r_Key r); rr_Value := raw_payload (r_Value r);
     rr_Partition := r_Partition r; rr_Headers := fresh (raw_header <$> r_Headers r) |}.
Definition raw_request (rs : list PRecord) : rawProduceRequest :=
  {| rp_KeySchemaID := None; rp_KeySchema := ""; rp_ValueSchemaID := None;
     rp_ValueSchema := ""; rp_Records := fresh (raw_record <$> rs) |}.

Lemma decode_header_text cx cx' h sv :
  decode_struct (rawHeader_field cx) "api.rawHeader" cx' zero_rawHeader
    (Json (header_text h) (header_val h)) sv = (inr (raw_header h), sv).
Proof. by destruct h. Qed.

Lemma decode_int_text bits typ cx p sv :
  0 < bits → int_in bits p →
  decode_int_ptr bits typ cx None (Json (int_text p) (int_val p)) sv = (inr p, sv).
Proof.
  intros Hb Hp. destruct p as [p|]; [|done]. unfold decode_int_ptr. simpl.
  by rewrite ParseInt_Itoa.
Qed.

Lemma decode_record_text cx cx' r sv :
  int_in 32 (r_Partition r) →
  decode_struct (rawRecord_field cx) "api.rawRecord" cx' zero_rawRecord
    (Json (record_text r) (record_val r)) sv = (inr (raw_record r), sv).
Proof.
  intros Hp. unfold record_val, decode_struct. cbn [jval decode_members].
  unfold rawRecord_field. unfold dbind at 1. simpl. unfold dbind at 1. simpl.
  unfold dbind at 1 2. rewrite decode_int_text by done. simpl.
  unfold dbind at 1 2, headers_val.
  rewrite (decode_slice_map _ _ _ _ (λ h, Json (header_text h) (header_val h)) raw_header).
  - done.
  - apply Forall_true. intros h sv'. apply decode_header_text.
Qed.

Lemma Unmarshal_request_text rs :
  Forall ascii_keys rs → Forall (λ r, int_in 32 (r_Partition r)) rs →
  Unmarshal_request (request_text rs) = Ok (raw_request rs).
Proof.
  intros Hk Hp. unfold Unmarshal_request, Unmarshal.
  rewrite (reads_parse _ _ _ (request_reads rs Hk)) by done.
  unfold decode_struct at 1. cbn [jval decode_members]. unfold rawProduceRequest_field at 1.
  unfold dbind at 1. simpl. unfold dbind at 1.
  rewrite (decode_slice_map _ _ _ _ (λ r, Json (record_text r) (record_val r)) raw_record).
  - done.
  - eapply Forall_impl; [exact Hp|]. intros r Hr sv. by apply decode_record_text.
Qed.

(** *** Decoding *)

Lemma quoted_not_null s : String.eqb (quoted s) "null" = false.
Proof. done. Qed.

Lemma decode_payload v : decodeNullableValue (raw_payload v) formatBinary = Ok v.
Proof.
  unfold decodeNullableValue, raw_payload, api_isJSONNull. cbn [Present Raw negb orb].
  destruct v as [s|]; [|done]. cbn [payload_text]. rewrite TrimSpace_quoted, quoted_not_null.
  unfold Unmarshal. rewrite (reads_parse _ _ _ (reads_quoted _ (b64_plain s))) by done.
  cbn [decode_string jval]. unfold dret. by rewrite decode_encode.
Qed.

Lemma raw_record_of r : record_of formatBinary None (raw_record r) r.
Proof.
  split; [apply decode_payload..| |done]. cbn [raw_record rr_Headers fresh elems default].
  induction (r_Headers r) as [|h hs IH]; constructor; [|done].
  split_and!; [done..|apply decode_payload].
Qed.


Definition sample_batch : list PRecord :=
  [ Build_PRecord "t" (Some "k") (Some (String "000" (String "255" ""))) [Build_Header "h" None] (Some 3);
    Build_PRecord "t" None (Some "") [] None ].


(** ** The response *)

(** [type produceOffset struct] and [type produceResponse struct]. *)
Record produceOffset_doc := {
  po_Partition : option Z;
  po_Offset : option Z;
  po_ErrorCode : option Z;
  po_Error : option string;
}.
Record produceResponse := {
  pr_Offsets : gslice produceOffset_doc;
  pr_KeySchemaID : option Z;
  pr_ValueSchemaID : option Z;
}.

Definition offset_field (cx : dctx) (cur : produceOffset_doc) (key : string) (j : json)
  : dec produceOffset_doc :=
  let cx f := in_field cx "produceOffset" f in
  let '(Build_produceOffset_doc p o c e) := cur in
  match field_of ["partition"; "offset"; "error_code"; "error"] key with
  | Some 0%nat => let! x := decode_int_ptr 32 "int32" (cx "partition") p j in
                  dret (Build_produceOffset_doc x o c e)
  | Some 1%nat => let! x := decode_int_ptr 64 "int64" (cx "offset") o j in
                  dret (Build_produceOffset_doc p x c e)
  | Some 2%nat => let! x := decode_int_ptr 64 "int" (cx "error_code") c j in
                  dret (Build_produceOffset_doc p o x e)
  | Some 3%nat => let! x := decode_string_ptr (cx "error") e j in
                  dret (Build_produceOffset_doc p o c x)
  | _ => dret cur
  end.

Definition zero_offset : produceOffset_doc := Build_produceOffset_doc None None None None.

Definition response_field (cur : produceResponse) (key : string) (j : json)
  : dec produceResponse :=
  let cx f := in_field ctx0 "produceResponse" f in
  let '(Build_produceResponse os ki vi) := cur in
  match field_of ["offsets"; "key_schema_id"; "value_schema_id"] key with
  | Some 0%nat =>
      let! x := decode_slice zero_offset
                  (decode_struct (offset_field (cx "offsets")) "api.produceOffset" (cx "offsets"))
                  "[]api.produceOffset" (cx "offsets") os j in
      dret (Build_produceResponse x ki vi)
  | Some 1%nat => let! x := decode_int_ptr 64 "int" (cx "key_schema_id") ki j in
                  dret (Build_produceResponse os x vi)
  | Some 2%nat => let! x := decode_int_ptr 64 "int" (cx "value_schema_id") vi j in
                  dret (Build_produceResponse os ki x)
  | _ => dret cur
  end.

Definition Unmarshal_response (body : string) : res produceResponse :=
  Unmarshal (decode_struct response_field "api.produceResponse" ctx0)
    (Build_produceResponse (Build_gslice None []) None None) body.

(** What a client should read for a result. *)
Definition error_text (r : Result) : string :=
  match res_Err r with Some e => Error e | None => "Kafka produce failed" end.
Definition offset_doc (r : Result) : produceOffset_doc :=
  if resultFailed r
  then Build_produceOffset_doc None None
         (Some (default confluentKafkaRecordErrorCode (res_ErrorCode r))) (Some (error_text r))
  else Build_produceOffset_doc (Some (res_Partition r)) (Some (res_Offset r)) None None.

(** The fields of a result are of their Go types, and its error text is
    printable ASCII. *)
Definition result_ok (r : Result) : Prop :=
  int_in 32 (Some (res_Partition r)) ∧ int_in 64 (Some (res_Offset r)) ∧
  int_in 64 (res_ErrorCode r) ∧ all_bytes is_printable (error_text r) = true.

Definition offset_text (r : Result) : string :=
  if resultFailed r then
    obj_text [("partition", "null"); ("offset", "null");
              ("error_code", Itoa (default confluentKafkaRecordErrorCode (res_ErrorCode r)));
              ("error", Quote (error_text r))]
  else obj_text [("partition", Itoa (res_Partition r)); ("offset", Itoa (res_Offset r));
                 ("error_code", "null"); ("error", "null")].
Definition offset_val (r : Result) : jvalue :=
  let n z := Json (Itoa z) (JNumber (Itoa z)) in
  let null := Json "null" JNull in
  JObject (if resultFailed r then
    [("partition", null); ("offset", null);
     ("error_code", n (default confluentKafkaRecordErrorCode (res_ErrorCode r)));
     ("error", Json (Quote (error_text r)) (JString (error_text r)))]
  else [("partition", n (res_Partition r)); ("offset", n (res_Offset r));
        ("error_code", null); ("error", null)]).

Lemma produceOffset_text r : produceOffset r = offset_text r.
Proof.
  unfold produceOffset, offset_text, error_text. destruct (resultFailed r);
    unfold obj_text, member_text; simpl; by autorewrite with strs.
Qed.

(** Prove [field_ok] of every member of a literal object. *)
Ltac read_fields :=
  repeat (apply Forall_cons_2; [split; cbn [fst snd]; [reflexivity|]|]);
  [first [apply reads_null | apply reads_Itoa | by apply Quote_printable]..|constructor].

Lemma offset_reads r : result_ok r → reads 1 (offset_text r) (offset_val r).
Proof.
  intros (_&_&_&Ht). unfold offset_text, offset_val. destruct (resultFailed r).
  - apply (reads_fields 0
      [("partition", "null", JNull); ("offset", "null", JNull);
       ("error_code", Itoa (default confluentKafkaRecordErrorCode (res_ErrorCode r)), _);
       ("error", Quote (error_text r), JString (error_text r))]); [|done].
    read_fields.
  - apply (reads_fields 0
      [("partition", Itoa (res_Partition r), _); ("offset", Itoa (res_Offset r), _);
       ("error_code", "null", JNull); ("error", "null", JNull)]); [|done].
    read_fields.
Qed.

Definition response_ok (meta : produceMetadata) : Prop :=
  int_in 64 (pm_KeySchemaID meta) ∧ int_in 64 (pm_ValueSchemaID meta).

Definition response_text (results : list Result) (meta : produceMetadata) : string :=
  obj_text [("offsets", arr_text (offset_text <$> results));
            ("key_schema_id", int_text (pm_KeySchemaID meta));
            ("value_schema_id", int_text (pm_ValueSchemaID meta))].

Lemma appendProduceResponse_text results meta :
  appendProduceResponse results meta = response_text results meta +:+ nl.
Proof.
  unfold appendProduceResponse, response_text, obj_text, member_text, arr_text.
  replace (produceOffset <$> results) with (offset_text <$> results)
    by (apply list_fmap_ext; intros; by rewrite produceOffset_text).
  change (appendNullableInt) with (λ p, int_text p).
  generalize (Join (offset_text <$> results) ","). intros t.
  destruct meta as [[] []]; simpl; by autorewrite with strs.
Qed.

Lemma response_reads results meta :
  Forall result_ok results →
  reads 3 (response_text results meta)
    (JObject [("offsets", Json (arr_text (offset_text <$> results))
                 (JArray ((λ r, Json (offset_text r) (offset_val r)) <$> results)));
              ("key_schema_id", Json (int_text (pm_KeySchemaID meta)) (int_val (pm_KeySchemaID meta)));
              ("value_schema_id", Json (int_text (pm_ValueSchemaID meta))
                                    (int_val (pm_ValueSchemaID meta)))]).
Proof.
  intros Hr. apply (reads_fields 2
    [("offsets", arr_text (offset_text <$> results),
        JArray ((λ r, Json (offset_text r) (offset_val r)) <$> results));
     ("key_schema_id", int_text (pm_KeySchemaID meta), int_val (pm_KeySchemaID meta));
     ("value_schema_id", int_text (pm_ValueSchemaID meta), int_val (pm_ValueSchemaID meta))]);
    [|done].
  repeat (apply Forall_cons_2; [split; cbn [fst snd]; [reflexivity|]|]); [| | |constructor].
  - apply (reads_array_map offset_text offset_val 1); [|done].
    eapply Forall_impl; [exact Hr|]. intros r. apply offset_reads.
  - apply (reads_weaken 0); [apply int_reads|done].
  - apply (reads_weaken 0); [apply int_reads|done].
Qed.

Lemma decode_Itoa bits typ cx z sv :
  int_in bits (Some z) →
  decode_int_ptr bits typ cx None (Json (Itoa z) (JNumber (Itoa z))) sv = (inr (Some z), sv).
Proof. intros Hz. unfold decode_int_ptr. cbn [jval]. by rewrite ParseInt_Itoa. Qed.

Lemma decode_offset_text cx cx' r sv :
  result_ok r →
  decode_struct (offset_field cx) "api.produceOffset" cx' zero_offset
    (Json (offset_text r) (offset_val r)) sv = (inr (offset_doc r), sv).
Proof.
  intros (Hp&Ho&Hc&_). unfold decode_struct, offset_val, offset_doc. cbn [jval].
  destruct (resultFailed r); cbn [decode_members]; unfold offset_field; unfold dbind; simpl.
  - rewrite decode_Itoa; [done|].
    destruct (res_ErrorCode r); [done|]. vm_compute. by split.
  - rewrite decode_Itoa by done. simpl. rewrite decode_Itoa by done. done.
Qed.

(** C24: the response document is what a client needs: for results whose
    fields are in range and whose error texts are printable ASCII, the body
    [appendProduceResponse] writes is valid JSON and unmarshals to one offset
    object per record, in order, with partition and offset for a success, and
    the error code (50002 when the result has none) and text for a failure, and
    to the two schema ids. *)
Theorem produce_response_roundtrip results meta :
  Forall result_ok results → response_ok meta →
  Unmarshal_response (appendProduceResponse results meta) =
    Ok {| pr_Offsets := fresh (offset_doc <$> results);
          pr_KeySchemaID := pm_KeySchemaID meta;
          pr_ValueSchemaID := pm_ValueSchemaID meta |}.
Proof.
  intros Hr [Hk Hv]. unfold Unmarshal_response, Unmarshal.
  rewrite appendProduceResponse_text.
  rewrite (reads_parse_space _ _ _ nl (response_reads _ _ Hr)) by done.
  unfold decode_struct at 1. cbn [jval decode_members]. unfold response_field at 1.
  unfold dbind at 1. simpl. unfold dbind at 1.
  rewrite (decode_slice_map _ _ _ _ (λ r, Json (offset_text r) (offset_val r)) offset_doc).
  - unfold response_field, dret, dbind. cbn -[decode_int_ptr int_text int_val].
    rewrite decode_int_text by done. cbn -[decode_int_ptr int_text int_val].
    by rewrite decode_int_text.
  - eapply Forall_impl; [exact Hr|]. intros r Hr' sv. by apply decode_offset_text.
Qed.

Lemma produce_response_roundtrip_witness :
  Unmarshal_response (appendProduceResponse
      [Build_Result 3 42 None None; Build_Result 0 0 None (Some (ENew "no leader"))]
      (Build_produceMetadata (Some 7) None)) =
    Ok {| pr_Offsets := fresh [Build_produceOffset_doc (Some 3) (Some 42) None None;
                               Build_produceOffset_doc None None (Some 50002) (Some "no leader")];
          pr_KeySchemaID := Some 7; pr_ValueSchemaID := None |}.
Proof.
  apply (produce_response_roundtrip
      [Build_Result 3 42 None None; Build_Result 0 0 None (Some (ENew "no leader"))]
      (Build_produceMetadata (Some 7) None)).
  - repeat apply Forall_cons_2; [by vm_compute..|constructor].
  - by vm_compute.
Defined.

(** The printable-text condition of the round trip is needed: [strconv]'s
    quoting is not JSON's, so an error text with a control character such as
    BEL makes the whole response body invalid JSON. *)
Theorem produce_response_invalid_json :
  ∃ text, Valid (appendProduceResponse [Build_Result 0 0 None (Some (ENew text))]
                   zero_produceMetadata) = false.
Proof. exists (String "007" ""). vm_compute. reflexivity. Qed.

Lemma offset_doc_failed r : is_some (po_ErrorCode (offset_doc r)) = resultFailed r.
Proof. unfold offset_doc. by destruct (resultFailed r). Qed.

(** The success and failure counts of the metrics partition the results:
    they are the number of offset objects without and with an error code. *)
Theorem count_result_status results :
  let is_error o := is_some (po_ErrorCode o) in
  countResultStatus results =
    (Z.of_nat (length (filter (λ o, is_error o = false) (offset_doc <$> results))),
     Z.of_nat (length (filter (λ o, is_error o = true) (offset_doc <$> results)))).
Proof.
  assert (∀ a b, foldl (λ n r, if resultFailed r then (n.1, n.2 + 1) else (n.1 + 1, n.2)) (a, b)
    results =
    (a + Z.of_nat (length (filter (λ o, is_some (po_ErrorCode o) = false) (offset_doc <$> results))),
     b + Z.of_nat (length (filter (λ o, is_some (po_ErrorCode o) = true) (offset_doc <$> results))))) as H.
  { induction results as [|r results IH]; intros a b; [simpl; f_equal; lia|].
    rewrite fmap_cons, !filter_cons. cbn [foldl]. pose proof (offset_doc_failed r) as Hf.
    destruct (resultFailed r); rewrite IH;
      [rewrite decide_False, decide_True by congruence
      |rewrite decide_True, decide_False by congruence]; simpl; f_equal; lia. }
  cbv zeta. unfold countResultStatus. rewrite H. done.
Qed.
