(* ===== verification/GoFloat.v ===== *)
(** * Go's [float64], [strconv.ParseFloat] and [time.ParseDuration]

    A [float64] is the IEEE 754 binary64 number of the Standard Library's
    executable specification, [SpecFloat], with every operation rounded to
    nearest, ties to even (no fused multiply-add, as on amd64). *)

From Stdlib Require Export SpecFloat.
From S2P Require Import Prelude.
From S2P Require Import GoStrings.
From S2P Require Import Strconv.
From S2P Require Import GoErrors.
From S2P Require Import Json.
Local Open Scope Z_scope.

Definition float64 : Type := spec_float.

#[export] Instance float64_eq_dec : EqDecision float64.
Proof. unfold float64. solve_decision. Defined.

Definition f64_of_Z (z : Z) : float64 := binary_normalize 53 1024 z 0 false.
Definition f64_add : float64 → float64 → float64 := SFadd 53 1024.
Definition f64_sub : float64 → float64 → float64 := SFsub 53 1024.
Definition f64_mul : float64 → float64 → float64 := SFmul 53 1024.
Definition f64_div : float64 → float64 → float64 := SFdiv 53 1024.
Definition f64_ltb : float64 → float64 → bool := SFltb.
Definition f64_leb : float64 → float64 → bool := SFleb.
Definition f64_zero : float64 := S754_zero false.
Definition f64_is_nan (f : float64) : bool :=
  match f with S754_nan => true | _ => false end.

(** Truncation towards zero of a finite number ([uint64(f)]). *)
Definition f64_trunc (f : float64) : Z :=
  match f with
  | S754_finite s m e =>
      let z := if 0 <=? e then Z.pos m * 2 ^ e else Z.pos m / 2 ^ (- e) in
      if (s : bool) then - z else z
  | _ => 0
  end.

(** ** [strconv.ParseFloat(s, 64)] *)

Definition lower (c : ascii) : ascii :=
  if (65 <=? bval c) && (bval c <=? 90) then bchr (bval c + 32) else c.

Fixpoint lower_ascii (s : string) : string :=
  match s with
  | EmptyString => EmptyString
  | String c s => String (lower c) (lower_ascii s)
  end.

Definition is_sign (c : ascii) : bool := Ascii.eqb c "+" || Ascii.eqb c "-".

(** The optional sign: negative, and the rest. *)
Definition take_sign (s : string) : bool * string :=
  match s with
  | String c s' => if is_sign c then (Ascii.eqb c "-", s') else (false, s)
  | EmptyString => (false, s)
  end.

(** [underscoreOK] after sign and base prefix; [digit] and [under] say what the
    previous character was. *)
Fixpoint underscores_ok (hex digit under : bool) (s : string) : bool :=
  match s with
  | EmptyString => negb under
  | String c s =>
      if is_digit c || (hex && is_hex c) then underscores_ok hex true false s
      else if Ascii.eqb c "_" then (if digit then underscores_ok hex false true s else false)
      else if under then false
      else underscores_ok hex false false s
  end.

Definition has_hex_prefix (s : string) : bool :=
  match s with
  | String z (String x (String _ _)) => Ascii.eqb z "0" && Ascii.eqb (lower x) "x"
  | _ => false
  end.

(** The digits of the mantissa: value, digits after the point, whether a digit
    was seen, and the rest of the text. *)
Fixpoint read_mantissa (hex sawdot sawdigits : bool) (m frac : Z) (s : string)
  : Z * Z * bool * string :=
  match s with
  | EmptyString => (m, frac, sawdigits, s)
  | String c s' =>
      if Ascii.eqb c "_" then read_mantissa hex sawdot sawdigits m frac s'
      else if Ascii.eqb c "." then
        if sawdot then (m, frac, sawdigits, s)
        else read_mantissa hex true sawdigits m frac s'
      else if is_digit c || (hex && is_hex c) then
        read_mantissa hex sawdot true (m * (if hex then 16 else 10) + hex_val c)
          (if sawdot then frac + 1 else frac) s'
      else (m, frac, sawdigits, s)
  end.

Fixpoint read_exponent (e : Z) (s : string) : Z * string :=
  match s with
  | String c s' =>
      if Ascii.eqb c "_" then read_exponent e s'
      else if is_digit c then
        read_exponent (if e <? 10000 then e * 10 + (bval c - 48) else e) s'
      else (e, s)
  | EmptyString => (e, s)
  end.

(** The exponent part after the mantissa: its value, or [None] when malformed. *)
Definition scan_exponent (hex : bool) (s : string) : option Z :=
  match s with
  | EmptyString => if hex then None else Some 0
  | String c s' =>
      if Ascii.eqb (lower c) (if hex then "p" else "e")%char then
        let '(neg, s1) := take_sign s' in
        match s1 with
        | String d _ =>
            if is_digit d then
              let '(e, rest) := read_exponent 0 s1 in
              if String.eqb rest "" then Some (if neg then - e else e) else None
            else None
        | EmptyString => None
        end
      else None
  end.

(** [m * base ^ e], correctly rounded. *)
Definition scale10 (m e : Z) : float64 :=
  if 0 <=? e then f64_of_Z (m * 10 ^ e)
  else match m with
       | Z.pos p => f64_div (S754_finite false p 0) (S754_finite false (Z.to_pos (10 ^ (- e))) 0)
       | _ => f64_zero
       end.

Definition f64_is_inf (f : float64) : bool :=
  match f with S754_infinity _ => true | _ => false end.

(** The [Err] of a [strconv.NumError]. *)
Inductive num_error := ErrSyntax | ErrRange.

(** [strconv.ParseFloat] with its error. *)
Definition parse_float (s : string) : num_error + float64 :=
  let '(neg, s1) := take_sign s in
  let sign f := if (neg : bool) then SFopp f else f in
  let word := lower_ascii s1 in
  if String.eqb word "inf" || String.eqb word "infinity" then inr (sign (S754_infinity false))
  else if String.eqb (lower_ascii s) "nan" then inr S754_nan
  else
    let hex := has_hex_prefix s1 in
    let body := if hex then sdrop 2 s1 else s1 in
    let '(m, frac, sawdigits, rest) := read_mantissa hex false false 0 0 body in
    if negb sawdigits then inl ErrSyntax
    else match scan_exponent hex rest with
    | None => inl ErrSyntax
    | Some e =>
        if Contains s1 "_" && negb (underscores_ok hex hex false body) then inl ErrSyntax
        else
          let f := if hex then binary_normalize 53 1024 m (e - 4 * frac) false
                   else scale10 m (e - frac) in
          if f64_is_inf f then inl ErrRange else inr (sign f)
    end.

(** [None] is a syntax or range error. *)
Definition ParseFloat (s : string) : option float64 :=
  match parse_float s with inr f => Some f | inl _ => None end.

(** ** [time.ParseDuration] *)

Definition unit_ns (u : string) : option Z :=
  if String.eqb u "ns" then Some 1
  else if String.eqb u "us" || String.eqb u "µs" || String.eqb u "μs" then Some 1000
  else if String.eqb u "ms" then Some 1000000
  else if String.eqb u "s" then Some 1000000000
  else if String.eqb u "m" then Some 60000000000
  else if String.eqb u "h" then Some 3600000000000
  else None.

(** [leadingInt]: [None] on overflow. *)
Fixpoint leadingInt (x : Z) (s : string) : option (Z * string) :=
  match s with
  | String c s' =>
      if is_digit c then
        if 2 ^ 63 / 10 <? x then None
        else let x := x * 10 + (bval c - 48) in
             if 2 ^ 63 <? x then None else leadingInt x s'
      else Some (x, s)
  | EmptyString => Some (x, s)
  end.

(** [leadingFraction]: value, power of ten, rest. *)
Fixpoint leadingFraction (x scale : Z) (overflow : bool) (s : string) : Z * Z * string :=
  match s with
  | String c s' =>
      if is_digit c then
        if overflow then leadingFraction x scale true s'
        else if (2 ^ 63 - 1) / 10 <? x then leadingFraction x scale true s'
        else let y := x * 10 + (bval c - 48) in
             if 2 ^ 63 <? y then leadingFraction x scale true s'
             else leadingFraction y (scale * 10) false s'
      else (x, scale, s)
  | EmptyString => (x, scale, s)
  end.

Definition unit_char (c : ascii) : bool := negb (Ascii.eqb c "." || is_digit c).

Fixpoint take_unit (s : string) : string * string :=
  match s with
  | String c s' =>
      if unit_char c then let '(u, rest) := take_unit s' in (String c u, rest) else ("", s)
  | EmptyString => ("", s)
  end.

(** One number and unit: nanoseconds and the rest. *)
Definition duration_part (s : string) : option (Z * string) :=
  match s with
  | EmptyString => None
  | String c _ =>
      if unit_char c then None
      else match leadingInt 0 s with
      | None => None
      | Some (v, s1) =>
          let pre := negb (String.length s =? String.length s1)%nat in
          let '(f, scale, s2, post) :=
            match s1 with
            | String d s1' =>
                if Ascii.eqb d "." then
                  let '(f, scale, s2) := leadingFraction 0 1 false s1' in
                  (f, scale, s2, negb (String.length s1' =? String.length s2)%nat)
                else (0, 1, s1, false)
            | EmptyString => (0, 1, s1, false)
            end in
          if negb pre && negb post then None
          else
            let '(u, rest) := take_unit s2 in
            match unit_ns u with
            | None => None
            | Some unit =>
                if 2 ^ 63 / unit <? v then None
                else
                  let v := v * unit in
                  let v := if 0 <? f then
                    v + f64_trunc (f64_mul (f64_of_Z f)
                                     (f64_div (f64_of_Z unit) (f64_of_Z scale)))
                    else v in
                  if 2 ^ 63 <? v then None else Some (v, rest)
            end
      end
  end.

(** Every part reads at least one byte, so the length of the text is enough
    fuel. *)
Fixpoint duration_parts (fuel : nat) (d : Z) (s : string) : option Z :=
  match s with
  | EmptyString => Some d
  | _ =>
      match fuel with
      | O => None
      | S fuel =>
          match duration_part s with
          | None => None
          | Some (v, rest) =>
              if 2 ^ 63 <? d + v then None else duration_parts fuel (d + v) rest
          end
      end
  end.

(** Nanoseconds, [None] on an error. *)
Definition ParseDuration (s : string) : option Z :=
  let '(neg, s1) := take_sign s in
  if String.eqb s1 "0" then Some 0
  else if String.eqb s1 "" then None
  else match duration_parts (String.length s1) 0 s1 with
       | None => None
       | Some d =>
           if neg then Some (- d)
           else if 2 ^ 63 - 1 <? d then None else Some d
       end.

Example ParseDuration_ex :
  (ParseDuration "1h2m3.5s", ParseDuration "-250ms", ParseDuration "5", ParseDuration "1.s",
   ParseDuration ".s", ParseDuration "0", ParseDuration "9223372036854775807ns",
   ParseDuration "9223372036854775808ns", ParseDuration "1.0000000005h") =
  (Some 3723500000000, Some (-250000000), None, Some 1000000000, None, Some 0,
   Some (2 ^ 63 - 1), None, Some 3600000001800).
Proof. vm_compute. reflexivity. Qed.

Example ParseFloat_ex :
  (ParseFloat "1.5", ParseFloat "-0x1p-2", ParseFloat "1_0e-1", ParseFloat "1__0",
   ParseFloat "1e400", ParseFloat "+Inf", ParseFloat "nan", ParseFloat "0.1") =
  (Some (f64_div (f64_of_Z 3) (f64_of_Z 2)), Some (SFopp (f64_div (f64_of_Z 1) (f64_of_Z 4))),
   Some (f64_of_Z 1), None, None, Some (S754_infinity false), Some S754_nan,
   Some (f64_div (f64_of_Z 1) (f64_of_Z 10))).
Proof. vm_compute. reflexivity. Qed.
