(* ===== verification/Config.v ===== *)
(** * internal/config/config.go

    The configuration read from the environment, its defaults and its
    validation. *)

From S2P Require Import Prelude.
From S2P Require Import GoStrings.
From S2P Require Import Strconv.
From S2P Require Import GoErrors.
From S2P Require Import GoFloat.
Local Open Scope Z_scope.

(** ** Data.  A [time.Duration] is its number of nanoseconds. *)

Record RateLimitConfig := {
  RequestsPerSecond : float64;
  RequestsBurst : Z;
  BytesPerSecond : float64;
  BytesBurst : Z;
}.

Record SchemaRegistryConfig := {
  sr_URL : string;
  sr_Username : string;
  sr_Password : string;
}.

Record TLSConfig := {
  tls_Enable : bool;
  InsecureSkipVerify : bool;
  CAFile : string;
  CertFile : string;
  KeyFile : string;
}.

Record SASLConfig := {
  Mechanism : string;
  sasl_Username : string;
  sasl_Password : string;
}.

Record KafkaConfig := {
  Brokers : list string;
  ClientID : string;
  RequiredAcks : string;
  Compression : string;
  Linger : Z;
  DeliveryTimeout : Z;
  RequestTimeout : Z;
  BatchMaxBytes : Z;
  MaxBufferedRecords : Z;
  MaxBufferedBytes : Z;
  TLS : TLSConfig;
  SASL : SASLConfig;
}.

Record Config := {
  HTTPAddr : string;
  cfg_PprofEnable : bool;
  ReadHeaderTimeout : Z;
  ShutdownTimeout : Z;
  cfg_ProduceTimeout : Z;
  RequestMaxBytes : Z;
  RequestMaxRecords : Z;
  RequestMaxRecordBytes : Z;
  RequestMaxKeyBytes : Z;
  RequestMaxHeaders : Z;
  RequestMaxHeaderBytes : Z;
  TopicAllowlist : list string;
  AuthBearerTokens : list string;
  cfg_ClusterID : string;
  RateLimit : RateLimitConfig;
  SchemaRegistry : SchemaRegistryConfig;
  Kafka : KafkaConfig;
}.

(** ** Parsing the environment *)

(** [cleanCSV] (nil and empty lists behave alike for every reader). *)
Definition cleanCSV (v : string) : list string :=
  if String.eqb (TrimSpace v) "" then []
  else filter (λ p, p ≠ "") (TrimSpace <$> Split v ",").

Section env.
(** [os.Getenv]: the empty string when the variable is not set. *)
Context (Getenv : string → string).

Definition envString (name def : string) : string :=
  let v := TrimSpace (Getenv name) in
  if String.eqb v "" then def else v.

Definition envCSV (name : string) : list string := cleanCSV (Getenv name).

Definition envCSVDefault (name : string) (def : list string) : list string :=
  match cleanCSV (Getenv name) with [] => def | v => v end.

Definition envBool (name : string) (def : bool) : bool :=
  let v := TrimSpace (Getenv name) in
  if String.eqb v "" then def
  else
    let l := ToLower v in
    if bool_decide (l ∈ ["1"; "true"; "yes"; "y"; "on"]) then true
    else if bool_decide (l ∈ ["0"; "false"; "no"; "n"; "off"]) then false
    else def.

(** [envInt] and [envInt64] coincide on a 64-bit target. *)
Definition envInt (name : string) (def : Z) : Z :=
  let v := TrimSpace (Getenv name) in
  if String.eqb v "" then def
  else match Atoi v with Some n => n | None => def end.

Definition envInt64 (name : string) (def : Z) : Z :=
  let v := TrimSpace (Getenv name) in
  if String.eqb v "" then def
  else match ParseInt 64 v with Some n => n | None => def end.

Definition envFloat (name : string) (def : float64) : float64 :=
  let v := TrimSpace (Getenv name) in
  if String.eqb v "" then def
  else match ParseFloat v with Some n => n | None => def end.

Definition Millisecond : Z := 1000000.
Definition Second : Z := 1000000000.

Definition envDuration (name : string) (def : Z) : Z :=
  let v := TrimSpace (Getenv name) in
  if String.eqb v "" then def
  else match ParseDuration v with
       | Some d => d
       | None =>
           match Atoi v with
           | Some ms => i64 (ms * Millisecond)
           | None => def
           end
       end.

(** The composite literal at the top of [LoadFromEnv]. *)
Definition envConfig : Config := {|
  HTTPAddr := envString "HTTP_ADDR" ":8080";
  cfg_PprofEnable := envBool "PPROF_ENABLE" false;
  ReadHeaderTimeout := envDuration "HTTP_READ_HEADER_TIMEOUT" (5 * Second);
  ShutdownTimeout := envDuration "SHUTDOWN_TIMEOUT" (20 * Second);
  cfg_ProduceTimeout := envDuration "PRODUCE_TIMEOUT" (30 * Second);
  RequestMaxBytes := envInt64 "REQUEST_MAX_BYTES" (8 * 1024 * 1024);
  RequestMaxRecords := envInt "REQUEST_MAX_RECORDS" 1000;
  RequestMaxRecordBytes := envInt64 "REQUEST_MAX_RECORD_BYTES" (1 * 1024 * 1024);
  RequestMaxKeyBytes := envInt64 "REQUEST_MAX_KEY_BYTES" (1024 * 1024);
  RequestMaxHeaders := envInt "REQUEST_MAX_HEADERS" 64;
  RequestMaxHeaderBytes := envInt64 "REQUEST_MAX_HEADER_BYTES" (64 * 1024);
  TopicAllowlist := envCSV "TOPIC_ALLOWLIST";
  AuthBearerTokens := envCSV "AUTH_BEARER_TOKENS";
  cfg_ClusterID := envString "KAFKA_CLUSTER_ID" "local";
  RateLimit := {|
    RequestsPerSecond := envFloat "RATE_LIMIT_REQUESTS_PER_SECOND" f64_zero;
    RequestsBurst := envInt64 "RATE_LIMIT_REQUESTS_BURST" 0;
    BytesPerSecond := envFloat "RATE_LIMIT_BYTES_PER_SECOND" f64_zero;
    BytesBurst := envInt64 "RATE_LIMIT_BYTES_BURST" 0 |};
  SchemaRegistry := {|
    sr_URL := envString "SCHEMA_REGISTRY_URL" "";
    sr_Username := envString "SCHEMA_REGISTRY_USERNAME" "";
    sr_Password := envString "SCHEMA_REGISTRY_PASSWORD" "" |};
  Kafka := {|
    Brokers := envCSVDefault "KAFKA_BROKERS" ["localhost:9092"];
    ClientID := envString "KAFKA_CLIENT_ID" "kafka-rest-proxy-go";
    RequiredAcks := envString "KAFKA_REQUIRED_ACKS" "all";
    Compression := envString "KAFKA_COMPRESSION" "lz4";
    Linger := envDuration "KAFKA_LINGER" 0;
    DeliveryTimeout := envDuration "KAFKA_DELIVERY_TIMEOUT" (30 * Second);
    RequestTimeout := envDuration "KAFKA_REQUEST_TIMEOUT" (10 * Second);
    BatchMaxBytes := i32 (envInt "KAFKA_BATCH_MAX_BYTES" 1048576);
    MaxBufferedRecords := envInt "KAFKA_MAX_BUFFERED_RECORDS" 100000;
    MaxBufferedBytes := envInt "KAFKA_MAX_BUFFERED_BYTES" (128 * 1024 * 1024);
    TLS := {|
      tls_Enable := envBool "KAFKA_TLS_ENABLE" false;
      InsecureSkipVerify := envBool "KAFKA_TLS_INSECURE_SKIP_VERIFY" false;
      CAFile := envString "KAFKA_TLS_CA_FILE" "";
      CertFile := envString "KAFKA_TLS_CERT_FILE" "";
      KeyFile := envString "KAFKA_TLS_KEY_FILE" "" |};
    SASL := {|
      Mechanism := envString "KAFKA_SASL_MECHANISM" "";
      sasl_Username := envString "KAFKA_SASL_USERNAME" "";
      sasl_Password := envString "KAFKA_SASL_PASSWORD" "" |} |} |}.

(** The checks that follow, in order; [None] is acceptance. *)
Definition config_error (cfg : Config) : option string :=
  let empty s := String.eqb s "" in
  if (length (Brokers (Kafka cfg)) =? 0)%nat
  then Some "KAFKA_BROKERS must include at least one broker"
  else if RequestMaxRecords cfg <=? 0 then Some "REQUEST_MAX_RECORDS must be positive"
  else if RequestMaxBytes cfg <=? 0 then Some "REQUEST_MAX_BYTES must be positive"
  else if RequestMaxRecordBytes cfg <=? 0 then Some "REQUEST_MAX_RECORD_BYTES must be positive"
  else if RequestMaxKeyBytes cfg <=? 0 then Some "REQUEST_MAX_KEY_BYTES must be positive"
  else if RequestMaxHeaders cfg <? 0 then Some "REQUEST_MAX_HEADERS must be zero or positive"
  else if RequestMaxHeaderBytes cfg <=? 0 then Some "REQUEST_MAX_HEADER_BYTES must be positive"
  else if f64_ltb (RequestsPerSecond (RateLimit cfg)) f64_zero
  then Some "RATE_LIMIT_REQUESTS_PER_SECOND must be zero or positive"
  else if RequestsBurst (RateLimit cfg) <? 0
  then Some "RATE_LIMIT_REQUESTS_BURST must be zero or positive"
  else if f64_ltb (BytesPerSecond (RateLimit cfg)) f64_zero
  then Some "RATE_LIMIT_BYTES_PER_SECOND must be zero or positive"
  else if BytesBurst (RateLimit cfg) <? 0
  then Some "RATE_LIMIT_BYTES_BURST must be zero or positive"
  else if MaxBufferedRecords (Kafka cfg) <=? 0
  then Some "KAFKA_MAX_BUFFERED_RECORDS must be positive"
  else if MaxBufferedBytes (Kafka cfg) <=? 0
  then Some "KAFKA_MAX_BUFFERED_BYTES must be positive"
  else if negb (Bool.eqb (empty (CertFile (TLS (Kafka cfg)))) (empty (KeyFile (TLS (Kafka cfg)))))
  then Some "KAFKA_TLS_CERT_FILE and KAFKA_TLS_KEY_FILE must be set together"
  else if negb (empty (Mechanism (SASL (Kafka cfg)))) &&
          (empty (sasl_Username (SASL (Kafka cfg))) || empty (sasl_Password (SASL (Kafka cfg))))
  then Some "KAFKA_SASL_USERNAME and KAFKA_SASL_PASSWORD are required when KAFKA_SASL_MECHANISM is set"
  else None.

Definition LoadFromEnv : res Config :=
  match config_error envConfig with
  | Some msg => Err (ENew msg)
  | None => Ok envConfig
  end.
End env.

(** ** What a loaded configuration satisfies *)

Record config_valid (cfg : Config) : Prop := {
  valid_brokers : Brokers (Kafka cfg) ≠ [];
  valid_broker : Forall (λ b, b ≠ "") (Brokers (Kafka cfg));
  valid_records : 0 < RequestMaxRecords cfg < 2 ^ 63;
  valid_bytes : 0 < RequestMaxBytes cfg < 2 ^ 63;
  valid_record_bytes : 0 < RequestMaxRecordBytes cfg < 2 ^ 63;
  valid_key_bytes : 0 < RequestMaxKeyBytes cfg < 2 ^ 63;
  valid_headers : 0 <= RequestMaxHeaders cfg < 2 ^ 63;
  valid_header_bytes : 0 < RequestMaxHeaderBytes cfg < 2 ^ 63;
  valid_burst : 0 <= RequestsBurst (RateLimit cfg) < 2 ^ 63;
  valid_bytes_burst : 0 <= BytesBurst (RateLimit cfg) < 2 ^ 63;
  valid_rate : f64_ltb (RequestsPerSecond (RateLimit cfg)) f64_zero = false;
  valid_bytes_rate : f64_ltb (BytesPerSecond (RateLimit cfg)) f64_zero = false;
  valid_buffered : 0 < MaxBufferedRecords (Kafka cfg) < 2 ^ 63;
  valid_buffered_bytes : 0 < MaxBufferedBytes (Kafka cfg) < 2 ^ 63;
  valid_batch : in_i32 (BatchMaxBytes (Kafka cfg));
  valid_tokens : Forall (λ t, t ≠ "") (AuthBearerTokens cfg);
  valid_topics : Forall (λ t, t ≠ "") (TopicAllowlist cfg);
  valid_tls : CertFile (TLS (Kafka cfg)) = "" ↔ KeyFile (TLS (Kafka cfg)) = "";
  valid_sasl : Mechanism (SASL (Kafka cfg)) ≠ "" →
    sasl_Username (SASL (Kafka cfg)) ≠ "" ∧ sasl_Password (SASL (Kafka cfg)) ≠ "";
}.

Lemma cleanCSV_nonempty v : Forall (λ p, p ≠ "") (cleanCSV v).
Proof.
  unfold cleanCSV. destruct (String.eqb _ _); [constructor|].
  apply Forall_forall. intros p Hp. by apply list_elem_of_filter in Hp as [? _].
Qed.

Lemma ParseInt_64 s z : ParseInt 64 s = Some z → in_i64 z.
Proof.
  unfold ParseInt, in_i64. destruct (match s with "" => _ | String _ _ => _ end) as [neg ds].
  destruct (parse_nat ds) as [n|]; [|done]. destruct (_ && _)%bool eqn:E; [|done].
  zbool. intros [= <-]. lia.
Qed.

Lemma envInt_range getenv name def : in_i64 def → in_i64 (envInt getenv name def).
Proof.
  intros Hd. unfold envInt. destruct (String.eqb _ _); [done|].
  destruct (Atoi _) eqn:E; [|done]. by apply ParseInt_64 in E.
Qed.

Lemma i32_range z : in_i32 (i32 z).
Proof.
  unfold in_i32, i32. pose proof (Z.mod_pos_bound (z + 2 ^ 31) (2 ^ 32) eq_refl). lia.
Qed.

Lemma envCSVDefault_nonempty getenv name def :
  Forall (λ p, p ≠ "") def → Forall (λ p, p ≠ "") (envCSVDefault getenv name def).
Proof.
  intros Hd. unfold envCSVDefault. pose proof (cleanCSV_nonempty (getenv name)) as H.
  by destruct (cleanCSV (getenv name)).
Qed.

Lemma config_error_none cfg :
  config_error cfg = None →
  Brokers (Kafka cfg) ≠ [] ∧
  (0 < RequestMaxRecords cfg ∧ 0 < RequestMaxBytes cfg ∧ 0 < RequestMaxRecordBytes cfg ∧
   0 < RequestMaxKeyBytes cfg ∧ 0 <= RequestMaxHeaders cfg ∧ 0 < RequestMaxHeaderBytes cfg) ∧
  (f64_ltb (RequestsPerSecond (RateLimit cfg)) f64_zero = false ∧
   f64_ltb (BytesPerSecond (RateLimit cfg)) f64_zero = false ∧
   0 <= RequestsBurst (RateLimit cfg) ∧ 0 <= BytesBurst (RateLimit cfg)) ∧
  (0 < MaxBufferedRecords (Kafka cfg) ∧ 0 < MaxBufferedBytes (Kafka cfg)) ∧
  (CertFile (TLS (Kafka cfg)) = "" ↔ KeyFile (TLS (Kafka cfg)) = "") ∧
  (Mechanism (SASL (Kafka cfg)) ≠ "" →
   sasl_Username (SASL (Kafka cfg)) ≠ "" ∧ sasl_Password (SASL (Kafka cfg)) ≠ "").
Proof.
  unfold config_error.
  destruct (Brokers (Kafka cfg)); [done|]. simpl (_ =? 0)%nat. cbv iota.
  repeat (split_if; [done|]). intros _. zbool.
  repeat match goal with H : Bool.eqb _ _ = true |- _ => apply Bool.eqb_prop in H end.
  split_and!; try done; try lia.
  - rewrite <- !String.eqb_eq.
    match goal with H : String.eqb _ _ = String.eqb _ _ |- _ => by rewrite H end.
  - intros Hm. apply String.eqb_neq in Hm. rewrite Hm in *. simpl in *.
    rewrite <- !String.eqb_neq.
    repeat match goal with
    | H : _ ∨ _ |- _ => destruct H; [discriminate|]
    | _ => progress zbool
    end. done.
Qed.

(** C26: a configuration the proxy starts with is valid whatever the
    environment holds: brokers, tokens and topics are never blank, so a stray
    comma cannot enable an empty bearer token or topic; every limit is positive
    (the header count: not negative) and inside its machine type, so the
    admission caps are on; TLS key and certificate come together and SASL never
    without credentials. *)
Theorem LoadFromEnv_valid getenv cfg : LoadFromEnv getenv = Ok cfg → config_valid cfg.
Proof.
  unfold LoadFromEnv. destruct (config_error _) eqn:E; [done|]. intros [= <-].
  apply config_error_none in E as (?&?&?&?&?&?).
  assert (∀ name def, in_i64 def → in_i64 (envInt getenv name def)) as Hi
    by (intros; by apply envInt_range).
  assert (∀ name def, in_i64 def → in_i64 (envInt64 getenv name def)) as Hi64
    by (intros; by apply (envInt_range getenv name)).
  split; try tauto; cbn [envConfig RequestMaxRecords RequestMaxBytes RequestMaxRecordBytes
    RequestMaxKeyBytes RequestMaxHeaders RequestMaxHeaderBytes RateLimit RequestsBurst
    BytesBurst Kafka MaxBufferedRecords MaxBufferedBytes] in *.
  all: try (split; [tauto|first [apply Hi | apply Hi64]; by split]).
  - by apply envCSVDefault_nonempty; repeat constructor.
  - apply i32_range.
  - apply cleanCSV_nonempty.
  - apply cleanCSV_nonempty.
Qed.

Definition sample_env (name : string) : string :=
  if String.eqb name "AUTH_BEARER_TOKENS" then "a,, b ,"
  else if String.eqb name "KAFKA_LINGER" then "5ms" else "".

Lemma LoadFromEnv_valid_witness : config_valid (envConfig sample_env).
Proof. apply (LoadFromEnv_valid sample_env). vm_compute. reflexivity. Defined.

(** A malformed variable never reaches the running proxy: a value that is
    blank or does not parse leaves the default of that variable in force, for
    integers, floats, durations and booleans alike. *)
Theorem env_malformed_default getenv name :
  (∀ def, Atoi (TrimSpace (getenv name)) = None → envInt getenv name def = def) ∧
  (∀ def, ParseFloat (TrimSpace (getenv name)) = None → envFloat getenv name def = def) ∧
  (∀ def, ParseDuration (TrimSpace (getenv name)) = None → Atoi (TrimSpace (getenv name)) = None →
     envDuration getenv name def = def) ∧
  (∀ b, envBool getenv name b = b ∨
     ToLower (TrimSpace (getenv name)) ∈
       ["1"; "true"; "yes"; "y"; "on"; "0"; "false"; "no"; "n"; "off"]).
Proof.
  unfold envInt, envFloat, envDuration, envBool. set (v := TrimSpace _).
  split_and!; intros def.
  - intros ->. by destruct (String.eqb v "").
  - intros ->. by destruct (String.eqb v "").
  - intros -> ->. by destruct (String.eqb v "").
  - destruct (String.eqb v ""); [by left|].
    case_bool_decide; [right; rewrite !elem_of_cons in *; tauto|].
    case_bool_decide; [right; rewrite !elem_of_cons in *; tauto|by left].
Qed.
