(* ===== verification/FloatExact.v ===== *)
(** * Integers in a [float64]

    Conversion, comparison and subtraction of integers below 2^53 are exact:
    no rounding takes place. *)

From S2P Require Import Prelude.
From S2P Require Import GoFloat.
Local Open Scope Z_scope.

Definition width (p : positive) : Z := Z.pos (digits2_pos p).

Lemma width_bounds p : 1 <= width p ∧ 2 ^ (width p - 1) <= Z.pos p < 2 ^ width p.
Proof.
  unfold width. induction p as [p IH|p IH|]; simpl digits2_pos.
  1-2: rewrite Pos2Z.inj_succ; set (w := Z.pos (digits2_pos p)) in *;
    replace (Z.succ w - 1) with (w - 1 + 1) by lia; unfold Z.succ;
    rewrite !Z.pow_add_r by lia; lia.
  done.
Qed.

Lemma width_unique p w : 1 <= w → 2 ^ (w - 1) <= Z.pos p < 2 ^ w → width p = w.
Proof.
  intros Hw Hp. destruct (width_bounds p) as [H1 H2].
  destruct (Z.lt_trichotomy (width p) w) as [H|[H|H]]; [|done|]; exfalso.
  - pose proof (Z.pow_le_mono_r 2 (width p) (w - 1)). lia.
  - pose proof (Z.pow_le_mono_r 2 w (width p - 1)). lia.
Qed.

Lemma width_shift p q k : 0 <= k → Z.pos q = Z.pos p * 2 ^ k → width q = width p + k.
Proof.
  intros Hk Hq. destruct (width_bounds p) as [H1 H2]. apply width_unique; [lia|].
  rewrite Hq. replace (width p + k - 1) with (width p - 1 + k) by lia.
  rewrite !Z.pow_add_r by lia. pose proof (Z.pow_pos_nonneg 2 k). nia.
Qed.

Lemma width_53 p : Z.pos p < 2 ^ 53 → width p <= 53.
Proof.
  intros Hp. destruct (width_bounds p) as [H1 H2].
  destruct (Z.le_gt_cases (width p) 53); [done|].
  pose proof (Z.pow_le_mono_r 2 53 (width p - 1)). lia.
Qed.

Lemma iter_xO p d : Z.pos (Pos.iter xO p d) = Z.pos p * 2 ^ Z.pos d.
Proof.
  revert d. apply Pos.peano_ind; [simpl; lia|]. intros d IH.
  rewrite Pos.iter_succ, Pos2Z.inj_xO, IH, Pos2Z.inj_succ, Z.pow_succ_r by lia. lia.
Qed.

(** [shl_align] changes the representation, not the value. *)
Lemma shl_align_spec m e e' :
  (shl_align m e e').2 = Z.min e e' ∧
  Z.pos (shl_align m e e').1 = Z.pos m * 2 ^ (e - Z.min e e').
Proof.
  unfold shl_align. destruct (e' - e) as [|d|d] eqn:E; simpl.
  - replace (Z.min e e') with e by lia. rewrite Z.sub_diag. lia.
  - replace (Z.min e e') with e by lia. rewrite Z.sub_diag. lia.
  - replace (Z.min e e') with e' by lia. split; [done|].
    rewrite iter_xO. f_equal. f_equal. lia.
Qed.

(** ** Shifting out zeros *)

Definition exact (m : Z) : shr_record := Build_shr_record m false false.

Lemma shr_1_exact x : 0 < x → shr_1 (exact (2 * x)) = exact x.
Proof. intros Hx. by destruct x. Qed.

Lemma iter_shr_1_exact d x : 0 < x → iter_pos shr_1 d (exact (x * 2 ^ Z.pos d)) = exact x.
Proof.
  revert x. induction d as [d IH|d IH|]; intros x Hx; cbn [iter_pos].
  - replace (x * 2 ^ Z.pos d~1) with (2 * (x * 2 ^ Z.pos d * 2 ^ Z.pos d)).
    + pose proof (Z.pow_pos_nonneg 2 (Z.pos d)).
      rewrite shr_1_exact by lia. rewrite (IH (x * 2 ^ Z.pos d)) by lia. by apply IH.
    + rewrite (Pos2Z.inj_xI d). replace (2 * Z.pos d + 1) with (1 + Z.pos d + Z.pos d) by lia.
      rewrite !Z.pow_add_r by lia. lia.
  - replace (x * 2 ^ Z.pos d~0) with (x * 2 ^ Z.pos d * 2 ^ Z.pos d).
    + pose proof (Z.pow_pos_nonneg 2 (Z.pos d)).
      rewrite (IH (x * 2 ^ Z.pos d)) by lia. by apply IH.
    + rewrite (Pos2Z.inj_xO d). replace (2 * Z.pos d) with (Z.pos d + Z.pos d) by lia.
      rewrite !Z.pow_add_r by lia. lia.
  - replace (x * 2 ^ 1) with (2 * x) by lia. by apply shr_1_exact.
Qed.

Lemma fexp_small e : -1000 <= e → fexp 53 1024 e = e - 53.
Proof. unfold fexp, emin. lia. Qed.

(** The canonical form of an integer below 2^53: a 53-bit mantissa. *)
Definition canon (p : positive) : float64 :=
  S754_finite false (Z.to_pos (Z.pos p * 2 ^ (53 - width p))) (width p - 53).

Lemma canon_mantissa p : Z.pos p < 2 ^ 53 →
  Z.pos (Z.to_pos (Z.pos p * 2 ^ (53 - width p))) = Z.pos p * 2 ^ (53 - width p).
Proof.
  intros Hp. pose proof (width_53 p Hp).
  pose proof (Z.pow_pos_nonneg 2 (53 - width p)). rewrite Z2Pos.id; lia.
Qed.

(** A 53-bit mantissa is left alone. *)
Lemma shr_fexp_canon p : Z.pos p < 2 ^ 53 →
  shr_fexp 53 1024 (Z.pos p * 2 ^ (53 - width p)) (width p - 53) loc_Exact =
    (exact (Z.pos p * 2 ^ (53 - width p)), width p - 53).
Proof.
  intros Hp. pose proof (width_53 p Hp). pose proof (width_bounds p) as [? _].
  rewrite <- canon_mantissa by done. set (q := Z.to_pos _).
  assert (width q = 53) as Hq.
  { rewrite (width_shift p q (53 - width p)); [lia|lia|]. by apply canon_mantissa. }
  unfold shr_fexp. simpl shr_record_of_loc. change (Zdigits2 (Z.pos q)) with (width q).
  rewrite Hq, fexp_small by lia.
  replace (53 + (width p - 53) - 53 - (width p - 53)) with 0 by lia. done.
Qed.

(** Any integer multiple of a power of two normalises to its canonical form. *)
Lemma binary_normalize_canon p k :
  Z.pos p < 2 ^ 53 → 0 <= k <= 52 →
  binary_normalize 53 1024 (Z.pos p * 2 ^ k) (- k) false = canon p.
Proof.
  intros Hp Hk. pose proof (width_53 p Hp) as Hw. pose proof (width_bounds p) as [Hw1 _].
  pose proof (Z.pow_pos_nonneg 2 k ltac:(lia) ltac:(lia)) as Hk'.
  destruct (Z.pos p * 2 ^ k) as [|q|q] eqn:Eq; [lia| |lia].
  symmetry in Eq. pose proof (width_shift p q k ltac:(lia) ltac:(lia)) as Hq.
  unfold binary_normalize, binary_round. fold (width q).
  rewrite Hq, fexp_small by lia.
  replace (width p + k + - k - 53) with (width p - 53) by lia.
  destruct (shl_align q (- k) (width p - 53)) as [mz ez] eqn:Es.
  pose proof (shl_align_spec q (- k) (width p - 53)) as [H1 H2]. rewrite Es in H1, H2.
  simpl in H1, H2. subst ez. unfold binary_round_aux.
  assert (shr_fexp 53 1024 (Z.pos mz) (Z.min (- k) (width p - 53)) loc_Exact =
    (exact (Z.pos p * 2 ^ (53 - width p)), width p - 53)) as ->.
  { destruct (Z.le_gt_cases (width p - 53) (- k)) as [Hle|Hgt].
    - rewrite Z.min_r in * by lia. rewrite H2, Eq, <- Z.mul_assoc, <- Z.pow_add_r by lia.
      replace (k + (- k - (width p - 53))) with (53 - width p) by lia.
      by apply shr_fexp_canon.
    - rewrite Z.min_l in * by lia. rewrite Z.sub_diag, Z.mul_1_r in H2. rewrite H2.
      unfold shr_fexp. change (Zdigits2 (Z.pos q)) with (width q). rewrite Hq, fexp_small by lia.
      replace (width p + k + - k - 53 - - k) with (width p - 53 + k) by lia.
      destruct (width p - 53 + k) as [|n|n] eqn:En; [lia| |lia]. unfold shr. simpl shr_record_of_loc.
      rewrite Eq. replace (2 ^ k) with (2 ^ (53 - width p) * 2 ^ Z.pos n)
        by (rewrite <- Z.pow_add_r by lia; f_equal; lia).
      rewrite Z.mul_assoc.
      change (Build_shr_record ?m false false) with (exact m). rewrite iter_shr_1_exact.
      + f_equal. lia.
      + pose proof (Z.pow_pos_nonneg 2 (53 - width p)). lia. }
  simpl shr_m. simpl loc_of_shr_record. unfold round_nearest_even.
  rewrite shr_fexp_canon by done. unfold canon.
  rewrite <- (canon_mantissa p Hp) at 1. simpl shr_m.
  assert ((width p - 53 <=? 1024 - 53) = true) as -> by lia. done.
Qed.

Lemma f64_of_Z_canon p : Z.pos p < 2 ^ 53 → f64_of_Z (Z.pos p) = canon p.
Proof.
  intros Hp. rewrite <- (binary_normalize_canon p 0) by lia. unfold f64_of_Z. f_equal; lia.
Qed.

(** ** Exact operations *)

Definition f64_int (z : Z) : Prop := 0 <= z < 2 ^ 53.

Lemma f64_sub_exact a b : f64_int a → f64_int b → b <= a →
  f64_sub (f64_of_Z a) (f64_of_Z b) = f64_of_Z (a - b).
Proof.
  intros [Ha1 Ha2] [Hb1 Hb2] Hab.
  destruct b as [|b|]; [|destruct a as [|a|]; [lia| |lia]|lia].
  { rewrite Z.sub_0_r. destruct a as [|a|]; [done| |lia]. by rewrite f64_of_Z_canon. }
  rewrite !f64_of_Z_canon by done. unfold f64_sub, canon, SFsub.
  pose proof (width_53 a Ha2). pose proof (width_53 b Hb2).
  pose proof (width_bounds a) as [Hwa1 Hwa2]. pose proof (width_bounds b) as [Hwb1 Hwb2].
  assert (width b <= width a) as Hw.
  { destruct (Z.le_gt_cases (width b) (width a)); [done|].
    pose proof (Z.pow_le_mono_r 2 (width a) (width b - 1)). lia. }
  rewrite Z.min_r by lia. cbv zeta. unfold cond_Zopp.
  rewrite !(proj2 (shl_align_spec _ _ _)), !canon_mantissa by done.
  rewrite Z.min_r, Z.min_id, Z.sub_diag, Z.mul_1_r, <- Z.mul_assoc, <- Z.pow_add_r by lia.
  replace (53 - width a + (width a - 53 - (width b - 53))) with (53 - width b) by lia.
  rewrite <- Z.mul_sub_distr_r.
  destruct (Z.pos a - Z.pos b) as [|c|] eqn:Ec; [done| |lia].
  replace (width b - 53) with (- (53 - width b)) by lia.
  rewrite binary_normalize_canon, f64_of_Z_canon; [done|lia..].
Qed.

Lemma f64_ltb_exact a b : f64_int a → f64_int b →
  f64_ltb (f64_of_Z a) (f64_of_Z b) = (a <? b).
Proof.
  intros [Ha1 Ha2] [Hb1 Hb2].
  destruct a as [|a|], b as [|b|]; try lia; rewrite ?f64_of_Z_canon by done; try done.
  unfold f64_ltb, SFltb, SFcompare, canon.
  pose proof (width_53 a Ha2). pose proof (width_53 b Hb2).
  pose proof (width_bounds a) as [Hwa1 Hwa2]. pose proof (width_bounds b) as [Hwb1 Hwb2].
  destruct (Z.compare_spec (width a - 53) (width b - 53)) as [He|He|He].
  - change (Pos.compare_cont Eq ?x ?y) with (Z.pos x ?= Z.pos y).
    rewrite !canon_mantissa by done.
    assert (width a = width b) as Hw by lia. rewrite Hw.
    assert (0 < 2 ^ (53 - width b)) by (apply Z.pow_pos_nonneg; lia).
    rewrite <- Zmult_compare_compat_r by lia. unfold Z.ltb. by destruct (_ ?= _).
  - symmetry. apply Z.ltb_lt. pose proof (Z.pow_le_mono_r 2 (width a) (width b - 1)). lia.
  - symmetry. apply Z.ltb_ge. pose proof (Z.pow_le_mono_r 2 (width b) (width a - 1)). lia.
Qed.
