(* ===== verification/RateLimit.v ===== *)
(** * internal/ratelimit/ratelimit.go

    The token bucket.  Every call of [Allow] runs under the mutex of the
    limiter; the monotonic clock is an argument, in nanoseconds. *)

From S2P Require Import Prelude.
From S2P Require Import GoFloat.
From S2P Require Import FloatExact.
From S2P Require Import Config.
Local Open Scope Z_scope.

(** [type Limiter struct]; a nil pointer is [None]. *)
Record Limiter := {
  rate : float64;
  burst : float64;
  tokens : float64;
  last : Z;
}.

Definition New (ratePerSecond : float64) (b : Z) (now : Z) : option Limiter :=
  if f64_leb ratePerSecond f64_zero then None
  else
    let b := if b <=? 0 then 1 else b in
    Some {| rate := ratePerSecond; burst := f64_of_Z b; tokens := f64_of_Z b; last := now |}.

(** [time.Time.Sub] on monotonic readings saturates. *)
Definition time_Sub (t u : Z) : Z := Z.max (- 2 ^ 63) (Z.min (2 ^ 63 - 1) (t - u)).

(** [Duration.Seconds]. *)
Definition Seconds (d : Z) : float64 :=
  f64_add (f64_of_Z (Z.quot d Second))
          (f64_div (f64_of_Z (Z.rem d Second)) (f64_of_Z 1000000000)).

(** The first half of [Allow]: credit the time since [last]. *)
Definition refill (l : Limiter) (now : Z) : Limiter :=
  let elapsed := Seconds (time_Sub now (last l)) in
  if f64_ltb f64_zero elapsed then
    let t := f64_add (tokens l) (f64_mul elapsed (rate l)) in
    let t := if f64_ltb (burst l) t then burst l else t in
    {| rate := rate l; burst := burst l; tokens := t; last := now |}
  else l.

Definition Allow (l : option Limiter) (cost : Z) (now : Z) : option Limiter * bool :=
  match l with
  | None => (None, true)
  | Some l =>
      if cost <=? 0 then (Some l, true)
      else
        let l := refill l now in
        let needed := f64_of_Z cost in
        if f64_ltb (tokens l) needed then (Some l, false)
        else (Some {| rate := rate l; burst := burst l;
                      tokens := f64_sub (tokens l) needed; last := last l |}, true)
  end.

(** ** Specification: an exact bucket *)

(** The verdicts and the tokens left when costs are asked of [t] tokens. *)
Fixpoint spend (t : Z) (costs : list Z) : list bool * Z :=
  match costs with
  | [] => ([], t)
  | c :: costs =>
      if (c <=? 0) then let '(bs, t) := spend t costs in (true :: bs, t)
      else if t <? c then let '(bs, t) := spend t costs in (false :: bs, t)
      else let '(bs, t) := spend (t - c) costs in (true :: bs, t)
  end.

(** The code, on a list of costs at one instant. *)
Fixpoint Allow_all (l : option Limiter) (costs : list Z) (now : Z)
  : list bool * option Limiter :=
  match costs with
  | [] => ([], l)
  | c :: costs =>
      let '(l, b) := Allow l c now in
      let '(bs, l) := Allow_all l costs now in (b :: bs, l)
  end.

Definition with_tokens (l : Limiter) (t : Z) : Limiter :=
  {| rate := rate l; burst := burst l; tokens := f64_of_Z t; last := last l |}.

(** ** Lemmas *)

Lemma refill_same_instant l : refill l (last l) = l.
Proof.
  unfold refill, time_Sub. rewrite Z.sub_diag.
  assert (f64_ltb f64_zero (Seconds (Z.max (- 2 ^ 63) (Z.min (2 ^ 63 - 1) 0))) = false) as ->
    by (vm_compute; reflexivity).
  done.
Qed.

Lemma Allow_exact l t cost :
  f64_int t → cost < 2 ^ 53 →
  Allow (Some (with_tokens l t)) cost (last l) =
    if (cost <=? 0) then (Some (with_tokens l t), true)
    else if t <? cost then (Some (with_tokens l t), false)
    else (Some (with_tokens l (t - cost)), true).
Proof.
  intros Ht Hc. unfold Allow. destruct (cost <=? 0) eqn:E; [done|]. zbool.
  pose proof (refill_same_instant (with_tokens l t)) as Hr.
  change (last (with_tokens l t)) with (last l) in Hr. rewrite Hr. cbn [with_tokens tokens rate burst last].
  rewrite f64_ltb_exact by (done || split; lia).
  destruct (t <? cost) eqn:E2; [done|]. zbool.
  rewrite f64_sub_exact; [done|done|split; lia|lia].
Qed.

Lemma spend_bounds t costs : 0 <= t → 0 <= (spend t costs).2 <= t.
Proof.
  revert t. induction costs as [|c costs IH]; intros t Ht; simpl; [lia|].
  repeat split_if; zbool.
  - specialize (IH t Ht). destruct (spend t costs). simpl in *. lia.
  - specialize (IH t Ht). destruct (spend t costs). simpl in *. lia.
  - specialize (IH (t - c)). destruct (spend (t - c) costs). simpl in *. lia.
Qed.

(** The costs of the granted requests. *)
Fixpoint granted (costs : list Z) (bs : list bool) : Z :=
  match costs, bs with
  | c :: costs, b :: bs => (if b then Z.max 0 c else 0) + granted costs bs
  | _, _ => 0
  end.

Lemma spend_granted t costs : 0 <= t → granted costs (spend t costs).1 = t - (spend t costs).2.
Proof.
  revert t. induction costs as [|c costs IH]; intros t Ht; simpl; [lia|].
  repeat split_if; zbool.
  - specialize (IH t Ht). destruct (spend t costs). simpl in *. lia.
  - specialize (IH t Ht). destruct (spend t costs). simpl in *. lia.
  - specialize (IH (t - c)). destruct (spend (t - c) costs). simpl in *. lia.
Qed.

Lemma Allow_all_exact l t costs :
  f64_int t → Forall (λ c, c < 2 ^ 53) costs →
  Allow_all (Some (with_tokens l t)) costs (last l) =
    ((spend t costs).1, Some (with_tokens l (spend t costs).2)).
Proof.
  intros Ht Hc. revert t Ht. induction Hc as [|c costs Hc _ IH]; intros t Ht; [done|].
  cbn [Allow_all spend]. rewrite Allow_exact by done. destruct Ht as [Ht1 Ht2].
  repeat split_if; zbool; rewrite IH by (split; lia); by destruct (spend _ costs).
Qed.

(** ** Properties *)

(** C25: inside one instant a fresh limiter refines an exact integer bucket of
    [burst] tokens: for every sequence of request costs it grants exactly those
    that still fit, in order, with no rounding error, so the total granted
    never exceeds the burst (costs and burst below 2^53). *)
Theorem burst_refines_bucket ratePerSecond b now costs l :
  New ratePerSecond b now = Some l → 0 < b < 2 ^ 53 →
  Forall (λ c, c < 2 ^ 53) costs →
  Allow_all (Some l) costs now = ((spend b costs).1, Some (with_tokens l (spend b costs).2)) ∧
  granted costs (Allow_all (Some l) costs now).1 <= b.
Proof.
  intros HN Hb Hc. unfold New in HN. destruct (f64_leb _ _); [done|].
  destruct (b <=? 0) eqn:E; zbool; [lia|]. injection HN as <-.
  set (l := Build_Limiter _ _ _ _).
  assert (Allow_all (Some l) costs now =
    ((spend b costs).1, Some (with_tokens l (spend b costs).2))) as ->.
  { change now with (last l). rewrite <- Allow_all_exact by (done || split; lia). done. }
  split; [done|]. cbn [fst]. rewrite spend_granted by lia. pose proof (spend_bounds b costs). lia.
Qed.

Lemma burst_refines_bucket_witness :
  let l := {| rate := f64_of_Z 1; burst := f64_of_Z 2; tokens := f64_of_Z 2; last := 7 |} in
  Allow_all (Some l) [1; 1; 1] 7 = ([true; true; false], Some (with_tokens l 0)) ∧
  granted [1; 1; 1] [true; true; false] <= 2.
Proof.
  apply (burst_refines_bucket (f64_of_Z 1) 2 7 [1; 1; 1]).
  - reflexivity.
  - lia.
  - repeat constructor.
Defined.

(** Refilling is capped: whenever the clock has advanced far enough that
    the credit would exceed the burst, the bucket is exactly full again: a
    request up to the burst is granted and leaves the exact difference, and a
    larger one is refused however long the client waited. *)
Lemma refill_caps_at_burst l b cost now :
  burst l = f64_of_Z b → f64_int b → 0 < cost < 2 ^ 53 →
  f64_ltb f64_zero (Seconds (time_Sub now (last l))) = true →
  f64_ltb (burst l)
    (f64_add (tokens l) (f64_mul (Seconds (time_Sub now (last l))) (rate l))) = true →
  Allow (Some l) cost now =
    (Some {| rate := rate l; burst := burst l;
             tokens := f64_of_Z (if cost <=? b then b - cost else b); last := now |},
     cost <=? b).
Proof.
  intros Hl Hb Hc He Hf. unfold Allow. destruct (cost <=? 0) eqn:E; zbool; [lia|].
  unfold refill. rewrite He, Hf. cbv iota zeta. cbn [tokens rate burst last].
  rewrite Hl, f64_ltb_exact by (done || split; lia).
  destruct (b <? cost) eqn:E2, (cost <=? b) eqn:E3; zbool; try lia; [done|].
  rewrite f64_sub_exact; [done|done|split; lia|lia].
Qed.

Lemma refill_caps_at_burst_witness :
  let l := {| rate := f64_of_Z 100; burst := f64_of_Z 1; tokens := f64_of_Z 0; last := 0 |} in
  Allow (Some l) 1 20000000 =
    (Some {| rate := f64_of_Z 100; burst := f64_of_Z 1; tokens := f64_of_Z 0;
             last := 20000000 |}, true).
Proof.
  apply (refill_caps_at_burst
    {| rate := f64_of_Z 100; burst := f64_of_Z 1; tokens := f64_of_Z 0; last := 0 |} 1);
    first [reflexivity | split; lia].
Defined.

(** A rate of NaN, which [LoadFromEnv] accepts because every comparison
    with NaN is false, switches the limit off: once the clock advances the
    bucket holds NaN, and from then on every request is granted, whatever it
    costs and whenever it comes. *)
Theorem nan_rate_never_limits l cost now :
  rate l = S754_nan → tokens l = S754_nan ∨ f64_ltb f64_zero (Seconds (time_Sub now (last l))) = true →
  ∃ l', Allow (Some l) cost now = (Some l', true) ∧ rate l' = S754_nan ∧
        (0 < cost → tokens l' = S754_nan).
Proof.
  intros Hr Ht. unfold Allow. destruct (cost <=? 0) eqn:E; zbool.
  { eexists. split_and!; [done..|lia]. }
  assert (tokens (refill l now) = S754_nan ∧ rate (refill l now) = S754_nan) as [H1 H2].
  { unfold refill. destruct (f64_ltb f64_zero _) eqn:Ef.
    - simpl. rewrite Hr.
      assert (∀ x, f64_mul x S754_nan = S754_nan) as -> by by intros [].
      assert (∀ x, f64_add x S754_nan = S754_nan) as -> by by intros [].
      by destruct (burst l) as [[]|[]| |[]].
    - destruct Ht as [Ht|]; [|done]. done. }
  rewrite H1. simpl. eexists. split_and!; [done|by rewrite H2|done].
Qed.

Lemma nan_rate_never_limits_witness :
  ∃ l', Allow (New S754_nan 5 0) 1000000 1000000000 = (Some l', true) ∧ rate l' = S754_nan ∧
        (0 < 1000000 → tokens l' = S754_nan).
Proof.
  apply (nan_rate_never_limits
    {| rate := S754_nan; burst := f64_of_Z 5; tokens := f64_of_Z 5; last := 0 |}).
  - reflexivity.
  - right. reflexivity.
Defined.
