(* ===== verification/Franz.v ===== *)
(** * internal/producer/franz

    The Kafka producer over franz-go: its options, the explicit partitioner,
    the record pool and the state of one produce request.  The client library
    (kgo, sasl) and the files and certificates of the operating system are
    outside the program: they are parameters. *)

From S2P Require Import Prelude.
From S2P Require Import GoStrings.
From S2P Require Import Strconv.
From S2P Require Import GoErrors.
From S2P Require Import SchemaTypes.
From S2P Require Import Producer.
From S2P Require Import Config.
From S2P Require Import Admission.
Local Open Scope Z_scope.

(** ** kgo.Record, as the program fills and reads it *)

Record kgoRecord := {
  k_Topic : string;
  k_Key : option string;
  k_Value : option string;
  k_Headers : list (string * option string);
  k_Partition : Z;
  k_Offset : Z;
}.

Definition zero_kgoRecord : kgoRecord := Build_kgoRecord "" None None [] 0 0.

(** ** partitioner.go *)

Definition unspecifiedPartition : Z := -1.

(** A [kgo.TopicPartitioner] with its internal state [S]; the two optional
    interfaces are [None] when the value does not implement them. *)
Record TopicPartitioner (S : Type) := {
  RequiresConsistency : kgoRecord → S → bool;
  Partition : kgoRecord → Z → S → Z * S;
  PartitionByBackup : option (kgoRecord → Z → (Z → Z) → S → Z * S);
  OnNewBatch : option (S → S);
}.
Arguments RequiresConsistency {S} t.
Arguments Partition {S} t.
Arguments PartitionByBackup {S} t.
Arguments OnNewBatch {S} t.

(** [explicitTopicPartitioner] over its fallback. *)
Definition explicitTopicPartitioner {S} (fallback : TopicPartitioner S) : TopicPartitioner S := {|
  RequiresConsistency r s :=
    if 0 <=? k_Partition r then true else RequiresConsistency fallback r s;
  Partition r n s :=
    if 0 <=? k_Partition r then (k_Partition r, s) else Partition fallback r n s;
  PartitionByBackup := Some (λ r n backupIter s,
    if 0 <=? k_Partition r then (k_Partition r, s)
    else match PartitionByBackup fallback with
         | Some f => f r n backupIter s
         | None => Partition fallback r n s
         end);
  OnNewBatch := Some (λ s,
    match OnNewBatch fallback with Some f => f s | None => s end);
|}.

(** [explicitPartitioner], and the one [New] configures; franz-go's
    [UniformBytesPartitioner] is a parameter. *)
Definition explicitPartitioner {S} (fallback : string → TopicPartitioner S)
  : string → TopicPartitioner S := λ topic, explicitTopicPartitioner (fallback topic).
Definition newExplicitPartitioner {S}
    (UniformBytesPartitioner : Z → bool → bool → string → TopicPartitioner S)
  : string → TopicPartitioner S :=
  explicitPartitioner (UniformBytesPartitioner (64 * 1024) true true).

(** ** Records *)

Definition toKgoHeaders (headers : list Header) : list (string * option string) :=
  (λ h, (h_Key h, h_Value h)) <$> headers.

(** [acquireRecord]: whatever record the pool hands out is overwritten. *)
Definition acquireRecord (pooled : option kgoRecord) (r : PRecord) : kgoRecord :=
  let rec := {| k_Topic := r_Topic r; k_Key := r_Key r; k_Value := r_Value r;
                k_Headers := toKgoHeaders (r_Headers r);
                k_Partition := unspecifiedPartition; k_Offset := 0 |} in
  match r_Partition r with
  | Some p => {| k_Topic := k_Topic rec; k_Key := k_Key rec; k_Value := k_Value rec;
                 k_Headers := k_Headers rec; k_Partition := p; k_Offset := k_Offset rec |}
  | None => rec
  end.

(** [releaseRecord]: the record put back into the pool. *)
Definition releaseRecord (pool : list kgoRecord) (rec : option kgoRecord) : list kgoRecord :=
  match rec with
  | None => pool
  | Some _ => zero_kgoRecord :: pool
  end.

(** ** One request *)

(** [type requestState struct]: the channel [done] is whether it is closed;
    the admission controller is shared and stays outside. *)
Record requestState := {
  remaining : Z;
  results : list Result;
  done : bool;
  st_records : Z;
  st_bytes : Z;
  released : bool;
}.

Definition newRequestState (n : nat) (records bytes : Z) : requestState :=
  {| remaining := Z.of_nat n; results := replicate n zero_Result; done := false;
     st_records := records; st_bytes := bytes; released := false |}.

Definition kafkaErrorCode (err : option error) : option Z :=
  match err with None => None | Some _ => Some 50002 end.

(** The result [complete] builds from the arguments of the callback. *)
Definition callback_result (rec : option kgoRecord) (err : option error) : Result :=
  {| res_Partition := from_option k_Partition 0 rec;
     res_Offset := from_option k_Offset 0 rec;
     res_ErrorCode := kafkaErrorCode err;
     res_Err := err |}.

(** The atomic actions of [complete] and [release]: a slice write, an atomic
    decrement, a compare-and-swap, and closing the channel ([None] is the
    panic of closing it twice). *)
Definition set_result (i : nat) (r : Result) (s : requestState) : requestState :=
  {| remaining := remaining s; results := <[i := r]> (results s); done := done s;
     st_records := st_records s; st_bytes := st_bytes s; released := released s |}.
Definition add_remaining (s : requestState) : requestState :=
  {| remaining := remaining s - 1; results := results s; done := done s;
     st_records := st_records s; st_bytes := st_bytes s; released := released s |}.
Definition cas_released (s : requestState) : requestState * bool :=
  if released s then (s, false)
  else ({| remaining := remaining s; results := results s; done := done s;
           st_records := st_records s; st_bytes := st_bytes s; released := true |}, true).
Definition close_done (s : requestState) : option requestState :=
  if done s then None
  else Some {| remaining := remaining s; results := results s; done := true;
               st_records := st_records s; st_bytes := st_bytes s; released := released s |}.

(** [requestState.release], run alone. *)
Definition release (s : requestState) (admission : option Admission)
  : requestState * option Admission :=
  let '(s, swapped) := cas_released s in
  if swapped then (s, Release admission (st_records s) (st_bytes s)) else (s, admission).

(** [requestState.complete], run alone. *)
Definition complete (index : nat) (rec : option kgoRecord) (err : option error)
    (s : requestState) (admission : option Admission) : option (requestState * option Admission) :=
  let s := add_remaining (set_result index (callback_result rec err) s) in
  if remaining s =? 0 then
    let '(s, admission) := release s admission in
    s ← close_done s; Some (s, admission)
  else Some (s, admission).

(** The bytes [Produce] charges for a batch. *)
Definition batch_bytes (records : list PRecord) : Z :=
  foldl (λ n r, i64 (n + SizeBytes r)) 0 records.

(** ** Options *)

Inductive Acks := NoAck | LeaderAck | AllISRAcks.
Inductive Codec := NoCompression | GzipCompression | SnappyCompression | Lz4Compression
  | ZstdCompression.
Inductive SASLMechanism := PlainAuth (user pass : string) | Sha256Auth (user pass : string)
  | Sha512Auth (user pass : string).

Definition requiredAcks (v : string) : Acks :=
  let v := ToLower (TrimSpace v) in
  if bool_decide (v ∈ ["0"; "none"; "noack"; "no-ack"]) then NoAck
  else if bool_decide (v ∈ ["1"; "leader"]) then LeaderAck
  else AllISRAcks.

Definition compressionPreference (v0 : string) : res (list Codec) :=
  let v := ToLower (TrimSpace v0) in
  if bool_decide (v ∈ [""; "default"]) then Ok []
  else if bool_decide (v ∈ ["none"; "off"; "false"]) then Ok [NoCompression]
  else if String.eqb v "gzip" then Ok [GzipCompression]
  else if String.eqb v "snappy" then Ok [SnappyCompression]
  else if String.eqb v "lz4" then Ok [Lz4Compression; NoCompression]
  else if String.eqb v "zstd" then Ok [ZstdCompression; Lz4Compression; NoCompression]
  else Err (ENew ("unsupported KAFKA_COMPRESSION " +:+ Quote v0)).

Definition saslMechanism (cfg : SASLConfig) : res (option SASLMechanism) :=
  let v := ToUpper (TrimSpace (Mechanism cfg)) in
  if String.eqb v "" then Ok None
  else if String.eqb v "PLAIN" then Ok (Some (PlainAuth (sasl_Username cfg) (sasl_Password cfg)))
  else if String.eqb v "SCRAM-SHA-256" || String.eqb v "SCRAM_SHA_256"
  then Ok (Some (Sha256Auth (sasl_Username cfg) (sasl_Password cfg)))
  else if String.eqb v "SCRAM-SHA-512" || String.eqb v "SCRAM_SHA_512"
  then Ok (Some (Sha512Auth (sasl_Username cfg) (sasl_Password cfg)))
  else Err (ENew ("unsupported KAFKA_SASL_MECHANISM " +:+ Quote (Mechanism cfg))).

Section client.
(** The operating system and the certificate parser. *)
Context {pool cert : Type} (ReadFile : string → res string)
  (AppendCertsFromPEM : string → option pool)
  (LoadX509KeyPair : string → string → res cert).

(** [tls.Config], with the fields the program sets. *)
Record tlsConfig := {
  MinVersion_TLS12 : bool;
  skip_verify : bool;
  RootCAs : option pool;
  Certificates : list cert;
}.

Definition newTLSConfig (cfg : TLSConfig) : res tlsConfig :=
  let? roots :=
    if negb (String.eqb (CAFile cfg) "") then
      match ReadFile (CAFile cfg) with
      | Err err => Err (EWrap "read KAFKA_TLS_CA_FILE: " err)
      | Ok pem =>
          match AppendCertsFromPEM pem with
          | None => Err (ENew "KAFKA_TLS_CA_FILE did not contain any PEM certificates")
          | Some roots => Ok (Some roots)
          end
      end
    else Ok None in
  let? certs :=
    if negb (String.eqb (CertFile cfg) "") || negb (String.eqb (KeyFile cfg) "") then
      if String.eqb (CertFile cfg) "" || String.eqb (KeyFile cfg) "" then
        Err (ENew "KAFKA_TLS_CERT_FILE and KAFKA_TLS_KEY_FILE must be set together")
      else match LoadX509KeyPair (CertFile cfg) (KeyFile cfg) with
           | Err err => Err (EWrap "load Kafka TLS client certificate: " err)
           | Ok c => Ok [c]
           end
    else Ok [] in
  Ok {| MinVersion_TLS12 := true; skip_verify := InsecureSkipVerify cfg;
        RootCAs := roots; Certificates := certs |}.

(** The client options, one constructor per [kgo] option of the source. *)
Inductive Opt :=
  | SeedBrokers (l : list string) | OClientID (s : string) | RecordPartitioner
  | OMaxBufferedRecords (n : Z) | OMaxBufferedBytes (n : Z) | ProducerLinger (d : Z)
  | ProducerBatchMaxBytes (n : Z) | ProduceRequestTimeout (d : Z)
  | RecordDeliveryTimeout (d : Z) | ORequiredAcks (a : Acks)
  | ProducerBatchCompression (l : list Codec) | DialTLSConfig (t : tlsConfig)
  | OSASL (m : SASLMechanism).

Context {client : Type} (NewClient : list Opt → res client).

(** [type Producer struct] when it is built: the client, the controller, and
    the close flag, which is down. *)
Record FranzProducer := { fp_client : client; fp_admit : Admission; closeFlag : bool }.

Definition newProducer (cfg : KafkaConfig) : res FranzProducer :=
  let opts := [SeedBrokers (Brokers cfg); OClientID (ClientID cfg); RecordPartitioner;
    OMaxBufferedRecords (MaxBufferedRecords cfg); OMaxBufferedBytes (MaxBufferedBytes cfg);
    ProducerLinger (Linger cfg); ProducerBatchMaxBytes (BatchMaxBytes cfg);
    ProduceRequestTimeout (RequestTimeout cfg); RecordDeliveryTimeout (DeliveryTimeout cfg);
    ORequiredAcks (requiredAcks (RequiredAcks cfg))] in
  let? compressions := compressionPreference (Compression cfg) in
  let opts := match compressions with
              | [] => opts | _ => opts ++ [ProducerBatchCompression compressions] end in
  let? opts :=
    if tls_Enable (TLS cfg) then
      let? t := newTLSConfig (TLS cfg) in Ok (opts ++ [DialTLSConfig t])
    else Ok opts in
  let? mech := saslMechanism (SASL cfg) in
  let opts := match mech with Some m => opts ++ [OSASL m] | None => opts end in
  let? c := NewClient opts in
  Ok {| fp_client := c;
        fp_admit := NewAdmission (MaxBufferedRecords cfg) (MaxBufferedBytes cfg);
        closeFlag := false |}.
End client.

(** [AdmissionSnapshot] and [BufferedSnapshot], over the controller and the
    counters of the Kafka client. *)
Definition AdmissionSnapshot (a : Admission) : Z * Z * Z * Z := Snapshot (Some a).
Definition BufferedSnapshot {C : Type} (BufferedProduceRecords BufferedProduceBytes : C → Z)
    (client : C) : Z * Z := (BufferedProduceRecords client, BufferedProduceBytes client).

(** ** Properties *)

(** C35: the proxy's partition contract: a record decoded with a partition is
    sent to exactly that partition, whatever franz-go's default partitioner
    would choose and through every entry point of the partitioner, and its
    state is not touched; a record without one is placed by the default. *)
Theorem explicit_partition_respected {S} (fallback : TopicPartitioner S) pooled r n it s :
  from_option (λ p, 0 <= p) True (r_Partition r) →
  let rec := acquireRecord pooled r in
  let t := explicitTopicPartitioner fallback in
  match r_Partition r with
  | Some p =>
      Partition t rec n s = (p, s) ∧ RequiresConsistency t rec s = true ∧
      (λ f, f rec n it s) <$> PartitionByBackup t = Some (p, s)
  | None =>
      Partition t rec n s = Partition fallback rec n s ∧
      RequiresConsistency t rec s = RequiresConsistency fallback rec s ∧
      (λ f, f rec n it s) <$> PartitionByBackup t =
        Some (match PartitionByBackup fallback with
              | Some f => f rec n it s
              | None => Partition fallback rec n s
              end)
  end.
Proof.
  unfold acquireRecord. destruct (r_Partition r) as [p|]; simpl; [|done].
  intros Hp. by rewrite (proj2 (Z.leb_le 0 p) Hp).
Qed.

Definition sample_record : PRecord := Build_PRecord "t" (Some "k") None [] (Some 4).

Lemma explicit_partition_respected_witness :
  let fallback := Build_TopicPartitioner nat (λ _ _, false) (λ _ _ s, (9, S s)) None None in
  Partition (explicitTopicPartitioner fallback) (acquireRecord None sample_record) 12 0%nat =
    (4, 0%nat).
Proof.
  apply (explicit_partition_respected
    (Build_TopicPartitioner nat (λ _ _, false) (λ _ _ s, (9, S s)) None None)
    None sample_record 12 (λ z, z) 0%nat).
  simpl. lia.
Defined.

(** Nothing of an earlier request leaks through the record pool: the record
    handed to Kafka depends on the request's record only, carries its topic,
    key, value and headers, and starts with no offset. *)
Lemma acquireRecord_fresh pooled r :
  acquireRecord pooled r = acquireRecord None r ∧
  k_Topic (acquireRecord pooled r) = r_Topic r ∧ k_Key (acquireRecord pooled r) = r_Key r ∧
  k_Value (acquireRecord pooled r) = r_Value r ∧
  (λ p, Build_Header p.1 p.2) <$> k_Headers (acquireRecord pooled r) = r_Headers r ∧
  k_Partition (acquireRecord pooled r) = default unspecifiedPartition (r_Partition r) ∧
  k_Offset (acquireRecord pooled r) = 0 ∧
  ∀ pool, Forall (λ rec, rec = zero_kgoRecord) pool →
    Forall (λ rec, rec = zero_kgoRecord) (releaseRecord pool (Some (acquireRecord pooled r))).
Proof.
  split; [done|]. unfold acquireRecord.
  assert ((λ p, Build_Header p.1 p.2) <$> toKgoHeaders (r_Headers r) = r_Headers r).
  { unfold toKgoHeaders. rewrite <- list_fmap_compose.
    induction (r_Headers r) as [|[] hs IH]; [done|]. by rewrite fmap_cons, IH. }
  destruct (r_Partition r); simpl; split_and!; try done; intros; by constructor.
Qed.
