(* ===== verification/ProduceSteps.v ===== *)
(** * Concurrent produce requests of internal/producer/franz/producer.go

    Any number of [Produce] calls and of franz-go callbacks run at the same
    time over one admission controller.  Every step below is one atomic action
    of the source: a load of the close flag, a call on the mutex-protected
    controller, a hand-over to the client, a slot write, an atomic decrement, a
    compare-and-swap, a channel close, or the outcome of the select. *)

From S2P Require Import Prelude.
From S2P Require Import GoErrors.
From S2P Require Import Producer.
From S2P Require Import Admission.
From S2P Require Import Franz.
Local Open Scope Z_scope.

(** ** State *)

(** Where the callback of one record is, with the result it wrote. *)
Inductive cbstate :=
  | CbIdle                      (* not handed to the client *)
  | CbPending                   (* handed over, not called back *)
  | CbWrote (r : Result)        (* s.results[index] = result *)
  | CbLast (r : Result)         (* Add(-1) returned 0 *)
  | CbReleasing (r : Result)    (* won the compare-and-swap *)
  | CbClosing (r : Result)      (* about to close(s.done) *)
  | CbDone (r : Result).

(** Where the goroutine that called [Produce] is. *)
Inductive caller :=
  | Entry
  | Admitting
  | Submitting (i : nat)        (* in the loop; waiting in the select at the end *)
  | Cancelled (e : error)       (* took the ctx.Done branch *)
  | CReleasing (e : error)      (* won the compare-and-swap *)
  | Returned (r : res (list Result)).

Record request := {
  q_records : list PRecord;
  q_state : option requestState;   (* None until admitted *)
  q_cbs : list cbstate;
  q_caller : caller;
}.

Record sys := {
  s_closed : bool;
  s_admit : Admission;
  s_reqs : list request;
  s_panic : bool;
}.

(** ** Steps *)

Inductive req_event :=
  | Enter | Acquire | Submit
  | CbWrite (i : nat) (rec : option kgoRecord) (err : option error)
  | CbAdd (i : nat) | CbCas (i : nat) | CbRelease (i : nat) | CbClose (i : nat)
  | WaitDone | CtxDone (e : error) | CallerCas | CallerRelease.

Definition size (q : request) : nat := length (q_records q).

Definition set_caller (c : caller) (q : request) : request :=
  Build_request (q_records q) (q_state q) (q_cbs q) c.
Definition set_cb (i : nat) (c : cbstate) (q : request) : request :=
  Build_request (q_records q) (q_state q) (<[i := c]> (q_cbs q)) (q_caller q).
Definition set_state (st : requestState) (q : request) : request :=
  Build_request (q_records q) (Some st) (q_cbs q) (q_caller q).

Section steps.
(** [kgo.ErrClientClosed]. *)
Context (ErrClientClosed : error).

(** One action of one request: the request, the controller and whether the
    action panics; [None] when the action is not enabled. *)
Definition req_step (closed : bool) (e : req_event) (q : request) (a : Admission)
  : option (request * Admission * bool) :=
  match e, q_caller q with
  | Enter, Entry =>
      Some (set_caller (if closed then Returned (Err ErrClientClosed)
                        else if (size q =? 0)%nat then Returned (Ok [])
                        else Admitting) q, a, false)
  | Acquire, Admitting =>
      let n := Z.of_nat (size q) in
      let bytes := batch_bytes (q_records q) in
      match TryAcquire (Some a) n bytes with
      | (Some a, true) =>
          Some (Build_request (q_records q) (Some (newRequestState (size q) n bytes))
                  (replicate (size q) CbIdle) (Submitting 0), a, false)
      | (Some a, false) => Some (set_caller (Returned (Err (ESentinel ErrOverloaded))) q, a, false)
      | (None, _) => None
      end
  | Submit, Submitting i =>
      if (i <? size q)%nat
      then Some (set_caller (Submitting (S i)) (set_cb i CbPending q), a, false) else None
  | WaitDone, Submitting i =>
      st ← q_state q;
      if (i =? size q)%nat && done st
      then Some (set_caller (Returned (Ok (results st))) q, a, false) else None
  | CtxDone err, Submitting i =>
      if (i =? size q)%nat then Some (set_caller (Cancelled err) q, a, false) else None
  | CallerCas, Cancelled err =>
      st ← q_state q;
      let '(st, won) := cas_released st in
      Some (set_caller (if won then CReleasing err else Returned (Err err)) (set_state st q),
            a, false)
  | CallerRelease, CReleasing err =>
      st ← q_state q;
      a ← Release (Some a) (st_records st) (st_bytes st);
      Some (set_caller (Returned (Err err)) q, a, false)
  | CbWrite i rec err, _ =>
      st ← q_state q;
      match q_cbs q !! i with
      | Some CbPending =>
          let r := callback_result rec err in
          Some (set_cb i (CbWrote r) (set_state (set_result i r st) q), a, false)
      | _ => None
      end
  | CbAdd i, _ =>
      st ← q_state q;
      match q_cbs q !! i with
      | Some (CbWrote r) =>
          let st := add_remaining st in
          Some (set_cb i (if remaining st =? 0 then CbLast r else CbDone r) (set_state st q),
                a, false)
      | _ => None
      end
  | CbCas i, _ =>
      st ← q_state q;
      match q_cbs q !! i with
      | Some (CbLast r) =>
          let '(st, won) := cas_released st in
          Some (set_cb i (if won then CbReleasing r else CbClosing r) (set_state st q), a, false)
      | _ => None
      end
  | CbRelease i, _ =>
      st ← q_state q;
      match q_cbs q !! i with
      | Some (CbReleasing r) =>
          a ← Release (Some a) (st_records st) (st_bytes st);
          Some (set_cb i (CbClosing r) q, a, false)
      | _ => None
      end
  | CbClose i, _ =>
      st ← q_state q;
      match q_cbs q !! i with
      | Some (CbClosing r) =>
          match close_done st with
          | Some st => Some (set_cb i (CbDone r) (set_state st q), a, false)
          | None => Some (q, a, true)
          end
      | _ => None
      end
  | _, _ => None
  end.

Inductive event :=
  | Call (records : list PRecord)
  | Req (r : nat) (e : req_event)
  | CloseProducer.

Definition step (e : event) (s : sys) : option sys :=
  match e with
  | Call records =>
      Some (Build_sys (s_closed s) (s_admit s)
        (s_reqs s ++ [Build_request records None [] Entry]) (s_panic s))
  | CloseProducer => Some (Build_sys true (s_admit s) (s_reqs s) (s_panic s))
  | Req r e =>
      q ← s_reqs s !! r;
      x ← req_step (s_closed s) e q (s_admit s);
      Some (Build_sys (s_closed s) x.1.2 (<[r := x.1.1]> (s_reqs s)) (s_panic s || x.2))
  end.

Fixpoint run (es : list event) (s : sys) : option sys :=
  match es with
  | [] => Some s
  | e :: es => s ← step e s; run es s
  end.
End steps.

Definition init (maxRecords maxBytes : Z) : sys :=
  Build_sys false (NewAdmission maxRecords maxBytes) [] false.

(** A batch that exists in memory. *)
Definition in_memory (records : list PRecord) : Prop :=
  Z.of_nat (length records) < 2 ^ 62 ∧ 0 <= batch_bytes records < 2 ^ 62.

(** Reachability: any interleaving of calls with batches in memory. *)
Inductive reachable (E : error) (mr mb : Z) : sys → Prop :=
  | reach_init : reachable E mr mb (init mr mb)
  | reach_step s e s' :
      reachable E mr mb s →
      (∀ records, e = Call records → in_memory records) →
      step E e s = Some s' → reachable E mr mb s'.

(** ** Counting *)

Definition b2z (b : bool) : Z := if b then 1 else 0.

Definition unfinished (c : cbstate) : Z :=
  match c with CbIdle | CbPending | CbWrote _ => 1 | _ => 0 end.
Definition closer (c : cbstate) : Z :=
  match c with CbLast _ | CbReleasing _ | CbClosing _ => 1 | _ => 0 end.
Definition releasing (c : cbstate) : Z :=
  match c with CbReleasing _ => 1 | _ => 0 end.
Definition past_release (c : cbstate) : Z :=
  match c with CbClosing _ => 1 | _ => 0 end.

Definition cb_result (c : cbstate) : option Result :=
  match c with
  | CbIdle | CbPending => None
  | CbWrote r | CbLast r | CbReleasing r | CbClosing r | CbDone r => Some r
  end.

(** The goroutines of a request that have won the compare-and-swap and have
    not called [Release] yet. *)
Definition releasers (q : request) : Z :=
  zsum releasing (q_cbs q) + match q_caller q with CReleasing _ => 1 | _ => 0 end.

(** Whether the request still occupies its reservation. *)
Definition held (q : request) : Z :=
  match q_state q with
  | None => 0
  | Some st => if released st then releasers q else 1
  end.
Definition held_records (q : request) : Z := held q * Z.of_nat (size q).
Definition held_bytes (q : request) : Z := held q * batch_bytes (q_records q).
