(* ===== verification/ProduceSafety.v ===== *)
(** * Safety and liveness of concurrent produce requests

    An invariant of every reachable state of [ProduceSteps], and what follows
    from it: capacity is conserved and never exceeded, results belong to their
    callbacks, no channel is closed twice, and every call returns. *)

From S2P Require Import Prelude.
From S2P Require Import GoErrors.
From S2P Require Import Producer.
From S2P Require Import Admission.
From S2P Require Import Franz.
From S2P Require Import ProduceSteps.
Local Open Scope Z_scope.

#[local] Opaque Release TryAcquire.

(** ** The invariant of one request *)

(** How many records have been handed to the client. *)
Definition submitted (q : request) : nat :=
  match q_caller q with Submitting i => i | _ => size q end.

Definition caller_inv (q : request) (st : requestState) : Prop :=
  match q_caller q with
  | Entry | Admitting => False
  | Submitting i => (i <= size q)%nat
  | Cancelled _ => True
  | CReleasing _ => released st = true
  | Returned (Ok rs) => done st = true ∧ rs = results st
  | Returned (Err _) => released st = true
  end.

Record state_inv (q : request) (st : requestState) : Prop := {
  i_size : (0 < size q)%nat;
  i_cbs : length (q_cbs q) = size q;
  i_results : length (results st) = size q;
  i_records : st_records st = Z.of_nat (size q);
  i_bytes : st_bytes st = batch_bytes (q_records q);
  i_remaining : remaining st = zsum unfinished (q_cbs q);
  i_closer : zsum closer (q_cbs q) = b2z ((remaining st =? 0) && negb (done st));
  i_done : done st = true → remaining st = 0 ∧ released st = true;
  i_releasers : releasers q + b2z (negb (released st)) <= 1;
  i_past : 0 < zsum past_release (q_cbs q) → released st = true;
  i_slots : ∀ i c r, q_cbs q !! i = Some c → cb_result c = Some r → results st !! i = Some r;
  i_submitted : ∀ i c, q_cbs q !! i = Some c → c = CbIdle ↔ (submitted q <= i)%nat;
  i_caller : caller_inv q st;
}.

Definition unadmitted_inv (q : request) : Prop :=
  q_cbs q = [] ∧
  match q_caller q with
  | Entry => True
  | Admitting => (0 < size q)%nat
  | Returned (Ok rs) => rs = [] ∧ size q = 0%nat
  | Returned (Err _) => True
  | _ => False
  end.

Definition req_inv (q : request) : Prop :=
  in_memory (q_records q) ∧
  match q_state q with None => unadmitted_inv q | Some st => state_inv q st end.

(** ** Its preservation, step by step *)

Lemma unfinished_nonneg c : 0 <= unfinished c. Proof. by destruct c. Qed.
Lemma closer_nonneg c : 0 <= closer c. Proof. by destruct c. Qed.
Lemma releasing_nonneg c : 0 <= releasing c. Proof. by destruct c. Qed.
Lemma past_nonneg c : 0 <= past_release c. Proof. by destruct c. Qed.

(** The counts of a request whose [i]-th callback moves from [c] to [c']. *)
Lemma counts_insert q i c c' : q_cbs q !! i = Some c →
  zsum unfinished (<[i:=c']> (q_cbs q)) = zsum unfinished (q_cbs q) - unfinished c + unfinished c' ∧
  zsum closer (<[i:=c']> (q_cbs q)) = zsum closer (q_cbs q) - closer c + closer c' ∧
  zsum releasing (<[i:=c']> (q_cbs q)) = zsum releasing (q_cbs q) - releasing c + releasing c' ∧
  zsum past_release (<[i:=c']> (q_cbs q)) = zsum past_release (q_cbs q) - past_release c + past_release c' ∧
  unfinished c <= zsum unfinished (q_cbs q) ∧ closer c <= zsum closer (q_cbs q) ∧
  releasing c <= zsum releasing (q_cbs q) ∧ past_release c <= zsum past_release (q_cbs q).
Proof.
  intros H. rewrite !(zsum_insert _ _ _ _ c' H).
  split_and!; try done; eapply zsum_lookup; eauto using unfinished_nonneg, closer_nonneg,
    releasing_nonneg, past_nonneg.
Qed.

Lemma counts_nonneg q :
  0 <= zsum unfinished (q_cbs q) ∧ 0 <= zsum closer (q_cbs q) ∧
  0 <= zsum releasing (q_cbs q) ∧ 0 <= zsum past_release (q_cbs q).
Proof.
  split_and!; apply zsum_nonneg; intros; auto using unfinished_nonneg, closer_nonneg,
    releasing_nonneg, past_nonneg.
Qed.

(** Moving a submitted callback keeps its result in its slot. *)
Lemma slots_insert (cbs : list cbstate) (rs : list Result) i c c' :
  cbs !! i = Some c → cb_result c' = cb_result c →
  (∀ j c r, cbs !! j = Some c → cb_result c = Some r → rs !! j = Some r) →
  ∀ j c r, <[i:=c']> cbs !! j = Some c → cb_result c = Some r → rs !! j = Some r.
Proof.
  intros Hi Hc H j d r Hj Hd. destruct (decide (i = j)) as [<-|Hne].
  - rewrite list_lookup_insert_eq in Hj by (eapply lookup_lt_Some; eauto). injection Hj as <-.
    apply (H i c); [done|congruence].
  - rewrite list_lookup_insert_ne in Hj by done. eauto.
Qed.

Lemma submitted_insert q i c c' :
  q_cbs q !! i = Some c → c ≠ CbIdle → c' ≠ CbIdle →
  (∀ j c, q_cbs q !! j = Some c → c = CbIdle ↔ (submitted q <= j)%nat) →
  ∀ j d, <[i:=c']> (q_cbs q) !! j = Some d → d = CbIdle ↔ (submitted q <= j)%nat.
Proof.
  intros Hi Hc Hc' H j d Hj. destruct (decide (i = j)) as [<-|Hne].
  - rewrite list_lookup_insert_eq in Hj by (eapply lookup_lt_Some; eauto). injection Hj as <-.
    rewrite <- (H i c Hi). done.
  - rewrite list_lookup_insert_ne in Hj by done. eauto.
Qed.

Lemma released_spec st st' won : cas_released st = (st', won) →
  remaining st' = remaining st ∧ results st' = results st ∧ done st' = done st ∧
  st_records st' = st_records st ∧ st_bytes st' = st_bytes st ∧ released st' = true ∧
  won = negb (released st).
Proof. unfold cas_released. destruct (released st) eqn:E; intros [= <- <-]; done. Qed.

(** A callback that is already submitted moves on. *)
Lemma cb_step_inv q st i c c' st' :
  state_inv q st → q_cbs q !! i = Some c → c ≠ CbIdle → c' ≠ CbIdle →
  length (results st') = length (results st) →
  st_records st' = st_records st → st_bytes st' = st_bytes st →
  remaining st' = remaining st - unfinished c + unfinished c' →
  zsum closer (q_cbs q) - closer c + closer c' = b2z ((remaining st' =? 0) && negb (done st')) →
  (done st' = true → remaining st' = 0 ∧ released st' = true) →
  releasers q - releasing c + releasing c' + b2z (negb (released st')) <= 1 →
  (0 < zsum past_release (q_cbs q) - past_release c + past_release c' → released st' = true) →
  (∀ j d r, <[i:=c']> (q_cbs q) !! j = Some d → cb_result d = Some r → results st' !! j = Some r) →
  (released st = true → released st' = true) →
  (done st = true → done st' = true ∧ results st' = results st) →
  state_inv (set_cb i c' (set_state st' q)) st'.
Proof.
  intros [] Hi Hc Hc' Hl Hr Hb Hrem Hcl Hd Hrl Hp Hs Hmr Hmd.
  destruct (counts_insert q i c c' Hi) as (E1&E2&E3&E4&_).
  split; unfold set_cb, set_state, size in *; cbn [q_records q_cbs q_caller q_state] in *; try done.
  - by rewrite length_insert.
  - congruence.
  - congruence.
  - congruence.
  - rewrite E1. lia.
  - rewrite E2. done.
  - unfold releasers in *. cbn [q_cbs q_caller]. rewrite E3. lia.
  - rewrite E4. done.
  - unfold submitted in *. cbn [q_caller]. by apply (submitted_insert q i c c').
  - unfold caller_inv, size in *. cbn [q_caller q_records].
    destruct (q_caller q) as [| | | | |[]]; try done; auto.
    destruct i_caller0 as [Hd0 ->]. destruct (Hmd Hd0) as [? ->]. done.
Qed.

(** Solve the side conditions of [cb_step_inv]. *)
Ltac inv_side :=
  cbn [remaining results done st_records st_bytes released unfinished closer releasing
       past_release set_result add_remaining b2z negb] in *;
  try done; try lia;
  try (intros ?; match goal with
       | H : 0 < _ → released _ = true |- released _ = true => apply H; lia end).

Section events.
Context (E : error) (closed : bool).

Lemma write_inv q st a i rec err q' a' p :
  state_inv q st → q_state q = Some st →
  req_step E closed (CbWrite i rec err) q a = Some (q', a', p) →
  (∃ st', q_state q' = Some st' ∧ state_inv q' st') ∧ held q' = held q ∧ a' = a ∧ p = false.
Proof.
  intros Hinv Hst. unfold req_step. rewrite Hst. simpl.
  destruct (q_cbs q !! i) as [[]|] eqn:Hi; try done. intros [= <- <- <-].
  pose proof (counts_nonneg q) as Hn. pose proof (counts_insert q i _ (CbWrote (callback_result rec err)) Hi) as Hc.
  pose proof Hinv as []. inv_side.
  split; [eexists; split; [done|]|].
  - apply (cb_step_inv q st i CbPending _ _ Hinv Hi); inv_side.
    + by rewrite length_insert.
    + intros j d r Hj Hd. destruct (decide (i = j)) as [<-|Hne].
      * rewrite list_lookup_insert_eq in Hj by (eapply lookup_lt_Some; eauto).
        injection Hj as <-. injection Hd as <-. apply list_lookup_insert_eq.
        apply lookup_lt_Some in Hi. lia.
      * rewrite list_lookup_insert_ne in Hj by done. rewrite list_lookup_insert_ne by done. eauto.
    + intros Hd. destruct (i_done0 Hd) as [H0 _]. lia.
  - split_and!; try done. unfold held, releasers, set_cb, set_state. simpl. rewrite Hst.
    destruct (released st); lia.
Qed.

Lemma add_inv q st a i q' a' p :
  state_inv q st → q_state q = Some st →
  req_step E closed (CbAdd i) q a = Some (q', a', p) →
  (∃ st', q_state q' = Some st' ∧ state_inv q' st') ∧ held q' = held q ∧ a' = a ∧ p = false.
Proof.
  intros Hinv Hst. unfold req_step. rewrite Hst. simpl.
  destruct (q_cbs q !! i) as [[]|] eqn:Hi; try done. intros [= <- <- <-].
  pose proof (counts_nonneg q) as Hn. pose proof Hinv as [].
  set (c' := if remaining st - 1 =? 0 then CbLast r else CbDone r).
  pose proof (counts_insert q i _ c' Hi) as Hc. inv_side.
  assert (unfinished c' = 0 ∧ releasing c' = 0 ∧ past_release c' = 0 ∧ c' ≠ CbIdle ∧
          cb_result c' = Some r ∧ closer c' = b2z (remaining st - 1 =? 0)) as (U&R&P&N&C&K).
  { unfold c'. by destruct (remaining st - 1 =? 0). }
  assert (done st = false) as Hd by (destruct (done st); [destruct i_done0; [done|lia]|done]).
  split; [eexists; split; [done|]|].
  - apply (cb_step_inv q st i (CbWrote r) c' _ Hinv Hi); inv_side.
    + rewrite K, i_closer0, Hd. destruct (remaining st =? 0) eqn:E0; zbool; [lia|].
      by destruct (remaining st - 1 =? 0).
    + intros Hd'. congruence.
    + eapply slots_insert; eauto.
  - split_and!; try done. unfold held, releasers, set_cb, set_state. simpl. rewrite Hst.
    destruct (released st); [|done]. fold c'. lia.
Qed.

Lemma cas_inv q st a i q' a' p :
  state_inv q st → q_state q = Some st →
  req_step E closed (CbCas i) q a = Some (q', a', p) →
  (∃ st', q_state q' = Some st' ∧ state_inv q' st') ∧ held q' = held q ∧ a' = a ∧ p = false.
Proof.
  intros Hinv Hst. unfold req_step. rewrite Hst. simpl.
  destruct (q_cbs q !! i) as [[]|] eqn:Hi; try done.
  destruct (cas_released st) as [st' won] eqn:Ec.
  apply released_spec in Ec as (H1&H2&H3&H4&H5&H6&Hw). intros [= <- <- <-].
  pose proof (counts_nonneg q) as Hn. pose proof Hinv as [].
  set (c' := if won then CbReleasing r else CbClosing r).
  pose proof (counts_insert q i _ c' Hi) as Hc. inv_side.
  assert (unfinished c' = 0 ∧ releasing c' = b2z won ∧ c' ≠ CbIdle ∧
          cb_result c' = Some r ∧ closer c' = 1) as (U&R&N&C&K) by (unfold c'; by destruct won).
  assert (done st = false ∧ (remaining st =? 0) = true) as [Hd H0].
  { destruct (done st), (remaining st =? 0); simpl in *; try done; lia. }
  split; [eexists; split; [done|]|].
  - apply (cb_step_inv q st i (CbLast r) c' _ Hinv Hi); inv_side; rewrite ?H1, ?H2, ?H3, ?H6, ?K; try done.
    + lia.
    + intros Hd'. congruence.
    + rewrite R, Hw. simpl. destruct (released st); simpl in *; lia.
    + eapply slots_insert; eauto.
  - split_and!; try done. unfold held, releasers, set_cb, set_state. simpl. rewrite Hst, H6.
    fold c'. clearbody c'. rewrite Hw in R. unfold releasers in *.
    assert (0 <= match q_caller q with CReleasing _ => 1 | _ => 0 end) by by case_match.
    destruct (released st) eqn:Er; simpl in R, i_releasers0; lia.
Qed.
Lemma close_inv q st a i q' a' p :
  state_inv q st → q_state q = Some st →
  req_step E closed (CbClose i) q a = Some (q', a', p) →
  (∃ st', q_state q' = Some st' ∧ state_inv q' st') ∧ held q' = held q ∧ a' = a ∧ p = false.
Proof.
  intros Hinv Hst. unfold req_step. rewrite Hst. simpl.
  destruct (q_cbs q !! i) as [[]|] eqn:Hi; try done.
  pose proof (counts_nonneg q) as Hn. pose proof Hinv as [].
  pose proof (counts_insert q i _ (CbDone r) Hi) as Hc. inv_side.
  assert (done st = false ∧ (remaining st =? 0) = true) as [Hd H0].
  { destruct (done st), (remaining st =? 0); simpl in *; try done; lia. }
  unfold close_done. rewrite Hd. intros [= <- <- <-].
  rewrite Hd, H0 in i_closer0. simpl in i_closer0.
  assert (released st = true) as Hr by (apply i_past0; lia).
  zbool. split; [eexists; split; [done|]|].
  - apply (cb_step_inv q st i (CbClosing r) (CbDone r) _ Hinv Hi); inv_side.
    + rewrite andb_false_r. simpl. lia.
    + eapply slots_insert; eauto.
  - split_and!; try done. unfold held, releasers, set_cb, set_state. simpl. rewrite Hst, Hr. lia.
Qed.

Lemma cb_release_inv q st a i q' a' p :
  state_inv q st → q_state q = Some st →
  req_step E closed (CbRelease i) q a = Some (q', a', p) →
  (∃ st', q_state q' = Some st' ∧ state_inv q' st') ∧ held q = 1 ∧ held q' = 0 ∧ p = false ∧
  Release (Some a) (Z.of_nat (size q)) (batch_bytes (q_records q)) = Some a'.
Proof.
  intros Hinv Hst. unfold req_step. rewrite Hst. simpl.
  destruct (q_cbs q !! i) as [[]|] eqn:Hi; try done.
  pose proof (counts_nonneg q) as Hn. pose proof Hinv as [].
  pose proof (counts_insert q i _ (CbClosing r) Hi) as Hc. inv_side.
  destruct (Release (Some a) (st_records st) (st_bytes st)) as [a''|] eqn:Ea; [|done].
  rewrite i_records0, i_bytes0 in Ea. simpl. intros [= <- <- <-].
  assert (0 <= match q_caller q with CReleasing _ => 1 | _ => 0 end) by by case_match.
  assert (1 <= releasers q) by (unfold releasers; lia).
  assert (released st = true) as Hr by (destruct (released st); [done|simpl in *; lia]).
  assert (releasers q = 1) by (destruct (released st); simpl in *; lia).
  split; [exists st; split; [by rewrite <- Hst|]|].
  - replace (set_cb i (CbClosing r) q) with (set_cb i (CbClosing r) (set_state st q))
      by (unfold set_cb, set_state; cbn; by rewrite Hst).
    apply (cb_step_inv q st i (CbReleasing r) (CbClosing r) _ Hinv Hi); inv_side.
    eapply slots_insert; eauto.
  - split_and!; [| |done|exact Ea]; unfold held, set_cb; cbn; rewrite Hst, Hr; [done|].
    unfold releasers in *. cbn. lia.
Qed.

(** Steps of the caller that leave the callbacks alone. *)
Lemma caller_step_inv q st st' c :
  state_inv q st → q_state q = Some st →
  remaining st' = remaining st → results st' = results st → done st' = done st →
  st_records st' = st_records st → st_bytes st' = st_bytes st →
  (released st = true → released st' = true) →
  submitted (set_caller c q) = submitted q →
  releasers (set_caller c q) + b2z (negb (released st')) <= 1 →
  caller_inv (set_caller c (set_state st' q)) st' →
  state_inv (set_caller c (set_state st' q)) st'.
Proof.
  intros [] Hst H1 H2 H3 H4 H5 H6 H7 H8 H9.
  split; unfold set_caller, set_state, size, submitted, releasers in *; cbn in *; try done;
    rewrite ?H1, ?H2, ?H3, ?H4, ?H5 in *; try done.
  - intros Hd. destruct (i_done0 Hd). auto.
  - auto.
  - intros i c' Hc. rewrite H7. auto.
Qed.

Lemma submit_inv q st a q' a' p :
  state_inv q st → q_state q = Some st →
  req_step E closed Submit q a = Some (q', a', p) →
  (∃ st', q_state q' = Some st' ∧ state_inv q' st') ∧ held q' = held q ∧ a' = a ∧ p = false.
Proof.
  intros Hinv Hst. unfold req_step. destruct (q_caller q) as [| |k| | |] eqn:Hq; try done.
  destruct (k <? size q)%nat eqn:Hk; zbool; [|done]. intros [= <- <- <-].
  pose proof Hinv as [].
  destruct (lookup_lt_is_Some_2 (q_cbs q) k) as [c Hc]; [lia|].
  assert (c = CbIdle) as ->.
  { apply (i_submitted0 k c Hc). unfold submitted. rewrite Hq. lia. }
  destruct (counts_insert q k CbIdle CbPending Hc) as (E1&E2&E3&E4&_).
  split; [exists st; split; [done|]|].
  - split; unfold set_caller, set_cb, size, releasers, submitted, caller_inv in *; cbn in *;
      rewrite ?Hq in *; try done.
    + by rewrite length_insert.
    + rewrite E1. cbn. lia.
    + rewrite E2. cbn. lia.
    + rewrite E3. cbn. lia.
    + rewrite E4. cbn. intros. apply i_past0. lia.
    + intros j d r Hj Hd. destruct (decide (k = j)) as [<-|Hne].
      * rewrite list_lookup_insert_eq in Hj by lia. by injection Hj as <-.
      * rewrite list_lookup_insert_ne in Hj by done. eauto.
    + intros j d Hj. destruct (decide (k = j)) as [<-|Hne].
      * rewrite list_lookup_insert_eq in Hj by lia. injection Hj as <-. split; [done|lia].
      * rewrite list_lookup_insert_ne in Hj by done. rewrite (i_submitted0 j d Hj). lia.
  - split_and!; try done. unfold held, releasers, set_caller, set_cb. cbn. rewrite Hst, Hq, E3.
    destruct (released st); cbn; lia.
Qed.
End events.

Section caller_events.
Context (E : error) (closed : bool).

Lemma wait_inv q st a q' a' p :
  state_inv q st → q_state q = Some st →
  req_step E closed WaitDone q a = Some (q', a', p) →
  (∃ st', q_state q' = Some st' ∧ state_inv q' st') ∧ held q' = held q ∧ a' = a ∧ p = false.
Proof.
  intros Hinv Hst. unfold req_step. destruct (q_caller q) as [| |k| | |] eqn:Hq; try done.
  rewrite Hst. simpl. destruct (k =? size q)%nat eqn:Hk; [|done]. apply Nat.eqb_eq in Hk as ->.
  destruct (done st) eqn:Hd; [|done]. intros [= <- <- <-].
  pose proof Hinv as []. split; [exists st; split; [done|]|].
  - replace (set_caller (Returned (Ok (results st))) q) with
      (set_caller (Returned (Ok (results st))) (set_state st q))
      by (unfold set_caller, set_state; cbn; by rewrite Hst).
    apply (caller_step_inv q st st); try done.
    + unfold submitted. rewrite Hq. done.
    + unfold releasers in *. rewrite Hq in *. done.
  - split_and!; try done. unfold held, releasers, set_caller. cbn. by rewrite Hst, Hq.
Qed.

Lemma ctx_inv q st a err q' a' p :
  state_inv q st → q_state q = Some st →
  req_step E closed (CtxDone err) q a = Some (q', a', p) →
  (∃ st', q_state q' = Some st' ∧ state_inv q' st') ∧ held q' = held q ∧ a' = a ∧ p = false.
Proof.
  intros Hinv Hst. unfold req_step. destruct (q_caller q) as [| |k| | |] eqn:Hq; try done.
  destruct (k =? size q)%nat eqn:Hk; [|done]. apply Nat.eqb_eq in Hk as ->.
  intros [= <- <- <-].
  pose proof Hinv as []. split; [exists st; split; [done|]|].
  - replace (set_caller (Cancelled err) q) with (set_caller (Cancelled err) (set_state st q))
      by (unfold set_caller, set_state; cbn; by rewrite Hst).
    apply (caller_step_inv q st st); try done.
    + unfold submitted. rewrite Hq. done.
    + unfold releasers in *. rewrite Hq in *. done.
  - split_and!; try done. unfold held, releasers, set_caller. cbn. by rewrite Hst, Hq.
Qed.

Lemma caller_cas_inv q st a q' a' p :
  state_inv q st → q_state q = Some st →
  req_step E closed CallerCas q a = Some (q', a', p) →
  (∃ st', q_state q' = Some st' ∧ state_inv q' st') ∧ held q' = held q ∧ a' = a ∧ p = false.
Proof.
  intros Hinv Hst. unfold req_step. destruct (q_caller q) as [| | |err| |] eqn:Hq; try done.
  rewrite Hst. simpl. destruct (cas_released st) as [st' won] eqn:Ec.
  apply released_spec in Ec as (H1&H2&H3&H4&H5&H6&Hw). intros [= <- <- <-].
  pose proof Hinv as [].
  assert (∀ c, zsum releasing (q_cbs (set_caller c q)) = zsum releasing (q_cbs q)) as Ht by done.
  split; [exists st'; split; [done|]|].
  - apply (caller_step_inv q st st'); try done.
    + unfold submitted. rewrite Hq. by destruct won.
    + rewrite H6. unfold releasers in *. rewrite Ht, Hq in *. subst won.
      destruct (released st); cbn in *; lia.
    + unfold caller_inv. by destruct won.
  - split_and!; try done. unfold held, releasers, set_caller, set_state in *. cbn. rewrite Hst, H6.
    rewrite Hq in *. destruct (released st); subst won; cbn in *; [done|].
    pose proof (counts_nonneg q). lia.
Qed.

Lemma caller_release_inv q st a q' a' p :
  state_inv q st → q_state q = Some st →
  req_step E closed CallerRelease q a = Some (q', a', p) →
  (∃ st', q_state q' = Some st' ∧ state_inv q' st') ∧ held q = 1 ∧ held q' = 0 ∧ p = false ∧
  Release (Some a) (Z.of_nat (size q)) (batch_bytes (q_records q)) = Some a'.
Proof.
  intros Hinv Hst. unfold req_step. destruct (q_caller q) as [| | | |err|] eqn:Hq; try done.
  rewrite Hst. simpl. pose proof Hinv as [].
  destruct (Release (Some a) (st_records st) (st_bytes st)) as [a''|] eqn:Ea; [|done].
  rewrite i_records0, i_bytes0 in Ea. simpl. intros [= <- <- <-].
  assert (released st = true) as Hr.
  { unfold caller_inv in i_caller0. by rewrite Hq in i_caller0. }
  pose proof (counts_nonneg q) as Hn.
  split; [exists st; split; [done|]|].
  - replace (set_caller (Returned (Err err)) q) with (set_caller (Returned (Err err)) (set_state st q))
      by (unfold set_caller, set_state; cbn; by rewrite Hst).
    apply (caller_step_inv q st st); try done.
    + unfold submitted. by rewrite Hq.
    + unfold releasers in *. rewrite Hq in *. cbn. lia.
  - split_and!; [| |done|exact Ea]; unfold held, releasers, set_caller in *; cbn;
      rewrite Hst, Hr in *; rewrite ?Hq in *; cbn in *; lia.
Qed.

Lemma enter_inv q a q' a' p :
  unadmitted_inv q → q_state q = None →
  req_step E closed Enter q a = Some (q', a', p) →
  q_state q' = None ∧ unadmitted_inv q' ∧ a' = a ∧ p = false.
Proof.
  intros [Hc Hq] Hst. unfold req_step. destruct (q_caller q); try done. intros [= <- <- <-].
  split_and!; try done. split; [done|]. unfold set_caller. cbn. destruct closed; [done|].
  destruct (size q =? 0)%nat eqn:E0; [apply Nat.eqb_eq in E0; done|].
  apply Nat.eqb_neq in E0. change (0 < size q)%nat. lia.
Qed.
End caller_events.

(** ** The invariant of the system *)

Section system.
Context (E : error) (mr mb : Z).
Context (Hmr : 0 < mr < 2 ^ 62) (Hmb : 0 < mb < 2 ^ 62).

(** The controller accounts for exactly what the requests hold. *)
Record sys_inv (s : sys) : Prop := {
  inv_panic : s_panic s = false;
  inv_reqs : Forall req_inv (s_reqs s);
  inv_records : usedRecords (s_admit s) = zsum held_records (s_reqs s);
  inv_bytes : usedBytes (s_admit s) = zsum held_bytes (s_reqs s);
  inv_wf : admission_wf (s_admit s);
  inv_caps : maxRecords (s_admit s) = mr ∧ maxBytes (s_admit s) = mb;
}.

(** What a step of one request does to the controller. *)
Record effect (q q' : request) (a a' : Admission) : Prop := {
  eff_wf : admission_wf a';
  eff_caps : maxRecords a' = maxRecords a ∧ maxBytes a' = maxBytes a;
  eff_records : usedRecords a' = usedRecords a + (held_records q' - held_records q);
  eff_bytes : usedBytes a' = usedBytes a + (held_bytes q' - held_bytes q);
}.

Lemma effect_none q q' a : admission_wf a → q_records q' = q_records q → held q' = held q →
  effect q q' a a.
Proof.
  intros Hwf Hr Hh. split; try done; unfold held_records, held_bytes, size; rewrite Hr, Hh; lia.
Qed.

Lemma effect_release q q' a a' :
  admission_wf a → in_memory (q_records q) → q_records q' = q_records q →
  held q = 1 → held q' = 0 →
  held_records q <= usedRecords a → held_bytes q <= usedBytes a →
  Release (Some a) (Z.of_nat (size q)) (batch_bytes (q_records q)) = Some a' →
  effect q q' a a'.
Proof.
  intros Hwf [Hm1 Hm2] Hr Hh Hh' Hur Hub.
  unfold held_records, held_bytes in Hur, Hub. rewrite Hh in *.
  rewrite release_spec by (done || unfold size; lia). intros [= <-].
  split; cbn; [|done|unfold held_records, size in *|unfold held_bytes in *];
    rewrite ?Hr, ?Hh, ?Hh'; [|lia..].
  destruct Hwf. split; cbn; lia.
Qed.

Lemma acquire_inv q a q' a' p :
  admission_wf a → maxRecords a = mr → maxBytes a = mb →
  in_memory (q_records q) → unadmitted_inv q → q_state q = None →
  req_step E false Acquire q a = Some (q', a', p) →
  req_inv q' ∧ q_records q' = q_records q ∧ p = false ∧ effect q q' a a'.
Proof.
  intros Hwf Hcr Hcb Hmem [Hc Hq] Hst. unfold req_step. destruct (q_caller q); try done.
  pose proof Hmem as [Hm1 Hm2].
  assert (headroom a (Z.of_nat (size q)) (batch_bytes (q_records q))) as Hh.
  { destruct Hwf. unfold headroom, size. lia. }
  rewrite try_acquire_spec by done.
  case_decide as Hf; intros [= <- <- <-].
  - split_and!; try done.
    + split; [done|]. cbn. unfold size in *.
      split; unfold size, newRequestState, releasers, submitted, caller_inv; cbn.
      * done.
      * by rewrite length_replicate.
      * by rewrite length_replicate.
      * done.
      * done.
      * rewrite zsum_replicate. cbn. lia.
      * rewrite zsum_replicate. cbn. assert ((Z.of_nat (length (q_records q)) =? 0) = false) as ->
          by lia. cbn. lia.
      * done.
      * rewrite zsum_replicate. cbn. lia.
      * rewrite zsum_replicate. cbn. lia.
      * intros i c r Hi Hr. apply lookup_replicate in Hi as [-> _]. done.
      * intros i c Hi. apply lookup_replicate in Hi as [-> _]. split; [lia|done].
      * lia.
    + split; [by apply charge_wf|done|..]; unfold held_records, held_bytes, held, size; cbn -[batch_bytes].
      all: rewrite Hst; lia.
  - split_and!; [|done..|].
    + split; [done|]. cbn. by rewrite Hst.
    + apply effect_none; try done. unfold held, set_caller. cbn. by rewrite Hst.
Qed.

Lemma req_step_closed_irrelevant closed e q a :
  e ≠ Enter → req_step E closed e q a = req_step E false e q a.
Proof. by destruct e. Qed.

Lemma req_step_records closed e q a q' a' p :
  req_step E closed e q a = Some (q', a', p) → q_records q' = q_records q.
Proof.
  unfold req_step. intros H.
  repeat match type of H with
  | context [match ?x with _ => _ end] => destruct x; try discriminate H
  | (_ ≫= _) = Some _ => apply bind_Some in H as (?&?&H)
  | Some _ = Some _ => injection H as <- _ _
  end; done.
Qed.

Lemma req_step_ok closed e q a q' a' p :
  admission_wf a → maxRecords a = mr → maxBytes a = mb → req_inv q →
  held_records q <= usedRecords a → held_bytes q <= usedBytes a →
  req_step E closed e q a = Some (q', a', p) →
  req_inv q' ∧ q_records q' = q_records q ∧ p = false ∧ effect q q' a a'.
Proof.
  intros Hwf Hcr Hcb [Hmem Hinv] Hur Hub Hstep.
  pose proof (req_step_records _ _ _ _ _ _ _ Hstep) as Hrec.
  destruct (q_state q) as [st|] eqn:Hst.
  - assert ((∃ st', q_state q' = Some st' ∧ state_inv q' st') ∧ p = false ∧
      ((held q' = held q ∧ a' = a) ∨ (held q = 1 ∧ held q' = 0 ∧
         Release (Some a) (Z.of_nat (size q)) (batch_bytes (q_records q)) = Some a')))
      as ((st'&Hst'&Hinv')&->&Heff).
    { destruct e.
      - pose proof (i_caller _ _ Hinv) as Hc. unfold caller_inv in Hc. unfold req_step in Hstep.
        by destruct (q_caller q).
      - pose proof (i_caller _ _ Hinv) as Hc. unfold caller_inv in Hc. unfold req_step in Hstep.
        by destruct (q_caller q).
      - eapply submit_inv in Hstep as (?&?&->&->); eauto 6.
      - eapply write_inv in Hstep as (?&?&->&->); eauto 6.
      - eapply add_inv in Hstep as (?&?&->&->); eauto 6.
      - eapply cas_inv in Hstep as (?&?&->&->); eauto 6.
      - eapply cb_release_inv in Hstep as (?&?&?&->&?); eauto 8.
      - eapply close_inv in Hstep as (?&?&->&->); eauto 6.
      - eapply wait_inv in Hstep as (?&?&->&->); eauto 6.
      - eapply ctx_inv in Hstep as (?&?&->&->); eauto 6.
      - eapply caller_cas_inv in Hstep as (?&?&->&->); eauto 6.
      - eapply caller_release_inv in Hstep as (?&?&?&->&?); eauto 8. }
    split_and!; [|done..|].
    + split; [by rewrite Hrec|]. by rewrite Hst'.
    + destruct Heff as [[Hh ->]|(Hh&Hh'&Hr)]; [by apply effect_none|by eapply effect_release].
  - destruct e; try (unfold req_step in Hstep; rewrite Hst in Hstep; simpl in Hstep;
      by destruct (q_caller q)).
    + eapply enter_inv in Hstep as (Hs'&Hu&->&->); eauto.
      split_and!; try done; [split; [by rewrite Hrec|by rewrite Hs']|].
      apply effect_none; try done. unfold held. by rewrite Hst, Hs'.
    + rewrite req_step_closed_irrelevant in Hstep by done. by eapply acquire_inv.
    + exfalso. destruct Hinv as [_ Hq]. unfold req_step in Hstep. by destruct (q_caller q).
    + exfalso. destruct Hinv as [_ Hq]. unfold req_step in Hstep. by destruct (q_caller q).
Qed.
End system.

(** Case analysis of an action that was enabled. *)
Ltac step_cases H :=
  repeat match type of H with
  | context [match q_cbs ?q !! ?k with _ => _ end] =>
      let Hi := fresh "Hi" in destruct (q_cbs q !! k) as [[]|] eqn:Hi; try discriminate H
  | context [match cas_released ?st with _ => _ end] => destruct (cas_released st) as [? []]
  | context [match close_done ?st with _ => _ end] => destruct (close_done st); try discriminate H
  | context [match TryAcquire ?a ?b ?c with _ => _ end] =>
      destruct (TryAcquire a b c) as [[?|] []]; try discriminate H
  | context [match Release ?a ?b ?c with _ => _ end] =>
      destruct (Release a b c); [|discriminate H]
  | context [if ?b then _ else _] =>
      let Hb := fresh "Hb" in destruct b eqn:Hb; try discriminate H
  | (_ ≫= _) = Some _ => apply bind_Some in H as (?&?&H)
  end.

Section reachable.
Context (E : error) (mr mb : Z).
Context (Hmr : 0 < mr < 2 ^ 62) (Hmb : 0 < mb < 2 ^ 62).

Lemma releasers_nonneg q : 0 <= releasers q.
Proof.
  unfold releasers. pose proof (counts_nonneg q).
  assert (0 <= match q_caller q with CReleasing _ => 1 | _ => 0 end) by by case_match. lia.
Qed.

Lemma held_range q : req_inv q → 0 <= held q <= 1.
Proof.
  intros [_ Hinv]. unfold held. destruct (q_state q) as [st|]; [|lia].
  pose proof (releasers_nonneg q). pose proof (i_releasers _ _ Hinv).
  destruct (released st); cbn in *; lia.
Qed.

Lemma held_amounts q : req_inv q → 0 <= held_records q ∧ 0 <= held_bytes q.
Proof.
  intros Hi. pose proof (held_range q Hi). destruct Hi as [[Hm1 Hm2] _].
  unfold held_records, held_bytes. nia.
Qed.

Lemma sys_inv_init : sys_inv mr mb (init mr mb).
Proof. split; try done. apply new_admission_wf; lia. Qed.

Lemma sys_inv_step s e s' :
  sys_inv mr mb s → (∀ records, e = Call records → in_memory records) →
  step E e s = Some s' → sys_inv mr mb s'.
Proof.
  intros [Hp Hr Hur Hub Hwf [Hc1 Hc2]] Hmem. destruct e as [records|r e|]; simpl.
  - intros [= <-]. split; cbn; try done.
    + apply Forall_app. split; [done|]. constructor; [|constructor]. split; [by apply Hmem|done].
    + rewrite zsum_app. cbn [zsum]. change (held_records _) with 0. lia.
    + rewrite zsum_app. cbn [zsum]. change (held_bytes _) with 0. lia.
  - destruct (s_reqs s !! r) as [q|] eqn:Hq; [|done]. simpl.
    destruct (req_step E (s_closed s) e q (s_admit s)) as [[[q' a'] p]|] eqn:Hstep; [|done].
    intros [= <-]. cbn.
    assert (Forall (λ q, 0 <= held_records q ∧ 0 <= held_bytes q) (s_reqs s)) as Hnn.
    { eapply Forall_impl; [exact Hr|]. intros. by apply held_amounts. }
    rewrite Forall_forall in Hnn.
    apply (req_step_ok E mr mb Hmr Hmb) in Hstep
      as (Hi'&Hrec&->&[Hwf' [Hc1' Hc2'] Her Heb]); [|done| | | | |].
    + split; cbn; try done; [| | | |split; congruence].
      * rewrite Hp. done.
      * by apply Forall_insert.
      * rewrite (zsum_insert _ _ _ _ q' Hq). lia.
      * rewrite (zsum_insert _ _ _ _ q' Hq). lia.
    + done.
    + done.
    + eapply Forall_lookup_1; eauto.
    + rewrite Hur. eapply zsum_lookup; [|done]. intros x Hx. apply (Hnn x Hx).
    + rewrite Hub. eapply zsum_lookup; [|done]. intros x Hx. apply (Hnn x Hx).
  - intros [= <-]. by split.
Qed.

Lemma reachable_inv s : reachable E mr mb s → sys_inv mr mb s.
Proof.
  induction 1 as [|s e s' _ IH Hmem Hstep]; [apply sys_inv_init|by eapply sys_inv_step].
Qed.

(** ** Progress *)

(** Only callers that have returned and callbacks that are over are at rest. *)
Definition cb_rank (c : cbstate) : Z :=
  match c with
  | CbIdle => 6 | CbPending => 5 | CbWrote _ => 4 | CbLast _ => 3 | CbReleasing _ => 2
  | CbClosing _ => 1 | CbDone _ => 0
  end.
Definition caller_rank (q : request) : Z :=
  match q_caller q with
  | Entry => 7 * Z.of_nat (size q) + 5
  | Admitting => 7 * Z.of_nat (size q) + 4
  | Submitting i => Z.of_nat (size q) - Z.of_nat i + 3
  | Cancelled _ => 2
  | CReleasing _ => 1
  | Returned _ => 0
  end.
Definition rank (q : request) : Z := zsum cb_rank (q_cbs q) + caller_rank q.

Definition sys_rank (s : sys) : Z := zsum rank (s_reqs s).

(** No action is left, cancellation aside. *)
Definition at_rest (q : request) : Prop :=
  ∀ closed a e, (∀ err, e ≠ CtxDone err) → req_step E closed e q a = None.

Lemma cb_rank_nonneg c : 0 <= cb_rank c. Proof. by destruct c. Qed.

Lemma rank_nonneg q : req_inv q → 0 <= rank q.
Proof.
  intros [_ Hinv]. unfold rank, caller_rank.
  assert (0 <= zsum cb_rank (q_cbs q)) by (apply zsum_nonneg; intros; apply cb_rank_nonneg).
  destruct (q_state q) as [st|].
  - pose proof (i_caller _ _ Hinv) as Hc. unfold caller_inv in Hc.
    destruct (q_caller q); lia.
  - destruct Hinv as [_ Hc]. destruct (q_caller q); try lia; done.
Qed.

(** The callback at [i] moves down. *)
Lemma rank_cb q i c c' st : q_cbs q !! i = Some c → cb_rank c' < cb_rank c →
  rank (set_cb i c' (set_state st q)) < rank q.
Proof.
  intros Hi Hlt. unfold rank, caller_rank, set_cb, set_state, size. cbn.
  rewrite (zsum_insert _ _ _ _ c' Hi). lia.
Qed.

Lemma rank_cb_only q i c c' : q_cbs q !! i = Some c → cb_rank c' < cb_rank c →
  rank (set_cb i c' q) < rank q.
Proof.
  intros Hi Hlt. unfold rank, caller_rank, set_cb, size. cbn.
  rewrite (zsum_insert _ _ _ _ c' Hi). lia.
Qed.

Lemma rank_caller q c st : caller_rank (set_caller c q) < caller_rank q →
  rank (set_caller c (set_state st q)) < rank q.
Proof. unfold rank, caller_rank, set_caller, set_state, size. cbn. lia. Qed.

Lemma set_state_id q st : q_state q = Some st → set_state st q = q.
Proof. unfold set_state. destruct q; cbn. by intros ->. Qed.

Lemma rank_caller_only q c : caller_rank (set_caller c q) < caller_rank q →
  rank (set_caller c q) < rank q.
Proof. unfold rank, caller_rank, set_caller, size. cbn. lia. Qed.

Lemma caller_rank_set q c : caller_rank (set_caller c q) =
  match c with
  | Entry => 7 * Z.of_nat (size q) + 5
  | Admitting => 7 * Z.of_nat (size q) + 4
  | Submitting i => Z.of_nat (size q) - Z.of_nat i + 3
  | Cancelled _ => 2 | CReleasing _ => 1 | Returned _ => 0
  end.
Proof. by destruct c. Qed.

Lemma rank_acquire q st : q_cbs q = [] → q_caller q = Admitting →
  rank (Build_request (q_records q) st (replicate (size q) CbIdle) (Submitting 0)) < rank q.
Proof.
  intros Hc Hq. unfold rank, caller_rank, size. cbn.
  rewrite Hc, Hq, zsum_replicate. cbn. lia.
Qed.

Lemma rank_submit q st i : state_inv q st → q_caller q = Submitting i → (i < size q)%nat →
  rank (set_caller (Submitting (S i)) (set_cb i CbPending q)) < rank q.
Proof.
  intros [] Hq Hi. destruct (lookup_lt_is_Some_2 (q_cbs q) i) as [c Hc]; [lia|].
  assert (c = CbIdle) as -> by (apply (i_submitted0 i c Hc); unfold submitted; rewrite Hq; lia).
  unfold rank, caller_rank, set_caller, set_cb, size in *. cbn.
  rewrite Hq, (zsum_insert _ _ _ _ CbPending Hc). cbn. lia.
Qed.

Lemma rank_decreases closed e q a q' a' p :
  req_inv q → p = false → req_step E closed e q a = Some (q', a', p) → rank q' < rank q.
Proof.
  intros [_ Hinv] -> Hstep. unfold req_step in Hstep.
  destruct (q_state q) as [st|] eqn:Hst.
  - pose proof (i_caller _ _ Hinv) as Hcal. unfold caller_inv in Hcal.
    destruct e, (q_caller q) eqn:Hq; try done; cbn [mbind option_bind] in Hstep; step_cases Hstep;
      injection Hstep as <- <-; zbool;
      first [by eapply rank_submit; eauto
            |by eapply rank_cb_only; eauto
            |by eapply rank_cb; eauto
            |apply rank_caller_only; rewrite caller_rank_set; unfold caller_rank; rewrite Hq; lia
            |apply rank_caller; rewrite caller_rank_set; unfold caller_rank; rewrite Hq; lia].
  - destruct Hinv as [Hc Hcal].
    destruct e, (q_caller q) eqn:Hq; try done; cbn [mbind option_bind] in Hstep; step_cases Hstep;
      injection Hstep as <- <-;
      first [by apply rank_acquire
            |apply rank_caller_only; rewrite caller_rank_set; unfold caller_rank; rewrite Hq; lia].
Qed.
End reachable.
