(* ===== verification/ProduceCorrect.v ===== *)
(** * What concurrent produce requests guarantee *)

From S2P Require Import Prelude.
From S2P Require Import GoErrors.
From S2P Require Import Producer.
From S2P Require Import Admission.
From S2P Require Import Franz.
From S2P Require Import ProduceSteps.
From S2P Require Import ProduceSafety.
Local Open Scope Z_scope.

(** ** Requests at rest *)

Lemma Release_some a r b : ∃ a', Release (Some a) r b = Some a'.
Proof. unfold Release. eauto. Qed.
Lemma TryAcquire_some a r b : ∃ a' ok, TryAcquire (Some a) r b = (Some a', ok).
Proof. unfold TryAcquire. repeat split_if; eauto. Qed.

Section rest.
Context (E : error) (q : request) (Hinv : req_inv q) (Hrest : at_rest E q).

Let a0 : Admission := NewAdmission 1 1.

Lemma rest_cb st i c : q_state q = Some st → q_cbs q !! i = Some c → state_inv q st →
  c = CbIdle ∨ ∃ r, c = CbDone r.
Proof.
  intros Hst Hi Hs.
  assert (∀ e, (∀ err, e ≠ CtxDone err) → req_step E false e q a0 = None) as Hr
    by (intros; by apply Hrest).
  destruct c as [| |r|r|r|r|r]; eauto; exfalso.
  - specialize (Hr (CbWrite i None None) ltac:(done)). unfold req_step in Hr.
    rewrite Hst in Hr. cbn in Hr. rewrite Hi in Hr. by destruct (q_caller q).
  - specialize (Hr (CbAdd i) ltac:(done)). unfold req_step in Hr.
    rewrite Hst in Hr. cbn in Hr. rewrite Hi in Hr. by destruct (q_caller q).
  - specialize (Hr (CbCas i) ltac:(done)). unfold req_step in Hr.
    rewrite Hst in Hr. cbn in Hr. rewrite Hi in Hr. destruct (cas_released st).
    by destruct (q_caller q).
  - specialize (Hr (CbRelease i) ltac:(done)). unfold req_step in Hr.
    rewrite Hst in Hr. cbn [mbind option_bind] in Hr. rewrite Hi in Hr.
    destruct (Release_some a0 (st_records st) (st_bytes st)) as [a' Ha]. rewrite Ha in Hr.
    by destruct (q_caller q).
  - specialize (Hr (CbClose i) ltac:(done)). unfold req_step in Hr.
    rewrite Hst in Hr. cbn in Hr. rewrite Hi in Hr.
    destruct (close_done st); by destruct (q_caller q).
Qed.

(** When every record was handed over and no callback is left, the channel is
    closed. *)
Lemma rest_done st : q_state q = Some st → state_inv q st → submitted q = size q →
  done st = true ∧ released st = true ∧ zsum releasing (q_cbs q) = 0 ∧
  Forall (λ c, ∃ r, c = CbDone r) (q_cbs q).
Proof.
  intros Hst Hs Hsub. pose proof (i_remaining _ _ Hs) as Hrem.
  pose proof (i_closer _ _ Hs) as Hcl.
  assert (Forall (λ c, ∃ r, c = CbDone r) (q_cbs q)) as Hall.
  { apply Forall_lookup. intros i c Hi. destruct (rest_cb st i c Hst Hi Hs) as [->|]; [|done].
    pose proof (proj1 (i_submitted _ _ Hs i CbIdle Hi) eq_refl) as Hle.
    apply lookup_lt_Some in Hi. rewrite (i_cbs _ _ Hs) in Hi. lia. }
  rewrite Forall_forall in Hall.
  assert (zsum unfinished (q_cbs q) = 0) as Hu
    by (apply zsum_zero; intros x Hx; by destruct (Hall x Hx) as [r ->]).
  assert (zsum closer (q_cbs q) = 0) as Hc
    by (apply zsum_zero; intros x Hx; by destruct (Hall x Hx) as [r ->]).
  assert (zsum releasing (q_cbs q) = 0) as Hl
    by (apply zsum_zero; intros x Hx; by destruct (Hall x Hx) as [r ->]).
  rewrite Hu in Hrem. rewrite Hc, Hrem in Hcl.
  destruct (done st) eqn:Hd; [|done]. destruct (i_done _ _ Hs Hd) as [_ Hr].
  rewrite Forall_forall. split_and!; done.
Qed.

Lemma rest_returned : (∃ r, q_caller q = Returned r) ∧ held q = 0.
Proof.
  destruct Hinv as [_ Hi].
  assert (∀ e, (∀ err, e ≠ CtxDone err) → req_step E false e q a0 = None) as Hr
    by (intros; by apply Hrest).
  destruct (q_state q) as [st|] eqn:Hst.
  - pose proof (i_caller _ _ Hi) as Hc. unfold caller_inv in Hc.
    destruct (q_caller q) as [| |k|err|err|r] eqn:Hq; try done.
    + exfalso. destruct (decide (k < size q)%nat) as [Hk|Hk].
      * specialize (Hr Submit ltac:(done)). unfold req_step in Hr. rewrite Hq in Hr.
        by rewrite (proj2 (Nat.ltb_lt k (size q)) Hk) in Hr.
      * assert (k = size q) as -> by lia.
        destruct (rest_done st Hst Hi) as (Hd&_); [unfold submitted; by rewrite Hq|].
        specialize (Hr WaitDone ltac:(done)). unfold req_step in Hr. rewrite Hq, Hst in Hr.
        cbn [mbind option_bind] in Hr. by rewrite Nat.eqb_refl, Hd in Hr.
    + exfalso. specialize (Hr CallerCas ltac:(done)). unfold req_step in Hr.
      rewrite Hq, Hst in Hr. cbn in Hr. by destruct (cas_released st).
    + exfalso. specialize (Hr CallerRelease ltac:(done)). unfold req_step in Hr.
      rewrite Hq, Hst in Hr. cbn [mbind option_bind] in Hr.
      destruct (Release_some a0 (st_records st) (st_bytes st)) as [a' Ha]. by rewrite Ha in Hr.
    + split; [eauto|].
      destruct (rest_done st Hst Hi) as (_&Hrel&Hl&_); [unfold submitted; by rewrite Hq|].
      unfold held, releasers. rewrite Hst, Hrel, Hq. lia.
  - destruct Hi as [_ Hc].
    destruct (q_caller q) as [| |k|err|err|r] eqn:Hq; try done.
    + exfalso. specialize (Hr Enter ltac:(done)). unfold req_step in Hr. by rewrite Hq in Hr.
    + exfalso. specialize (Hr Acquire ltac:(done)). unfold req_step in Hr. rewrite Hq in Hr.
      destruct (TryAcquire_some a0 (Z.of_nat (size q)) (batch_bytes (q_records q)))
        as (a'&ok&Ha). rewrite Ha in Hr. by destruct ok.
    + split; [eauto|]. unfold held. by rewrite Hst.
Qed.
End rest.

(** ** Traces *)

Lemma run_app E es1 es2 s : run E (es1 ++ es2) s = (s' ← run E es1 s; run E es2 s').
Proof. revert s. induction es1 as [|e es IH]; intros s; [done|]. simpl. destruct (step E e s); [apply IH|done]. Qed.

Definition calls_in_memory (es : list event) : Prop :=
  Forall (λ e, ∀ records, e = Call records → in_memory records) es.

Lemma run_reachable E mr mb es s : calls_in_memory es →
  run E es (init mr mb) = Some s → reachable E mr mb s.
Proof.
  revert s. induction es as [|e es IH] using rev_ind; intros s Hc; simpl.
  { intros [= <-]. constructor. }
  rewrite run_app. apply Forall_app in Hc as [Hc1 Hc2].
  destruct (run E es (init mr mb)) as [s0|]; [|done]. simpl.
  destruct (step E e s0) eqn:Hs; [|done]. intros [= <-].
  apply (reach_step _ _ _ s0 e); [by apply IH| |exact Hs]. by inversion Hc2.
Qed.

(** The results the client reported for record [i] of request [r]. *)
Definition outcome (r i : nat) (e : event) : list Result :=
  match e with
  | Req r' (CbWrite i' rec err) =>
      if decide (r' = r ∧ i' = i) then [callback_result rec err] else []
  | _ => []
  end.
Definition outcomes (r i : nat) (es : list event) : list Result := es ≫= outcome r i.

Definition cb_at (q : request) (i : nat) : list Result :=
  option_list (q_cbs q !! i ≫= cb_result).

(** Replacing the state of a callback by one with the same result changes
    nothing; a first result is appended. *)
Lemma cb_at_insert q i c c' j extra :
  q_cbs q !! i = Some c →
  option_list (cb_result c') = option_list (cb_result c) ++ extra →
  option_list (<[i:=c']> (q_cbs q) !! j ≫= cb_result) =
    cb_at q j ++ if decide (i = j) then extra else [].
Proof.
  intros Hi Hc. unfold cb_at. case_decide as Hd.
  - subst j. rewrite list_lookup_insert_eq by (eapply lookup_lt_Some; eauto). by rewrite Hi.
  - rewrite list_lookup_insert_ne by done. by rewrite app_nil_r.
Qed.

Lemma outcome_same r i e : outcome r i (Req r e) =
  match e with
  | CbWrite i' rec err => if decide (i' = i) then [callback_result rec err] else []
  | _ => []
  end.
Proof. destruct e; simpl; try done. repeat case_decide; done || tauto. Qed.

Lemma outcome_other r r' i e : r' ≠ r → outcome r i (Req r' e) = [].
Proof. intros Hne. destruct e; simpl; try done. case_decide; done || tauto. Qed.

Lemma step_cb_at E q e closed a q' a' p r i :
  req_inv q → req_step E closed e q a = Some (q', a', p) →
  cb_at q' i = cb_at q i ++ outcome r i (Req r e).
Proof.
  intros [_ Hinv] Hstep. rewrite outcome_same. unfold req_step in Hstep.
  assert (∀ k c c' extra, q_cbs q !! k = Some c →
    option_list (cb_result c') = option_list (cb_result c) ++ extra → ∀ st cl,
    cb_at (Build_request (q_records q) st (<[k:=c']> (q_cbs q)) cl) i =
      cb_at q i ++ if decide (k = i) then extra else []) as Hset.
  { intros. unfold cb_at at 1. by apply (cb_at_insert q k c). }
  assert (∀ k c c', q_cbs q !! k = Some c → cb_result c' = cb_result c → ∀ st cl,
    cb_at (Build_request (q_records q) st (<[k:=c']> (q_cbs q)) cl) i = cb_at q i ++ []) as Hsame.
  { intros k c c' Hk Hc st cl. rewrite (Hset k c c' []); [by case_decide|done|].
    by rewrite Hc, app_nil_r. }
  assert (∀ st cl, cb_at (Build_request (q_records q) st (q_cbs q) cl) i = cb_at q i ++ [])
    as Hkeep by (intros; by rewrite app_nil_r).
  destruct (q_state q) as [st|] eqn:Hst.
  - pose proof (i_caller _ _ Hinv) as Hcal. unfold caller_inv in Hcal.
    destruct e, (q_caller q) eqn:Hq; try done; cbn [mbind option_bind] in Hstep;
      step_cases Hstep; injection Hstep as <- <- <-;
      first [by apply Hkeep | by eapply Hsame; eauto | by eapply Hset; eauto
            |by rewrite app_nil_r | idtac].
    apply Nat.ltb_lt in Hb. destruct (lookup_lt_is_Some_2 (q_cbs q) i0) as [c Hc].
    { by rewrite (i_cbs _ _ Hinv). }
    apply (Hsame _ _ _ Hc).
    assert (c = CbIdle) as ->; [|done].
    apply (i_submitted _ _ Hinv _ _ Hc). unfold submitted. rewrite Hq. lia.
  - destruct Hinv as [Hcs Hcal].
    destruct e, (q_caller q) eqn:Hq; try done; cbn [mbind option_bind] in Hstep;
      step_cases Hstep; injection Hstep as <- <- <-; try by apply Hkeep.
    unfold cb_at. cbn [q_cbs]. rewrite Hcs. destruct (replicate _ _ !! i) eqn:Hr; [|done].
    by apply lookup_replicate in Hr as [-> _].
Qed.


Section claims.
Context (E : error) (mr mb : Z).
Context (Hmr : 0 < mr < 2 ^ 62) (Hmb : 0 < mb < 2 ^ 62).

Lemma run_outcomes es s r i : calls_in_memory es →
  run E es (init mr mb) = Some s →
  outcomes r i es = from_option (λ q, cb_at q i) [] (s_reqs s !! r).
Proof.
  revert s. induction es as [|e es IH] using rev_ind; intros s Hc; simpl.
  { intros [= <-]. done. }
  rewrite run_app. apply Forall_app in Hc as [Hc1 Hc2].
  destruct (run E es (init mr mb)) as [s0|] eqn:Hrun; [|done]. simpl.
  destruct (step E e s0) as [s1|] eqn:Hs; [|done]. intros [= <-].
  unfold outcomes. rewrite bind_app. cbn. rewrite app_nil_r.
  change (es ≫= outcome r i) with (outcomes r i es).
  rewrite (IH s0 Hc1 eq_refl). clear IH.
  destruct e as [records|r' e|]; simpl in Hs.
  - injection Hs as <-. cbn. rewrite app_nil_r.
    destruct (s_reqs s0 !! r) as [q|] eqn:Hq.
    + by rewrite (lookup_app_l_Some _ _ _ _ Hq).
    + apply lookup_ge_None in Hq. rewrite lookup_app_r by done.
      by destruct (r - length (s_reqs s0))%nat.
  - destruct (s_reqs s0 !! r') as [q|] eqn:Hq; [|done]. simpl in Hs.
    destruct (req_step E (s_closed s0) e q (s_admit s0)) as [[[q' a'] p]|] eqn:Hstep; [|done].
    injection Hs as <-. cbn [s_reqs]. cbn [fst snd].
    pose proof (run_reachable _ _ _ _ _ Hc1 Hrun) as Hreach.
    apply (reachable_inv E mr mb Hmr Hmb) in Hreach as [_ Hall _ _ _ _].
    destruct (decide (r' = r)) as [->|Hne].
    + rewrite list_lookup_insert_eq by (eapply lookup_lt_Some; eauto). rewrite Hq. cbn [from_option].
      symmetry. eapply step_cb_at; [|exact Hstep]. eapply Forall_lookup_1; eauto.
    + rewrite list_lookup_insert_ne by done. rewrite outcome_other by done. by rewrite app_nil_r.
  - injection Hs as <-. cbn. by rewrite app_nil_r.
Qed.
End claims.

(** ** A sample execution: two overlapping calls; the callbacks of the first
    arrive in the opposite order, the second is cancelled before its callback. *)

Definition client_closed : error := EForeign "client closed" [].
Definition rec_at (partition offset : Z) : option kgoRecord :=
  Some (Build_kgoRecord "t" None None [] partition offset).
Definition one_record : PRecord := Build_PRecord "t" None (Some "v") [] None.

Definition sample_trace : list event :=
  [Call [one_record; one_record]; Call [one_record]; Req 0 Enter; Req 1 Enter;
   Req 0 Acquire; Req 1 Acquire; Req 0 Submit; Req 1 Submit; Req 0 Submit;
   Req 0 (CbWrite 1 (rec_at 3 101) None); Req 1 (CtxDone (ESentinel ctxDeadlineExceeded));
   Req 1 CallerCas; Req 0 (CbAdd 1); Req 0 (CbWrite 0 (rec_at 2 100) None); Req 1 CallerRelease;
   Req 0 (CbAdd 0); Req 1 (CbWrite 0 None (Some (ENew "late"))); Req 1 (CbAdd 0); Req 0 (CbCas 0);
   Req 1 (CbCas 0); Req 0 (CbRelease 0); Req 1 (CbClose 0); Req 0 (CbClose 0); Req 0 WaitDone].

Definition sample_end : sys :=
  Build_sys false (NewAdmission 10 100)
    [Build_request [one_record; one_record]
       (Some (Build_requestState 0 [Build_Result 2 100 None None; Build_Result 3 101 None None]
                true 2 2 true))
       [CbDone (Build_Result 2 100 None None); CbDone (Build_Result 3 101 None None)]
       (Returned (Ok [Build_Result 2 100 None None; Build_Result 3 101 None None]));
     Build_request [one_record]
       (Some (Build_requestState 0 [Build_Result 0 0 (Some 50002) (Some (ENew "late"))] true 1 1 true))
       [CbDone (Build_Result 0 0 (Some 50002) (Some (ENew "late")))]
       (Returned (Err (ESentinel ctxDeadlineExceeded)))]
    false.

Lemma sample_calls : calls_in_memory sample_trace.
Proof.
  repeat (apply Forall_cons_2; [intros records H; try discriminate H; injection H as <-; by vm_compute|]).
  constructor.
Qed.

Lemma sample_run : run client_closed sample_trace (init 10 100) = Some sample_end.
Proof. vm_compute. reflexivity. Qed.

Lemma sample_reachable : reachable client_closed 10 100 sample_end.
Proof. exact (run_reachable _ _ _ _ _ sample_calls sample_run). Qed.

(** C2: capacity is conserved under every interleaving of concurrent [Produce]
    calls, client callbacks, cancellations and a close: the controller's
    counters are exactly the records and bytes of the requests that hold a
    reservation, they stay within the configured caps, and no completion channel
    is ever closed twice (batches and caps below 2^62). *)
Theorem admission_conserved E mr mb s :
  0 < mr < 2 ^ 62 → 0 < mb < 2 ^ 62 → reachable E mr mb s →
  s_panic s = false ∧
  (usedRecords (s_admit s) = zsum held_records (s_reqs s) ∧ usedRecords (s_admit s) <= mr) ∧
  (usedBytes (s_admit s) = zsum held_bytes (s_reqs s) ∧ usedBytes (s_admit s) <= mb) ∧
  Forall (λ q, held q = 0 ∨ held q = 1) (s_reqs s).
Proof.
  intros Hmr Hmb Hr. apply (reachable_inv E mr mb Hmr Hmb) in Hr as [Hp Hall Hu Hub Hwf [H1 H2]].
  destruct Hwf. rewrite H1, H2 in *. split_and!; try done; try lia.
  eapply Forall_impl; [exact Hall|]. intros q Hq. pose proof (held_range q Hq). lia.
Qed.

Lemma admission_conserved_witness :
  s_panic sample_end = false ∧
  (usedRecords (s_admit sample_end) = zsum held_records (s_reqs sample_end) ∧
   usedRecords (s_admit sample_end) <= 10) ∧
  (usedBytes (s_admit sample_end) = zsum held_bytes (s_reqs sample_end) ∧
   usedBytes (s_admit sample_end) <= 100) ∧
  Forall (λ q, held q = 0 ∨ held q = 1) (s_reqs sample_end).
Proof.
  apply (admission_conserved client_closed 10 100); [lia|lia|apply sample_reachable].
Defined.

(** The results a call returns are those of its callbacks. *)
Lemma returned_slots q rs : req_inv q → q_caller q = Returned (Ok rs) →
  length rs = size q ∧ ∀ i res, rs !! i = Some res → cb_at q i = [res].
Proof.
  intros [_ Hi] Hret. destruct (q_state q) as [st|] eqn:Hst.
  - pose proof (i_caller _ _ Hi) as Hcal. unfold caller_inv in Hcal. rewrite Hret in Hcal.
    destruct Hcal as [Hd ->]. split; [apply (i_results _ _ Hi)|].
    intros i res Hres. destruct (lookup_lt_is_Some_2 (q_cbs q) i) as [c Hci].
    { rewrite (i_cbs _ _ Hi), <- (i_results _ _ Hi). by eapply lookup_lt_Some. }
    pose proof (i_done _ _ Hi Hd) as [Hrem _]. rewrite (i_remaining _ _ Hi) in Hrem.
    assert (unfinished c = 0) as Hu.
    { eapply (zsum_zero_inv unfinished); [|done|by eapply list_elem_of_lookup_2].
      intros. apply unfinished_nonneg. }
    unfold cb_at. rewrite Hci. cbn. destruct (cb_result c) as [res'|] eqn:Hcr; [|by destruct c].
    pose proof (i_slots _ _ Hi i c res' Hci Hcr) as Hs. rewrite Hres in Hs. by injection Hs as <-.
  - destruct Hi as [Hcs Hcal]. rewrite Hret in Hcal. destruct Hcal as [-> Hsz]. done.
Qed.

(** C3: a [Produce] call that returns results returns exactly the client's:
    one result per record of the batch, and the i-th is built from the one
    callback the client made for the i-th record, however the callbacks of this
    and of other requests were ordered and interleaved. *)
Theorem produce_results_match E mr mb es s r q rs :
  0 < mr < 2 ^ 62 → 0 < mb < 2 ^ 62 → calls_in_memory es →
  run E es (init mr mb) = Some s → s_reqs s !! r = Some q →
  q_caller q = Returned (Ok rs) →
  length rs = length (q_records q) ∧
  ∀ i res, rs !! i = Some res → outcomes r i es = [res].
Proof.
  intros Hmr Hmb Hc Hrun Hq Hret.
  pose proof (run_reachable _ _ _ _ _ Hc Hrun) as Hreach.
  apply (reachable_inv E mr mb Hmr Hmb) in Hreach as [_ Hall _ _ _ _].
  destruct (returned_slots q rs (Forall_lookup_1 _ _ _ _ Hall Hq) Hret) as [Hl Hs].
  split; [done|]. intros i res Hi. rewrite (run_outcomes E mr mb Hmr Hmb es s r i Hc Hrun), Hq.
  by apply Hs.
Qed.

Lemma produce_results_match_witness :
  let rs := [Build_Result 2 100 None None; Build_Result 3 101 None None] in
  length rs = 2%nat ∧ ∀ i res, rs !! i = Some res → outcomes 0 i sample_trace = [res].
Proof.
  refine (produce_results_match client_closed 10 100 sample_trace sample_end 0 _
            [Build_Result 2 100 None None; Build_Result 3 101 None None]
            _ _ sample_calls sample_run eq_refl eq_refl); lia.
Defined.

(** C10: every [Produce] call returns and gives its capacity back, without the
    help of a timeout: each action of a request brings it strictly closer to
    the end, and a system in which no action but a cancellation is left has
    every call returned and the controller empty. *)
Theorem produce_terminates E mr mb s :
  0 < mr < 2 ^ 62 → 0 < mb < 2 ^ 62 → reachable E mr mb s →
  (∀ r e s', step E (Req r e) s = Some s' → 0 <= sys_rank s' < sys_rank s) ∧
  (Forall (at_rest E) (s_reqs s) →
     Forall (λ q, ∃ res, q_caller q = Returned res) (s_reqs s) ∧
     usedRecords (s_admit s) = 0 ∧ usedBytes (s_admit s) = 0).
Proof.
  intros Hmr Hmb Hreach. pose proof (reachable_inv E mr mb Hmr Hmb s Hreach) as Hinv.
  pose proof Hinv as [Hp Hall Hu Hub Hwf Hcaps]. split.
  - intros r e s' Hs.
    assert (sys_inv mr mb s') as [Hp' Hall' _ _ _ _].
    { eapply sys_inv_step; [exact Hmr|exact Hmb|exact Hinv| |exact Hs]. done. }
    rewrite Forall_forall in Hall'.
    split; [apply zsum_nonneg; intros x Hx; by apply rank_nonneg, Hall'|]. clear Hall'.
    simpl in Hs. destruct (s_reqs s !! r) as [q|] eqn:Hq; [|done]. simpl in Hs.
    destruct (req_step E (s_closed s) e q (s_admit s)) as [[[q' a'] p]|] eqn:Hstep; [|done].
    injection Hs as <-. unfold sys_rank. cbn in *. rewrite Hp in Hp'. simpl in Hp'. subst p.
    rewrite (zsum_insert _ _ _ _ q' Hq).
    assert (rank q' < rank q); [|lia].
    eapply rank_decreases; [by eapply Forall_lookup_1|exact (eq_refl false)|exact Hstep].
  - intros Hrest. rewrite Forall_forall in Hrest, Hall.
    rewrite Hu, Hub. split_and!.
    + apply Forall_forall. intros q Hin. by apply (rest_returned E q (Hall q Hin) (Hrest q Hin)).
    + apply zsum_zero. intros q Hin. unfold held_records.
      by rewrite (proj2 (rest_returned E q (Hall q Hin) (Hrest q Hin))).
    + apply zsum_zero. intros q Hin. unfold held_bytes.
      by rewrite (proj2 (rest_returned E q (Hall q Hin) (Hrest q Hin))).
Qed.

Lemma produce_terminates_witness :
  (∀ r e s', step client_closed (Req r e) sample_end = Some s' →
     0 <= sys_rank s' < sys_rank sample_end) ∧
  (Forall (at_rest client_closed) (s_reqs sample_end) →
     Forall (λ q, ∃ res, q_caller q = Returned res) (s_reqs sample_end) ∧
     usedRecords (s_admit sample_end) = 0 ∧ usedBytes (s_admit sample_end) = 0).
Proof.
  apply (produce_terminates client_closed 10 100); [lia|lia|apply sample_reachable].
Defined.

(** ** The sequential methods are runs of these actions *)

(** Run alone, the actions of one callback are [requestState.complete]. *)
Definition complete_events (r i : nat) (rec : option kgoRecord) (err : option error)
    (st : requestState) : list event :=
  [Req r (CbWrite i rec err); Req r (CbAdd i)] ++
  (if remaining st =? 1 then
     [Req r (CbCas i)] ++ (if released st then [] else [Req r (CbRelease i)]) ++ [Req r (CbClose i)]
   else []).

Lemma run_req E s r q e es q' a' p :
  s_reqs s !! r = Some q → req_step E (s_closed s) e q (s_admit s) = Some (q', a', p) →
  run E (Req r e :: es) s =
    run E es (Build_sys (s_closed s) a' (<[r := q']> (s_reqs s)) (s_panic s || p)).
Proof. intros Hq Hs. cbn [run step]. rewrite Hq. cbn [mbind option_bind]. by rewrite Hs. Qed.

(** The callback actions do not depend on the caller. *)
Section cb_steps.
Context (E : error) (closed : bool) (q : request) (st : requestState) (a : Admission) (i : nat).
Context (Hst : q_state q = Some st).

Ltac cb_step Hi :=
  unfold req_step; rewrite Hst; cbn [mbind option_bind]; rewrite Hi; destruct (q_caller q).

Lemma step_write rec err : q_cbs q !! i = Some CbPending →
  req_step E closed (CbWrite i rec err) q a =
    Some (set_cb i (CbWrote (callback_result rec err))
            (set_state (set_result i (callback_result rec err) st) q), a, false).
Proof. intros Hi. by cb_step Hi. Qed.

Lemma step_add r : q_cbs q !! i = Some (CbWrote r) →
  req_step E closed (CbAdd i) q a =
    Some (set_cb i (if remaining st - 1 =? 0 then CbLast r else CbDone r)
            (set_state (add_remaining st) q), a, false).
Proof. intros Hi. by cb_step Hi. Qed.

Lemma step_cas r : q_cbs q !! i = Some (CbLast r) →
  req_step E closed (CbCas i) q a =
    Some (set_cb i (if released st then CbClosing r else CbReleasing r)
            (set_state (cas_released st).1 q), a, false).
Proof. intros Hi. unfold cas_released. cb_step Hi; unfold cas_released; by destruct (released st). Qed.

Lemma step_release r a' : q_cbs q !! i = Some (CbReleasing r) →
  Release (Some a) (st_records st) (st_bytes st) = Some a' →
  req_step E closed (CbRelease i) q a = Some (set_cb i (CbClosing r) q, a', false).
Proof. intros Hi Ha. cb_step Hi; by rewrite Ha. Qed.

Lemma step_close r st' : q_cbs q !! i = Some (CbClosing r) → close_done st = Some st' →
  req_step E closed (CbClose i) q a = Some (set_cb i (CbDone r) (set_state st' q), a, false).
Proof. intros Hi Hd. cb_step Hi; by rewrite Hd. Qed.
End cb_steps.

(** Several updates of one callback of one request collapse. *)
Lemma set_cb_twice i c c' st st' q :
  set_cb i c' (set_state st' (set_cb i c (set_state st q))) = set_cb i c' (set_state st' q).
Proof. unfold set_cb, set_state. cbn. by rewrite list_insert_insert_eq. Qed.

Lemma set_cb_again i c c' st q :
  set_cb i c' (set_cb i c (set_state st q)) = set_cb i c' (set_state st q).
Proof. unfold set_cb, set_state. cbn. by rewrite list_insert_insert_eq. Qed.

Lemma lookup_set_cb i c st q : (i < length (q_cbs q))%nat →
  q_cbs (set_cb i c (set_state st q)) !! i = Some c.
Proof. intros Hl. cbn. by apply list_lookup_insert_eq. Qed.

(** Run the next action of request [r] with the given step lemma. *)
Ltac act lem :=
  erewrite run_req;
  [|cbn [s_reqs]; by apply list_lookup_insert_eq
   |eapply lem; [reflexivity|by apply lookup_set_cb|done..]];
  cbn [s_closed s_admit s_reqs s_panic];
  rewrite ?list_insert_insert_eq, ?set_cb_twice, ?set_cb_again, ?orb_false_r.

(** The atomic actions are faithful to the methods: a callback that runs
    without interruption performs exactly [requestState.complete] on the
    request's state and on the controller. *)
Lemma callback_runs_complete E s r q st i rec err st' a' :
  s_reqs s !! r = Some q → q_state q = Some st → q_cbs q !! i = Some CbPending →
  complete i rec err st (Some (s_admit s)) = Some (st', Some a') →
  run E (complete_events r i rec err st) s =
    Some (Build_sys (s_closed s) a'
      (<[r := set_cb i (CbDone (callback_result rec err)) (set_state st' q)]> (s_reqs s))
      (s_panic s)).
Proof.
  intros Hq Hst Hi Hc.
  assert (r < length (s_reqs s))%nat as Hr by by eapply lookup_lt_Some.
  assert (i < length (q_cbs q))%nat as Hl by by eapply lookup_lt_Some.
  set (R := callback_result rec err) in *. unfold complete_events. rewrite <- app_comm_cons.
  rewrite (run_req _ _ _ _ _ _ _ _ _ Hq (step_write _ _ _ _ _ _ Hst rec err Hi)).
  rewrite <- app_comm_cons. fold R. act step_add.
  unfold complete in Hc. fold R in Hc. cbn [remaining add_remaining set_result] in *.
  set (st1 := add_remaining (set_result i R st)) in *.
  assert ((remaining st =? 1) = (remaining st - 1 =? 0)) as -> by lia.
  destruct (remaining st - 1 =? 0) eqn:Hrem; [|by injection Hc as <- <-].
  change ([] ++ ?x) with x. unfold release, cas_released in Hc.
  change (released st) with (released st1). rewrite <- app_comm_cons. act step_cas.
  change ([] ++ ?x) with x.
  destruct (released st1) eqn:Hrel.
  - change ([] ++ ?x) with x.
    destruct (close_done st1) as [st2|] eqn:Hcl; [|done]. injection Hc as <- <-.
    unfold cas_released. rewrite Hrel. cbn [fst].
    act step_close. done.
  - rewrite <- app_comm_cons. change ([] ++ ?x) with x. unfold cas_released. rewrite Hrel. cbn [fst].
    destruct (Release_some (s_admit s) (st_records st1) (st_bytes st1)) as [a1 Ha].
    cbn [st_records st_bytes] in Hc. rewrite Ha in Hc. act step_release.
    destruct (close_done _) as [st2|] eqn:Hcl in Hc; [|done]. injection Hc as <- <-.
    act step_close. done.
Qed.

Lemma callback_runs_complete_witness :
  let st := newRequestState 1 1 1 in
  let q := Build_request [one_record] (Some st) [CbPending] (Submitting 1) in
  let s := Build_sys false (charge (NewAdmission 10 100) 1 1) [q] false in
  run client_closed (complete_events 0 0 (rec_at 2 7) None st) s =
    Some (Build_sys false (NewAdmission 10 100)
      [Build_request [one_record]
         (Some (Build_requestState 0 [Build_Result 2 7 None None] true 1 1 true))
         [CbDone (Build_Result 2 7 None None)] (Submitting 1)] false).
Proof.
  exact (callback_runs_complete client_closed
    (Build_sys false (charge (NewAdmission 10 100) 1 1)
       [Build_request [one_record] (Some (newRequestState 1 1 1)) [CbPending] (Submitting 1)] false)
    0 _ (newRequestState 1 1 1) 0 (rec_at 2 7) None
    (Build_requestState 0 [Build_Result 2 7 None None] true 1 1 true) (NewAdmission 10 100)
    eq_refl eq_refl eq_refl eq_refl).
Defined.
