(* ===== verification/Metrics.v ===== *)
(** * internal/metrics/metrics.go

    The instruments as the values they hold, and the gauges, which read the
    state of the producer when they are observed.  The OpenTelemetry SDK and the
    Prometheus exporter are outside the program: their constructors are
    parameters of [metrics_New]. *)

From S2P Require Import Prelude.
From S2P Require Import GoStrings.
From S2P Require Import Strconv.
From S2P Require Import GoErrors.
From S2P Require Import GoFloat.
From S2P Require Import Config.
From S2P Require Import RateLimit.
Local Open Scope Z_scope.

(** [type Metrics struct]: counters per attribute, histograms as the list of
    what was recorded, and the gauge of active requests. *)
Record Metrics := {
  requests : gmap string Z;
  recordsAccepted : Z;
  recordsProduced : Z;
  recordsFailed : Z;
  requestBytes : Z;
  produceLatency : list (string * float64);
  decodeLatency : list (string * bool * float64);
  callbackWait : list (string * float64);
  rejections : Z;
  rateRejections : gmap string Z;
  outstandingRequests : Z;
}.

Definition zero_Metrics : Metrics :=
  {| requests := ∅; recordsAccepted := 0; recordsProduced := 0; recordsFailed := 0;
     requestBytes := 0; produceLatency := []; decodeLatency := []; callbackWait := [];
     rejections := 0; rateRejections := ∅; outstandingRequests := 0 |}.

Definition statusClass (status : Z) : string :=
  if status <=? 0 then "unknown" else Itoa (Z.quot status 100) +:+ "xx".

(** One more under an attribute. *)
Definition incr (k : string) (m : gmap string Z) : gmap string Z :=
  <[k := default 0 (m !! k) + 1]> m.

Definition ObserveRequest (status bytes records duration : Z) (m : Metrics) : Metrics :=
  {| requests := incr (statusClass status) (requests m);
     recordsAccepted :=
       if (0 <? records) && (status <? 400) then recordsAccepted m + records
       else recordsAccepted m;
     recordsProduced := recordsProduced m; recordsFailed := recordsFailed m;
     requestBytes := requestBytes m + bytes;
     produceLatency := produceLatency m ++ [(statusClass status, Seconds duration)];
     decodeLatency := decodeLatency m; callbackWait := callbackWait m;
     rejections := rejections m; rateRejections := rateRejections m;
     outstandingRequests := outstandingRequests m |}.

Definition ObserveProduceResult (successes failures : Z) (m : Metrics) : Metrics :=
  {| requests := requests m; recordsAccepted := recordsAccepted m;
     recordsProduced :=
       if 0 <? successes then recordsProduced m + successes else recordsProduced m;
     recordsFailed := if 0 <? failures then recordsFailed m + failures else recordsFailed m;
     requestBytes := requestBytes m; produceLatency := produceLatency m;
     decodeLatency := decodeLatency m; callbackWait := callbackWait m;
     rejections := rejections m; rateRejections := rateRejections m;
     outstandingRequests := outstandingRequests m |}.

Definition ObserveDecode (format : string) (success : bool) (duration : Z) (m : Metrics)
  : Metrics :=
  {| requests := requests m; recordsAccepted := recordsAccepted m;
     recordsProduced := recordsProduced m; recordsFailed := recordsFailed m;
     requestBytes := requestBytes m; produceLatency := produceLatency m;
     decodeLatency := decodeLatency m ++ [(format, success, Seconds duration)];
     callbackWait := callbackWait m; rejections := rejections m;
     rateRejections := rateRejections m; outstandingRequests := outstandingRequests m |}.

Definition ObserveKafkaCallbackWait (status duration : Z) (m : Metrics) : Metrics :=
  {| requests := requests m; recordsAccepted := recordsAccepted m;
     recordsProduced := recordsProduced m; recordsFailed := recordsFailed m;
     requestBytes := requestBytes m; produceLatency := produceLatency m;
     decodeLatency := decodeLatency m;
     callbackWait := callbackWait m ++ [(statusClass status, Seconds duration)];
     rejections := rejections m; rateRejections := rateRejections m;
     outstandingRequests := outstandingRequests m |}.

Definition ObserveAdmissionRejected (m : Metrics) : Metrics :=
  {| requests := requests m; recordsAccepted := recordsAccepted m;
     recordsProduced := recordsProduced m; recordsFailed := recordsFailed m;
     requestBytes := requestBytes m; produceLatency := produceLatency m;
     decodeLatency := decodeLatency m; callbackWait := callbackWait m;
     rejections := rejections m + 1; rateRejections := rateRejections m;
     outstandingRequests := outstandingRequests m |}.

Definition ObserveRateLimitRejected (kind : string) (m : Metrics) : Metrics :=
  {| requests := requests m; recordsAccepted := recordsAccepted m;
     recordsProduced := recordsProduced m; recordsFailed := recordsFailed m;
     requestBytes := requestBytes m; produceLatency := produceLatency m;
     decodeLatency := decodeLatency m; callbackWait := callbackWait m;
     rejections := rejections m; rateRejections := incr kind (rateRejections m);
     outstandingRequests := outstandingRequests m |}.

Definition add_outstanding (d : Z) (m : Metrics) : Metrics :=
  {| requests := requests m; recordsAccepted := recordsAccepted m;
     recordsProduced := recordsProduced m; recordsFailed := recordsFailed m;
     requestBytes := requestBytes m; produceLatency := produceLatency m;
     decodeLatency := decodeLatency m; callbackWait := callbackWait m;
     rejections := rejections m; rateRejections := rateRejections m;
     outstandingRequests := i64 (outstandingRequests m + d) |}.

Definition IncOutstanding : Metrics → Metrics := add_outstanding 1.
Definition DecOutstanding : Metrics → Metrics := add_outstanding (-1).

(** ** Gauges *)

Section gauges.
(** What the snapshot functions read: the state of the producer. *)
Context {S : Type}.

(** The functions [run] hands to the metrics. *)
Record Snapshots := {
  admissionSnapshot : option (S → Z * Z * Z * Z);
  bufferedSnapshot : option (S → Z * Z);
}.
Definition no_snapshots : Snapshots := {| admissionSnapshot := None; bufferedSnapshot := None |}.

Definition SetAdmissionSnapshot (fn : S → Z * Z * Z * Z) (sn : Snapshots) : Snapshots :=
  {| admissionSnapshot := Some fn; bufferedSnapshot := bufferedSnapshot sn |}.
Definition SetBufferedSnapshot (fn : S → Z * Z) (sn : Snapshots) : Snapshots :=
  {| admissionSnapshot := admissionSnapshot sn; bufferedSnapshot := Some fn |}.

Definition admission (sn : Snapshots) (s : S) : Z * Z * Z * Z :=
  match admissionSnapshot sn with None => (0, 0, 0, 0) | Some fn => fn s end.
Definition buffered (sn : Snapshots) (s : S) : Z * Z :=
  match bufferedSnapshot sn with None => (0, 0) | Some fn => fn s end.

(** What a gauge callback observes: values with their attribute. *)
Inductive gauge :=
  | GOutstanding | GAdmissionRecords | GAdmissionBytes | GBufferedRecords | GBufferedBytes.

Definition observe (g : gauge) (m : Metrics) (sn : Snapshots) (s : S) : list (Z * string) :=
  match g with
  | GOutstanding => [(outstandingRequests m, "")]
  | GAdmissionRecords =>
      let '(usedRecords, maxRecords, _, _) := admission sn s in
      [(usedRecords, "used"); (maxRecords, "limit")]
  | GAdmissionBytes =>
      let '(_, _, usedBytes, maxBytes) := admission sn s in
      [(usedBytes, "used"); (maxBytes, "limit")]
  | GBufferedRecords => [((buffered sn s).1, "")]
  | GBufferedBytes => [((buffered sn s).2, "")]
  end.
End gauges.
Arguments Snapshots S : clear implicits.

(** ** Construction *)

Inductive instrument :=
  | Int64Counter (name description unit : string)
  | Float64Histogram (name description unit : string)
  | Int64ObservableGauge (name description unit : string) (g : gauge).

(** The instruments in the order of their registration. *)
Definition instruments : list instrument := [
  Int64Counter "kafka_rest_requests" "Total HTTP produce requests." "";
  Int64Counter "kafka_rest_records_accepted" "Records accepted in successful HTTP requests." "";
  Int64Counter "kafka_rest_records_produced" "Records successfully acknowledged by Kafka." "";
  Int64Counter "kafka_rest_records_failed" "Records failed by Kafka/client callbacks." "";
  Int64Counter "kafka_rest_request_bytes" "HTTP request body bytes processed." "By";
  Float64Histogram "kafka_rest_produce_latency" "End-to-end HTTP produce request latency." "s";
  Float64Histogram "kafka_rest_decode_latency"
    "Request body decode and validation latency." "s";
  Float64Histogram "kafka_rest_kafka_callback_wait_latency"
    "Time spent waiting for Kafka producer callbacks for a request." "s";
  Int64Counter "kafka_rest_admission_rejections"
    "Requests rejected because local producer admission capacity was exhausted." "";
  Int64Counter "kafka_rest_rate_limit_rejections"
    "Requests rejected by configured request or byte rate limits." "";
  Int64ObservableGauge "kafka_rest_outstanding_requests" "Currently active HTTP requests." ""
    GOutstanding;
  Int64ObservableGauge "kafka_rest_admission_records"
    "Records reserved by local admission control." "" GAdmissionRecords;
  Int64ObservableGauge "kafka_rest_admission_bytes"
    "Bytes reserved by local admission control." "By" GAdmissionBytes;
  Int64ObservableGauge "kafka_rest_franz_buffered_records"
    "Records currently buffered by franz-go." "" GBufferedRecords;
  Int64ObservableGauge "kafka_rest_franz_buffered_bytes"
    "Bytes currently buffered by franz-go." "By" GBufferedBytes].

Section new.
(** The exporter, and the registration of an instrument with the meter. *)
Context (otelprom_New : option error) (register : instrument → option error).

Fixpoint register_all (l : list instrument) : option error :=
  match l with
  | [] => None
  | i :: l => match register i with Some err => Some err | None => register_all l end
  end.

Definition metrics_New : res Metrics :=
  match otelprom_New with
  | Some err => Err err
  | None => match register_all instruments with
            | Some err => Err err
            | None => Ok zero_Metrics
            end
  end.
End new.

(** [Handler] and [Shutdown]: the page is the exporter's, and a provider that
    was never made needs no shutdown. *)
Definition metrics_Handler {H : Type} (handler : H) : H := handler.
Definition metrics_Shutdown {P : Type} (provider_Shutdown : P → option error)
    (provider : option P) : option error :=
  match provider with None => None | Some p => provider_Shutdown p end.

(** ** Lemmas *)

Lemma outstanding_roundtrip m :
  in_i64 (outstandingRequests m) →
  outstandingRequests (DecOutstanding (IncOutstanding m)) = outstandingRequests m.
Proof.
  unfold DecOutstanding, IncOutstanding, add_outstanding, in_i64, i64. cbn. intros H.
  rewrite Zplus_assoc_reverse. Z.to_euclidean_division_equations. lia.
Qed.

Lemma lookup_incr k m : incr k m !! k = Some (default 0 (m !! k) + 1).
Proof. unfold incr. by rewrite lookup_insert_eq. Qed.
Lemma lookup_incr_ne k k' m : k ≠ k' → incr k m !! k' = m !! k'.
Proof. intros. unfold incr. by rewrite lookup_insert_ne. Qed.
