(* ===== verification/Handler.v ===== *)
(** * internal/api/handler.go

    The v2 produce endpoint, health checks and authentication.  A
    handler is a state transformer on the world it touches: the producer, the
    schema registry, the rate limiters, the metrics, the clock, and the actions
    performed on the response writer. *)

From S2P Require Import Prelude.
From S2P Require Import GoStrings.
From S2P Require Import Strconv.
From S2P Require Import GoErrors.
From S2P Require Import Json.
From S2P Require Import Url.
From S2P Require Import Mime.
From S2P Require Import GoFloat.
From S2P Require Import Config.
From S2P Require Import RateLimit.
From S2P Require Import Metrics.
From S2P Require Import SchemaTypes.
From S2P Require Import SchemaRegistry.
From S2P Require Import SchemaEncoder.
From S2P Require Import Producer.
From S2P Require Import Media.
From S2P Require Import Types.
Local Open Scope Z_scope.

(** ** Configuration *)

(** [type Config struct] of package api. *)
Record APIConfig := {
  MaxRequestBytes : Z;
  cfg_MaxRecords : Z;
  cfg_MaxRecordBytes : Z;
  cfg_MaxKeyBytes : Z;
  cfg_MaxHeaders : Z;
  cfg_MaxHeaderBytes : Z;
  AllowedTopics : list string;
  ProduceTimeout : Z;
  BearerTokens : list string;
  PprofEnable : bool;
  ClusterID : string;
  RateLimitRequestsPerSecond : float64;
  RateLimitRequestsBurst : Z;
  RateLimitBytesPerSecond : float64;
  RateLimitBytesBurst : Z;
}.

Definition config_withDefaults (cfg : APIConfig) : APIConfig := {|
  MaxRequestBytes := positive_or (MaxRequestBytes cfg) (8 * 1024 * 1024);
  cfg_MaxRecords := positive_or (cfg_MaxRecords cfg) 1000;
  cfg_MaxRecordBytes := positive_or (cfg_MaxRecordBytes cfg) (1024 * 1024);
  cfg_MaxKeyBytes := positive_or (cfg_MaxKeyBytes cfg) (1024 * 1024);
  cfg_MaxHeaders := positive_or (cfg_MaxHeaders cfg) 64;
  cfg_MaxHeaderBytes := positive_or (cfg_MaxHeaderBytes cfg) (64 * 1024);
  AllowedTopics := AllowedTopics cfg;
  ProduceTimeout := positive_or (ProduceTimeout cfg) (30 * Second);
  BearerTokens := BearerTokens cfg;
  PprofEnable := PprofEnable cfg;
  ClusterID := if String.eqb (TrimSpace (ClusterID cfg)) "" then "local" else ClusterID cfg;
  RateLimitRequestsPerSecond := RateLimitRequestsPerSecond cfg;
  RateLimitRequestsBurst := RateLimitRequestsBurst cfg;
  RateLimitBytesPerSecond := RateLimitBytesPerSecond cfg;
  RateLimitBytesBurst := RateLimitBytesBurst cfg;
|}.

Definition config_decodeLimits (cfg : APIConfig) : decodeLimits := {|
  MaxRecords := cfg_MaxRecords cfg;
  MaxRecordBytes := cfg_MaxRecordBytes cfg;
  MaxKeyBytes := cfg_MaxKeyBytes cfg;
  MaxHeaders := cfg_MaxHeaders cfg;
  MaxHeaderBytes := cfg_MaxHeaderBytes cfg;
|}.

(** [type Handler struct]: what does not change while it serves. *)
Record Handler := {
  h_cfg : APIConfig;
  h_tokens : gset string;
  h_allowedTopics : gset string;
  allowedTopicPrefixes : list string;
  h_schemaEncoder : option Encoder;
}.

(** [int64(math.Ceil(f))]; out of range gives the least integer, as on amd64. *)
Definition f64_ceil_i64 (f : float64) : Z :=
  match f with
  | S754_zero _ => 0
  | S754_finite s m e =>
      let m := if (s : bool) then Z.neg m else Z.pos m in
      let z := if 0 <=? e then m * 2 ^ e else - ((- m) / 2 ^ (- e)) in
      if (- 2 ^ 63 <=? z) && (z <? 2 ^ 63) then z else - 2 ^ 63
  | _ => - 2 ^ 63
  end.

Definition maxInt64 (a b : Z) : Z := if b <? a then a else b.

(** The limiters [NewHandlerWithSchema] creates. *)
Definition request_limiter (cfg : APIConfig) (now : Z) : option Limiter :=
  if f64_ltb f64_zero (RateLimitRequestsPerSecond cfg) then
    let b := RateLimitRequestsBurst cfg in
    let b := if b <=? 0 then f64_ceil_i64 (RateLimitRequestsPerSecond cfg) else b in
    New (RateLimitRequestsPerSecond cfg) b now
  else None.

Definition byte_limiter (cfg : APIConfig) (now : Z) : option Limiter :=
  if f64_ltb f64_zero (RateLimitBytesPerSecond cfg) then
    let b := RateLimitBytesBurst cfg in
    let b := if b <=? 0
             then maxInt64 (f64_ceil_i64 (RateLimitBytesPerSecond cfg)) (MaxRequestBytes cfg)
             else b in
    New (RateLimitBytesPerSecond cfg) b now
  else None.

(** The non-blank tokens; the topics and the prefixes of the allowlist. *)
Definition token_set (tokens : list string) : gset string :=
  list_to_set (filter (λ t, t ≠ "") (TrimSpace <$> tokens)).

Definition allow_entries (topics : list string) : list string :=
  filter (λ t, t ≠ "") (TrimSpace <$> topics).
Definition topic_set (topics : list string) : gset string :=
  list_to_set (filter (λ t, HasSuffix t "*" = false) (allow_entries topics)).
Definition topic_prefixes (topics : list string) : list string :=
  filter (λ p, p ≠ "")
    ((λ t, TrimSuffix t "*") <$> filter (λ t, HasSuffix t "*" = true) (allow_entries topics)).

Definition NewHandlerWithSchema (cfg : APIConfig) (enc : option Encoder) (now : Z)
  : Handler * option Limiter * option Limiter :=
  let cfg := config_withDefaults cfg in
  ({| h_cfg := cfg;
      h_tokens := token_set (BearerTokens cfg);
      h_allowedTopics := topic_set (AllowedTopics cfg);
      allowedTopicPrefixes := topic_prefixes (AllowedTopics cfg);
      h_schemaEncoder := enc |},
   request_limiter cfg now, byte_limiter cfg now).

Definition topicAllowed (h : Handler) (topic : string) : bool :=
  if (size (h_allowedTopics h) =? 0)%nat && (length (allowedTopicPrefixes h) =? 0)%nat then true
  else if bool_decide (topic ∈ h_allowedTopics h) then true
  else existsb (λ prefix, HasPrefix topic prefix) (allowedTopicPrefixes h).

(** ** Requests and responses *)

(** [http.Request]: [rq_body_err] is what the body reader ends with when the
    client breaks off. *)
Record Request := {
  rq_Method : string;
  rq_URL : URL;
  rq_Header : string → string;
  rq_ContentLength : Z;
  rq_Body : string;
  rq_body_err : option error;
}.

(** Actions on the [http.ResponseWriter]. *)
Inductive raction :=
  | RSetHeader (key value : string)
  | RWriteHeader (status : Z)
  | RWrite (body : string)
  | RFlush
  | RPanic.                                  (* a run-time panic, caught by the server *)

#[export] Instance raction_eq_dec : EqDecision raction.
Proof. solve_decision. Defined.

(** [http.MaxBytesReader] read to its end: the bytes and the error. *)
Definition read_limited (r : Request) (maxBytes : Z) : string * option error :=
  if maxBytes <? slen (rq_Body r)
  then (stake (Z.to_nat maxBytes) (rq_Body r), Some EMaxBytes)
  else (rq_Body r, rq_body_err r).

(** [readRequestBody]: both branches read to the end; they differ only in the
    size of the buffer. *)
Definition readRequestBody (r : Request) (maxBytes : Z) : string * option error :=
  if (0 <? rq_ContentLength r) && (rq_ContentLength r <=? maxBytes)
  then read_limited r maxBytes
  else read_limited r maxBytes.

(** [type produceTarget struct] and [produceTargetFromPath]. *)
Record produceTarget := { topic : string; partition : option Z }.

Definition produceTargetFromPath (u : URL) : option produceTarget :=
  let prefix := "/topics/" in
  let path := EscapedPath u in
  if negb (HasPrefix path prefix) || (String.length path =? String.length prefix)%nat then None
  else
    let segments := Split (TrimPrefix path prefix) "/" in
    match segments with
    | [s0] =>
        match PathUnescape s0 with
        | Some t => if String.eqb t "" then None else Some {| topic := t; partition := None |}
        | None => None
        end
    | [s0; s1; s2] =>
        match PathUnescape s0 with
        | Some t =>
            if String.eqb t "" then None
            else if negb (String.eqb s1 "partitions") || String.eqb s2 "" then None
            else match ParseInt 32 s2 with
                 | Some p => if p <? 0 then None
                             else Some {| topic := t; partition := Some p |}
                 | None => None
                 end
        | None => None
        end
    | _ => None
    end.

(** ** The world of a handler *)

Section handlers.
Context {P R : Type} `{Producer P} `{Codecs} `{Registry R}.
(** The monotonic clock: the value of each reading. *)
Context (clock : nat → Z).

Record World := {
  w_producer : P;
  w_registry : R;
  requestRateLimiter : option Limiter;
  byteRateLimiter : option Limiter;
  w_metrics : option Metrics;       (* nil without metrics *)
  w_tick : nat;                     (* readings of the clock so far *)
  w_out : list raction;
}.

(** Handlers as state transformers. *)
Definition M (A : Type) : Type := World → A * World.
Definition ret {A} (a : A) : M A := λ w, (a, w).
Definition bind {A B} (m : M A) (f : A → M B) : M B := λ w, let '(a, w) := m w in f a w.

Notation "'let*' x ':=' m 'in' k" := (bind m (λ x, k))
  (at level 10, x pattern, m at level 100, k at level 200).

Definition now : M Z := λ w,
  (clock (w_tick w),
   Build_World (w_producer w) (w_registry w) (requestRateLimiter w) (byteRateLimiter w)
     (w_metrics w) (S (w_tick w)) (w_out w)).

Definition out (a : raction) : M unit := λ w,
  (tt, Build_World (w_producer w) (w_registry w) (requestRateLimiter w) (byteRateLimiter w)
         (w_metrics w) (w_tick w) (w_out w ++ [a])).

(** [if h.metrics != nil { h.metrics.f() }]. *)
Definition metric (f : Metrics → Metrics) : M unit := λ w,
  (tt, Build_World (w_producer w) (w_registry w) (requestRateLimiter w) (byteRateLimiter w)
         (f <$> w_metrics w) (w_tick w) (w_out w)).

(** The same with the time since [start]. *)
Definition metric_since (start : Z) (f : Z → Metrics → Metrics) : M unit := λ w,
  match w_metrics w with
  | None => (tt, w)
  | Some _ => (let* t := now in metric (f (time_Sub t start))) w
  end.

Definition produce (deadline : Z) (records : list PRecord) : M (res (list Result)) := λ w,
  let '(r, p) := Produce deadline records (w_producer w) in
  (r, Build_World p (w_registry w) (requestRateLimiter w) (byteRateLimiter w)
        (w_metrics w) (w_tick w) (w_out w)).

Definition ping : M (option error) := λ w,
  let '(r, p) := Ping (w_producer w) in
  (r, Build_World p (w_registry w) (requestRateLimiter w) (byteRateLimiter w)
        (w_metrics w) (w_tick w) (w_out w)).

Definition with_registry {A} (f : R → A * R) : M A := λ w,
  let '(a, r) := f (w_registry w) in
  (a, Build_World (w_producer w) r (requestRateLimiter w) (byteRateLimiter w)
        (w_metrics w) (w_tick w) (w_out w)).

Definition writeAPIError (status code : Z) (message : string) : M unit :=
  let* _ := out (RSetHeader "Content-Type" mediaKafkaV2) in
  let* _ := out (RWriteHeader status) in
  out (RWrite (errorResponse code message)).

Definition writeRateLimitExceeded : M unit :=
  writeAPIError 429 errorCodeTooManyRequests rateLimitMessage.

(** [allowRequestRate] and [allowByteRate]; [Allow] reads the clock unless
    the cost is not positive. *)
Definition allowRequestRate (cost : Z) : M bool := λ w,
  match requestRateLimiter w with
  | None => (true, w)
  | Some l =>
      let '(t, w) := if cost <=? 0 then (0, w) else now w in
      let '(l, ok) := Allow (Some l) cost t in
      (ok, Build_World (w_producer w) (w_registry w) l (byteRateLimiter w)
             (w_metrics w) (w_tick w) (w_out w))
  end.

Definition allowByteRate (cost : Z) : M bool := λ w,
  match byteRateLimiter w with
  | None => (true, w)
  | Some l =>
      let '(t, w) := if cost <=? 0 then (0, w) else now w in
      let '(l, ok) := Allow (Some l) cost t in
      (ok, Build_World (w_producer w) (w_registry w) (requestRateLimiter w) l
             (w_metrics w) (w_tick w) (w_out w))
  end.

Context (h : Handler).

(** ** POST /topics/... *)

(** What the deferred [ObserveRequest] reads: status, body bytes, records. *)
Definition observed : Type := Z * Z * Z.

(** An error response and the return that follows it. *)
Definition fail (status code : Z) (message : string) (bodyLen recordCount : Z) : M observed :=
  let* _ := writeAPIError status code message in
  ret (status, bodyLen, recordCount).

Definition rate_limited (kind : string) (bodyLen : Z) : M observed :=
  let* _ := metric (ObserveRateLimitRejected kind) in
  let* _ := writeRateLimitExceeded in
  ret (429, bodyLen, 0).

(** [handleTopicProduce] from the call of [Produce] on. *)
Definition produce_and_respond (records : list PRecord) (responseMeta : produceMetadata)
    (bodyLen : Z) : M observed :=
  let recordCount := Z.of_nat (length records) in
  let* t := now in
  let* produceStart := now in
  let* results := produce (t + ProduceTimeout (h_cfg h)) records in
  let* t := now in
  let produceWait := time_Sub t produceStart in
  match results with
  | Err err =>
      let err := if errors_Is err ctxCanceled || errors_Is err ctxDeadlineExceeded
                 then ESentinel errContextCanceled else err in
      let '(status, code, msg) := classifyProduceError err in
      let* _ := metric (ObserveKafkaCallbackWait status produceWait) in
      let* _ := (if errors_Is err ErrOverloaded then metric ObserveAdmissionRejected
                 else ret tt) in
      fail status code msg bodyLen recordCount
  | Ok results =>
      let* _ := metric (ObserveKafkaCallbackWait 200 produceWait) in
      let '(successes, failures) := countResultStatus results in
      let* _ := metric (ObserveProduceResult successes failures) in
      let* _ := out (RSetHeader "Content-Type" mediaKafkaV2) in
      let* _ := out (RWriteHeader 200) in
      let* _ := out (RWrite (appendProduceResponse results responseMeta)) in
      ret (200, bodyLen, recordCount)
  end.

(** [handleTopicProduce] from the decoding of the body on. *)
Definition decode_and_produce (target : produceTarget) (format : payloadFormat) (body : string)
  : M observed :=
  let bodyLen := slen body in
  let* decodeStart := now in
  let* decoded := with_registry
    (decodeProduceRequestWithSchema (topic target) body format (config_decodeLimits (h_cfg h))
       (Some (λ tpc key data reg, Encode (h_schemaEncoder h) tpc key data reg))
       (partition target)) in
  let* _ := metric_since decodeStart
              (λ d, ObserveDecode (format_String format) (is_ok decoded.1) d) in
  match decoded with
  | (Err err, _) =>
      match as_unprocessable err with
      | Some msg => fail 422 errorCodeUnprocessable msg bodyLen 0
      | None =>
          match as_validation err with
          | Some msg => fail 400 errorCodeBadRequest msg bodyLen 0
          | None => fail 400 errorCodeBadRequest (Error err) bodyLen 0
          end
      end
  | (Ok records, responseMeta) => produce_and_respond records responseMeta bodyLen
  end.

(** [handleTopicProduce] between the two deferred calls. *)
Definition topic_produce (r : Request) : M observed :=
  if negb (String.eqb (rq_Method r) "POST") then
    let* _ := out (RSetHeader "Allow" "POST") in
    fail 405 errorCodeBadRequest "method not allowed" 0 0
  else match produceTargetFromPath (rq_URL r) with
  | None => fail 404 errorCodeBadRequest "not found" 0 0
  | Some target =>
      if negb (topicAllowed h (topic target)) then
        fail 403 errorCodeForbidden "topic is not allowed" 0 0
      else if negb (acceptsResponse (rq_Header r "Accept")) then
        fail 406 errorCodeNotAcceptable "HTTP 406 Not Acceptable" 0 0
      else match parseContentType (rq_Header r "Content-Type") with
      | None => fail 415 errorCodeUnsupportedMedia "HTTP 415 Unsupported Media Type" 0 0
      | Some format =>
          let* ok := allowRequestRate 1 in
          if negb ok then rate_limited "requests" 0
          else
            let '(body, err) := readRequestBody r (MaxRequestBytes (h_cfg h)) in
            let bodyLen := slen body in
            match err with
            | Some err =>
                if as_max_bytes err then fail 413 413 "HTTP 413 Payload Too Large" bodyLen 0
                else fail 400 errorCodeBadRequest "failed to read request body" bodyLen 0
            | None =>
                let* ok := allowByteRate bodyLen in
                if negb ok then rate_limited "bytes" bodyLen
                else decode_and_produce target format body
            end
      end
  end.

(** The prologue and the deferred calls both produce endpoints share. *)
Definition observed_request (body : M observed) : M unit :=
  let* start := now in
  let* _ := metric IncOutstanding in
  let* o := body in
  let '(status, bodyLen, recordCount) := o in
  let* _ := metric_since start (ObserveRequest status bodyLen recordCount) in
  metric DecOutstanding.

Definition handleTopicProduce (r : Request) : M unit := observed_request (topic_produce r).

(** ** Health *)

Definition method_not_allowed (allow : string) : M unit :=
  let* _ := out (RSetHeader "Allow" allow) in
  writeAPIError 405 errorCodeBadRequest "method not allowed".

Definition write_status (status : string) : M unit :=
  let* _ := out (RSetHeader "Content-Type" "application/json") in
  out (RWrite (qt "{'status':'" +:+ status +:+ qt "'}" +:+ nl)).

Definition handleHealth (r : Request) : M unit :=
  if negb (String.eqb (rq_Method r) "GET") then method_not_allowed "GET"
  else write_status "ok".

Definition handleReady (r : Request) : M unit :=
  if negb (String.eqb (rq_Method r) "GET") then method_not_allowed "GET"
  else
    let* _ := now in                        (* context.WithTimeout *)
    let* err := ping in
    match err with
    | Some err => writeAPIError 503 errorCodeProduceUnavailable (Error err)
    | None => write_status "ready"
    end.

(** ** Authentication *)

Definition authMiddleware (next : Request → M unit) (r : Request) : M unit :=
  if (size (h_tokens h) =? 0)%nat then next r
  else if String.eqb (Path (rq_URL r)) "/healthz" || String.eqb (Path (rq_URL r)) "/readyz"
  then next r
  else
    let auth := TrimSpace (rq_Header r "Authorization") in
    if negb (HasPrefix auth "Bearer ") then
      writeAPIError 401 errorCodeUnauthorized "missing bearer token"
    else
      let token := TrimSpace (TrimPrefix auth "Bearer ") in
      if negb (bool_decide (token ∈ h_tokens h)) then
        writeAPIError 401 errorCodeUnauthorized "invalid bearer token"
      else next r.
End handlers.
