(* ===== verification/HandlerFacts.v ===== *)
(** * Correctness of internal/api/handler.go *)

From S2P Require Import Prelude.
From S2P Require Import GoStrings.
From S2P Require Import Strconv.
From S2P Require Import GoErrors.
From S2P Require Import Json.
From S2P Require Import Url.
From S2P Require Import Mime.
From S2P Require Import GoFloat.
From S2P Require Import Config.
From S2P Require Import RateLimit.
From S2P Require Import Metrics.
From S2P Require Import SchemaTypes.
From S2P Require Import SchemaRegistry.
From S2P Require Import SchemaEncoder.
From S2P Require Import SchemaFacts.
From S2P Require Import Producer.
From S2P Require Import Media.
From S2P Require Import Types.
From S2P Require Import TypesFacts.
From S2P Require Import Handler.
Local Open Scope Z_scope.

(** ** Reasoning about handlers *)

Section logic.
Context {P R : Type} `{Producer P} `{Codecs} `{Registry R} (clock : nat → Z).
Abbreviation World := (@World P R).
Abbreviation M := (@M P R).

(** The part [f] of the world is left alone. *)
Definition keeps {X A} (f : World → X) (m : M A) : Prop := ∀ w, f (m w).2 = f w.

Lemma keeps_ret {X A} (f : World → X) (a : A) : keeps f (ret a).
Proof. done. Qed.
Lemma keeps_bind {X A B} (f : World → X) (m : M A) (k : A → M B) :
  keeps f m → (∀ a, keeps f (k a)) → keeps f (bind m k).
Proof.
  intros Hm Hk w. unfold bind. specialize (Hm w). destruct (m w) as [a w'].
  rewrite (Hk a w'). exact Hm.
Qed.

(** What a handler adds to the response, with its result. *)
Definition emits {A} (m : M A) (Q : A → list raction → Prop) : Prop :=
  ∀ w, ∃ acts, w_out (m w).2 = w_out w ++ acts ∧ Q (m w).1 acts.

Lemma emits_ret {A} (a : A) (Q : A → list raction → Prop) : Q a [] → emits (ret a) Q.
Proof. intros HQ w. exists []. by rewrite app_nil_r. Qed.

Lemma emits_bind {A B} (m : M A) (k : A → M B) Qm Q :
  emits m Qm → (∀ a acts, Qm a acts → emits (k a) (λ b acts', Q b (acts ++ acts'))) →
  emits (bind m k) Q.
Proof.
  intros Hm Hk w. unfold bind. destruct (Hm w) as (acts&Hw&HQ). destruct (m w) as [a w'].
  cbn [fst snd] in *. destruct (Hk a acts HQ w') as (acts'&Hw'&HQ').
  exists (acts ++ acts'). by rewrite Hw', Hw, app_assoc.
Qed.

Lemma emits_out a : emits (out a : M unit) (λ _ acts, acts = [a]).
Proof. intros w. by exists [a]. Qed.

(** A handler that does not touch the response. *)
Lemma emits_silent {A} (m : M A) : keeps w_out m → emits m (λ _ acts, acts = []).
Proof. intros Hm w. exists []. by rewrite Hm, app_nil_r. Qed.

Lemma emits_silent_bind {A B} (m : M A) (k : A → M B) Q :
  keeps w_out m → (∀ a, emits (k a) Q) → emits (bind m k) Q.
Proof.
  intros Hm Hk. eapply emits_bind; [by apply emits_silent|]. intros a acts ->. apply Hk.
Qed.

Lemma emits_out_bind {B} a (k : unit → M B) Q :
  emits (k tt) (λ b acts, Q b (a :: acts)) → emits (bind (out a) k) Q.
Proof. intros Hk. eapply emits_bind; [apply emits_out|]. intros [] acts ->. exact Hk. Qed.

(** *** Primitives *)

Lemma keeps_now_metric {X} (f : World → X) start g :
  keeps f (now clock) → (∀ d, keeps f (metric (g d))) → keeps f (metric_since clock start g).
Proof.
  intros Hn Hm w. unfold metric_since. destruct (w_metrics w); [|done].
  apply (keeps_bind f (now clock)); [done|]. intros. apply Hm.
Qed.

Lemma keeps_limiter {X} (f : World → X) cost :
  keeps f (now clock) →
  (∀ w l, f (Build_World (w_producer w) (w_registry w) l (byteRateLimiter w) (w_metrics w)
               (w_tick w) (w_out w)) = f w) →
  keeps f (allowRequestRate clock cost).
Proof.
  intros Hn Hl w. unfold allowRequestRate. destruct (requestRateLimiter w) as [l|]; [|done].
  specialize (Hn w). destruct (cost <=? 0).
  - destruct (Allow (Some l) cost 0). cbn. apply Hl.
  - destruct (now clock w) as [t w']. cbn in Hn. destruct (Allow (Some l) cost t). cbn.
    by rewrite Hl.
Qed.

Lemma keeps_byte_limiter {X} (f : World → X) cost :
  keeps f (now clock) →
  (∀ w l, f (Build_World (w_producer w) (w_registry w) (requestRateLimiter w) l (w_metrics w)
               (w_tick w) (w_out w)) = f w) →
  keeps f (allowByteRate clock cost).
Proof.
  intros Hn Hl w. unfold allowByteRate. destruct (byteRateLimiter w) as [l|]; [|done].
  specialize (Hn w). destruct (cost <=? 0).
  - destruct (Allow (Some l) cost 0). cbn. apply Hl.
  - destruct (now clock w) as [t w']. cbn in Hn. destruct (Allow (Some l) cost t). cbn.
    by rewrite Hl.
Qed.

Lemma keeps_produce {X} (f : World → X) d rs :
  (∀ w p, f (Build_World p (w_registry w) (requestRateLimiter w) (byteRateLimiter w)
               (w_metrics w) (w_tick w) (w_out w)) = f w) →
  keeps f (produce d rs).
Proof. intros Hf w. unfold produce. destruct (Produce d rs (w_producer w)). cbn. apply Hf. Qed.

Lemma keeps_with_registry {X A} (f : World → X) (g : R → A * R) :
  (∀ w r, f (Build_World (w_producer w) r (requestRateLimiter w) (byteRateLimiter w)
               (w_metrics w) (w_tick w) (w_out w)) = f w) →
  keeps f (with_registry g).
Proof. intros Hf w. unfold with_registry. destruct (g (w_registry w)). cbn. apply Hf. Qed.

(** The counters [observed_request] is responsible for. *)
Definition core (m : Metrics) : gmap string Z * Z * Z * Z :=
  (requests m, recordsAccepted m, requestBytes m, outstandingRequests m).
Definition w_core (w : World) : option (gmap string Z * Z * Z * Z) := core <$> w_metrics w.

Lemma keeps_core_metric g : (∀ m, core (g m) = core m) → keeps w_core (metric g : M unit).
Proof.
  intros Hg w. unfold w_core, metric. cbn. destruct (w_metrics w); [|done]. cbn. by rewrite Hg.
Qed.
End logic.

(** Frame conditions by structure. *)
Ltac keeps_step :=
  first
    [ apply keeps_ret
    | apply keeps_bind; [|intros ?]
    | apply keeps_now_metric
    | apply keeps_limiter
    | apply keeps_byte_limiter
    | apply keeps_produce
    | apply keeps_with_registry
    | apply keeps_core_metric
    | done
    | match goal with |- keeps _ (if ?b then _ else _) => destruct b end
    | match goal with |- keeps _ (match ?x with _ => _ end) => destruct x end
    | intros ? ].
Ltac keeps := repeat keeps_step.

Section facts.
Context {P R : Type} `{Producer P} `{Codecs} `{Registry R} (clock : nat → Z) (h : Handler).
Abbreviation World := (@World P R).
Abbreviation M := (@M P R).

(** A complete response: headers, then one status, then one body. *)
Definition is_header (a : raction) : Prop :=
  match a with RSetHeader _ _ => True | _ => False end.
Definition answers (status : Z) (acts : list raction) : Prop :=
  ∃ hdrs body, acts = hdrs ++ [RWriteHeader status; RWrite body] ∧
    Forall is_header hdrs ∧ RSetHeader "Content-Type" mediaKafkaV2 ∈ hdrs.

Lemma answers_header k v status acts :
  answers status acts → answers status (RSetHeader k v :: acts).
Proof.
  intros (hdrs&body&->&Hh&Hc). exists (RSetHeader k v :: hdrs), body.
  split_and!; [done|by constructor|by constructor].
Qed.

Lemma answers_error status body :
  answers status [RSetHeader "Content-Type" mediaKafkaV2; RWriteHeader status; RWrite body].
Proof.
  exists [RSetHeader "Content-Type" mediaKafkaV2], body. split_and!; [done|by repeat constructor|].
  constructor.
Qed.

Lemma fail_answers status code msg bl rc :
  emits (fail status code msg bl rc : M observed) (λ o acts, o = (status, bl, rc) ∧ answers status acts).
Proof.
  unfold fail, writeAPIError.
  eapply emits_bind with (Qm := λ _ acts, answers status acts).
  - apply emits_out_bind, emits_out_bind. intros w. eexists [_]. split; [done|].
    apply answers_error.
  - intros _ acts Ha. apply emits_ret. by rewrite app_nil_r.
Qed.

Lemma rate_limited_answers kind bl :
  emits (rate_limited kind bl : M observed) (λ o acts, o = (429, bl, 0) ∧ answers 429 acts).
Proof.
  unfold rate_limited. apply emits_silent_bind; [done|]. intros _.
  apply (fail_answers 429 errorCodeTooManyRequests rateLimitMessage bl 0).
Qed.

Definition answered (o : observed) (acts : list raction) : Prop := answers o.1.1 acts.

Lemma emits_weaken {A} (m : M A) (Q Q' : A → list raction → Prop) :
  emits m Q → (∀ a acts, Q a acts → Q' a acts) → emits m Q'.
Proof. intros Hm HQ w. destruct (Hm w) as (acts&?&?). exists acts. auto. Qed.

Lemma fail_answered status code msg bl rc : emits (fail status code msg bl rc : M observed) answered.
Proof. eapply emits_weaken; [apply fail_answers|]. intros o acts [-> Ha]. done. Qed.
Lemma rate_limited_answered kind bl : emits (rate_limited kind bl : M observed) answered.
Proof. eapply emits_weaken; [apply rate_limited_answers|]. intros o acts [-> Ha]. done. Qed.

Lemma produce_and_respond_answered records meta bl :
  emits (produce_and_respond clock h records meta bl : M observed) answered.
Proof.
  unfold produce_and_respond. do 4 (apply emits_silent_bind; [keeps|intros ?]).
  destruct a1 as [results|err].
  - apply emits_silent_bind; [keeps|intros _].
    destruct (countResultStatus results) as [succ failures].
    apply emits_silent_bind; [keeps|intros _].
    apply emits_out_bind, emits_out_bind, emits_out_bind, emits_ret. apply answers_error.
  - destruct (classifyProduceError _) as [[status code] msg].
    apply emits_silent_bind; [keeps|intros _]. apply emits_silent_bind; [keeps|intros _].
    apply fail_answered.
Qed.

Lemma topic_produce_answered r : emits (topic_produce clock h r) answered.
Proof.
  unfold topic_produce. destruct (negb (String.eqb _ _)).
  { apply emits_out_bind. eapply emits_weaken; [apply fail_answers|].
    intros o acts [-> Ha]. by apply answers_header. }
  destruct (produceTargetFromPath _) as [target|]; [|apply fail_answered].
  destruct (negb (topicAllowed _ _)); [apply fail_answered|].
  destruct (negb (acceptsResponse _)); [apply fail_answered|].
  destruct (parseContentType _) as [format|]; [|apply fail_answered].
  apply emits_silent_bind; [keeps|intros ok].
  destruct (negb ok); [apply rate_limited_answered|].
  destruct (readRequestBody _ _) as [body err]. destruct err as [err|].
  { destruct (as_max_bytes err); apply fail_answered. }
  apply emits_silent_bind; [keeps|intros ok'].
  destruct (negb ok'); [apply rate_limited_answered|].
  unfold decode_and_produce. do 3 (apply emits_silent_bind; [keeps|intros ?]).
  destruct a0 as [[records|err] meta].
  - apply produce_and_respond_answered.
  - destruct (as_unprocessable err); [apply fail_answered|].
    destruct (as_validation err); apply fail_answered.
Qed.

Lemma topic_produce_core r : keeps w_core (topic_produce clock h r).
Proof.
  unfold topic_produce, decode_and_produce, produce_and_respond, rate_limited,
    writeRateLimitExceeded, fail, writeAPIError.
  keeps.
Qed.
(** *** What a request does to the producer *)

Abbreviation limits := (limits_withDefaults (config_decodeLimits (h_cfg h))).

(** The request was turned down before the producer was asked. *)
Definition turned_down (w w' : World) : Prop :=
  w_producer w' = w_producer w ∧
  ∃ status acts, w_out w' = w_out w ++ acts ∧ answers status acts ∧ 400 <= status < 500.

(** The status of a failed [Produce]. *)
Definition produce_error_status (err : error) : Z :=
  if errors_Is err ctxCanceled || errors_Is err ctxDeadlineExceeded then 504
  else if errors_Is err ErrOverloaded then 429
  else if errors_Is err errContextCanceled then 504
  else 503.

(** One call of [Produce], and the response its outcome calls for. *)
Definition produced (records : list PRecord) (meta : produceMetadata) (w w' : World) : Prop :=
  ∃ deadline results,
    Produce deadline records (w_producer w) = (results, w_producer w') ∧
    match results with
    | Ok results => w_out w' = w_out w ++
        [RSetHeader "Content-Type" mediaKafkaV2; RWriteHeader 200;
         RWrite (appendProduceResponse results meta)]
    | Err err => ∃ status acts, w_out w' = w_out w ++ acts ∧ answers status acts ∧
        status = produce_error_status err
    end.

(** A request the producer may be asked to serve, with the records (and the
    schema ids) its body stands for. *)
Record servable (r : Request) (records : list PRecord) (meta : produceMetadata) : Prop := {
  sv_method : rq_Method r = "POST";
  sv_accept : acceptsResponse (rq_Header r "Accept") = true;
  sv_body : slen (rq_Body r) <= MaxRequestBytes (h_cfg h) ∧ rq_body_err r = None;
  sv_target : ∃ target format reg reg',
    produceTargetFromPath (rq_URL r) = Some target ∧ topicAllowed h (topic target) = true ∧
    parseContentType (rq_Header r "Content-Type") = Some format ∧
    decodeProduceRequestWithSchema (topic target) (rq_Body r) format
      (config_decodeLimits (h_cfg h))
      (Some (λ tpc key data reg, Encode (h_schemaEncoder h) tpc key data reg))
      (partition target) reg = (Ok records, meta, reg') ∧
    Forall (within_limits (topic target) limits (partition target)) records;
  sv_count : 0 < Z.of_nat (length records) <= MaxRecords limits;
}.

Definition outcome (r : Request) (w w' : World) : Prop :=
  turned_down w w' ∨ ∃ records meta, servable r records meta ∧ produced records meta w w'.

Lemma outcome_silent {A} (m : M A) (k : A → M observed) (Q : World → World → Prop) w :
  (∀ w1 w2 w', w_producer w1 = w_producer w2 → w_out w1 = w_out w2 → Q w1 w' → Q w2 w') →
  keeps w_producer m → keeps w_out m →
  (∀ a w1, Q w1 (k a w1).2) → Q w (bind m k w).2.
Proof.
  intros HQ Hp Ho Hk. specialize (Hp w). specialize (Ho w). unfold bind.
  destruct (m w) as [a w1]. cbn in *. eapply HQ; [exact Hp|exact Ho|apply Hk].
Qed.

Lemma turned_down_frame w1 w2 w' : w_producer w1 = w_producer w2 → w_out w1 = w_out w2 →
  turned_down w1 w' → turned_down w2 w'.
Proof.
  intros E1 E2 (Hp&st&acts&Ho&Ha). split; [congruence|]. exists st, acts. by rewrite <- E2.
Qed.
Lemma produced_frame rs meta w1 w2 w' : w_producer w1 = w_producer w2 → w_out w1 = w_out w2 →
  produced rs meta w1 w' → produced rs meta w2 w'.
Proof.
  intros E1 E2 (d&res&Hp&Hr). exists d, res. by rewrite <- E1, <- E2.
Qed.
Lemma outcome_frame r w1 w2 w' : w_producer w1 = w_producer w2 → w_out w1 = w_out w2 →
  outcome r w1 w' → outcome r w2 w'.
Proof.
  intros E1 E2 [Ht|(rs&meta&Hs&Hp)]; [left; by eapply turned_down_frame|right].
  exists rs, meta. split; [done|]. by eapply produced_frame.
Qed.

Lemma fail_turned_down status code msg bl rc w : 400 <= status < 500 →
  turned_down w (fail status code msg bl rc w).2.
Proof.
  intros Hs. split; [done|]. destruct (fail_answers status code msg bl rc w) as (acts&Ho&_&Ha).
  exists status, acts. done.
Qed.
Lemma rate_limited_turned_down kind bl w : turned_down w (rate_limited kind bl w).2.
Proof.
  split; [done|]. destruct (rate_limited_answers kind bl w) as (acts&Ho&_&Ha).
  exists 429, acts. done.
Qed.

Lemma classify_status err :
  (classifyProduceError (if errors_Is err ctxCanceled || errors_Is err ctxDeadlineExceeded
                         then ESentinel errContextCanceled else err)).1.1 =
    produce_error_status err.
Proof.
  unfold classifyProduceError, produce_error_status.
  destruct (errors_Is err ctxCanceled || errors_Is err ctxDeadlineExceeded); [done|].
  destruct (errors_Is err ErrOverloaded); [done|]. by destruct (errors_Is err errContextCanceled).
Qed.

Lemma produce_and_respond_produced records meta bl w :
  produced records meta w (produce_and_respond clock h records meta bl w).2.
Proof.
  unfold produce_and_respond, bind at 1 2 3, now, produce. cbn.
  destruct (Produce _ records (w_producer w)) as [results p] eqn:Hp. cbn.
  destruct results as [results|err].
  - destruct (countResultStatus results) as [succ failures]. cbn.
    eexists _, (Ok results). split; [exact Hp|]. cbn. by rewrite <- !app_assoc.
  - pose proof (classify_status err) as Hst.
    set (err' := if errors_Is err ctxCanceled || errors_Is err ctxDeadlineExceeded
                 then ESentinel errContextCanceled else err) in *.
    destruct (classifyProduceError err') as [[status code] msg]. cbn in Hst. subst status.
    eexists _, (Err err).
    unfold bind at 1 2, metric, ret. cbn.
    destruct (errors_Is err' ErrOverloaded); cbn; (split; [exact Hp|]);
      (eexists _, _; split; [by rewrite <- !app_assoc|]; split; [apply answers_error|done]).
Qed.

Lemma read_ok r maxBytes body : readRequestBody r maxBytes = (body, None) →
  body = rq_Body r ∧ slen body <= maxBytes ∧ rq_body_err r = None.
Proof.
  unfold readRequestBody, read_limited.
  destruct (_ && _)%bool; (destruct (maxBytes <? slen (rq_Body r)) eqn:E; [done|]);
    zbool; intros [= <- ->]; done.
Qed.

Lemma decode_and_produce_outcome r target format w :
  rq_Method r = "POST" → acceptsResponse (rq_Header r "Accept") = true →
  parseContentType (rq_Header r "Content-Type") = Some format →
  slen (rq_Body r) <= MaxRequestBytes (h_cfg h) → rq_body_err r = None →
  produceTargetFromPath (rq_URL r) = Some target → topicAllowed h (topic target) = true →
  outcome r w (decode_and_produce clock h target format (rq_Body r) w).2.
Proof.
  intros Hm Ha Hc Hb He Ht Hal. unfold decode_and_produce.
  apply outcome_silent; [apply outcome_frame|done|done|]. intros start w1.
  unfold bind at 1, with_registry.
  destruct (decodeProduceRequestWithSchema _ _ _ _ _ _ _) as [[decoded meta] reg] eqn:Hd.
  cbn [fst snd]. eapply outcome_frame; [| |
    apply (outcome_silent _ _ (outcome r)); [apply outcome_frame|keeps|keeps|]]; [done..|].
  intros _ w2. destruct decoded as [records|err].
  - right. exists records, meta. split; [|apply produce_and_respond_produced].
    pose proof Hd as Hl. apply accepted_within in Hl as [Hl Hw].
    split; try done. by exists target, format, (w_registry w1), reg.
  - left. destruct (as_unprocessable err); [by apply fail_turned_down|].
    destruct (as_validation err); by apply fail_turned_down.
Qed.

Lemma topic_produce_outcome r w : outcome r w (topic_produce clock h r w).2.
Proof.
  unfold topic_produce. destruct (String.eqb (rq_Method r) "POST") eqn:Hm; cbn [negb].
  2:{ left. split; [done|]. unfold bind at 1.
      destruct (out (RSetHeader "Allow" "POST") w) as [u w1] eqn:Hw1. injection Hw1 as <- <-.
      edestruct (fail_answers 405 errorCodeBadRequest "method not allowed" 0 0)
        as (acts&Ho&_&Ha). rewrite Ho. cbn. exists 405, (RSetHeader "Allow" "POST" :: acts).
      split; [by rewrite <- app_assoc|]. split; [by apply answers_header|done]. }
  apply String.eqb_eq in Hm.
  destruct (produceTargetFromPath _) as [target|] eqn:Ht; [|left; by apply fail_turned_down].
  destruct (topicAllowed h (topic target)) eqn:Hal; [|left; by apply fail_turned_down].
  destruct (acceptsResponse _) eqn:Ha; [|left; by apply fail_turned_down]. cbn [negb].
  destruct (parseContentType _) as [format|] eqn:Hc; [|left; by apply fail_turned_down].
  apply outcome_silent; [apply outcome_frame|keeps|keeps|]. intros ok w1.
  destruct ok; [|left; apply rate_limited_turned_down]. cbn [negb].
  destruct (readRequestBody _ _) as [body err] eqn:Hr. destruct err as [err|].
  { left. destruct (as_max_bytes err); by apply fail_turned_down. }
  apply read_ok in Hr as (->&Hl&He).
  apply outcome_silent; [apply outcome_frame|keeps|keeps|]. intros ok w2.
  destruct ok; [|left; apply rate_limited_turned_down]. cbn [negb].
  by apply decode_and_produce_outcome.
Qed.

(** The prologue leaves everything a handler decides by alone. *)
Definition decides_by (w : World) :=
  (w_producer w, w_registry w, requestRateLimiter w, byteRateLimiter w, w_out w).

Lemma observed_request_run (body : M observed) w (Q : World → Prop) :
  (∀ w1 w2, w_producer w1 = w_producer w2 → w_out w1 = w_out w2 → Q w1 → Q w2) →
  (∀ w1, decides_by w1 = decides_by w → Q (body w1).2) → Q (observed_request clock body w).2.
Proof.
  intros HQ Hb. unfold observed_request, bind.
  destruct (now clock w) as [start w1] eqn:E1. destruct (metric IncOutstanding w1) as [u w2] eqn:E2.
  assert (decides_by w2 = decides_by w) as E
    by (injection E1 as <- <-; injection E2 as <- <-; done).
  specialize (Hb w2 E). destruct (body w2) as [o w3]. cbn in Hb. destruct o as [[status bl] rc].
  assert (keeps w_producer (metric_since clock start (ObserveRequest status bl rc) : M unit)) as Kp
    by keeps.
  assert (keeps w_out (metric_since clock start (ObserveRequest status bl rc) : M unit)) as Ko
    by keeps.
  specialize (Kp w3). specialize (Ko w3).
  destruct (metric_since clock start (ObserveRequest status bl rc) w3) as [u' w4]. cbn in Kp, Ko.
  by apply (HQ w3).
Qed.

Lemma observed_request_frame (body : M observed) w (Q : World → World → Prop) :
  (∀ w1 w2 w', w_producer w1 = w_producer w2 → w_out w1 = w_out w2 → Q w1 w' → Q w2 w') →
  (∀ w w1 w2, w_producer w1 = w_producer w2 → w_out w1 = w_out w2 → Q w w1 → Q w w2) →
  (∀ w, Q w (body w).2) → Q w (observed_request clock body w).2.
Proof.
  intros HQ1 HQ2 Hb. apply (observed_request_run body w (Q w)); [by apply HQ2|].
  intros w1 E. injection E as Ep _ _ _ Eo. by apply (HQ1 w1 w).
Qed.

(** A plain request that nothing speaks against is served. *)
Lemma handleTopicProduce_served r w target format records :
  rq_Method r = "POST" → produceTargetFromPath (rq_URL r) = Some target →
  topicAllowed h (topic target) = true → acceptsResponse (rq_Header r "Accept") = true →
  parseContentType (rq_Header r "Content-Type") = Some format → schemaType format = "" →
  requestRateLimiter w = None → byteRateLimiter w = None →
  slen (rq_Body r) <= MaxRequestBytes (h_cfg h) → rq_body_err r = None →
  decodeProduceRequest (topic target) (rq_Body r) format (config_decodeLimits (h_cfg h))
    (partition target) = Ok records →
  produced records zero_produceMetadata w (handleTopicProduce clock h r w).2.
Proof.
  intros Hm Ht Ha Hac Hc Hf Hrl Hbl Hs He Hd.
  apply (observed_request_run (topic_produce clock h r) w (produced records zero_produceMetadata w)).
  { intros w1 w2 E1 E2 (d&res&Hp&Ho). exists d, res. by rewrite <- E1, <- E2. }
  intros w1 E. injection E as Ep _ Er Eb Eo. rewrite Hrl in Er. rewrite Hbl in Eb.
  apply (produced_frame records zero_produceMetadata w1 w); [done..|].
  unfold topic_produce. rewrite Hm, Ht, Ha, Hac, Hc.
  change (negb (String.eqb "POST" "POST")) with false. cbn [negb].
  assert (∀ c, allowRequestRate clock c w1 = (true, w1)) as Hrate
    by (intros c; unfold allowRequestRate; by rewrite Er).
  assert (∀ c, allowByteRate clock c w1 = (true, w1)) as Hbytes
    by (intros c; unfold allowByteRate; by rewrite Eb).
  unfold bind at 1. cbv beta. rewrite Hrate. cbn [negb].
  assert (readRequestBody r (MaxRequestBytes (h_cfg h)) = (rq_Body r, None)) as ->.
  { unfold readRequestBody, read_limited. destruct (Z.ltb_spec (MaxRequestBytes (h_cfg h)) (slen (rq_Body r)));
      [lia|]. rewrite He. by destruct (_ && _)%bool. }
  unfold bind at 1. rewrite Hbytes. cbn [negb].
  unfold decode_and_produce.
  apply outcome_silent; [apply produced_frame|done|done|]. intros start w2.
  unfold bind at 1, with_registry. rewrite decode_plain_encoder, Hd by done. cbn [fst snd].
  eapply produced_frame; [| |
    apply (outcome_silent _ _ (produced records zero_produceMetadata));
      [apply produced_frame|keeps|keeps|]]; [done..|].
  intros _ w3. apply produce_and_respond_produced.
Qed.

Lemma handleTopicProduce_outcome r w : outcome r w (handleTopicProduce clock h r w).2.
Proof.
  apply (observed_request_frame (topic_produce clock h r) w (outcome r)).
  - intros. by eapply outcome_frame.
  - intros w0 w1 w2 E1 E2 [(Hp&Ho)|(rs&meta&Hs&d&res&Hp&Ho)].
    + left. split; [congruence|]. by rewrite <- E2.
    + right. exists rs, meta. split; [done|]. exists d, res. rewrite <- E1, <- E2. done.
  - intros. apply topic_produce_outcome.
Qed.

(** What the deferred calls report of a handler whose response satisfies [Q]. *)
Lemma observed_request_metrics (body : M observed) (Q : Z → list raction → Prop) w m :
  keeps w_core body → emits body (λ o acts, Q o.1.1 acts) →
  w_metrics w = Some m → in_i64 (outstandingRequests m) →
  let w' := (observed_request clock body w).2 in
  ∃ status bytes records acts m',
    w_out w' = w_out w ++ acts ∧ Q status acts ∧ w_metrics w' = Some m' ∧
    requests m' = incr (statusClass status) (requests m) ∧
    requestBytes m' = requestBytes m + bytes ∧
    recordsAccepted m' =
      recordsAccepted m + (if (0 <? records) && (status <? 400) then records else 0) ∧
    outstandingRequests m' = outstandingRequests m.
Proof.
  intros Hcore Hemits Hm Hr. unfold observed_request, bind.
  destruct (now clock w) as [start w1] eqn:E1.
  destruct (metric IncOutstanding w1) as [u w2] eqn:E2.
  destruct (Hemits w2) as (acts&Ho&Ha). specialize (Hcore w2).
  destruct (body w2) as [[[status bl] rc] w3]. cbn in Ho, Ha, Hcore.
  assert (w_out w2 = w_out w ∧ w_metrics w2 = Some (IncOutstanding m)) as [Ho2 Hm2].
  { injection E1 as <- <-. injection E2 as <- <-. cbn. by rewrite Hm. }
  unfold w_core in Hcore. rewrite Hm2 in Hcore. cbn in Hcore.
  destruct (w_metrics w3) as [m3|] eqn:Hm3; [|done]. injection Hcore as C1 C2 C3 C4.
  unfold metric_since. rewrite Hm3. cbn. rewrite Hm3. cbn.
  exists status, bl, rc, acts. eexists. split_and!.
  - by rewrite Ho, Ho2.
  - done.
  - done.
  - cbn. by rewrite C1.
  - cbn. by rewrite C3.
  - cbn. rewrite C2. destruct (_ && _)%bool; lia.
  - cbn. rewrite C4. apply (outstanding_roundtrip m Hr).
Qed.
End facts.

(** ** Properties *)

Section claims.
Context {P R : Type} `{Producer P} `{Codecs} `{Registry R} (clock : nat → Z) (h : Handler).

(** C1: nothing reaches Kafka unchecked, and every outcome is reported. A v2
request either is turned down with one complete 4xx response and leaves
the producer untouched, or it was a POST with acceptable headers and a body
within the size limit, to an allowed topic, whose body decodes to one to
[MaxRecords] records that are all for that topic and within every limit;
then the producer is asked exactly once with exactly those records, and the
single response is 200 with the results, or 504, 429 or 503 by the kind of
the producer's error. *)
Theorem topic_produce_gate (r : Request) (w : @World P R) :
  outcome h r w (handleTopicProduce clock h r w).2.
Proof. apply handleTopicProduce_outcome. Qed.

(** C20: the metrics agree with the response: every v2 request, whatever path
    it takes, produces exactly one status line and one body, is counted once
    under the class of that very status, adds its records to the accepted ones
    only below 400, and leaves the gauge of active requests as it found it. *)
Theorem topic_produce_metrics (r : Request) (w : @World P R) m :
  w_metrics w = Some m → in_i64 (outstandingRequests m) →
  let w' := (handleTopicProduce clock h r w).2 in
  ∃ status bytes records acts m',
    w_out w' = w_out w ++ acts ∧ answers status acts ∧ w_metrics w' = Some m' ∧
    requests m' = incr (statusClass status) (requests m) ∧
    requestBytes m' = requestBytes m + bytes ∧
    recordsAccepted m' =
      recordsAccepted m + (if (0 <? records) && (status <? 400) then records else 0) ∧
    outstandingRequests m' = outstandingRequests m.
Proof.
  apply observed_request_metrics; [apply topic_produce_core|apply topic_produce_answered].
Qed.
End claims.

(** ** A concrete instance

    A producer that appends every record to a list, and schema libraries that
    take any text as their own encoding. *)
Module Sample.
Definition producer : Producer (list PRecord) :=
  {| Produce _ rs p := (Ok ((λ _, zero_Result) <$> rs), p ++ rs);
     Ping p := (None, p) |}.

#[export] Instance producer_laws : ProducerLaws (H := producer) (list PRecord).
Proof. intros d rs p results p' [= <- _]. by rewrite length_fmap. Qed.

Definition codecs : Codecs := echo_codecs.

Definition cfg : APIConfig :=
  {| MaxRequestBytes := 0; cfg_MaxRecords := 0; cfg_MaxRecordBytes := 0; cfg_MaxKeyBytes := 0;
     cfg_MaxHeaders := 0; cfg_MaxHeaderBytes := 0; AllowedTopics := ["t*"];
     ProduceTimeout := 0; BearerTokens := [" secret "]; PprofEnable := false; ClusterID := "";
     RateLimitRequestsPerSecond := f64_zero; RateLimitRequestsBurst := 0;
     RateLimitBytesPerSecond := f64_zero; RateLimitBytesBurst := 0 |}.

Definition h : Handler := (NewHandlerWithSchema cfg None 0).1.1.

Definition world : @World (list PRecord) MemoryRegistry :=
  {| w_producer := []; w_registry := NewMemoryRegistry; requestRateLimiter := None;
     byteRateLimiter := None; w_metrics := Some zero_Metrics; w_tick := 0; w_out := [] |}.

Definition request (path body : string) : Request :=
  {| rq_Method := "POST"; rq_URL := {| Path := path; RawPath := "" |};
     rq_Header k := if String.eqb k "Authorization" then "Bearer secret" else "";
     rq_ContentLength := slen body; rq_Body := body; rq_body_err := None |}.

Definition produce_one : Request :=
  request "/topics/t1" (qt "{'records':[{'value':1}]}").
End Sample.

Lemma topic_produce_metrics_witness :
  let w' := (handleTopicProduce (H := Sample.producer) (H0 := Sample.codecs)
               (λ n, Z.of_nat n) Sample.h Sample.produce_one Sample.world).2 in
  ∃ status bytes records acts m',
    w_out w' = w_out Sample.world ++ acts ∧ answers status acts ∧ w_metrics w' = Some m' ∧
    requests m' = incr (statusClass status) (requests zero_Metrics) ∧
    requestBytes m' = requestBytes zero_Metrics + bytes ∧
    recordsAccepted m' = recordsAccepted zero_Metrics +
      (if (0 <? records) && (status <? 400) then records else 0) ∧
    outstandingRequests m' = outstandingRequests zero_Metrics.
Proof.
  apply topic_produce_metrics; [reflexivity|]. unfold in_i64. cbn. lia.
Defined.

(** The record reaches the producer and the response says so. *)
Example produce_one_ex :
  let w' := (handleTopicProduce (H := Sample.producer) (H0 := Sample.codecs)
               (λ n, Z.of_nat n) Sample.h Sample.produce_one Sample.world).2 in
  (w_producer w', w_out w') =
  ([Build_PRecord "t1" None (Some "1") [] None],
   [RSetHeader "Content-Type" mediaKafkaV2; RWriteHeader 200;
    RWrite (qt "{'offsets':[{'partition':0,'offset':0,'error_code':null,'error':null}],'key_schema_id':null,'value_schema_id':null}" +:+ nl)]).
Proof. vm_compute. reflexivity. Qed.
