(* ===== verification/HandlerSpecs.v ===== *)
(** * Paths, allowlist and authentication of internal/api/handler.go *)

From S2P Require Import Prelude.
From S2P Require Import GoStrings.
From S2P Require Import Strconv.
From S2P Require Import GoErrors.
From S2P Require Import Json.
From S2P Require Import Url.
From S2P Require Import Mime.
From S2P Require Import GoFloat.
From S2P Require Import Config.
From S2P Require Import RateLimit.
From S2P Require Import Metrics.
From S2P Require Import SchemaTypes.
From S2P Require Import SchemaRegistry.
From S2P Require Import SchemaEncoder.
From S2P Require Import Producer.
From S2P Require Import Media.
From S2P Require Import Types.
From S2P Require Import TypesFacts.
From S2P Require Import JsonText.
From S2P Require Import JsonFacts.
From S2P Require Import Handler.
From S2P Require Import HandlerFacts.
Local Open Scope Z_scope.

(** ** Paths *)

(** The request path of a topic and an optional partition. *)
Definition partition_suffix (p : option Z) : string :=
  match p with Some p => "/partitions/" +:+ Itoa p | None => "" end.
Definition topic_path (t : string) (p : option Z) : string :=
  "/topics/" +:+ PathEscape t +:+ partition_suffix p.

Lemma PathEscape_Itoa z : 0 <= z → PathEscape (Itoa z) = Itoa z.
Proof.
  intros Hz. apply PathEscape_plain. unfold Itoa. destruct (z <? 0) eqn:E; zbool; [lia|].
  destruct (Utoa_spec z Hz) as [(Ha&_) _]. revert Ha. apply all_bytes_impl.
  intros c Hc. apply negb_true_iff. unfold shouldEscape.
  assert (is_alnum c = true) as ->; [|done]. unfold is_alnum, is_digit in *. zbool.
  apply orb_true_iff. right. apply andb_true_iff. split; lia.
Qed.

Definition topic_segments (t : string) (p : option Z) : list string :=
  t :: match p with Some p => ["partitions"; Itoa p] | None => [] end.

Lemma topic_path_join t p : from_option (λ p, 0 <= p < 2 ^ 31) True p →
  topic_path t p = "/topics/" +:+ Join (PathEscape <$> topic_segments t p) "/".
Proof.
  intros Hp. destruct p as [z|]; simpl in Hp; unfold topic_path, topic_segments, partition_suffix;
    cbn [fmap list_fmap Join].
  - by rewrite PathEscape_Itoa by lia.
  - by rewrite app_nil_r_s.
Qed.

Lemma Itoa_nonempty z : 0 <= z → Itoa z ≠ "".
Proof.
  intros Hz. unfold Itoa. destruct (z <? 0) eqn:E; zbool; [lia|].
  by destruct (Utoa_spec z Hz) as [(_&Hn&_) _].
Qed.

(** The handler recovers the target of an escaped topic path. *)
Lemma topic_path_target (t : string) (p : option Z) :
  t ≠ "" → from_option (λ p, 0 <= p < 2 ^ 31) True p →
  ∃ u, setPath (topic_path t p) = Some u ∧
       produceTargetFromPath u = Some {| topic := t; partition := p |}.
Proof.
  intros Ht Hp. rewrite topic_path_join by done.
  destruct (escaped_path ("topics" :: topic_segments t p)) as (u&Hu&He&_); [done|].
  change (PathEscape <$> "topics" :: topic_segments t p)
    with ("topics" :: (PathEscape <$> topic_segments t p)) in *.
  exists u. split; [exact Hu|]. apply String.eqb_neq in Ht.
  unfold produceTargetFromPath. rewrite He.
  change ("/" +:+ Join ("topics" :: (PathEscape <$> topic_segments t p)) "/")
    with ("/topics/" +:+ Join (PathEscape <$> topic_segments t p) "/").
  rewrite HasPrefix_app, TrimPrefix_app, Split_Join by done. cbn [negb orb].
  destruct (Nat.eqb_spec (String.length ("/topics/" +:+ Join (PathEscape <$> topic_segments t p) "/"))
    (String.length "/topics/")) as [E|_].
  { rewrite length_app_s in E. destruct t as [|c t]; [done|]. cbn in E. unfold PathEscape in E.
    cbn [escape] in E. destruct p, (shouldEscape c encodePathSegment); simpl in E; lia. }
  destruct p as [z|]; cbn [topic_segments fmap list_fmap]; simpl in Hp;
    unfold PathUnescape, PathEscape at 1; rewrite unescape_escape, Ht; [|done].
  rewrite PathEscape_Itoa, (proj2 (String.eqb_neq _ _) (Itoa_nonempty z ltac:(lia))) by lia.
  cbn. rewrite ParseInt_Itoa by lia. by destruct (Z.ltb_spec z 0); [lia|].
Qed.

(** C33: the produce path is a faithful name of its target: for every topic,
    whatever bytes it is made of, and every partition from 0 to 2^31 - 1, the
    escaped path parses and the handler recovers exactly that topic and
    partition. *)
Theorem produce_path_roundtrip (t : string) (p : option Z) :
  t ≠ "" → from_option (λ p, 0 <= p < 2 ^ 31) True p →
  ∃ u, setPath (topic_path t p) = Some u ∧
       produceTargetFromPath u = Some {| topic := t; partition := p |}.
Proof. apply topic_path_target. Qed.

Lemma produce_path_roundtrip_witness :
  ∃ u, setPath (topic_path "a/b %é" (Some 7)) = Some u ∧
       produceTargetFromPath u = Some {| topic := "a/b %é"; partition := Some 7 |}.
Proof. apply produce_path_roundtrip; [done|simpl; lia]. Defined.

(** ** The topic allowlist *)

Lemma elem_of_topic_prefixes topics p :
  p ∈ topic_prefixes topics ↔ p ≠ "" ∧ p +:+ "*" ∈ allow_entries topics.
Proof.
  unfold topic_prefixes. rewrite list_elem_of_filter, list_elem_of_fmap. f_equiv. split.
  - intros (e&->&He). apply list_elem_of_filter in He as [Hs He].
    apply HasSuffix_iff in Hs as [t ->]. by rewrite TrimSuffix_app.
  - intros He. exists (p +:+ "*"). rewrite TrimSuffix_app. split; [done|].
    apply list_elem_of_filter. split; [apply HasSuffix_iff; eauto|done].
Qed.

Lemma elem_of_topic_set topics t :
  t ∈ topic_set topics ↔ HasSuffix t "*" = false ∧ t ∈ allow_entries topics.
Proof. unfold topic_set. by rewrite elem_of_list_to_set, list_elem_of_filter. Qed.

(** The entries that select topics: any but a lone star. *)
Definition effective (topics : list string) : list string :=
  filter (λ e, e ≠ "*") (allow_entries topics).

(** An entry selects its own name, or every topic with its prefix. *)
Definition selects (e t : string) : Prop :=
  match decide (HasSuffix e "*" = true) with
  | left _ => HasPrefix t (TrimSuffix e "*") = true
  | right _ => t = e
  end.

Lemma elem_of_effective topics e :
  e ∈ effective topics ↔
  if HasSuffix e "*" then TrimSuffix e "*" ∈ topic_prefixes topics else e ∈ topic_set topics.
Proof.
  unfold effective. rewrite list_elem_of_filter. destruct (HasSuffix e "*") eqn:E.
  - apply HasSuffix_iff in E as [p ->]. rewrite TrimSuffix_app, elem_of_topic_prefixes.
    split; intros [Hp Hin]; (split; [|done]); intros Hn; apply Hp.
    + by subst p.
    + by destruct p as [|? [|]].
  - rewrite elem_of_topic_set. split; [by intros [_ ?]|]. intros [_ ?]. split; [|done].
    by intros ->.
Qed.

Lemma elem_of_prefix_entry topics p :
  p ∈ topic_prefixes topics ↔ p +:+ "*" ∈ effective topics.
Proof.
  rewrite elem_of_effective, (proj2 (HasSuffix_iff (p +:+ "*") "*")), TrimSuffix_app by eauto.
  done.
Qed.

Lemma effective_nil topics :
  effective topics = [] ↔ topic_set topics = ∅ ∧ topic_prefixes topics = [].
Proof.
  split.
  - intros He. split.
    + apply set_eq. intros t. split; [|set_solver]. intros Ht. exfalso.
      assert (t ∈ effective topics) as Hin.
      { apply elem_of_effective. by rewrite (proj1 (proj1 (elem_of_topic_set _ _) Ht)). }
      rewrite He in Hin. by apply elem_of_nil in Hin.
    + apply elem_of_nil_inv. intros p Hp%elem_of_prefix_entry. rewrite He in Hp.
      by apply elem_of_nil in Hp.
  - intros [Hs Hps]. apply elem_of_nil_inv. intros e He%elem_of_effective.
    rewrite Hs, Hps in He. destruct (HasSuffix e "*"); set_solver.
Qed.

(** C19: the topic allowlist does what it is configured to do: without an
    effective entry every topic is allowed; otherwise a topic is allowed exactly
    when some entry is its name or, with a trailing star, a prefix of its name. *)
Theorem topic_allowlist (cfg : APIConfig) enc now (t : string) :
  topicAllowed (NewHandlerWithSchema cfg enc now).1.1 t = true ↔
  effective (AllowedTopics cfg) = [] ∨ ∃ e, e ∈ effective (AllowedTopics cfg) ∧ selects e t.
Proof.
  unfold topicAllowed, NewHandlerWithSchema.
  cbn -[topic_set topic_prefixes]. set (l := AllowedTopics cfg).
  assert ((∃ e, e ∈ effective l ∧ selects e t) ↔
    t ∈ topic_set l ∨ ∃ p, p ∈ topic_prefixes l ∧ HasPrefix t p = true) as ->.
  { unfold selects. split.
    - intros (e&He%elem_of_effective&Hs). destruct (decide _) as [E|E].
      + rewrite E in He. eauto.
      + apply not_true_is_false in E. rewrite E in He. subst e. auto.
    - intros [Ht|(p&Hp&Ht)].
      + pose proof (proj1 (proj1 (elem_of_topic_set _ _) Ht)) as E. exists t.
        rewrite elem_of_effective, E. split; [done|]. by destruct (decide _); [congruence|].
      + exists (p +:+ "*"). rewrite <- elem_of_prefix_entry, TrimSuffix_app. split; [done|].
        destruct (decide _) as [|E]; [done|]. exfalso. apply E, HasSuffix_iff. eauto. }
  rewrite effective_nil. destruct (_ && _)%bool eqn:E.
  - split; [|done]. intros _. left. zbool. apply Nat.eqb_eq in H, H0.
    apply size_empty_inv in H. apply nil_length_inv in H0. set_solver.
  - assert (¬ (topic_set l = ∅ ∧ topic_prefixes l = [])) as Hn.
    { intros [H1 H2]. by rewrite H1, H2, size_empty in E. }
    destruct (bool_decide (t ∈ topic_set l)) eqn:Eb; zbool; [tauto|].
    rewrite existsb_exists. setoid_rewrite <- list_elem_of_In. tauto.
Qed.

(** ** Authentication *)

Section auth.
Context {P R : Type} `{Producer P} (cfg : APIConfig) (enc : option Encoder) (t0 : Z).
Let h := (NewHandlerWithSchema cfg enc t0).1.1.

(** The request carries the token in its Authorization header. *)
Definition presents (r : Request) (token : string) : Prop :=
  ∃ rest, TrimSpace (rq_Header r "Authorization") = "Bearer " +:+ rest ∧
          token = TrimSpace rest.

(** It presents one of the configured tokens. *)
Definition authorized (r : Request) : Prop :=
  ∃ token c, presents r token ∧ token ≠ "" ∧ c ∈ BearerTokens cfg ∧ token = TrimSpace c.

Lemma elem_of_token_set token :
  token ∈ token_set (BearerTokens cfg) ↔
  token ≠ "" ∧ ∃ c, c ∈ BearerTokens cfg ∧ token = TrimSpace c.
Proof.
  unfold token_set. rewrite elem_of_list_to_set, list_elem_of_filter, list_elem_of_fmap.
  split; intros [? (c&?&?)]; eauto 6.
Qed.

(** A request that is not for a health check: it is passed on exactly when a
    configured token is presented. *)
Lemma auth_decides (next : Request → M unit) (r : Request) (w : @World P R) :
  token_set (BearerTokens cfg) ≠ ∅ →
  Path (rq_URL r) ≠ "/healthz" → Path (rq_URL r) ≠ "/readyz" →
  authorized r ∧ authMiddleware h next r w = next r w ∨
  ¬ authorized r ∧
    ∃ message, authMiddleware h next r w =
               writeAPIError 401 errorCodeUnauthorized message w.
Proof.
  unfold authorized. intros Hne Hh Hr. unfold authMiddleware. change (h_tokens h) with (token_set (BearerTokens cfg)).
  destruct (Nat.eqb_spec (size (token_set (BearerTokens cfg))) 0) as [E|_].
  { exfalso. apply size_empty_inv in E. set_solver. }
  apply String.eqb_neq in Hh, Hr. rewrite Hh, Hr. cbn [orb].
  destruct (HasPrefix _ _) eqn:Hp; cbn [negb].
  - apply HasPrefix_iff in Hp as [rest Hrest]. rewrite Hrest, TrimPrefix_app.
    assert (∀ token, presents r token ↔ token = TrimSpace rest) as Hpr.
    { intros token. split.
      - intros (rest'&Hr'&->). f_equal. rewrite Hrest in Hr'.
        apply (f_equal (sdrop (String.length "Bearer "))) in Hr'.
        by rewrite !sdrop_app in Hr'.
      - intros ->. by exists rest. }
    destruct (bool_decide _) eqn:Eb; zbool; rewrite elem_of_token_set in Eb; cbn [negb];
      [left|right].
    + split; [|done]. destruct Eb as (Hn&c&Hc&Hx). exists (TrimSpace rest), c. by rewrite Hpr.
    + split; [|by eexists]. intros (token&c&->%Hpr&Hn&Hc&Hx). apply Eb. eauto.
  - right. split; [|by eexists]. intros (token&c&(rest&Hrest&_)&_).
    rewrite Hrest, HasPrefix_app in Hp. done.
Qed.

(** Authentication gates everything but the health checks: once a
    non-blank token is configured, a request for any other path reaches the
    next handler exactly when it presents, as a bearer token, one of the
    configured tokens; otherwise a 401 response is all that happens. *)
Lemma auth_gate (next : Request → M unit) (r : Request) (w : @World P R) :
  token_set (BearerTokens cfg) ≠ ∅ →
  Path (rq_URL r) ≠ "/healthz" → Path (rq_URL r) ≠ "/readyz" →
  authorized r ∧ authMiddleware h next r w = next r w ∨
  ¬ authorized r ∧
    ∃ message, authMiddleware h next r w =
               writeAPIError 401 errorCodeUnauthorized message w.
Proof. apply auth_decides. Qed.
End auth.

Lemma auth_gate_witness :
  let next := handleTopicProduce (H := Sample.producer) (H0 := Sample.codecs)
                (λ n, Z.of_nat n) Sample.h in
  let r := Sample.produce_one in
  authorized Sample.cfg r ∧ authMiddleware Sample.h next r Sample.world = next r Sample.world ∨
  ¬ authorized Sample.cfg r ∧
    ∃ message, authMiddleware Sample.h next r Sample.world =
               writeAPIError 401 errorCodeUnauthorized message Sample.world.
Proof.
  cbv zeta. apply (auth_gate Sample.cfg None 0); [|done|done].
  intros E. assert ("secret" ∈ token_set (BearerTokens Sample.cfg)) as H.
  { by vm_compute. }
  rewrite E in H. set_solver.
Defined.
