(* ===== verification/JsonStream.v ===== *)
(** * Go's [json.Decoder] on a body that arrives in pieces

    The reader is the one of the v3 record stream: the request body under
    [http.MaxBytesReader], counted by the program's [countingReader].  The
    [k]-th read returns at least one byte, as many as the network and the buffer
    of the decoder allow: that size is an arbitrary function of [k]. *)

From S2P Require Import Prelude.
From S2P Require Import GoStrings.
From S2P Require Import GoErrors.
From S2P Require Import Json.
Local Open Scope Z_scope.

(** [countingReader]: the bytes still to come, the error that follows them,
    the number of reads so far, and [n]. *)
Record reader := { src_left : string; src_end : error; src_reads : nat; src_n : Z }.

(** [json.Decoder]: the bytes read and not yet consumed, the saved error. *)
Record decoder := { dec_buf : string; dec_err : option error; dec_src : reader }.

Definition NewDecoder (r : reader) : decoder :=
  {| dec_buf := ""; dec_err := None; dec_src := r |}.

Section stream.
Context (chunk : nat → nat).

(** [countingReader.Read]. *)
Definition Read (r : reader) : string * option error * reader :=
  match src_left r with
  | EmptyString =>
      ("", Some (src_end r),
       {| src_left := ""; src_end := src_end r; src_reads := S (src_reads r);
          src_n := src_n r |})
  | s =>
      let p := stake (Nat.max 1 (chunk (src_reads r))) s in
      (p, None,
       {| src_left := sdrop (Nat.max 1 (chunk (src_reads r))) s; src_end := src_end r;
          src_reads := S (src_reads r); src_n := src_n r + slen p |})
  end.

(** What the scanner knows of the first value of a buffer: objects and arrays
    end with their last byte, other values with the byte that follows them. *)
Inductive scanned :=
  | Complete (j : json) (rest : string)
  | Malformed (msg : string)
  | Unfinished (scalar : option json).   (* a scalar that may end here *)

Definition container (j : json) : bool :=
  match jval j with JArray _ | JObject _ => true | _ => false end.

Definition scan_buffer (s : string) : scanned :=
  if String.eqb (skip_space s) "" then Unfinished None
  else match parse_value (json_fuel s) 0 s with
       | POk j rest =>
           if container j || negb (String.eqb rest "") then Complete j rest
           else Unfinished (Some j)
       | PErr msg => if String.eqb msg eof_msg then Unfinished None else Malformed msg
       | PFuel => Malformed "out of fuel"
       end.

Definition unexpectedEOF : error := ENew "unexpected EOF".

(** The end of the input, in a buffer that holds no complete value. *)
Definition at_end (buf : string) (scalar : option json) (err : error) : res json :=
  if errors_Is err ioEOF then
    match scalar with
    | Some j => Ok j
    | None => if String.eqb (skip_space buf) "" then Err err else Err unexpectedEOF
    end
  else Err err.

(** [Decoder.readValue]. *)
Fixpoint readValue (fuel : nat) (d : decoder) : res json * decoder :=
  match fuel with
  | O => (Err (ENew "out of fuel"), d)
  | S fuel =>
      match scan_buffer (dec_buf d) with
      | Complete j rest =>
          (Ok j, {| dec_buf := rest; dec_err := None; dec_src := dec_src d |})
      | Malformed msg =>
          (Err (ESyntax msg),
           {| dec_buf := dec_buf d; dec_err := Some (ESyntax msg); dec_src := dec_src d |})
      | Unfinished scalar =>
          let '(p, err, src) := Read (dec_src d) in
          match err with
          | None =>
              readValue fuel {| dec_buf := dec_buf d +:+ p; dec_err := None; dec_src := src |}
          | Some err =>
              match at_end (dec_buf d) scalar err with
              | Ok j => (Ok j, {| dec_buf := ""; dec_err := None; dec_src := src |})
              | Err err =>
                  (Err err, {| dec_buf := dec_buf d; dec_err := Some err; dec_src := src |})
              end
          end
      end
  end.

(** Every read but the last takes a byte. *)
Definition read_fuel (d : decoder) : nat := S (S (String.length (src_left (dec_src d)))).

(** [Decoder.Decode(&x)] with [x] initially [zero]. *)
Definition stream_Decode {A} (decode : A → json → dec A) (zero : A) (d : decoder)
  : res A * decoder :=
  match dec_err d with
  | Some err => (Err err, d)
  | None =>
      match readValue (read_fuel d) d with
      | (Err err, d) => (Err err, d)
      | (Ok j, d) =>
          (match decode zero j None with
           | (inl e, _) => Err e
           | (inr a, None) => Ok a
           | (inr _, Some e) => Err e
           end, d)
      end
  end.
End stream.
