(* ===== verification/JsonStreamFacts.v ===== *)
(** * The pieces a body arrives in do not matter

    The verdict of the scanner on a buffer is final: more input cannot change
    it.  Hence a [json.Decoder] reads the same values from a body however the
    network splits it. *)

From S2P Require Import Prelude.
From S2P Require Import GoStrings.
From S2P Require Import Strconv.
From S2P Require Import GoErrors.
From S2P Require Import Json.
From S2P Require Import JsonFacts.
From S2P Require Import JsonStream.
Local Open Scope Z_scope.

(** ** Final verdicts *)

(** [r'], the scan of a text with [t] appended, repeats the verdict [r] on the
    text itself, unless that one ran to the end of the text. *)
Definition extends {A} (closed : A → bool) (t : string) (r r' : pres A) : Prop :=
  match r with
  | POk a rest => rest ≠ "" ∨ closed a = true → r' = POk a (rest +:+ t)
  | PErr msg => msg ≠ eof_msg → r' = PErr msg
  | PFuel => True
  end.

Lemma skip_space_app c s s' t :
  skip_space s = String c s' → skip_space (s +:+ t) = String c (s' +:+ t).
Proof.
  induction s as [|d s IH]; [done|]. rewrite app_cons. cbn [skip_space].
  destruct (is_space d); [done|]. by intros [= -> ->].
Qed.

Lemma scan_string_ext st s t : extends (λ _, true) t (scan_string st s) (scan_string st (s +:+ t)).
Proof.
  revert st. induction s as [|c s IH]; intros st; [by simpl|]. rewrite app_cons.
  assert (∀ st, extends (λ _, true) t
    match scan_string st s with POk tok rest => POk (String c tok) rest | r => r end
    match scan_string st (s +:+ t) with POk tok rest => POk (String c tok) rest | r => r end) as Hn.
  { intros st'. specialize (IH st'). destruct (scan_string st' s); simpl in *.
    - rewrite IH by auto. auto.
    - intros Hm. by rewrite IH.
    - done. }
  rewrite !scan_string_cons. destruct st; repeat split_if; try apply Hn; simpl; auto.
Qed.

Lemma scan_digits_app_rest s d rest t :
  scan_digits s = (d, rest) → rest ≠ "" → scan_digits (s +:+ t) = (d, rest +:+ t).
Proof.
  revert d. induction s as [|c s IH]; intros d; [by intros [= <- <-]|]. rewrite app_cons.
  cbn [scan_digits]. destruct (is_digit c); [|by intros [= <- <-]].
  destruct (scan_digits s) as [d' r']. intros [= <- <-] Hr. by rewrite (IH d').
Qed.

Lemma need_digits_ext ctx s t : extends (λ _, false) t (need_digits ctx s) (need_digits ctx (s +:+ t)).
Proof.
  destruct s as [|c s]; [by simpl|]. unfold need_digits. rewrite app_cons.
  destruct (is_digit c) eqn:E; [|by simpl].
  destruct (scan_digits (String c s)) as [d rest] eqn:Ed. intros [Hr|]; [|done].
  pose proof (scan_digits_app_rest _ _ _ t Ed Hr) as H. rewrite app_cons in H. by rewrite H.
Qed.

(** A scan followed by a change of its token. *)
Lemma extends_map {A B} (cl : A → bool) (cl' : B → bool) t r r' (f : A → B) :
  extends cl t r r' → (∀ a, cl' (f a) = true → cl a = true) →
  extends cl' t match r with POk a rest => POk (f a) rest | PErr m => PErr m | PFuel => PFuel end
    match r' with POk a rest => POk (f a) rest | PErr m => PErr m | PFuel => PFuel end.
Proof.
  intros Hr Hc. destruct r as [a rest|m|]; simpl in *; [|by intros Hm; rewrite Hr|done].
  intros H. rewrite Hr; [done|]. destruct H; auto.
Qed.

Lemma scan_exp_ext s t : s ≠ "" → extends (λ _, false) t (scan_exp s) (scan_exp (s +:+ t)).
Proof.
  destruct s as [|c s]; [done|]. intros _. rewrite app_cons. unfold scan_exp.
  destruct (_ || _); [|simpl; by rewrite app_cons].
  assert (∀ sign u, extends (λ _, false) t
    match need_digits "in exponent of numeric literal" u with
    | POk d rest => POk (String c (sign +:+ d)) rest | PErr m => PErr m | PFuel => PFuel end
    match need_digits "in exponent of numeric literal" (u +:+ t) with
    | POk d rest => POk (String c (sign +:+ d)) rest | PErr m => PErr m | PFuel => PFuel end) as H.
  { intros sign u. by apply (extends_map (λ _, false)); [apply need_digits_ext|]. }
  destruct s as [|g s]; [by simpl|]. rewrite app_cons. destruct (_ || _); apply H.
Qed.

Lemma scan_frac_ext s t : s ≠ "" → extends (λ _, false) t (scan_frac s) (scan_frac (s +:+ t)).
Proof.
  destruct s as [|c s]; [done|]. intros _. rewrite app_cons. unfold scan_frac.
  destruct (Ascii.eqb c "."); [|by apply (scan_exp_ext (String c s))].
  pose proof (need_digits_ext "after decimal point in numeric literal" s t) as Hd.
  destruct (need_digits _ s) as [d rest|m|]; simpl in Hd; [|intros Hm; by rewrite Hd|done].
  destruct rest as [|r rest].
  { cbn. by intros [?|?]. }
  rewrite Hd by auto.
  apply (extends_map (λ _, false) _ t _ _ (λ e, String c (d +:+ e))); [by apply scan_exp_ext|done].
Qed.

Lemma scan_number_ext s t : extends (λ _, false) t (scan_number s) (scan_number (s +:+ t)).
Proof.
  destruct s as [|c s]; [by simpl|]. rewrite app_cons. unfold scan_number.
  destruct (Ascii.eqb c "0").
  { destruct s as [|d s]; [by intros [?|?]|].
    apply (extends_map (λ _, false) _ t _ _ (λ f, String c f)); [by apply scan_frac_ext|done]. }
  destruct (is_digit c) eqn:E; [|by simpl].
  destruct (scan_digits (String c s)) as [d rest] eqn:Ed.
  destruct rest as [|r rest]; [by intros [?|?]|].
  pose proof (scan_digits_app_rest _ _ _ t Ed ltac:(done)) as H. rewrite app_cons in H. rewrite H.
  apply (extends_map (λ _, false) _ t _ _ (λ f, d +:+ f)); [by apply scan_frac_ext|done].
Qed.

Lemma scan_literal_ext name expect s t :
  extends (λ _, true) t (scan_literal name expect s) (scan_literal name expect (s +:+ t)).
Proof.
  revert s. induction expect as [|e expect IH]; intros s; [by simpl|].
  destruct s as [|c s]; [by simpl|]. rewrite app_cons. unfold scan_literal; fold scan_literal.
  destruct (Ascii.eqb c e); [apply IH|by simpl].
Qed.

Lemma node_extends s rest t v :
  node (s +:+ t) (rest +:+ t) v = node s rest v.
Proof.
  unfold node. f_equal. rewrite !length_app_s.
  replace (_ + _ - _)%nat with (String.length s - String.length rest)%nat by lia.
  assert (∀ n, (n <= String.length s)%nat → stake n (s +:+ t) = stake n s) as H; [|apply H; lia].
  clear. induction s as [|c s IH]; intros n Hn; simpl in Hn.
  - by replace n with 0%nat by lia; destruct t.
  - destruct n as [|n]; [done|]. rewrite app_cons. simpl. rewrite IH; [done|lia].
Qed.

(** A scan that decides the value of a node. *)
Lemma extends_node {A} (cl : A → bool) s t r r' (v : A → jvalue) :
  extends cl t r r' → (∀ a, container (Json "" (v a)) = true → cl a = true) →
  extends container t
    match r with POk a rest => POk (node s rest (v a)) rest | PErr m => PErr m | PFuel => PFuel end
    match r' with
    | POk a rest => POk (node (s +:+ t) rest (v a)) rest | PErr m => PErr m | PFuel => PFuel
    end.
Proof.
  intros Hr Hc. destruct r as [a rest|m|]; simpl in *; [|by intros Hm; rewrite Hr|done].
  intros H. rewrite Hr; [by rewrite node_extends|].
  destruct H as [|H]; [auto|]. right. apply Hc, H.
Qed.

Section step.
Context (fuel fuel' : nat).
Context (IHv : ∀ d s t, extends container t (parse_value fuel d s) (parse_value fuel' d (s +:+ t))).
Context (IHm : ∀ d s t,
  extends (λ _, true) t (parse_members fuel d s) (parse_members fuel' d (s +:+ t))).
Context (IHe : ∀ d s t,
  extends (λ _, true) t (parse_elements fuel d s) (parse_elements fuel' d (s +:+ t))).

Lemma parse_value_ext d s t :
  extends container t (parse_value (S fuel) d s) (parse_value (S fuel') d (s +:+ t)).
Proof.
  cbn [parse_value]. destruct (skip_space s) as [|c s'] eqn:Es; [by simpl|].
  rewrite (skip_space_app _ _ _ t Es). rewrite <- !app_cons.
  assert (∀ close (empty : jvalue),
    extends container t
      match skip_space s' with
      | EmptyString => PErr eof_msg
      | String c1 s1 => if Ascii.eqb c1 close then POk (node (String c s') s1 empty) s1 else PFuel
      end
      match skip_space (s' +:+ t) with
      | EmptyString => PErr eof_msg
      | String c1 s1 =>
          if Ascii.eqb c1 close then POk (node (String c s' +:+ t) s1 empty) s1 else PFuel
      end) as Hempty.
  { intros close empty. destruct (skip_space s') as [|c1 s1] eqn:E1; [by simpl|].
    rewrite (skip_space_app _ _ _ t E1). destruct (Ascii.eqb c1 close); [|by simpl].
    simpl. by rewrite node_extends. }
  destruct (Ascii.eqb c "{").
  { destruct (max_depth <=? d); [by simpl|]. specialize (Hempty "}"%char (JObject [])).
    destruct (skip_space s') as [|c1 s1] eqn:E1; [by simpl|].
    rewrite (skip_space_app _ _ _ t E1) in *. destruct (Ascii.eqb c1 "}"); [done|].
    by apply (extends_node (λ _, true)). }
  destruct (Ascii.eqb c "[").
  { destruct (max_depth <=? d); [by simpl|]. specialize (Hempty "]"%char (JArray [])).
    destruct (skip_space s') as [|c1 s1] eqn:E1; [by simpl|].
    rewrite (skip_space_app _ _ _ t E1) in *. destruct (Ascii.eqb c1 "]"); [done|].
    by apply (extends_node (λ _, true)). }
  repeat split_if; try (apply (extends_node (λ _, true)); [apply scan_string_ext || apply scan_literal_ext|done]);
    try (apply (extends_node (λ _, false)); [apply scan_number_ext|done]).
  by simpl.
Qed.

Lemma parse_elements_ext d s t :
  extends (λ _, true) t (parse_elements (S fuel) d s) (parse_elements (S fuel') d (s +:+ t)).
Proof.
  cbn [parse_elements]. specialize (IHv d s t).
  destruct (parse_value fuel d s) as [v s1|m|]; [|intros Hm; by rewrite IHv|done].
  destruct (skip_space s1) as [|c s2] eqn:Es; [by simpl|].
  cbn [extends] in IHv. rewrite IHv by (left; by intros ->). rewrite (skip_space_app _ _ _ t Es).
  destruct (Ascii.eqb c ","); [|destruct (Ascii.eqb c "]"); by simpl].
  by apply (extends_map (λ _, true)).
Qed.

Lemma parse_members_ext d s t :
  extends (λ _, true) t (parse_members (S fuel) d s) (parse_members (S fuel') d (s +:+ t)).
Proof.
  cbn [parse_members]. destruct (skip_space s) as [|c s1] eqn:Es; [by simpl|].
  rewrite (skip_space_app _ _ _ t Es). destruct (Ascii.eqb c dq); [|by simpl].
  pose proof (scan_string_ext InStr s1 t) as Hk.
  destruct (scan_string InStr s1) as [key s2|m|]; [|intros Hm; by rewrite Hk|done].
  cbn [extends] in Hk. rewrite Hk by auto.
  destruct (skip_space s2) as [|c2 s3] eqn:E2; [by simpl|].
  rewrite (skip_space_app _ _ _ t E2). destruct (Ascii.eqb c2 ":"); [|by simpl].
  specialize (IHv d s3 t).
  destruct (parse_value fuel d s3) as [v s4|m|]; [|intros Hm; by rewrite IHv|done].
  destruct (skip_space s4) as [|c4 s5] eqn:E4; [by simpl|].
  cbn [extends] in IHv. rewrite IHv by (left; by intros ->). rewrite (skip_space_app _ _ _ t E4).
  destruct (Ascii.eqb c4 ","); [|destruct (Ascii.eqb c4 "}"); by simpl].
  by apply (extends_map (λ _, true)).
Qed.
End step.

Lemma parse_ext fuel fuel' : (fuel <= fuel')%nat →
  (∀ d s t, extends container t (parse_value fuel d s) (parse_value fuel' d (s +:+ t))) ∧
  (∀ d s t, extends (λ _, true) t (parse_members fuel d s) (parse_members fuel' d (s +:+ t))) ∧
  (∀ d s t, extends (λ _, true) t (parse_elements fuel d s) (parse_elements fuel' d (s +:+ t))).
Proof.
  revert fuel'. induction fuel as [|fuel IH]; intros fuel' Hf; [done|].
  destruct fuel' as [|fuel']; [lia|]. destruct (IH fuel' ltac:(lia)) as (IHv&IHm&IHe).
  split_and!; intros.
  - by apply parse_value_ext.
  - by apply parse_members_ext.
  - by apply parse_elements_ext.
Qed.

Lemma json_fuel_app s t : (json_fuel s <= json_fuel (s +:+ t))%nat.
Proof. unfold json_fuel. rewrite length_app_s. lia. Qed.

(** A verdict on a buffer survives more input. *)
Lemma scan_buffer_app s t :
  match scan_buffer s with
  | Complete j rest => scan_buffer (s +:+ t) = Complete j (rest +:+ t)
  | Malformed msg => scan_buffer (s +:+ t) = Malformed msg
  | Unfinished _ => True
  end.
Proof.
  unfold scan_buffer. destruct (skip_space s) as [|c s'] eqn:Es; [done|].
  rewrite (skip_space_app _ _ _ t Es). cbn [String.eqb].
  pose proof (proj1 (parse_ext _ _ (json_fuel_app s t)) 0 s t) as H.
  pose proof (json_parse_terminates s) as Hf.
  destruct (parse_value (json_fuel s) 0 s) as [j rest|m|] eqn:E; [| |done].
  - destruct (container j || negb (String.eqb rest "")) eqn:Ec; [|done].
    rewrite H; [|destruct (container j); [by right|left; by intros ->]].
    destruct (container j) eqn:Ecj; [done|]. destruct rest; [by cbn in Ec|done].
  - destruct (String.eqb m eof_msg) eqn:Em; [done|]. apply String.eqb_neq in Em.
    rewrite (H Em). by rewrite (proj2 (String.eqb_neq _ _) Em).
Qed.

(** ** Reading a value, whatever the pieces *)

(** The bytes a decoder has still to consume, and what it should read from
    them: the value and the bytes after it. *)
Definition pending (d : decoder) : string := dec_buf d +:+ src_left (dec_src d).

Definition whole_value (s : string) (err : error) : res (json * string) :=
  match scan_buffer s with
  | Complete j rest => Ok (j, rest)
  | Malformed msg => Err (ESyntax msg)
  | Unfinished scalar => let? j := at_end s scalar err in Ok (j, "")
  end.

Definition reads_whole (d : decoder) (r : res json * decoder) : Prop :=
  src_end (dec_src r.2) = src_end (dec_src d) ∧
  match whole_value (pending d) (src_end (dec_src d)) with
  | Ok (j, rest) => r.1 = Ok j ∧ pending r.2 = rest ∧ dec_err r.2 = None
  | Err e => r.1 = Err e ∧ dec_err r.2 = Some e
  end.

Lemma stake_sdrop n s : stake n s +:+ sdrop n s = s.
Proof.
  revert n. induction s as [|c s IH]; intros n; [by destruct n|].
  destruct n as [|n]; [done|]. cbn [stake sdrop]. by rewrite app_cons, IH.
Qed.

Lemma sdrop_length n s : String.length (sdrop n s) = (String.length s - n)%nat.
Proof.
  revert n. induction s as [|c s IH]; intros n; [by destruct n|]. destruct n; [done|]. apply IH.
Qed.

Section stream.
Context (chunk : nat → nat).

Lemma readValue_whole fuel d :
  (S (String.length (src_left (dec_src d))) < fuel)%nat → reads_whole d (readValue chunk fuel d).
Proof.
  revert d. induction fuel as [|fuel IH]; intros d Hf; [lia|]. cbn [readValue].
  unfold reads_whole, whole_value, pending.
  pose proof (scan_buffer_app (dec_buf d) (src_left (dec_src d))) as Ha.
  destruct (scan_buffer (dec_buf d)) as [j rest|msg|scalar] eqn:Es.
  - rewrite Ha. done.
  - rewrite Ha. done.
  - unfold Read. destruct (src_left (dec_src d)) as [|c s] eqn:El.
    + rewrite app_nil_r_s, Es. destruct (at_end _ _ _); done.
    + set (n := Nat.max 1 (chunk (src_reads (dec_src d)))).
      match goal with |- context [readValue chunk fuel ?d'] => pose proof (IH d') as IH' end.
      unfold reads_whole, whole_value, pending in IH'. cbn [dec_buf dec_src src_left src_end] in IH'.
      rewrite app_assoc_s, stake_sdrop in IH'. apply IH'.
      rewrite sdrop_length. simpl in *. lia.
Qed.
End stream.

Lemma whole_value_consumes s err j rest :
  whole_value s err = Ok (j, rest) → (String.length rest < String.length s)%nat.
Proof.
  unfold whole_value, scan_buffer. destruct (skip_space s) as [|c s'] eqn:Es; cbn [String.eqb].
  { unfold at_end. destruct (errors_Is err ioEOF); [|done]. destruct (String.eqb _ ""); done. }
  assert (0 < String.length s)%nat as Hs by (destruct s; [done|simpl; lia]).
  pose proof (proj1 (parse_consumes (json_fuel s)) 0 s) as Hc. unfold json_fuel in *.
  specialize (Hc ltac:(lia)). destruct (parse_value _ 0 s) as [j' rest'|m|]; [| |done].
  - cbn in Hc. destruct (container j' || negb (String.eqb rest' "")).
    + intros [= <- <-]. done.
    + unfold at_end. destruct (errors_Is err ioEOF); [|done]. intros [= <- <-]. done.
  - destruct (String.eqb m eof_msg); [|done]. unfold at_end.
    destruct (errors_Is err ioEOF); [|done]. destruct (String.eqb _ ""); done.
Qed.

Lemma stream_Decode_whole {A} chunk (decode : A → json → dec A) (zero : A) (d : decoder) :
  dec_err d = None →
  let r := stream_Decode chunk decode zero d in
  src_end (dec_src r.2) = src_end (dec_src d) ∧
  match whole_value (pending d) (src_end (dec_src d)) with
  | Ok (j, rest) =>
      r.1 = match decode zero j None with
            | (inl e, _) => Err e
            | (inr a, None) => Ok a
            | (inr _, Some e) => Err e
            end ∧ pending r.2 = rest ∧ dec_err r.2 = None
  | Err e => r.1 = Err e ∧ dec_err r.2 = Some e
  end.
Proof.
  intros Hd. unfold stream_Decode. rewrite Hd.
  pose proof (readValue_whole chunk (read_fuel d) d) as H.
  unfold read_fuel in *. specialize (H ltac:(lia)). unfold reads_whole in H.
  destruct (readValue _ _ _) as [r d']. cbn in H. destruct H as [He H].
  destruct (whole_value _ _) as [[j rest]|e]; destruct H as [-> H]; done.
Qed.

(** A value that is read takes at least one byte. *)
Lemma stream_Decode_consumes {A} chunk (decode : A → json → dec A) (zero a : A) (d d' : decoder) :
  stream_Decode chunk decode zero d = (Ok a, d') →
  dec_err d' = None ∧ (String.length (pending d') < String.length (pending d))%nat.
Proof.
  intros Hr. destruct (dec_err d) as [e|] eqn:Hd.
  { unfold stream_Decode in Hr. by rewrite Hd in Hr. }
  pose proof (stream_Decode_whole chunk decode zero d Hd) as [_ Hw]. rewrite Hr in Hw. cbn in Hw.
  destruct (whole_value _ _) as [[j rest]|e] eqn:E; [|by destruct Hw].
  destruct Hw as (_&Hp&He). split; [done|]. rewrite Hp. by eapply whole_value_consumes.
Qed.


