(* ===== verification/V3.v ===== *)
(** * internal/api/v3.go: the v3 produce endpoint

    Data, decoding, envelopes and response documents; the handler itself is in
    HandlerV3.v.  Parsing and printing of [time.Time] are parameters: a
    timestamp in a request only has to parse, one in a response is the JSON
    text of the current time. *)

From S2P Require Import Prelude.
From S2P Require Import GoStrings.
From S2P Require Import Strconv.
From S2P Require Import GoErrors.
From S2P Require Import Json.
From S2P Require Import JsonFacts.
From S2P Require Import Base64.
From S2P Require Import Url.
From S2P Require Import SchemaTypes.
From S2P Require Import SchemaRegistry.
From S2P Require Import SchemaEncoder.
From S2P Require Import Producer.
From S2P Require Import Types.
Local Open Scope Z_scope.

(** ** Request documents *)

(** [type v3ProduceHeader struct]. *)
Record v3ProduceHeader := { vh_Name : string; vh_Value : option string }.
Definition zero_v3ProduceHeader : v3ProduceHeader := {| vh_Name := ""; vh_Value := None |}.

(** [type v3ProduceRecord struct]; of a timestamp only its presence matters. *)
Record v3ProduceRecord := {
  vr_PartitionID : option Z;
  vr_Headers : gslice v3ProduceHeader;
  vr_Key : option RequestData;
  vr_Value : option RequestData;
  vr_Timestamp : bool;
}.
Definition zero_v3ProduceRecord : v3ProduceRecord :=
  Build_v3ProduceRecord None (Build_gslice None []) None None false.

(** [type v3ProduceBatchEntry struct] and [type v3ProduceBatchRequest struct]. *)
Record v3ProduceBatchEntry := { ve_ID : string; ve_record : v3ProduceRecord }.
Record v3ProduceBatchRequest := { vb_Entries : gslice v3ProduceBatchEntry }.
Definition zero_v3ProduceBatchEntry : v3ProduceBatchEntry :=
  {| ve_ID := ""; ve_record := zero_v3ProduceRecord |}.

Section decoding.
(** [time.Time.UnmarshalJSON] on the bytes of a value: its error. *)
Context (time_UnmarshalJSON : string → option error).

Definition header_field (cx : dctx) (cur : v3ProduceHeader) (key : string) (j : json)
  : dec v3ProduceHeader :=
  match field_of ["name"; "value"] key with
  | Some 0%nat =>
      let! x := decode_string (in_field cx "v3ProduceHeader" "name") (vh_Name cur) j in
      dret {| vh_Name := x; vh_Value := vh_Value cur |}
  | Some 1%nat =>
      let! x := decode_string_ptr (in_field cx "v3ProduceHeader" "value") (vh_Value cur) j in
      dret {| vh_Name := vh_Name cur; vh_Value := x |}
  | _ => dret cur
  end.

(** The [i]-th field of a record; [cx] is where a named field is decoded. *)
Definition record_member (cx : string → dctx) (cur : v3ProduceRecord) (i : option nat) (j : json)
  : dec v3ProduceRecord :=
  let '(Build_v3ProduceRecord p hs k v t) := cur in
  match i with
  | Some 0%nat => let! x := decode_int_ptr 32 "int32" (cx "partition_id") p j in
                  dret (Build_v3ProduceRecord x hs k v t)
  | Some 1%nat =>
      let cx := cx "headers" in
      let! x := decode_slice zero_v3ProduceHeader
                  (decode_struct (header_field cx) "api.v3ProduceHeader" cx)
                  "[]api.v3ProduceHeader" cx hs j in
      dret (Build_v3ProduceRecord p x k v t)
  | Some 2%nat => let! x := decode_RequestData (cx "key") k j in
                  dret (Build_v3ProduceRecord p hs x v t)
  | Some 3%nat => let! x := decode_RequestData (cx "value") v j in
                  dret (Build_v3ProduceRecord p hs k x t)
  | Some 4%nat =>
      match jval j with
      | JNull => dret (Build_v3ProduceRecord p hs k v false)
      | _ => match time_UnmarshalJSON (jraw j) with
             | Some err => dfail err
             | None => dret (Build_v3ProduceRecord p hs k v true)
             end
      end
  | _ => dret cur
  end.

Definition record_fields : list string :=
  ["partition_id"; "headers"; "key"; "value"; "timestamp"].

(** [json.Decoder.Decode] into a [v3ProduceRecord]. *)
Definition decode_v3ProduceRecord : v3ProduceRecord → json → dec v3ProduceRecord :=
  decode_struct
    (λ cur key, record_member (in_field ctx0 "v3ProduceRecord") cur (field_of record_fields key))
    "api.v3ProduceRecord" ctx0.

(** The promoted fields of the embedded record follow the id. *)
Definition entry_field (cx : dctx) (cur : v3ProduceBatchEntry) (key : string) (j : json)
  : dec v3ProduceBatchEntry :=
  match field_of ("id" :: record_fields) key with
  | Some 0%nat =>
      let! x := decode_string (in_field cx "v3ProduceBatchEntry" "id") (ve_ID cur) j in
      dret {| ve_ID := x; ve_record := ve_record cur |}
  | Some (S i) =>
      let cx f := {| ctx_struct := "v3ProduceBatchEntry";
                     ctx_path := ctx_path cx ++ ["v3ProduceRecord"; f] |} in
      let! x := record_member cx (ve_record cur) (Some i) j in
      dret {| ve_ID := ve_ID cur; ve_record := x |}
  | None => dret cur
  end.

Definition batch_field (cur : v3ProduceBatchRequest) (key : string) (j : json)
  : dec v3ProduceBatchRequest :=
  match field_of ["entries"] key with
  | Some 0%nat =>
      let cx := in_field ctx0 "v3ProduceBatchRequest" "entries" in
      let! x := decode_slice zero_v3ProduceBatchEntry
                  (decode_struct (entry_field cx) "api.v3ProduceBatchEntry" cx)
                  "[]api.v3ProduceBatchEntry" cx (vb_Entries cur) j in
      dret {| vb_Entries := x |}
  | _ => dret cur
  end.

Definition Unmarshal_batch (body : string) : res v3ProduceBatchRequest :=
  Unmarshal (decode_struct batch_field "api.v3ProduceBatchRequest" ctx0)
    {| vb_Entries := Build_gslice None [] |} body.
End decoding.

(** ** Envelopes *)

(** [type v3ProduceTarget struct] and [v3ProduceTargetFromPath]. *)
Record v3ProduceTarget := { clusterID : string; v3_topic : string; batch : bool }.

Definition v3ProduceTargetFromPath (u : URL) : option v3ProduceTarget :=
  match Split (TrimPrefix (EscapedPath u) "/") "/" with
  | [s0; s1; s2; s3; s4; s5] =>
      if negb (String.eqb s0 "v3") || negb (String.eqb s1 "clusters") ||
         negb (String.eqb s3 "topics")
      then None
      else match PathUnescape s2 with
      | None => None
      | Some cluster =>
          if String.eqb cluster "" then None
          else match PathUnescape s4 with
          | None => None
          | Some topic =>
              if String.eqb topic "" then None
              else if String.eqb s5 "records"
              then Some {| clusterID := cluster; v3_topic := topic; batch := false |}
              else if String.eqb s5 "records:batch"
              then Some {| clusterID := cluster; v3_topic := topic; batch := true |}
              else None
          end
      end
  | _ => None
  end.

(** [type v3RecordEnvelope struct]. *)
Record v3RecordEnvelope := {
  env_id : string;
  env_record : PRecord;
  env_key : Metadata;
  env_value : Metadata;
}.

Fixpoint v3_headers_from (i : Z) (headers : list v3ProduceHeader) (limits : decodeLimits)
  : res (list Header) :=
  match headers with
  | [] => Ok []
  | h :: headers =>
      if String.eqb (vh_Name h) "" then
        Err (ENew ("headers[" +:+ Itoa i +:+ "].name is required"))
      else
        let? value :=
          match vh_Value h with
          | None => Ok None
          | Some v =>
              match DecodeString v with
              | None => Err (ENew ("headers[" +:+ Itoa i +:+ "].value is not valid base64"))
              | Some decoded => Ok (Some decoded)
              end
          end in
        if MaxHeaderBytes limits <? slen (vh_Name h) + blen value then
          Err (ENew ("headers[" +:+ Itoa i +:+ "] exceeds configured size limit"))
        else
          let? out := v3_headers_from (i + 1) headers limits in
          Ok ({| h_Key := vh_Name h; h_Value := value |} :: out)
  end.

Definition decodeV3Headers (headers : list v3ProduceHeader) (limits : decodeLimits)
  : res (list Header) :=
  if (length headers =? 0)%nat then Ok []
  else if MaxHeaders limits <? Z.of_nat (length headers) then
    Err (ENew ("too many headers: got " +:+ Itoa (Z.of_nat (length headers)) +:+
               ", limit " +:+ Itoa (MaxHeaders limits)))
  else v3_headers_from 0 headers limits.

Section envelope.
Context `{Codecs} {R : Type} `{Registry R}.

(** [encodeV3Data]; [NewEncoder(nil)] is an encoder without a registry. *)
Definition encodeV3Data (topic : string) (key : bool) (data : option RequestData)
    (enc : option Encoder) (r : R) : res (option string * Metadata) * R :=
  match data with
  | None => (Ok (None, zero_Metadata), r)
  | Some d =>
      if IsSchemaAware d && negb (is_some enc)
      then (Err (ENew "schema registry is required"), r)
      else
        let enc := match enc with None => Some {| has_Registry := false |} | e => e end in
        Encode enc topic key data r
  end.

(** [v3EnvelopeFromRecord] once key and value are encoded. *)
Definition build_envelope (topic id : string) (rec : v3ProduceRecord) (limits : decodeLimits)
    (key value : option string) (keyMeta valueMeta : Metadata) : res v3RecordEnvelope :=
  if MaxKeyBytes limits <? blen key then Err (ENew "key exceeds configured size limit")
  else if match vr_PartitionID rec with Some p => p <? 0 | None => false end then
    Err (ENew "partition_id must be non-negative")
  else
    let? headers := decodeV3Headers (default [] (elems (vr_Headers rec))) limits in
    let record := {| r_Topic := topic; r_Key := key; r_Value := value; r_Headers := headers;
                     r_Partition := vr_PartitionID rec |} in
    if MaxRecordBytes limits <? SizeBytes record then
      Err (ENew "record exceeds configured record size limit")
    else Ok {| env_id := id; env_record := record; env_key := keyMeta; env_value := valueMeta |}.

Definition v3EnvelopeFromRecord (topic id : string) (rec : v3ProduceRecord)
    (enc : option Encoder) (limits : decodeLimits) (r : R) : res v3RecordEnvelope * R :=
  match encodeV3Data topic true (vr_Key rec) enc r with
  | (Err err, r) => (Err (EWrap "key: " err), r)
  | (Ok (key, keyMeta), r) =>
      match encodeV3Data topic false (vr_Value rec) enc r with
      | (Err err, r) => (Err (EWrap "value: " err), r)
      | (Ok (value, valueMeta), r) =>
          (build_envelope topic id rec limits key value keyMeta valueMeta, r)
      end
  end.
End envelope.

(** [validateBatchID]: the error, and the ids seen afterwards. *)
Definition validateBatchID (id : string) (seen : gset string) : option error * gset string :=
  if String.eqb id "" then (Some (ENew "id is required"), seen)
  else if 80 <? slen id then (Some (ENew "id exceeds 80 characters"), seen)
  else if bool_decide (id ∈ seen) then (Some (ENew ("duplicate id " +:+ Quote id)), seen)
  else (None, {[id]} ∪ seen).

(** ** Response documents *)

(** [type v3ProduceResponseData struct]. *)
Record v3ProduceResponseData := {
  vd_Size : Z;
  vd_Type : string;
  vd_Subject : option string;
  vd_SchemaID : option Z;
  vd_SchemaVersion : option Z;
}.

(** [type v3ProduceResponse struct]; a timestamp is its JSON text. *)
Record v3ProduceResponse := {
  vp_ErrorCode : Z;
  vp_Message : string;
  vp_ClusterID : string;
  vp_TopicName : string;
  vp_PartitionID : option Z;
  vp_Offset : option Z;
  vp_Timestamp : option string;
  vp_Key : option v3ProduceResponseData;
  vp_Value : option v3ProduceResponseData;
}.

(** [type v3ProduceBatchFailure struct], and [type v3ProduceBatchSuccess struct]
    as its id and the response its other fields are copied from. *)
Record v3ProduceBatchFailure := { vf_ID : string; vf_ErrorCode : Z; vf_Message : string }.
Record v3ProduceBatchSuccess := { vs_ID : string; vs_resp : v3ProduceResponse }.
Record v3ProduceBatchResponse := {
  Successes : list v3ProduceBatchSuccess;
  Failures : list v3ProduceBatchFailure;
}.

Definition v3ResponseData (meta : Metadata) : option v3ProduceResponseData :=
  if String.eqb (md_Type meta) "" && (md_Size meta =? 0) && negb (is_some (md_SchemaID meta))
  then None
  else Some {| vd_Size := md_Size meta; vd_Type := md_Type meta;
               vd_Subject := if negb (String.eqb (md_Subject meta) "")
                             then Some (md_Subject meta) else None;
               vd_SchemaID := md_SchemaID meta; vd_SchemaVersion := md_SchemaVersion meta |}.

Definition resultErrorCode (result : Result) : Z :=
  default confluentKafkaRecordErrorCode (res_ErrorCode result).

Definition resultErrorMessage (result : Result) : string :=
  match res_Err result with Some err => Error err | None => "Kafka produce failed" end.

(** The response of an error: [v3ProduceResponse{ErrorCode: code, Message: msg}]. *)
Definition error_response (code : Z) (msg : string) : v3ProduceResponse :=
  Build_v3ProduceResponse code msg "" "" None None None None None.

(** The two branches of [v3ResponseForResult]. *)
Definition failed_response (result : Result) : v3ProduceResponse :=
  error_response (resultErrorCode result) (resultErrorMessage result).
Definition success_response (target : v3ProduceTarget) (env : v3RecordEnvelope)
    (result : Result) (timestamp : string) : v3ProduceResponse :=
  {| vp_ErrorCode := 200;
     vp_Message := "";
     vp_ClusterID := firstNonEmpty [clusterID target; "local"];
     vp_TopicName := v3_topic target;
     vp_PartitionID := Some (res_Partition result);
     vp_Offset := Some (res_Offset result);
     vp_Timestamp := Some timestamp;
     vp_Key := v3ResponseData (env_key env);
     vp_Value := v3ResponseData (env_value env) |}.

(** *** Encoding: the members in the order of the fields, without the empty
    ones of an [omitempty] field. *)

Definition omitempty (name : string) (v : option string) : list (string * string) :=
  match v with None => [] | Some t => [(name, t)] end.
Definition omitempty_string (name v : string) : list (string * string) :=
  if String.eqb v "" then [] else [(name, json_string v)].

Definition data_json (d : v3ProduceResponseData) : string :=
  obj_text
    ([("size", Itoa (vd_Size d)); ("type", json_string (vd_Type d))] ++
     omitempty "subject" (json_string <$> vd_Subject d) ++
     omitempty "schema_id" (Itoa <$> vd_SchemaID d) ++
     omitempty "schema_version" (Itoa <$> vd_SchemaVersion d)).

(** The members responses and batch successes share. *)
Definition result_members (r : v3ProduceResponse) : list (string * string) :=
  omitempty_string "cluster_id" (vp_ClusterID r) ++
  omitempty_string "topic_name" (vp_TopicName r) ++
  omitempty "partition_id" (Itoa <$> vp_PartitionID r) ++
  omitempty "offset" (Itoa <$> vp_Offset r) ++
  [("timestamp", default "null" (vp_Timestamp r))] ++
  omitempty "key" (data_json <$> vp_Key r) ++
  omitempty "value" (data_json <$> vp_Value r).

Definition response_json (r : v3ProduceResponse) : string :=
  obj_text ([("error_code", Itoa (vp_ErrorCode r))] ++ omitempty_string "message" (vp_Message r) ++
            result_members r).

Definition success_json (s : v3ProduceBatchSuccess) : string :=
  obj_text (("id", json_string (vs_ID s)) :: result_members (vs_resp s)).

Definition failure_json (f : v3ProduceBatchFailure) : string :=
  obj_text ([("id", json_string (vf_ID f)); ("error_code", Itoa (vf_ErrorCode f))] ++
            omitempty_string "message" (vf_Message f)).

Definition batch_response_json (r : v3ProduceBatchResponse) : string :=
  obj_text [("successes", arr_text (success_json <$> Successes r));
            ("failures", arr_text (failure_json <$> Failures r))].

(** ** Media types *)

Definition isJSONContentType (header : string) : bool :=
  if String.eqb (TrimSpace header) "" then true
  else Contains (ToLower header) "application/json".

Definition acceptsV3Response (header : string) : bool :=
  let accept := TrimSpace header in
  String.eqb accept "" || Contains accept "*/*" ||
  Contains (ToLower accept) "application/json".
