(* ===== verification/V3Facts.v ===== *)
(** * Paths, envelopes and responses of internal/api/v3.go *)

From S2P Require Import Prelude.
From S2P Require Import GoStrings.
From S2P Require Import Strconv.
From S2P Require Import GoErrors.
From S2P Require Import Json.
From S2P Require Import JsonFacts.
From S2P Require Import Base64.
From S2P Require Import JsonText.
From S2P Require Import Url.
From S2P Require Import SchemaTypes.
From S2P Require Import SchemaRegistry.
From S2P Require Import SchemaEncoder.
From S2P Require Import Producer.
From S2P Require Import Types.
From S2P Require Import TypesFacts.
From S2P Require Import V3.
Local Open Scope Z_scope.

(** ** Paths *)

Definition v3_path (target : v3ProduceTarget) : string :=
  "/v3/clusters/" +:+ PathEscape (clusterID target) +:+ "/topics/" +:+
  PathEscape (v3_topic target) +:+ (if batch target then "/records:batch" else "/records").

(** The v3 path is a faithful name of its target: the path of any
    non-empty cluster id and topic, escaped, parses and names exactly that
    cluster, that topic and the stream or batch variant. *)
Lemma v3_path_roundtrip (target : v3ProduceTarget) :
  clusterID target ≠ "" → v3_topic target ≠ "" →
  ∃ u, setPath (v3_path target) = Some u ∧ v3ProduceTargetFromPath u = Some target.
Proof.
  destruct target as [c t b]. cbn [clusterID v3_topic]. intros Hc Ht.
  destruct (escaped_path ["v3"; "clusters"; c; "topics"; t;
    if b then "records:batch" else "records"]) as (u&Hu&He&Hs); [done|].
  assert (v3_path {| clusterID := c; v3_topic := t; batch := b |} =
    "/" +:+ Join (PathEscape <$> ["v3"; "clusters"; c; "topics"; t;
      if b then "records:batch" else "records"]) "/") as -> by (by destruct b).
  exists u. split; [exact Hu|]. unfold v3ProduceTargetFromPath.
  rewrite He, TrimPrefix_app, Hs. cbn [fmap list_fmap].
  apply String.eqb_neq in Hc, Ht. unfold PathUnescape.
  change (PathEscape "v3") with "v3". change (PathEscape "clusters") with "clusters".
  change (PathEscape "topics") with "topics". cbn [String.eqb Ascii.eqb negb orb].
  unfold PathEscape. rewrite !unescape_escape, Hc, Ht. by destruct b.
Qed.

Lemma v3_path_roundtrip_witness :
  ∃ u, setPath (v3_path {| clusterID := "c/1"; v3_topic := "a b"; batch := true |}) = Some u ∧
       v3ProduceTargetFromPath u =
         Some {| clusterID := "c/1"; v3_topic := "a b"; batch := true |}.
Proof. by apply v3_path_roundtrip. Defined.

(** ** Response documents are JSON *)

(** The texts of an object's members: literal names, values that read. *)
Definition members_ok (k : Z) (l : list (string * string)) : Prop :=
  Forall (λ m, all_bytes plain_ascii m.1 = true ∧ ∃ v, reads k m.2 v) l.

Lemma members_nil k : members_ok k [].
Proof. constructor. Qed.
Lemma members_cons k name t v l :
  all_bytes plain_ascii name = true → reads k t v → members_ok k l → members_ok k ((name, t) :: l).
Proof. intros. constructor; [eauto|done]. Qed.
Lemma members_app k l l' : members_ok k l → members_ok k l' → members_ok k (l ++ l').
Proof. apply Forall_app_2. Qed.
Lemma members_omitempty {A} k name (f : A → string) (o : option A) :
  all_bytes plain_ascii name = true → (∀ a, ∃ v, reads k (f a) v) →
  members_ok k (omitempty name (f <$> o)).
Proof.
  intros Hn Hf. destruct o as [a|]; [|constructor]. destruct (Hf a) as [v Hv]. cbn.
  eapply members_cons; [done..|constructor].
Qed.
Lemma members_omitempty_string k name s :
  all_bytes plain_ascii name = true → 0 <= k → members_ok k (omitempty_string name s).
Proof.
  intros Hn Hk. unfold omitempty_string. destruct (String.eqb s ""); [constructor|].
  eapply members_cons; [done| |constructor].
  eapply reads_weaken; [apply json_string_reads|done].
Qed.

Lemma reads_members k l : members_ok k l → 0 <= k →
  ∃ ms, reads (k + 1) (obj_text l) (JObject ms) ∧ ms.*1 = l.*1 ∧ (jraw <$> ms.*2) = l.*2.
Proof.
  intros Hl Hk.
  assert (∃ fs, fs.*1 = l ∧ Forall (field_ok k) fs) as (fs&<-&Hfs).
  { induction Hl as [|[n t] l [Hn [v Hv]] _ (fs&<-&Hfs)]; [by exists []|].
    exists ((n, t, v) :: fs). split; [done|]. by constructor. }
  exists (field_json <$> fs). split; [by apply reads_fields|].
  rewrite <- !list_fmap_compose. by split; apply list_fmap_ext.
Qed.

Lemma reads_Itoa_k k z : 0 <= k → reads k (Itoa z) (JNumber (Itoa z)).
Proof. intros. eapply reads_weaken; [apply reads_Itoa|done]. Qed.

Lemma data_json_reads d : ∃ v, reads 1 (data_json d) v.
Proof.
  unfold data_json. destruct (reads_members 0
    ([("size", Itoa (vd_Size d)); ("type", json_string (vd_Type d))] ++
     omitempty "subject" (json_string <$> vd_Subject d) ++
     omitempty "schema_id" (Itoa <$> vd_SchemaID d) ++
     omitempty "schema_version" (Itoa <$> vd_SchemaVersion d))) as (ms&Hms&_); [|done|eauto].
  repeat apply members_app; try (apply members_omitempty; [done|]; intros;
    eexists; first [apply json_string_reads|apply reads_Itoa]).
  eapply members_cons; [done|apply reads_Itoa|].
  eapply members_cons; [done|apply json_string_reads|constructor].
Qed.

(** A timestamp as it is printed reads as a string. *)
Definition timestamp_ok (r : v3ProduceResponse) : Prop :=
  from_option (λ t, ∃ s, reads 0 t (JString s)) True (vp_Timestamp r).

Lemma result_members_ok r : timestamp_ok r → members_ok 1 (result_members r).
Proof.
  intros Ht. unfold result_members.
  repeat apply members_app; try (by apply members_omitempty_string);
    try (apply members_omitempty; [done|]; intros; first
      [by eexists; apply reads_Itoa_k|apply data_json_reads]).
  unfold timestamp_ok in Ht. destruct (vp_Timestamp r) as [t|]; cbn in *.
  - destruct Ht as [s Ht]. eapply members_cons; [done| |constructor].
    by eapply reads_weaken.
  - eapply members_cons; [done|eapply reads_weaken; [apply reads_null|done]|constructor].
Qed.



Lemma success_json_reads s : timestamp_ok (vs_resp s) → ∃ v, reads 2 (success_json s) v.
Proof.
  intros Ht. destruct (reads_members 1 (("id", json_string (vs_ID s)) :: result_members (vs_resp s)))
    as (ms&Hms&_); [|done|eauto].
  eapply members_cons; [done| |by apply result_members_ok].
  eapply reads_weaken; [apply json_string_reads|done].
Qed.

Lemma failure_json_reads f : ∃ v, reads 2 (failure_json f) v.
Proof.
  destruct (reads_members 1 ([("id", json_string (vf_ID f)); ("error_code", Itoa (vf_ErrorCode f))] ++
    omitempty_string "message" (vf_Message f))) as (ms&Hms&_); [|done|eauto].
  apply members_app; [|by apply members_omitempty_string].
  eapply members_cons; [done|eapply reads_weaken; [apply json_string_reads|done]|].
  eapply members_cons; [done|by apply reads_Itoa_k|constructor].
Qed.

Lemma array_reads {A} (f : A → string) k l : 0 <= k →
  Forall (λ a, ∃ v, reads k (f a) v) l →
  ∃ js, reads (k + 1) (arr_text (f <$> l)) (JArray js) ∧ jraw <$> js = f <$> l.
Proof.
  intros Hk Hl.
  assert (∃ ps : list (string * jvalue), ps.*1 = f <$> l ∧ Forall (λ p, reads k p.1 p.2) ps)
    as (ps&<-&Hps).
  { induction Hl as [|a l [v Hv] _ (ps&Hp&Hps)]; [by exists []|].
    exists ((f a, v) :: ps). cbn. rewrite Hp. split; [done|by constructor]. }
  exists ((λ p, Json p.1 p.2) <$> ps). split; [by apply reads_array|].
  rewrite <- list_fmap_compose. by apply list_fmap_ext.
Qed.

(** The body of a v3 batch response is one JSON object with the array of
    the successes and the array of the failures, one element each, whatever
    bytes ids and messages are made of. *)
Lemma v3_batch_is_json (r : v3ProduceBatchResponse) :
  Forall (λ s, timestamp_ok (vs_resp s)) (Successes r) →
  ∃ ss fs,
    json_parse (batch_response_json r +:+ nl) =
      Ok (Json (batch_response_json r) (JObject
        [("successes", Json (arr_text (success_json <$> Successes r)) (JArray ss));
         ("failures", Json (arr_text (failure_json <$> Failures r)) (JArray fs))])) ∧
    jraw <$> ss = success_json <$> Successes r ∧ jraw <$> fs = failure_json <$> Failures r.
Proof.
  intros Hts.
  destruct (array_reads success_json 2 (Successes r)) as (ss&Hss&Es); [done| |].
  { eapply Forall_impl; [exact Hts|]. intros s. apply success_json_reads. }
  destruct (array_reads failure_json 2 (Failures r)) as (fs&Hfs&Ef); [done| |].
  { apply Forall_true. apply failure_json_reads. }
  exists ss, fs. split_and!; [|done|done].
  eapply (reads_parse_space 4); [|done|done|done].
  apply (reads_fields 3
    [("successes", arr_text (success_json <$> Successes r), JArray ss);
     ("failures", arr_text (failure_json <$> Failures r), JArray fs)]); [|done].
  apply Forall_cons_2; [|apply Forall_cons_2; [|constructor]]; done.
Qed.

Lemma v3_batch_is_json_witness :
  let r := {| Successes := []; Failures := [{| vf_ID := String dq ""; vf_ErrorCode := 400;
                                               vf_Message := "" |}] |} in
  ∃ ss fs,
    json_parse (batch_response_json r +:+ nl) =
      Ok (Json (batch_response_json r) (JObject
        [("successes", Json (arr_text (success_json <$> Successes r)) (JArray ss));
         ("failures", Json (arr_text (failure_json <$> Failures r)) (JArray fs))])) ∧
    jraw <$> ss = success_json <$> Successes r ∧ jraw <$> fs = failure_json <$> Failures r.
Proof. apply v3_batch_is_json. constructor. Defined.

(** ** Decoded records *)

Definition v3_record_ints (rec : v3ProduceRecord) : Prop := int_in 32 (vr_PartitionID rec).

Lemma yields_fail {A} (P : A → Prop) e : yields P (dfail e).
Proof. done. Qed.

Section ints.
Context (time_UnmarshalJSON : string → option error).

Lemma record_member_ints cx cur i j :
  v3_record_ints cur → yields v3_record_ints (record_member time_UnmarshalJSON cx cur i j).
Proof.
  intros Hc. destruct cur as [p hs k v t]. unfold record_member.
  destruct i as [[|[|[|[|[|i]]]]]|]; try (by apply yields_ret);
    try (eapply yields_bind; [apply yields_trivial|intros; by apply yields_ret]).
  - eapply yields_bind; [by apply (yields_int_ptr 32)|]. intros. by apply yields_ret.
  - destruct (jval j); try (by apply yields_ret);
      (destruct (time_UnmarshalJSON (jraw j)); [apply yields_fail|by apply yields_ret]).
Qed.

Lemma decode_v3ProduceRecord_ints cur j :
  v3_record_ints cur → yields v3_record_ints (decode_v3ProduceRecord time_UnmarshalJSON cur j).
Proof.
  intros Hc. apply yields_struct; [|done]. intros. by apply record_member_ints.
Qed.

Lemma entry_field_ints cx cur k j : v3_record_ints (ve_record cur) →
  yields (λ e, v3_record_ints (ve_record e)) (entry_field time_UnmarshalJSON cx cur k j).
Proof.
  intros Hc. unfold entry_field. destruct (field_of _ k) as [[|i]|]; [| |by apply yields_ret].
  - eapply yields_bind; [apply yields_trivial|]. intros. by apply yields_ret.
  - eapply yields_bind; [by apply record_member_ints|]. intros. by apply yields_ret.
Qed.

Lemma Unmarshal_batch_ints body req : Unmarshal_batch time_UnmarshalJSON body = Ok req →
  Forall (λ e, v3_record_ints (ve_record e)) (default [] (elems (vb_Entries req))).
Proof.
  intros H. refine (proj1 (Unmarshal_all (λ req : v3ProduceBatchRequest,
    slice_all (λ e, v3_record_ints (ve_record e)) (vb_Entries req)) _ _ _ _ body req H)).
  - split; constructor.
  - intros cur j Hc. apply yields_struct; [|done]. clear cur j Hc. intros cur k j Hc.
    unfold batch_field. destruct (field_of _ k) as [[|]|]; try (by apply yields_ret).
    eapply yields_bind; [|intros; by apply yields_ret]. apply yields_slice; [done| |done].
    intros. apply yields_struct; [|done]. intros. by apply entry_field_ints.
Qed.
End ints.

(** ** Envelopes *)

Lemma v3_headers_within i headers limits out :
  v3_headers_from i headers limits = Ok out →
  Forall (header_within limits) out ∧ length out = length headers.
Proof.
  revert i out. induction headers as [|h headers IH]; intros i out; cbn [v3_headers_from].
  { by intros [= <-]. }
  destruct (String.eqb (vh_Name h) "") eqn:En; [done|].
  destruct (match vh_Value h with Some v => _ | None => Ok None end) as [value|]; [|done].
  destruct (MaxHeaderBytes limits <? _) eqn:Eb; zbool; [done|].
  destruct (v3_headers_from (i + 1) headers limits) eqn:E; [|done]. intros [= <-].
  apply IH in E as [H1 H2]. split; [|simpl; congruence]. constructor; [|done].
  split; [by apply String.eqb_neq|done].
Qed.

Lemma decodeV3Headers_within headers limits out :
  0 < MaxHeaders limits → decodeV3Headers headers limits = Ok out →
  Forall (header_within limits) out ∧ Z.of_nat (length out) <= MaxHeaders limits.
Proof.
  intros Hpos. unfold decodeV3Headers. destruct headers as [|h headers].
  { intros [= <-]. split; [constructor|simpl; lia]. }
  set (hs := h :: headers). simpl (_ =? 0)%nat. cbv iota.
  destruct (MaxHeaders limits <? _) eqn:E; zbool; [done|].
  intros [Hw ->]%v3_headers_within. done.
Qed.

Lemma build_envelope_within topic id rec limits key value km vm env :
  0 < MaxHeaders limits → v3_record_ints rec →
  build_envelope topic id rec limits key value km vm = Ok env →
  within_limits topic limits None (env_record env) ∧ env_id env = id.
Proof.
  intros Hpos Hi. unfold build_envelope.
  destruct (MaxKeyBytes limits <? blen key) eqn:Ek; zbool; [done|].
  destruct (match vr_PartitionID rec with Some p => p <? 0 | None => false end) eqn:Ep; [done|].
  destruct (decodeV3Headers _ _) as [headers|] eqn:Eh; [|done].
  apply decodeV3Headers_within in Eh as [Hw Hl]; [|done].
  destruct (MaxRecordBytes limits <? _) eqn:Es; zbool; [done|]. intros [= <-]. split; [|done].
  split; try done. intros p _ Hp. cbn in Hp. unfold v3_record_ints in Hi.
  rewrite Hp in Ep, Hi. zbool. simpl in Hi. lia.
Qed.

Lemma v3_envelope_within `{Codecs} {R} `{Registry R} topic id rec enc limits (r : R) env r' :
  0 < MaxHeaders limits → v3_record_ints rec →
  v3EnvelopeFromRecord topic id rec enc limits r = (Ok env, r') →
  within_limits topic limits None (env_record env) ∧ env_id env = id.
Proof.
  intros Hpos Hi. unfold v3EnvelopeFromRecord.
  destruct (encodeV3Data topic true _ enc r) as [[[key km]|] r1]; [|done].
  destruct (encodeV3Data topic false _ enc r1) as [[[value vm]|] r2]; [|done].
  intros [= H1 _]. by apply (build_envelope_within _ _ _ _ _ _ _ _ _ Hpos Hi H1).
Qed.
