(* ===== verification/HandlerV3.v ===== *)
(** * internal/api/v3.go: the handler

    [handleV3Produce] in the monad of Handler.v: the record stream, which reads,
    produces and answers record by record, and the batch. *)

From S2P Require Import Prelude.
From S2P Require Import GoStrings.
From S2P Require Import Strconv.
From S2P Require Import GoErrors.
From S2P Require Import Json.
From S2P Require Import JsonStream.
From S2P Require Import Url.
From S2P Require Import Config.
From S2P Require Import RateLimit.
From S2P Require Import Metrics.
From S2P Require Import SchemaTypes.
From S2P Require Import SchemaRegistry.
From S2P Require Import SchemaEncoder.
From S2P Require Import Producer.
From S2P Require Import Media.
From S2P Require Import Types.
From S2P Require Import Handler.
From S2P Require Import V3.
Local Open Scope Z_scope.

Section v3.
Context {P R : Type} `{Producer P} `{Codecs} `{Registry R}.
Context (clock : nat → Z).
(** [time.Time]: parsing, and the JSON text of the time of a clock reading. *)
Context (time_UnmarshalJSON : string → option error) (time_MarshalJSON : nat → string).
(** How many bytes the k-th read of the body returns. *)
Context (chunk : nat → nat).
Context (h : Handler).

Abbreviation M := (@M P R).
Notation "'let*' x ':=' m 'in' k" := (bind m (λ x, k))
  (at level 10, x pattern, m at level 100, k at level 200).

(** [time.Now().UTC()], as it is printed. *)
Definition now_UTC : M string := λ w,
  (time_MarshalJSON (w_tick w), (now clock w).2).

(** [v3ResponseForResult]. *)
Definition v3ResponseForResult (target : v3ProduceTarget) (env : v3RecordEnvelope)
    (result : Result) : M v3ProduceResponse :=
  if resultFailed result then ret (failed_response result)
  else
    let* timestamp := now_UTC in
    ret (success_response target env result timestamp).

(** [v3BatchSuccessForResult]. *)
Definition v3BatchSuccessForResult (target : v3ProduceTarget) (env : v3RecordEnvelope)
    (result : Result) : M v3ProduceBatchSuccess :=
  let* resp := v3ResponseForResult target env result in
  ret {| vs_ID := env_id env; vs_resp := resp |}.

Definition v3_envelope (topic id : string) (rec : v3ProduceRecord) : M (res v3RecordEnvelope) :=
  with_registry
    (v3EnvelopeFromRecord topic id rec (h_schemaEncoder h) (config_decodeLimits (h_cfg h))).

(** ** The record stream *)

(** The local variables of [handleV3RecordStream]; [counter.n] is in the
    reader of the decoder. *)
Record stream := {
  sm_dec : decoder;
  sm_wrote : bool;
  sm_status : Z;
  sm_records : Z;
}.
Definition counter_n (s : stream) : Z := src_n (dec_src (sm_dec s)).

(** [writeRecordResponse]. *)
Definition writeRecordResponse (s : stream) (resp : v3ProduceResponse) : M stream :=
  let* _ := (if sm_wrote s then out (RWrite nl)
             else
               let* _ := out (RSetHeader "Content-Type" mediaJSON) in
               out (RWriteHeader 200)) in
  let* _ := out (RWrite (response_json resp +:+ nl)) in
  let* _ := out RFlush in
  ret {| sm_dec := sm_dec s; sm_wrote := true;
         sm_status := if sm_wrote s then sm_status s else 200; sm_records := sm_records s |}.

Definition writeStreamError (s : stream) (code : Z) (msg : string) : M stream :=
  writeRecordResponse s (error_response code msg).

(** What the handler leaves for the deferred [ObserveRequest]. *)
Definition stream_observed (s : stream) : observed := (sm_status s, counter_n s, sm_records s).

(** An error that ends the stream: an error line once a response has begun,
    an error response before. *)
Definition end_stream (s : stream) (status code : Z) (msg : string) : M observed :=
  if sm_wrote s then
    let* s := writeStreamError s code msg in
    ret (stream_observed s)
  else
    let* _ := writeAPIError status code msg in
    ret (status, counter_n s, sm_records s).

(** One record that passed the checks: produce it and answer. *)
Definition stream_produce (target : v3ProduceTarget) (env : v3RecordEnvelope) (s : stream)
  : M (observed + stream) :=
  let* t := now clock in
  let* produceStart := now clock in
  let* results := produce (t + ProduceTimeout (h_cfg h)) [env_record env] in
  let* t := now clock in
  let produceWait := time_Sub t produceStart in
  match results with
  | Err err =>
      let err := if errors_Is err ctxCanceled || errors_Is err ctxDeadlineExceeded
                 then ESentinel errContextCanceled else err in
      let '(status, code, msg) := classifyProduceError err in
      let* _ := metric (ObserveKafkaCallbackWait status produceWait) in
      let* _ := metric (ObserveProduceResult 0 1) in
      let* _ := (if errors_Is err ErrOverloaded then metric ObserveAdmissionRejected
                 else ret tt) in
      let* o := end_stream s status code msg in
      ret (inl o)
  | Ok results =>
      let result :=
        match results with
        | [] => Build_Result 0 0 None (Some (ENew "kafka produce returned no result"))
        | r :: _ => r
        end in
      let* _ := metric (ObserveKafkaCallbackWait (sm_status s) produceWait) in
      let '(successes, failures) := countResultStatus [result] in
      let* _ := metric (ObserveProduceResult successes failures) in
      let* resp := v3ResponseForResult target env result in
      let* s := writeRecordResponse s resp in
      ret (inr s)
  end.

(** One turn of the loop from a decoded record on; [inl] returns. *)
Definition stream_record (target : v3ProduceTarget) (rec : v3ProduceRecord) (beforeRead : Z)
    (s : stream) : M (observed + stream) :=
  let* ok := allowByteRate clock (counter_n s - beforeRead) in
  if negb ok then
    let* _ := metric (ObserveRateLimitRejected "bytes") in
    let* _ := metric (ObserveProduceResult 0 1) in
    let* o := end_stream s 429 errorCodeTooManyRequests rateLimitMessage in
    ret (inl o)
  else
    let s := {| sm_dec := sm_dec s; sm_wrote := sm_wrote s; sm_status := sm_status s;
                sm_records := sm_records s + 1 |} in
    if cfg_MaxRecords (h_cfg h) <? sm_records s then
      let* _ := metric (ObserveProduceResult 0 1) in
      let* o := end_stream s 400 errorCodeBadRequest
        ("too many records: got " +:+ Itoa (sm_records s) +:+ ", limit " +:+
         Itoa (cfg_MaxRecords (h_cfg h))) in
      ret (inl o)
    else
      let* env := v3_envelope (v3_topic target) "" rec in
      match env with
      | Err err =>
          let* _ := metric (ObserveProduceResult 0 1) in
          let* s := writeStreamError s errorCodeBadRequest (Error err) in
          ret (inr s)
      | Ok env => stream_produce target env s
      end.

(** The end of the input. *)
Definition stream_end (s : stream) : M observed :=
  if sm_records s =? 0 then
    let* _ := writeAPIError 400 errorCodeBadRequest
                "request body must include at least one record" in
    ret (400, counter_n s, sm_records s)
  else ret (stream_observed s).

(** One turn of the loop. *)
Definition stream_step (target : v3ProduceTarget) (s : stream) : M (observed + stream) :=
  let beforeRead := counter_n s in
  let '(r, d) := stream_Decode chunk (decode_v3ProduceRecord time_UnmarshalJSON)
                   zero_v3ProduceRecord (sm_dec s) in
  let s := {| sm_dec := d; sm_wrote := sm_wrote s; sm_status := sm_status s;
              sm_records := sm_records s |} in
  match r with
  | Err err =>
      let* o := (if errors_Is err ioEOF then stream_end s
                 else if as_max_bytes err then end_stream s 413 413 "HTTP 413 Payload Too Large"
                 else end_stream s 400 errorCodeBadRequest (Error err)) in
      ret (inl o)
  | Ok rec => stream_record target rec beforeRead s
  end.

(** The loop: every turn that goes on consumes a byte of the body, so that
    [fuel] above its length is enough ([None] is running out of it). *)
Fixpoint stream_loop (fuel : nat) (target : v3ProduceTarget) (s : stream) : M (option observed) :=
  match fuel with
  | O => ret None
  | S fuel =>
      let* r := stream_step target s in
      match r with
      | inl o => ret (Some o)
      | inr s => stream_loop fuel target s
      end
  end.

(** The body under [http.MaxBytesReader], as the decoder's source. *)
Definition body_reader (r : Request) : reader :=
  let '(bytes, err) := read_limited r (MaxRequestBytes (h_cfg h)) in
  {| src_left := bytes; src_end := default (ESentinel ioEOF) err; src_reads := 0; src_n := 0 |}.

Definition handleV3RecordStream (r : Request) (target : v3ProduceTarget) : M observed :=
  let src := body_reader r in
  let* o := stream_loop (S (String.length (src_left src))) target
              {| sm_dec := NewDecoder src; sm_wrote := false; sm_status := 200; sm_records := 0 |} in
  ret (default (200, 0, 0) o).

(** ** The batch *)

(** The first loop of [handleV3BatchBody]: the envelopes of the valid entries
    and the failures of the others, in order. *)
Fixpoint batch_envelopes (topic : string) (entries : list v3ProduceBatchEntry)
    (seen : gset string) : M (list v3RecordEnvelope * list v3ProduceBatchFailure) :=
  match entries with
  | [] => ret ([], [])
  | entry :: entries =>
      let reject err := {| vf_ID := ve_ID entry; vf_ErrorCode := errorCodeBadRequest;
                           vf_Message := Error err |} in
      let '(err, seen) := validateBatchID (ve_ID entry) seen in
      match err with
      | Some err =>
          let* r := batch_envelopes topic entries seen in
          ret (r.1, reject err :: r.2)
      | None =>
          let* env := v3_envelope topic (ve_ID entry) (ve_record entry) in
          let* r := batch_envelopes topic entries seen in
          ret (match env with
               | Err err => (r.1, reject err :: r.2)
               | Ok env => (env :: r.1, r.2)
               end)
      end
  end.

(** The second loop; [None] is the panic of indexing past the envelopes. *)
Fixpoint batch_results (target : v3ProduceTarget) (envelopes : list v3RecordEnvelope)
    (results : list Result)
  : M (option (list v3ProduceBatchSuccess * list v3ProduceBatchFailure)) :=
  match results, envelopes with
  | [], _ => ret (Some ([], []))
  | _ :: _, [] => ret None
  | result :: results, env :: envelopes =>
      if resultFailed result then
        let failure := {| vf_ID := env_id env; vf_ErrorCode := resultErrorCode result;
                          vf_Message := resultErrorMessage result |} in
        let* r := batch_results target envelopes results in
        ret ((λ r, (r.1, failure :: r.2)) <$> r)
      else
        let* success := v3BatchSuccessForResult target env result in
        let* r := batch_results target envelopes results in
        ret ((λ r, (success :: r.1, r.2)) <$> r)
  end.

(** The 207 response. *)
Definition batch_respond (bodyLen recordCount : Z) (response : v3ProduceBatchResponse)
  : M observed :=
  let* _ := out (RSetHeader "Content-Type" mediaJSON) in
  let* _ := out (RWriteHeader 207) in
  let* _ := out (RWrite (batch_response_json response +:+ nl)) in
  ret (207, bodyLen, recordCount).

(** [handleV3BatchBody] from the call of [Produce] on. *)
Definition batch_produce (target : v3ProduceTarget) (bodyLen : Z)
    (envelopes : list v3RecordEnvelope) (rejected : list v3ProduceBatchFailure) : M observed :=
  let recordCount := Z.of_nat (length envelopes) in
  let* t := now clock in
  let* results := produce (t + ProduceTimeout (h_cfg h)) (env_record <$> envelopes) in
  match results with
  | Err err =>
      let '(status, code, msg) := classifyProduceError err in
      fail status code msg bodyLen recordCount
  | Ok results =>
      let '(successes, failures) := countResultStatus results in
      let* _ := metric (ObserveProduceResult successes failures) in
      let* r := batch_results target envelopes results in
      match r with
      | None =>
          let* _ := out RPanic in
          ret (200, bodyLen, recordCount)
      | Some (succeeded, failed) =>
          batch_respond bodyLen recordCount
            {| Successes := succeeded; Failures := rejected ++ failed |}
      end
  end.

Definition handleV3BatchBody (target : v3ProduceTarget) (body : string) : M observed :=
  let bodyLen := slen body in
  match Unmarshal_batch time_UnmarshalJSON body with
  | Err err => fail 400 errorCodeBadRequest (Error err) bodyLen 0
  | Ok req =>
      let entries := default [] (elems (vb_Entries req)) in
      if (length entries =? 0)%nat then
        fail 400 errorCodeBadRequest "entries must not be empty" bodyLen 0
      else if cfg_MaxRecords (h_cfg h) <? Z.of_nat (length entries) then
        fail 400 errorCodeBadRequest
          ("too many entries: got " +:+ Itoa (Z.of_nat (length entries)) +:+ ", limit " +:+
           Itoa (cfg_MaxRecords (h_cfg h))) bodyLen 0
      else
        let* r := batch_envelopes (v3_topic target) entries ∅ in
        let '(envelopes, failures) := r in
        if (0 <? length envelopes)%nat then batch_produce target bodyLen envelopes failures
        else batch_respond bodyLen 0 {| Successes := []; Failures := failures |}
  end.

(** ** POST /v3/clusters/... *)

(** [handleV3Produce] between the two deferred calls. *)
Definition v3_produce (r : Request) : M observed :=
  if negb (String.eqb (rq_Method r) "POST") then
    let* _ := out (RSetHeader "Allow" "POST") in
    fail 405 errorCodeBadRequest "method not allowed" 0 0
  else match v3ProduceTargetFromPath (rq_URL r) with
  | None => fail 404 errorCodeBadRequest "not found" 0 0
  | Some target =>
      if negb (topicAllowed h (v3_topic target)) then
        fail 403 errorCodeForbidden "topic is not allowed" 0 0
      else if negb (acceptsV3Response (rq_Header r "Accept")) then
        fail 406 errorCodeNotAcceptable "HTTP 406 Not Acceptable" 0 0
      else if negb (isJSONContentType (rq_Header r "Content-Type")) then
        fail 415 errorCodeUnsupportedMedia "HTTP 415 Unsupported Media Type" 0 0
      else
        let* ok := allowRequestRate clock 1 in
        if negb ok then rate_limited "requests" 0
        else if negb (batch target) then handleV3RecordStream r target
        else
          let '(body, err) := readRequestBody r (MaxRequestBytes (h_cfg h)) in
          let bodyLen := slen body in
          match err with
          | Some err =>
              if as_max_bytes err then fail 413 413 "HTTP 413 Payload Too Large" bodyLen 0
              else fail 400 errorCodeBadRequest "failed to read request body" bodyLen 0
          | None =>
              let* ok := allowByteRate clock bodyLen in
              if negb ok then rate_limited "bytes" bodyLen
              else handleV3BatchBody target body
          end
  end.

Definition handleV3Produce (r : Request) : M unit := observed_request clock (v3_produce r).
End v3.
