(* ===== verification/HandlerV3Facts.v ===== *)
(** * Correctness of the v3 produce handler *)

From S2P Require Import Prelude.
From S2P Require Import GoStrings.
From S2P Require Import Strconv.
From S2P Require Import GoErrors.
From S2P Require Import Json.
From S2P Require Import JsonFacts.
From S2P Require Import JsonStream.
From S2P Require Import JsonStreamFacts.
From S2P Require Import Url.
From S2P Require Import Config.
From S2P Require Import RateLimit.
From S2P Require Import Metrics.
From S2P Require Import SchemaTypes.
From S2P Require Import SchemaRegistry.
From S2P Require Import SchemaEncoder.
From S2P Require Import Producer.
From S2P Require Import Media.
From S2P Require Import Types.
From S2P Require Import TypesFacts.
From S2P Require Import Handler.
From S2P Require Import HandlerFacts.
From S2P Require Import V3.
From S2P Require Import V3Facts.
From S2P Require Import HandlerV3.
Local Open Scope Z_scope.

(** ** What a handler asks of the producer *)

Section asking.
Context {P R : Type} `{Producer P} `{Codecs} `{Registry R}.
Abbreviation World := (@World P R).
Abbreviation M := (@M P R).

(** The batches a producer was asked for, in order, from one state to another. *)
Inductive asks : P → list (list PRecord) → P → Prop :=
  | asks_nil p : asks p [] p
  | asks_cons deadline rs p res p1 calls p2 :
      Produce deadline rs p = (res, p1) → asks p1 calls p2 → asks p (rs :: calls) p2.

Lemma asks_app p1 p2 p3 l l' : asks p1 l p2 → asks p2 l' p3 → asks p1 (l ++ l') p3.
Proof. induction 1; [done|]. intros. econstructor; eauto. Qed.

Definition asking {A} (m : M A) (Q : A → list (list PRecord) → Prop) : Prop :=
  ∀ w, ∃ calls, asks (w_producer w) calls (w_producer (m w).2) ∧ Q (m w).1 calls.

Lemma asking_ret {A} (a : A) (Q : A → list (list PRecord) → Prop) : Q a [] → asking (ret a) Q.
Proof. intros HQ w. exists []. split; [constructor|done]. Qed.

Lemma asking_bind {A B} (m : M A) (k : A → M B) Qm Q :
  asking m Qm → (∀ a calls, Qm a calls → asking (k a) (λ b calls', Q b (calls ++ calls'))) →
  asking (bind m k) Q.
Proof.
  intros Hm Hk w. unfold bind. destruct (Hm w) as (calls&Hw&HQ). destruct (m w) as [a w'].
  cbn [fst snd] in *. destruct (Hk a calls HQ w') as (calls'&Hw'&HQ').
  exists (calls ++ calls'). split; [by eapply asks_app|done].
Qed.

Lemma asking_silent {A} (m : M A) (Q : A → list (list PRecord) → Prop) :
  keeps w_producer m → (∀ a, Q a []) → asking m Q.
Proof. intros Hm HQ w. exists []. rewrite Hm. split; [constructor|apply HQ]. Qed.

Lemma asking_skip {A B} (m : M A) (k : A → M B) Q :
  keeps w_producer m → (∀ a, asking (k a) Q) → asking (bind m k) Q.
Proof.
  intros Hm Hk. eapply asking_bind; [by apply (asking_silent m (λ _ calls, calls = []))|].
  intros a calls ->. apply Hk.
Qed.

Lemma asking_produce {B} deadline rs (k : res (list Result) → M B) Q :
  (∀ results, asking (k results) (λ b calls, Q b (rs :: calls))) →
  asking (bind (produce deadline rs) k) Q.
Proof.
  intros Hk. apply (asking_bind _ _ (λ _ calls, calls = [rs])).
  - intros w. exists [rs]. split; [|done]. unfold produce.
    destruct (Produce deadline rs (w_producer w)) as [r p] eqn:E. cbn.
    by econstructor; [exact E|constructor].
  - intros results calls ->. apply Hk.
Qed.

Lemma asking_weaken {A} (m : M A) (Q Q' : A → list (list PRecord) → Prop) :
  asking m Q → (∀ a calls, Q a calls → Q' a calls) → asking m Q'.
Proof. intros Hm HQ w. destruct (Hm w) as (calls&?&?). exists calls. auto. Qed.
End asking.

Section gate.
Context {P R : Type} `{Producer P} `{Codecs} `{Registry R} (clock : nat → Z).
Context (time_UnmarshalJSON : string → option error) (time_MarshalJSON : nat → string).
Context (chunk : nat → nat) (h : Handler).
Context (Hheaders : 0 < cfg_MaxHeaders (h_cfg h)) (Hrecords : 0 < cfg_MaxRecords (h_cfg h)).
Abbreviation M := (@M P R).
Abbreviation within target := (within_limits (v3_topic target) (config_decodeLimits (h_cfg h)) None).

Lemma envelope_within topic id rec w env : v3_record_ints rec →
  (v3_envelope h topic id rec w : _ * @World P R).1 = Ok env →
  within_limits topic (config_decodeLimits (h_cfg h)) None (env_record env) ∧ env_id env = id.
Proof.
  intros Hi. unfold v3_envelope, with_registry.
  destruct (v3EnvelopeFromRecord _ _ _ _ _ _) as [[e|e] r'] eqn:E; [|done]. intros [= ->].
  by eapply v3_envelope_within in E.
Qed.

(** The outcome of an encoding, with the records it vouches for. *)
Lemma asking_envelope {B} topic id rec (k : res v3RecordEnvelope → M B) Q :
  v3_record_ints rec →
  (∀ env, match env with
          | Ok env => within_limits topic (config_decodeLimits (h_cfg h)) None (env_record env)
          | Err _ => True
          end → asking (k env) Q) →
  asking (bind (v3_envelope h topic id rec) k) Q.
Proof.
  intros Hi Hk w. unfold bind. pose proof (envelope_within topic id rec w) as Hw.
  assert (w_producer (v3_envelope h topic id rec w).2 = w_producer w) as Hp.
  { exact (keeps_with_registry w_producer _ (λ _ _, eq_refl) w). }
  destruct (v3_envelope h topic id rec w) as [env w']. cbn in *. rewrite <- Hp.
  apply Hk. destruct env as [env|]; [|done]. by apply Hw.
Qed.

(** [writeRecordResponse] only writes; what it leaves in the variables. *)
Definition written (s : stream) : stream :=
  {| sm_dec := sm_dec s; sm_wrote := true;
     sm_status := if sm_wrote s then sm_status s else 200; sm_records := sm_records s |}.

Lemma writeRecordResponse_value s resp (w : @World P R) :
  (writeRecordResponse s resp w).1 = written s.
Proof. unfold writeRecordResponse, written. by destruct (sm_wrote s). Qed.

Lemma asking_write {B} s resp (k : stream → M B) Q :
  asking (k (written s)) Q → asking (bind (writeRecordResponse s resp) k) Q.
Proof.
  intros Hk w. unfold bind. pose proof (writeRecordResponse_value s resp w) as Hv.
  assert (w_producer (writeRecordResponse s resp w).2 = w_producer w) as Hp.
  { unfold writeRecordResponse. by destruct (sm_wrote s). }
  destruct (writeRecordResponse s resp w) as [s' w']. cbn in *. subst s'. rewrite <- Hp. apply Hk.
Qed.

(** The calls of a stream: single records that were checked. *)
Definition singles (target : v3ProduceTarget) (calls : list (list PRecord)) : Prop :=
  Forall (λ c, ∃ r, c = [r] ∧ within target r) calls.

Lemma stream_produce_asks target env s : within target (env_record env) →
  asking (stream_produce clock time_MarshalJSON h target env s : M _)
    (λ r calls, singles target calls ∧ length calls = 1%nat ∧
       match r with inr s' => sm_records s' = sm_records s | inl _ => True end).
Proof.
  intros Hw. unfold stream_produce. do 2 (apply asking_skip; [keeps|intros ?]).
  apply asking_produce. intros results. apply asking_skip; [keeps|intros t].
  assert (singles target [[env_record env]]) as Hs by (constructor; [eauto|constructor]).
  destruct results as [results|err].
  - apply asking_skip; [keeps|intros _].
    destruct (countResultStatus _) as [su fa]. apply asking_skip; [keeps|intros _].
    apply asking_skip; [unfold v3ResponseForResult, now_UTC; keeps|intros resp].
    apply asking_write. by apply asking_ret.
  - destruct (classifyProduceError _) as [[status code] msg].
    do 3 (apply asking_skip; [keeps|intros _]).
    apply asking_skip; [|intros o; by apply asking_ret].
    unfold end_stream, writeStreamError, writeRecordResponse, writeAPIError. keeps.
Qed.
Lemma asking_end_stream s status code msg (Q : _ → _ → Prop) :
  (∀ o, Q o []) → asking (end_stream s status code msg : M observed) Q.
Proof.
  intros HQ. apply asking_silent; [|done].
  unfold end_stream, writeStreamError, writeRecordResponse, writeAPIError. keeps.
Qed.

(** What a turn of the loop may ask: at most one record, within the count. *)
Definition turn_ok (target : v3ProduceTarget) (n : Z) (r : observed + stream)
    (calls : list (list PRecord)) : Prop :=
  singles target calls ∧ (length calls <= 1)%nat ∧
  (calls ≠ [] → n + 1 <= cfg_MaxRecords (h_cfg h)) ∧
  match r with
  | inr s' => sm_records s' = n + 1 ∧ n + 1 <= cfg_MaxRecords (h_cfg h)
  | inl _ => True
  end.

Lemma turn_ok_quiet target n o : turn_ok target n (inl o) [].
Proof. split_and!; [constructor|simpl; lia|done|done]. Qed.

Lemma stream_record_asks target rec before s : v3_record_ints rec →
  asking (stream_record clock time_MarshalJSON h target rec before s : M _)
    (turn_ok target (sm_records s)).
Proof.
  intros Hi. unfold stream_record. apply asking_skip; [keeps|intros ok]. destruct ok; cbn [negb].
  2:{ do 2 (apply asking_skip; [keeps|intros _]).
      apply asking_skip; [|intros; apply asking_ret, turn_ok_quiet].
      unfold end_stream, writeStreamError, writeRecordResponse, writeAPIError. keeps. }
  cbn [sm_records]. destruct (cfg_MaxRecords (h_cfg h) <? sm_records s + 1) eqn:E; zbool.
  { apply asking_skip; [keeps|intros _].
    apply asking_skip; [|intros; apply asking_ret, turn_ok_quiet].
    unfold end_stream, writeStreamError, writeRecordResponse, writeAPIError. keeps. }
  apply asking_envelope; [done|]. intros [env|err] Hw.
  - eapply asking_weaken; [by apply stream_produce_asks|]. intros r calls (A1&A2&A3).
    split_and!; [done|lia|lia|]. destruct r as [|s']; [done|]. cbn in A3. split; [done|lia].
  - apply asking_skip; [keeps|intros _]. apply asking_write, asking_ret.
    split_and!; [constructor|simpl; lia|done|done|lia].
Qed.

Lemma stream_Decode_ints d rec d' :
  stream_Decode chunk (decode_v3ProduceRecord time_UnmarshalJSON) zero_v3ProduceRecord d =
    (Ok rec, d') → v3_record_ints rec.
Proof.
  unfold stream_Decode. destruct (dec_err d); [done|].
  destruct (readValue _ _ _) as [[j|] d1]; [|done].
  destruct (decode_v3ProduceRecord _ _ j None) as [[e|rec'] [e'|]] eqn:E; try done.
  intros [= <- _]. by eapply decode_v3ProduceRecord_ints in E.
Qed.

Lemma stream_step_asks target s :
  asking (stream_step clock time_UnmarshalJSON time_MarshalJSON chunk h target s : M _)
    (turn_ok target (sm_records s)).
Proof.
  unfold stream_step. destruct (stream_Decode _ _ _ _) as [[rec|err] d] eqn:E.
  - apply stream_Decode_ints in E. by apply (stream_record_asks target rec _
      {| sm_dec := d; sm_wrote := sm_wrote s; sm_status := sm_status s; sm_records := sm_records s |}).
  - apply asking_skip; [|intros; apply asking_ret, turn_ok_quiet].
    destruct (errors_Is err ioEOF); [|destruct (as_max_bytes err)];
      unfold stream_end, end_stream, writeStreamError, writeRecordResponse, writeAPIError; keeps.
Qed.

Lemma stream_loop_asks fuel target s : 0 <= sm_records s <= cfg_MaxRecords (h_cfg h) →
  asking (stream_loop clock time_UnmarshalJSON time_MarshalJSON chunk h fuel target s : M _)
    (λ _ calls, singles target calls ∧
       Z.of_nat (length calls) <= cfg_MaxRecords (h_cfg h) - sm_records s).
Proof.
  revert s. induction fuel as [|fuel IH]; intros s Hs; cbn [stream_loop].
  { apply asking_ret. split; [constructor|simpl; lia]. }
  eapply asking_bind; [apply stream_step_asks|]. intros r calls (A1&A2&A3&A4).
  destruct r as [o|s'].
  - apply asking_ret. rewrite app_nil_r. split; [done|].
    destruct calls; [simpl; lia|]. specialize (A3 ltac:(done)). simpl in *. lia.
  - eapply asking_weaken; [apply IH; lia|]. intros _ calls' [A5 A6]. cbn beta.
    split; [by apply Forall_app_2|]. rewrite length_app. lia.
Qed.

(** *** The batch *)

Lemma batch_envelopes_keeps {X} (f : @World P R → X) topic entries seen :
  (∀ w r, f (Build_World (w_producer w) r (requestRateLimiter w) (byteRateLimiter w)
               (w_metrics w) (w_tick w) (w_out w)) = f w) →
  keeps f (batch_envelopes h topic entries seen).
Proof.
  intros Hf. revert seen. induction entries as [|e entries IH]; intros seen;
    cbn [batch_envelopes]; [apply keeps_ret|].
  destruct (validateBatchID (ve_ID e) seen) as [[err|] seen'].
  - apply keeps_bind; [done|intros; apply keeps_ret].
  - apply keeps_bind; [by apply keeps_with_registry|]. intros env.
    apply keeps_bind; [done|intros; apply keeps_ret].
Qed.

(** What the first loop makes of the entries: checked records, with distinct
    ids not seen before, and one envelope or one failure for each entry. *)
Record enveloped (topic : string) (entries : list v3ProduceBatchEntry) (seen : gset string)
    (envs : list v3RecordEnvelope) (fails : list v3ProduceBatchFailure) : Prop := {
  ev_within : Forall (λ env, within_limits topic (config_decodeLimits (h_cfg h)) None
                              (env_record env)) envs;
  ev_ids : (env_id <$> envs) ++ (vf_ID <$> fails) ≡ₚ ve_ID <$> entries;
  ev_nodup : NoDup (env_id <$> envs);
  ev_valid : Forall (λ env, env_id env ≠ "" ∧ slen (env_id env) <= 80 ∧ env_id env ∉ seen) envs;
}.

Lemma validateBatchID_spec id seen :
  match validateBatchID id seen with
  | (Some _, seen') => seen' = seen
  | (None, seen') => seen' = {[id]} ∪ seen ∧ id ≠ "" ∧ slen id <= 80 ∧ id ∉ seen
  end.
Proof.
  unfold validateBatchID. destruct (String.eqb id "") eqn:E1; [done|].
  destruct (80 <? slen id) eqn:E2; [done|]. destruct (bool_decide (id ∈ seen)) eqn:E3; [done|].
  zbool. apply String.eqb_neq in E1. done.
Qed.

Lemma enveloped_fail topic e entries seen envs fails f : vf_ID f = ve_ID e →
  enveloped topic entries seen envs fails → enveloped topic (e :: entries) seen envs (f :: fails).
Proof.
  intros Hf [A1 A2 A3 A4]. split; [done| |done|done]. cbn. rewrite Hf, <- A2.
  by rewrite Permutation_middle.
Qed.

Lemma not_seen (x y : string) (seen : gset string) : x ∉ {[y]} ∪ seen → x ≠ y ∧ x ∉ seen.
Proof. by rewrite not_elem_of_union, not_elem_of_singleton. Qed.

Lemma enveloped_weaken topic entries id seen envs fails :
  enveloped topic entries ({[id]} ∪ seen) envs fails → enveloped topic entries seen envs fails.
Proof.
  intros [A1 A2 A3 A4]. split; [done..|]. eapply Forall_impl; [exact A4|].
  intros env (?&?&Hn). apply not_seen in Hn as [_ Hn]. done.
Qed.

Lemma batch_envelopes_spec topic entries seen w :
  Forall (λ e, v3_record_ints (ve_record e)) entries →
  enveloped topic entries seen (batch_envelopes h topic entries seen w : _ * @World P R).1.1
    (batch_envelopes h topic entries seen w).1.2.
Proof.
  revert seen w. induction entries as [|e entries IH]; intros seen w Hall;
    cbn [batch_envelopes]. { split; constructor. }
  apply Forall_cons in Hall as [He Hall].
  pose proof (validateBatchID_spec (ve_ID e) seen) as Hv.
  destruct (validateBatchID (ve_ID e) seen) as [[err|] seen'].
  - subst seen'. unfold bind. specialize (IH seen w Hall).
    destruct (batch_envelopes h topic entries seen w) as [[envs fails] w']. cbn in *.
    by apply enveloped_fail.
  - destruct Hv as (->&Hne&Hlen&Hnot). unfold bind.
    pose proof (envelope_within topic (ve_ID e) (ve_record e) w) as Hw.
    destruct (v3_envelope h topic (ve_ID e) (ve_record e) w) as [env w1].
    specialize (IH ({[ve_ID e]} ∪ seen) w1 Hall).
    destruct (batch_envelopes h topic entries ({[ve_ID e]} ∪ seen) w1) as [[envs fails] w'].
    cbn in *. destruct env as [env|err].
    + destruct (Hw env He eq_refl) as [A1 A2]. destruct IH as [B1 B2 B3 B4].
      split; [by constructor| | |]; cbn; rewrite ?A2.
      * by rewrite B2.
      * apply NoDup_cons_2; [|done]. rewrite list_elem_of_fmap. intros (env'&E&Hin).
        rewrite Forall_forall in B4. apply B4 in Hin as (_&_&Hn).
        by apply not_seen in Hn as [Hn _].
      * constructor; [by rewrite A2|]. eapply Forall_impl; [exact B4|].
        intros env' (?&?&Hn). by apply not_seen in Hn as [_ Hn].
    + apply enveloped_fail; [done|]. by eapply enveloped_weaken.
Qed.

Lemma batch_results_keeps {X} (f : @World P R → X) target envs results :
  (∀ w n, f (Build_World (w_producer w) (w_registry w) (requestRateLimiter w) (byteRateLimiter w)
               (w_metrics w) n (w_out w)) = f w) →
  keeps f (batch_results clock time_MarshalJSON target envs results).
Proof.
  intros Hf. revert envs. induction results as [|r results IH]; intros [|env envs];
    cbn [batch_results]; try apply keeps_ret.
  destruct (resultFailed r) eqn:E.
  - apply keeps_bind; [done|intros; apply keeps_ret].
  - apply keeps_bind; [|intros; apply keeps_bind; [done|intros; apply keeps_ret]].
    unfold v3BatchSuccessForResult, v3ResponseForResult. rewrite E.
    apply keeps_bind; [|intros; apply keeps_ret].
    apply keeps_bind; [|intros; apply keeps_ret]. intros w. apply Hf.
Qed.

Lemma Forall_sublist {A} (Q : A → Prop) l l' : sublist l l' → Forall Q l' → Forall Q l.
Proof. induction 1; intros Hl; inversion Hl; auto. Qed.

(** One success or one failure for each result. *)
Lemma batch_results_spec target envs results w :
  length results = length envs →
  ∃ succ failed,
    (batch_results clock time_MarshalJSON target envs results w : _ * @World P R).1 =
      Some (succ, failed) ∧
    (vs_ID <$> succ) ++ (vf_ID <$> failed) ≡ₚ env_id <$> envs ∧
    sublist (vs_ID <$> succ) (env_id <$> envs).
Proof.
  revert envs w. induction results as [|r results IH]; intros [|env envs] w Hl; try done;
    cbn [batch_results].
  { exists [], []. done. }
  injection Hl as Hl. destruct (resultFailed r) eqn:E; unfold bind.
  - destruct (IH envs w Hl) as (succ&failed&Hr&Hp&Hs).
    destruct (batch_results _ _ target envs results w) as [o w']. cbn in *. subst o.
    eexists succ, (_ :: failed). split; [done|]. cbn. split; [|by constructor].
    by rewrite <- Hp, Permutation_middle.
  - unfold v3BatchSuccessForResult, v3ResponseForResult, bind. rewrite E.
    destruct (now_UTC clock time_MarshalJSON w) as [t w1].
    destruct (IH envs w1 Hl) as (succ&failed&Hr&Hp&Hs). cbn.
    destruct (batch_results _ _ target envs results w1) as [o w']. cbn in *. subst o.
    eexists (_ :: succ), failed. split; [done|]. cbn. split; [by rewrite Hp|by constructor].
Qed.

(** What a batch asks: at most one call, with all the checked records. *)
Lemma batch_asks target body :
  asking (handleV3BatchBody clock time_UnmarshalJSON time_MarshalJSON h target body : M observed)
    (λ _ calls, (length calls <= 1)%nat ∧ Forall (λ c, c ≠ []) calls ∧
       Forall (within target) (concat calls) ∧
       Z.of_nat (length (concat calls)) <= cfg_MaxRecords (h_cfg h)).
Proof.
  assert (∀ o : observed, asking (P := P) (R := R) (ret o) (λ _ calls, (length calls <= 1)%nat ∧
    Forall (λ c, c ≠ []) calls ∧ Forall (within target) (concat calls) ∧
    Z.of_nat (length (concat calls)) <= cfg_MaxRecords (h_cfg h))) as Hnone.
  { intros o. apply asking_ret. split_and!; [simpl; lia|constructor|constructor|simpl; lia]. }
  unfold handleV3BatchBody. destruct (Unmarshal_batch _ body) as [req|err] eqn:Hreq.
  2:{ apply asking_skip; [unfold writeAPIError; keeps|intros; apply Hnone]. }
  apply Unmarshal_batch_ints in Hreq. set (entries := default [] (elems (vb_Entries req))) in *.
  destruct (length entries =? 0)%nat;
    [apply asking_skip; [unfold writeAPIError; keeps|intros; apply Hnone]|].
  destruct (cfg_MaxRecords (h_cfg h) <? Z.of_nat (length entries)) eqn:Hmax; zbool;
    [apply asking_skip; [unfold writeAPIError; keeps|intros; apply Hnone]|].
  apply (asking_bind _ _ (λ r calls, calls = [] ∧
    enveloped (v3_topic target) entries ∅ r.1 r.2)).
  { intros w. exists []. rewrite batch_envelopes_keeps by done. split; [constructor|].
    split; [done|]. by apply batch_envelopes_spec. }
  intros [envs fails] calls [-> He]. cbn [app].
  assert (length envs <= length entries)%nat as Hlen.
  { pose proof (Permutation_length (ev_ids _ _ _ _ _ He)) as Hp.
    rewrite length_app, !length_fmap in Hp. cbn in Hp. lia. }
  destruct (0 <? length envs)%nat eqn:Hn; zbool.
  2:{ unfold batch_respond. do 3 (apply asking_skip; [keeps|intros _]). apply Hnone. }
  unfold batch_produce. apply asking_skip; [keeps|intros t]. apply asking_produce. intros results.
  apply asking_silent.
  - destruct results as [results|err].
    + destruct (countResultStatus results) as [su fa]. apply keeps_bind; [keeps|intros _].
      apply keeps_bind; [by apply batch_results_keeps|]. intros r. unfold batch_respond.
      destruct r as [[succ failed]|]; keeps.
    + destruct (classifyProduceError err) as [[status code] msg].
      unfold fail, writeAPIError. keeps.
  - intros _. cbn. rewrite app_nil_r, length_fmap. split_and!; [lia| | |lia].
    + constructor; [|constructor]. destruct envs; [simpl in Hn; lia|done].
    + apply Forall_fmap, (ev_within _ _ _ _ _ He).
Qed.

Lemma singles_concat target calls : singles target calls →
  Forall (within target) (concat calls) ∧ length (concat calls) = length calls ∧
  Forall (λ c, length c = 1%nat) calls.
Proof.
  induction 1 as [|c calls (r&->&Hr) _ (A1&A2&A3)]; [by split_and!|]. cbn.
  split_and!; [by constructor|congruence|by constructor].
Qed.

(** Everything a v3 request may ask of the producer. *)
Record v3_servable (r : Request) (calls : list (list PRecord)) : Prop := {
  vs_method : rq_Method r = "POST";
  vs_accept : acceptsV3Response (rq_Header r "Accept") = true;
  vs_content : isJSONContentType (rq_Header r "Content-Type") = true;
  vs_target : ∃ target, v3ProduceTargetFromPath (rq_URL r) = Some target ∧
    topicAllowed h (v3_topic target) = true ∧
    Forall (within target) (concat calls) ∧
    (if batch target then length calls = 1%nat else Forall (λ c, length c = 1%nat) calls);
  vs_count : Z.of_nat (length (concat calls)) <= cfg_MaxRecords (h_cfg h);
}.

Lemma v3_produce_asks r :
  asking (v3_produce clock time_UnmarshalJSON time_MarshalJSON chunk h r : M observed)
    (λ _ calls, calls = [] ∨ v3_servable r calls).
Proof.
  assert (∀ status code msg bl rc, asking (P := P) (R := R) (fail status code msg bl rc)
    (λ _ calls, calls = [] ∨ v3_servable r calls)) as Hfail.
  { intros. unfold fail, writeAPIError. apply asking_silent; [keeps|by left]. }
  assert (∀ kind bl, asking (P := P) (R := R) (rate_limited kind bl)
    (λ _ calls, calls = [] ∨ v3_servable r calls)) as Hlimit.
  { intros. unfold rate_limited, writeRateLimitExceeded, writeAPIError.
    apply asking_silent; [keeps|by left]. }
  unfold v3_produce. destruct (String.eqb (rq_Method r) "POST") eqn:Hm; cbn [negb].
  2:{ apply asking_skip; [keeps|intros; apply Hfail]. }
  destruct (v3ProduceTargetFromPath _) as [target|] eqn:Ht; [|apply Hfail].
  destruct (topicAllowed h (v3_topic target)) eqn:Hal; cbn [negb]; [|apply Hfail].
  destruct (acceptsV3Response _) eqn:Ha; cbn [negb]; [|apply Hfail].
  destruct (isJSONContentType _) eqn:Hc; cbn [negb]; [|apply Hfail].
  apply String.eqb_eq in Hm. apply asking_skip; [keeps|intros ok].
  destruct ok; cbn [negb]; [|apply Hlimit]. destruct (batch target) eqn:Hb; cbn [negb].
  - destruct (readRequestBody _ _) as [body err]. destruct err as [err|].
    { destruct (as_max_bytes err); apply Hfail. }
    apply asking_skip; [keeps|intros ok]. destruct ok; cbn [negb]; [|apply Hlimit].
    eapply asking_weaken; [apply batch_asks|]. intros _ calls (A1&A2&A3&A4).
    destruct calls as [|c [|c' calls]]; [by left| |simpl in A1; lia]. right. split; try done.
    exists target. by rewrite Hb.
  - unfold handleV3RecordStream. eapply asking_bind.
    { apply stream_loop_asks. cbn. lia. }
    intros o calls [A1 A2]. apply asking_ret. rewrite app_nil_r. right.
    apply singles_concat in A1 as (B1&B2&B3). split; try done; [|cbn in A2; lia].
    exists target. by rewrite Hb.
Qed.

(** *** The outcomes of a batch *)

(** The 207 response to a batch: one success or one failure for each entry, and
    the ids of the successes are distinct and valid. *)
Definition batch_answered (body : string) (acts : list raction) : Prop :=
  ∃ req response,
    Unmarshal_batch time_UnmarshalJSON body = Ok req ∧
    acts = [RSetHeader "Content-Type" mediaJSON; RWriteHeader 207;
            RWrite (batch_response_json response +:+ nl)] ∧
    (vs_ID <$> Successes response) ++ (vf_ID <$> Failures response) ≡ₚ
      ve_ID <$> default [] (elems (vb_Entries req)) ∧
    NoDup (vs_ID <$> Successes response) ∧
    Forall (λ s, vs_ID s ≠ "" ∧ slen (vs_ID s) <= 80) (Successes response).

Lemma batch_respond_emits bl rc response :
  emits (batch_respond bl rc response : M observed) (λ o acts, o = (207, bl, rc) ∧
    acts = [RSetHeader "Content-Type" mediaJSON; RWriteHeader 207;
            RWrite (batch_response_json response +:+ nl)]).
Proof. intros w. eexists. split; [cbn; by rewrite <- !app_assoc|done]. Qed.

Context `{!ProducerLaws P}.

Lemma emits_produce {B} deadline rs (k : res (list Result) → M B) Q :
  (∀ results, (∀ l, results = Ok l → length l = length rs) → emits (k results) Q) →
  emits (bind (produce deadline rs) k) Q.
Proof.
  intros Hk w. unfold bind, produce.
  destruct (Produce deadline rs (w_producer w)) as [results p] eqn:Hp.
  destruct (Hk results) with (w := Build_World p (w_registry w) (requestRateLimiter w)
    (byteRateLimiter w) (w_metrics w) (w_tick w) (w_out w)) as (acts&Ho&HQ).
  - intros l ->. by eapply produce_length.
  - by exists acts.
Qed.

Lemma emits_batch_results {B} target envs results (k : _ → M B) Q :
  length results = length envs →
  (∀ succ failed, (vs_ID <$> succ) ++ (vf_ID <$> failed) ≡ₚ env_id <$> envs →
     sublist (vs_ID <$> succ) (env_id <$> envs) → emits (k (Some (succ, failed))) Q) →
  emits (bind (batch_results clock time_MarshalJSON target envs results) k) Q.
Proof.
  intros Hl Hk w. unfold bind.
  destruct (batch_results_spec target envs results w Hl) as (succ&failed&Hr&Hperm&Hsub).
  pose proof (batch_results_keeps w_out target envs results (λ _ _, eq_refl) w) as Ho.
  destruct (batch_results _ _ target envs results w) as [o w']. cbn in Hr, Ho. subst o.
  rewrite <- Ho. by apply Hk.
Qed.

Lemma batch_produce_emits target body bl req envs fails :
  Unmarshal_batch time_UnmarshalJSON body = Ok req →
  enveloped (v3_topic target) (default [] (elems (vb_Entries req))) ∅ envs fails →
  emits (batch_produce clock time_MarshalJSON h target bl envs fails : M observed)
    (λ o acts, answers o.1.1 acts ∧ o.1.1 ≠ 207 ∨ o.1.1 = 207 ∧ batch_answered body acts).
Proof.
  intros Hreq [_ E2 E3 E4]. unfold batch_produce. apply emits_silent_bind; [keeps|intros t].
  apply emits_produce. intros [results|err] Hl.
  - specialize (Hl results eq_refl). rewrite length_fmap in Hl.
    destruct (countResultStatus results) as [su fa]. apply emits_silent_bind; [keeps|intros _].
    apply emits_batch_results; [done|]. intros succ failed Hperm Hsub.
    eapply emits_weaken; [apply batch_respond_emits|]. intros o acts [-> ->]. right.
    split; [done|]. eexists req, _. split; [done|]. split; [done|]. cbn [Successes Failures].
    split_and!.
    + rewrite <- E2, fmap_app, (Permutation_app_comm (vf_ID <$> fails)), app_assoc, Hperm. done.
    + by eapply sublist_NoDup.
    + assert (Forall (λ id, id ≠ "" ∧ slen id <= 80) (vs_ID <$> succ)) as Hv;
        [|by apply Forall_fmap in Hv].
      eapply Forall_sublist; [exact Hsub|]. apply Forall_fmap.
      eapply Forall_impl; [exact E4|]. intros env (?&?&_). done.
  - destruct (classifyProduceError err) as [[status code] msg] eqn:Hc.
    eapply emits_weaken; [apply fail_answers|]. intros o acts [-> Ha]. left. split; [done|].
    unfold classifyProduceError in Hc. cbn. repeat split_if_in Hc; by injection Hc as <- _ _.
Qed.

Lemma batch_emits target body :
  emits (handleV3BatchBody clock time_UnmarshalJSON time_MarshalJSON h target body : M observed)
    (λ o acts, answers o.1.1 acts ∧ o.1.1 ≠ 207 ∨ o.1.1 = 207 ∧ batch_answered body acts).
Proof.
  assert (∀ status code msg bl rc, status ≠ 207 → emits (P := P) (R := R) (fail status code msg bl rc)
    (λ o acts, answers o.1.1 acts ∧ o.1.1 ≠ 207 ∨ o.1.1 = 207 ∧ batch_answered body acts)) as Hfail.
  { intros status code msg bl rc Hs. eapply emits_weaken; [apply fail_answers|].
    intros o acts [-> Ha]. by left. }
  unfold handleV3BatchBody. destruct (Unmarshal_batch _ body) as [req|err] eqn:Hreq; [|by apply Hfail].
  destruct (length _ =? 0)%nat; [by apply Hfail|].
  destruct (cfg_MaxRecords (h_cfg h) <? _); [by apply Hfail|].
  pose proof (Unmarshal_batch_ints _ _ _ Hreq) as Hints.
  eapply emits_bind with (Qm := λ r acts, acts = [] ∧
    enveloped (v3_topic target) (default [] (elems (vb_Entries req))) ∅ r.1 r.2).
  { intros w. exists []. rewrite batch_envelopes_keeps, app_nil_r by done. split; [done|].
    split; [done|]. by apply batch_envelopes_spec. }
  intros [envs fails] acts [-> He]. cbn [app]. destruct (0 <? length envs)%nat eqn:Hn.
  - by eapply batch_produce_emits.
  - eapply emits_weaken; [apply batch_respond_emits|]. intros o acts [-> ->]. right. split; [done|].
    eexists req, _. split; [done|]. split; [done|]. cbn [Successes Failures].
    destruct He as [_ E2 _ _]. destruct envs; [|done]. cbn in *. split_and!; [done|constructor|constructor].
Qed.
End gate.

(** ** The status line of a response *)

Definition statuses (acts : list raction) : list Z :=
  omap (λ a, match a with RWriteHeader s => Some s | _ => None end) acts.

Lemma statuses_app l l' : statuses (l ++ l') = statuses l ++ statuses l'.
Proof. apply omap_app. Qed.

Lemma answers_statuses status acts : answers status acts → statuses acts = [status].
Proof.
  intros (hdrs&body&->&Hh&_). rewrite statuses_app.
  assert (statuses hdrs = []) as ->; [|done].
  induction Hh as [|a hdrs Ha _ IH]; [done|]. by destruct a.
Qed.

Section stream.
Context {P R : Type} `{Producer P} `{Codecs} `{Registry R} (clock : nat → Z).
Context (time_UnmarshalJSON : string → option error) (time_MarshalJSON : nat → string).
Context (chunk : nat → nat) (h : Handler).
Abbreviation M := (@M P R).

(** The variables of a stream between two turns. *)
Record stream_ok (s : stream) : Prop := {
  so_status : sm_status s = 200;
  so_records : 0 <= sm_records s;
  so_wrote : sm_wrote s = (0 <? sm_records s);
}.

(** A turn that ends the stream reports the status that was written; one that
    goes on has begun the response and consumed input. *)
Definition turn_emits (s : stream) (r : observed + stream) (acts : list raction) : Prop :=
  match r with
  | inl o => if sm_wrote s then statuses acts = [] ∧ o.1.1 = 200 else statuses acts = [o.1.1]
  | inr s' => stream_ok s' ∧ sm_wrote s' = true ∧ sm_dec s' = sm_dec s ∧
              statuses acts = if sm_wrote s then [] else [200]
  end.

Lemma emits_write {B} s resp (k : stream → M B) Q :
  (∀ acts, statuses acts = (if sm_wrote s then [] else [200]) →
     emits (k (written s)) (λ b acts', Q b (acts ++ acts'))) →
  emits (bind (writeRecordResponse s resp) k) Q.
Proof.
  intros Hk. apply (emits_bind _ _ (λ s' acts, s' = written s ∧
    statuses acts = if sm_wrote s then [] else [200])); [|intros s' acts [-> Ha]; by apply Hk].
  intros w. unfold writeRecordResponse, written. destruct (sm_wrote s); cbn;
    (eexists; split; [by rewrite <- !app_assoc|by rewrite ?app_nil_r]).
Qed.

Lemma end_stream_emits s status code msg : sm_status s = 200 →
  emits (bind (end_stream s status code msg) (λ o, ret (inl o)) : M (observed + stream))
    (turn_emits s).
Proof.
  intros Hs. unfold end_stream, turn_emits. destruct (sm_wrote s) eqn:Hw.
  - apply (emits_bind _ _ (λ o acts, statuses acts = [] ∧ o.1.1 = 200)).
    + unfold writeStreamError. apply emits_write. rewrite Hw. intros acts Ha. apply emits_ret.
      rewrite app_nil_r. cbn. by rewrite Hw.
    + intros o acts [A1 A2]. apply emits_ret. by rewrite app_nil_r.
  - intros w. unfold writeAPIError. cbn. eexists. split; [by rewrite <- !app_assoc|done].
Qed.

Lemma emits_turn_silent {A} s (m : M A) (k : A → M (observed + stream)) :
  keeps w_out m → (∀ a, emits (k a) (turn_emits s)) → emits (bind m k) (turn_emits s).
Proof. apply emits_silent_bind. Qed.

Lemma stream_produce_emits target env s :
  sm_status s = 200 → 0 < sm_records s →
  emits (stream_produce clock time_MarshalJSON h target env s : M _) (turn_emits s).
Proof.
  intros Hs Hr. unfold stream_produce. do 4 (apply emits_turn_silent; [keeps|intros ?]).
  destruct a1 as [results|err].
  - apply emits_turn_silent; [keeps|intros _]. destruct (countResultStatus _) as [su fa].
    apply emits_turn_silent; [keeps|intros _].
    apply emits_turn_silent; [unfold v3ResponseForResult, now_UTC; keeps|intros resp].
    apply emits_write. intros acts Ha. apply emits_ret. rewrite app_nil_r.
    split; [|split_and!; [done|done|exact Ha]]. split; cbn; [by destruct (sm_wrote s)|lia|].
    symmetry. by apply Z.ltb_lt.
  - destruct (classifyProduceError _) as [[status code] msg].
    do 2 (apply emits_turn_silent; [keeps|intros _]).
    apply emits_turn_silent; [destruct (errors_Is _ ErrOverloaded); keeps|intros _].
    by apply end_stream_emits.
Qed.

Lemma stream_record_emits target rec before s :
  sm_status s = 200 → 0 <= sm_records s → sm_wrote s = (0 <? sm_records s) →
  emits (stream_record clock time_MarshalJSON h target rec before s : M _) (turn_emits s).
Proof.
  intros Hs Hr Hw. unfold stream_record. apply emits_turn_silent; [keeps|intros ok].
  destruct ok; cbn [negb].
  2:{ do 2 (apply emits_turn_silent; [keeps|intros _]). by apply end_stream_emits. }
  set (s1 := {| sm_dec := sm_dec s; sm_wrote := sm_wrote s; sm_status := sm_status s;
                sm_records := sm_records s + 1 |}).
  assert (∀ m : M (observed + stream), emits m (turn_emits s1) → emits m (turn_emits s)) as Hs1 by done.
  apply Hs1. destruct (cfg_MaxRecords (h_cfg h) <? sm_records s1).
  { apply emits_turn_silent; [keeps|intros _]. by apply end_stream_emits. }
  apply emits_turn_silent.
  { intros w. exact (keeps_with_registry w_out _ (λ _ _, eq_refl) w). }
  intros [env|err]; [apply stream_produce_emits; [done|cbn; lia]|].
  apply emits_turn_silent; [keeps|intros _]. apply emits_write. intros acts Ha. apply emits_ret.
  rewrite app_nil_r. split; [|split_and!; [done|done|exact Ha]].
  split; cbn; [by destruct (sm_wrote s)|lia|]. symmetry. apply Z.ltb_lt. lia.
Qed.

(** One turn: as above, and the decoder has moved on. *)
Definition step_emits (s : stream) (r : observed + stream) (acts : list raction) : Prop :=
  match r with
  | inl o => if sm_wrote s then statuses acts = [] ∧ o.1.1 = 200 else statuses acts = [o.1.1]
  | inr s' => stream_ok s' ∧ sm_wrote s' = true ∧
              (String.length (pending (sm_dec s')) < String.length (pending (sm_dec s)))%nat ∧
              statuses acts = if sm_wrote s then [] else [200]
  end.

Lemma stream_step_emits target s : stream_ok s →
  emits (stream_step clock time_UnmarshalJSON time_MarshalJSON chunk h target s : M _)
    (step_emits s).
Proof.
  intros [Hs Hr Hw]. unfold stream_step. destruct (stream_Decode _ _ _ _) as [[rec|err] d] eqn:E.
  - apply stream_Decode_consumes in E as [_ Hlt].
    eapply emits_weaken; [by apply stream_record_emits|].
    intros [o|s'] acts Ho; [exact Ho|]. destruct Ho as (A1&A2&A3&A4). unfold step_emits.
    by rewrite A3.
  - set (s1 := {| sm_dec := d; sm_wrote := sm_wrote s; sm_status := sm_status s;
                  sm_records := sm_records s |}).
    assert (∀ m : M (observed + stream), emits m (turn_emits s1) →
      (∀ w, is_Some (match (m w).1 with inl o => Some o | inr _ => None end)) →
      emits m (step_emits s)) as Hs1.
    { intros m Hm Hl w. destruct (Hm w) as (acts&Ho&HQ). exists acts. split; [done|].
      specialize (Hl w). destruct (m w) as [[o|s'] w']; [exact HQ|by destruct Hl]. }
    destruct (errors_Is err ioEOF).
    + unfold stream_end. destruct (sm_records s1 =? 0) eqn:E0; zbool; cbn in E0.
      * intros w. eexists. cbn. split; [by rewrite <- !app_assoc|].
        assert (sm_wrote s = false) as -> by (rewrite Hw; by apply Z.ltb_ge; lia). done.
      * apply emits_ret. cbn. assert (sm_wrote s = true) as -> by (rewrite Hw; by apply Z.ltb_lt; lia).
        done.
    + apply Hs1; [destruct (as_max_bytes err); by apply end_stream_emits|].
      intros w. unfold bind.
      by destruct ((if as_max_bytes err then end_stream s1 413 413 _
                    else end_stream s1 400 errorCodeBadRequest (Error err)) w).
Qed.

Lemma stream_loop_emits fuel target s :
  stream_ok s → (String.length (pending (sm_dec s)) < fuel)%nat →
  emits (stream_loop clock time_UnmarshalJSON time_MarshalJSON chunk h fuel target s : M _)
    (λ r acts, ∃ o, r = Some o ∧
       if sm_wrote s then statuses acts = [] ∧ o.1.1 = 200 else statuses acts = [o.1.1]).
Proof.
  revert s. induction fuel as [|fuel IH]; intros s Hs Hf; [lia|]. cbn [stream_loop].
  eapply emits_bind; [by apply stream_step_emits|]. intros [o|s'] acts Ho.
  - apply emits_ret. exists o. by rewrite app_nil_r.
  - destruct Ho as (A1&A2&A3&A4). eapply emits_weaken; [apply IH; [done|lia]|].
    intros r acts' (o&->&Ho). exists o. split; [done|].
    rewrite A2 in Ho. destruct Ho as [B1 B2]. rewrite statuses_app, A4, B1, B2.
    by destruct (sm_wrote s).
Qed.

Lemma stream_loop_mono fuel fuel' target s (w : @World P R) o w' : (fuel <= fuel')%nat →
  stream_loop clock time_UnmarshalJSON time_MarshalJSON chunk h fuel target s w = (Some o, w') →
  stream_loop clock time_UnmarshalJSON time_MarshalJSON chunk h fuel' target s w = (Some o, w').
Proof.
  revert fuel' s w. induction fuel as [|fuel IH]; intros fuel' s w Hf; [done|].
  destruct fuel' as [|fuel']; [lia|]. cbn [stream_loop]. unfold bind.
  destruct (stream_step _ _ _ _ _ _ _ w) as [[o'|s'] w1]; [done|]. apply IH. lia.
Qed.

Lemma record_stream_emits r target :
  emits (handleV3RecordStream clock time_UnmarshalJSON time_MarshalJSON chunk h r target : M _)
    (λ o acts, statuses acts = [o.1.1]).
Proof.
  unfold handleV3RecordStream. set (src := body_reader h r).
  eapply emits_bind; [apply (stream_loop_emits _ target
    {| sm_dec := NewDecoder src; sm_wrote := false; sm_status := 200; sm_records := 0 |})|].
  - by split.
  - unfold pending. cbn [sm_dec NewDecoder dec_buf dec_src]. rewrite app_nil_l. lia.
  - intros r' acts (o&->&Ho). apply emits_ret. by rewrite app_nil_r.
Qed.

Lemma v3_produce_emits `{!ProducerLaws P} r : 0 < cfg_MaxHeaders (h_cfg h) →
  emits (v3_produce clock time_UnmarshalJSON time_MarshalJSON chunk h r : M observed)
    (λ o acts, statuses acts = [o.1.1]).
Proof.
  intros Hpos.
  assert (∀ status code msg bl rc, emits (P := P) (R := R) (fail status code msg bl rc)
    (λ o acts, statuses acts = [o.1.1])) as Hfail.
  { intros. eapply emits_weaken; [apply fail_answers|].
    intros o acts [-> Ha]. by apply answers_statuses. }
  assert (∀ kind bl, emits (P := P) (R := R) (rate_limited kind bl)
    (λ o acts, statuses acts = [o.1.1])) as Hlimit.
  { intros. eapply emits_weaken; [apply rate_limited_answers|].
    intros o acts [-> Ha]. by apply answers_statuses. }
  unfold v3_produce. destruct (String.eqb (rq_Method r) "POST"); cbn [negb].
  2:{ apply emits_out_bind. eapply emits_weaken; [apply Hfail|]. done. }
  destruct (v3ProduceTargetFromPath _) as [target|]; [|apply Hfail].
  destruct (topicAllowed h (v3_topic target)); cbn [negb]; [|apply Hfail].
  destruct (acceptsV3Response _); cbn [negb]; [|apply Hfail].
  destruct (isJSONContentType _); cbn [negb]; [|apply Hfail].
  apply emits_silent_bind; [keeps|intros ok].
  destruct ok; cbn [negb]; [|apply Hlimit].
  destruct (batch target); cbn [negb]; [|apply record_stream_emits].
  destruct (readRequestBody _ _) as [body err]. destruct err as [err|].
  { destruct (as_max_bytes err); apply Hfail. }
  apply emits_silent_bind; [keeps|intros ok]. destruct ok; cbn [negb]; [|apply Hlimit].
  eapply emits_weaken; [by apply batch_emits|].
  intros o acts [[Ha _]|(Hst&req&response&_&->&_)]; [by apply answers_statuses|]. by rewrite Hst.
Qed.

Lemma stream_loop_core fuel target s :
  keeps w_core (stream_loop clock time_UnmarshalJSON time_MarshalJSON chunk h fuel target s : M _).
Proof.
  revert s. induction fuel as [|fuel IH]; intros s; cbn [stream_loop]; [apply keeps_ret|].
  apply keeps_bind; [|intros [o|s']; [apply keeps_ret|apply IH]].
  unfold stream_step, stream_record, stream_produce, stream_end, end_stream, writeStreamError,
    writeRecordResponse, writeAPIError, v3_envelope, v3ResponseForResult, now_UTC.
  keeps.
Qed.

Lemma v3_produce_core r :
  keeps w_core (v3_produce clock time_UnmarshalJSON time_MarshalJSON chunk h r : M _).
Proof.
  assert (∀ target envs results,
    keeps w_core (batch_results clock time_MarshalJSON target envs results : M _)) as Hb.
  { intros. by apply batch_results_keeps. }
  assert (∀ topic entries seen, keeps w_core (batch_envelopes h topic entries seen : M _)) as He.
  { intros. by apply batch_envelopes_keeps. }
  pose proof stream_loop_core as Hl.
  unfold v3_produce, handleV3RecordStream, handleV3BatchBody, batch_produce, batch_respond,
    rate_limited, writeRateLimitExceeded, fail, writeAPIError.
  repeat first [apply Hb | apply He | apply Hl | keeps_step].
Qed.
End stream.

(** ** Properties *)

Section claims.
Context {P R : Type} `{Producer P} `{Codecs} `{Registry R} (clock : nat → Z).
Context (time_UnmarshalJSON : string → option error) (time_MarshalJSON : nat → string).
Context (chunk : nat → nat) (cfg : APIConfig) (enc : option Encoder) (t0 : Z).
Let h := (NewHandlerWithSchema cfg enc t0).1.1.

(** C7: nothing reaches Kafka unchecked through v3: whatever a request holds
    and however its body arrives, the producer is asked only for a POST with
    acceptable headers to an allowed topic, with at most [MaxRecords] records,
    all for that topic and within every key, header and record limit; a batch
    asks exactly once, a record stream once for each single record. *)
Theorem v3_produce_gate (r : Request) (w : @World P R) :
  ∃ calls,
    asks (w_producer w) calls (w_producer
      (handleV3Produce clock time_UnmarshalJSON time_MarshalJSON chunk h r w).2) ∧
    (calls = [] ∨ v3_servable h r calls).
Proof.
  assert (asking (handleV3Produce clock time_UnmarshalJSON time_MarshalJSON chunk h r : M unit)
    (λ _ calls, calls = [] ∨ v3_servable h r calls)) as Hh; [|apply Hh].
  unfold handleV3Produce, observed_request. do 2 (apply asking_skip; [keeps|intros ?]).
  eapply asking_bind; [apply v3_produce_asks|].
  - unfold h, NewHandlerWithSchema, config_withDefaults, positive_or. cbn. split_if; zbool; lia.
  - unfold h, NewHandlerWithSchema, config_withDefaults, positive_or. cbn. split_if; zbool; lia.
  - intros [[status bl] rc] calls Hc. apply asking_silent; [keeps|]. intros _.
    by rewrite app_nil_r.
Qed.

(** C11: a v3 batch is accounted for entry by entry: the response either is one
    error response for the whole batch, or is the 207 document in which every
    entry of the request has exactly one outcome, a success or a failure under
    its id, and no id succeeds twice; a producer that keeps its contract of one
    result per record never makes the handler index out of range. *)
Theorem v3_batch_accounted `{!ProducerLaws P} target body (w : @World P R) :
  ∃ acts,
    w_out (handleV3BatchBody clock time_UnmarshalJSON time_MarshalJSON h target body w).2 =
      w_out w ++ acts ∧
    ((∃ status, answers status acts ∧ status ≠ 207) ∨
     batch_answered time_UnmarshalJSON body acts).
Proof.
  assert (0 < cfg_MaxHeaders (h_cfg h)) as Hpos.
  { unfold h, NewHandlerWithSchema, config_withDefaults, positive_or. cbn. split_if; zbool; lia. }
  destruct (batch_emits clock time_UnmarshalJSON time_MarshalJSON h Hpos target body w)
    as (acts&Ho&[[Ha Hs]|[_ Hb]]); exists acts; eauto.
Qed.

(** C21: a v3 response has one status line, and the metrics agree with it: every
    request, batch or record stream of any length, ended by whatever error,
    writes exactly one status, is counted once under the class of that very
    status, adds its records to the accepted ones only below 400, and leaves the
    gauge of active requests as it found it. *)
Theorem v3_produce_metrics `{!ProducerLaws P} (r : Request) (w : @World P R) m :
  w_metrics w = Some m → in_i64 (outstandingRequests m) →
  let w' := (handleV3Produce clock time_UnmarshalJSON time_MarshalJSON chunk h r w).2 in
  ∃ status bytes records acts m',
    w_out w' = w_out w ++ acts ∧ statuses acts = [status] ∧ w_metrics w' = Some m' ∧
    requests m' = incr (statusClass status) (requests m) ∧
    requestBytes m' = requestBytes m + bytes ∧
    recordsAccepted m' =
      recordsAccepted m + (if (0 <? records) && (status <? 400) then records else 0) ∧
    outstandingRequests m' = outstandingRequests m.
Proof.
  apply (observed_request_metrics clock _ (λ status acts, statuses acts = [status])).
  - apply v3_produce_core.
  - apply v3_produce_emits; [done|]. unfold h, NewHandlerWithSchema, config_withDefaults, positive_or.
    cbn. split_if; zbool; lia.
Qed.

(** C22: a record stream always comes to an end: every turn of the loop either
    returns or consumes a byte of the body, so that as many turns as the body
    has bytes, and one more, end the loop; more turns change nothing. *)
Theorem v3_stream_terminates (r : Request) target (w : @World P R) :
  let src := body_reader h r in
  let s := {| sm_dec := NewDecoder src; sm_wrote := false; sm_status := 200; sm_records := 0 |} in
  ∃ o w', ∀ fuel, (String.length (src_left src) < fuel)%nat →
    stream_loop clock time_UnmarshalJSON time_MarshalJSON chunk h fuel target s w = (Some o, w').
Proof.
  cbv zeta. set (src := body_reader h r).
  destruct (stream_loop_emits clock time_UnmarshalJSON time_MarshalJSON chunk h
    (S (String.length (src_left src))) target
    {| sm_dec := NewDecoder src; sm_wrote := false; sm_status := 200; sm_records := 0 |})
    with (w := w) as (acts&_&o&Ho&_); [by split|apply le_n|].
  destruct (stream_loop _ _ _ _ _ (S _) _ _ w) as [x w'] eqn:E. cbn in Ho. subst x.
  exists o, w'. intros fuel Hf.
  eapply stream_loop_mono; [|exact E]. lia.
Qed.
End claims.

(** ** A concrete instance *)

Definition sample_v3_batch : Request :=
  Sample.request "/v3/clusters/c/topics/t1/records:batch"
    (qt "{'entries':[{'id':'1','value':{'type':'STRING','data':'x'}},{'id':'1'},{'id':'2','partition_id':-1},{'id':'3','partition_id':7}]}").

Definition sample_v3_stream : Request :=
  Sample.request "/v3/clusters/c/topics/t1/records"
    (qt "{'value':{'type':'STRING','data':'x'}} {'value':{'type':'BAD','data':1}} 12").

Definition serve_v3 (r : Request) (w : @World (list PRecord) MemoryRegistry) :
    unit * @World (list PRecord) MemoryRegistry :=
  handleV3Produce (H := Sample.producer) (H0 := Sample.codecs) (λ n, Z.of_nat n) (λ _, None)
    (λ _, qt "'2024-01-01T00:00:00Z'") (λ _, 3%nat) Sample.h r w.

(** The two valid entries are produced; the other two fail under their ids. *)
Example v3_batch_ex :
  let w' := (serve_v3 sample_v3_batch Sample.world).2 in
  (w_producer w', statuses (w_out w')) =
  ([Build_PRecord "t1" None (Some "x") [] None; Build_PRecord "t1" None None [] (Some 7)], [207]).
Proof. vm_compute. reflexivity. Qed.

(** One line for the record, one for the unknown type, one for the value that
    is not an object. *)
Example v3_stream_ex :
  let w' := (serve_v3 sample_v3_stream Sample.world).2 in
  (w_producer w', length (filter (λ a, a = RFlush) (w_out w')), statuses (w_out w')) =
  ([Build_PRecord "t1" None (Some "x") [] None], 3%nat, [200]).
Proof. vm_compute. reflexivity. Qed.

Lemma v3_produce_metrics_witness :
  let w' := (serve_v3 sample_v3_stream Sample.world).2 in
  ∃ status bytes records acts m',
    w_out w' = w_out Sample.world ++ acts ∧ statuses acts = [status] ∧ w_metrics w' = Some m' ∧
    requests m' = incr (statusClass status) (requests zero_Metrics) ∧
    requestBytes m' = requestBytes zero_Metrics + bytes ∧
    recordsAccepted m' = recordsAccepted zero_Metrics +
      (if (0 <? records) && (status <? 400) then records else 0) ∧
    outstandingRequests m' = outstandingRequests zero_Metrics.
Proof.
  apply (v3_produce_metrics (H := Sample.producer) (H0 := Sample.codecs)
    (ProducerLaws0 := Sample.producer_laws) (λ n, Z.of_nat n)
    (λ _, None) (λ _, qt "'2024-01-01T00:00:00Z'") (λ _, 3%nat) Sample.cfg None 0);
    [reflexivity|]. unfold in_i64. cbn. lia.
Defined.

Lemma v3_batch_accounted_witness :
  ∃ acts,
    w_out (handleV3BatchBody (H := Sample.producer) (H0 := Sample.codecs) (λ n, Z.of_nat n)
             (λ _, None) (λ _, qt "'2024-01-01T00:00:00Z'") Sample.h
             {| clusterID := "c"; v3_topic := "t1"; batch := true |}
             (rq_Body sample_v3_batch) Sample.world).2 = w_out Sample.world ++ acts ∧
    ((∃ status, answers status acts ∧ status ≠ 207) ∨
     batch_answered (λ _, None) (rq_Body sample_v3_batch) acts).
Proof.
  apply (v3_batch_accounted (H := Sample.producer) (H0 := Sample.codecs)
    (ProducerLaws0 := Sample.producer_laws) (λ n, Z.of_nat n)
    (λ _, None) (λ _, qt "'2024-01-01T00:00:00Z'") Sample.cfg None 0).
Defined.
