(* ===== verification/V3Chunks.v ===== *)
(** * A record stream does not depend on how its body arrives

    Without a byte rate limit, the records produced and the response written
    are the same however the network splits the body; only the byte counter,
    which follows the reads, may differ when a stream is cut short. *)

From S2P Require Import Prelude.
From S2P Require Import GoStrings.
From S2P Require Import GoErrors.
From S2P Require Import Json.
From S2P Require Import JsonStream.
From S2P Require Import JsonStreamFacts.
From S2P Require Import Metrics.
From S2P Require Import SchemaTypes.
From S2P Require Import SchemaRegistry.
From S2P Require Import SchemaEncoder.
From S2P Require Import Producer.
From S2P Require Import Media.
From S2P Require Import Types.
From S2P Require Import Handler.
From S2P Require Import HandlerFacts.
From S2P Require Import V3.
From S2P Require Import HandlerV3.
From S2P Require Import HandlerV3Facts.
Local Open Scope Z_scope.

(** ** Exchanging the decoder *)

Definition set_dec (d : decoder) (s : stream) : stream :=
  {| sm_dec := d; sm_wrote := sm_wrote s; sm_status := sm_status s; sm_records := sm_records s |}.

Definition redec (d : decoder) (r : observed + stream) : observed + stream :=
  match r with
  | inl o => inl (o.1.1, src_n (dec_src d), o.2)
  | inr s => inr (set_dec d s)
  end.

Section exchange.
Context {P R : Type} `{Producer P} `{Codecs} `{Registry R} (clock : nat → Z).
Context (time_MarshalJSON : nat → string) (h : Handler) (d : decoder).
Abbreviation World := (@World P R).
Abbreviation M := (@M P R).

(** [m'] does what [m] does, with the other decoder in the result. *)
Definition exchanges (m m' : M (observed + stream)) : Prop :=
  ∀ w, m' w = (redec d (m w).1, (m w).2).

Lemma exchanges_bind {A} (m : M A) k k' :
  (∀ a, exchanges (k a) (k' a)) → exchanges (bind m k) (bind m k').
Proof. intros Hk w. unfold bind. destruct (m w) as [a w']. apply Hk. Qed.

Lemma exchanges_write s resp k k' :
  (∀ s', exchanges (k s') (k' (set_dec d s'))) →
  exchanges (bind (writeRecordResponse s resp) k)
    (bind (writeRecordResponse (set_dec d s) resp) k').
Proof.
  intros Hk w. unfold bind at 1 2 3.
  assert (writeRecordResponse (set_dec d s) resp w =
    (set_dec d (writeRecordResponse s resp w).1, (writeRecordResponse s resp w).2)) as ->.
  { unfold writeRecordResponse, set_dec. by destruct (sm_wrote s) eqn:E; cbn; rewrite ?E. }
  destruct (writeRecordResponse s resp w) as [s' w']. cbn. apply Hk.
Qed.

Lemma exchanges_end_stream s status code msg :
  exchanges (bind (end_stream s status code msg) (λ o, ret (inl o)))
    (bind (end_stream (set_dec d s) status code msg) (λ o, ret (inl o))).
Proof.
  unfold end_stream. cbn [sm_wrote set_dec]. destruct (sm_wrote s) eqn:E; [|done].
  intros w. unfold writeStreamError, writeRecordResponse, set_dec. cbn. rewrite E. done.
Qed.

Lemma exchanges_produce target env s :
  exchanges (stream_produce clock time_MarshalJSON h target env s)
    (stream_produce clock time_MarshalJSON h target env (set_dec d s)).
Proof.
  unfold stream_produce. do 4 (apply exchanges_bind; intros ?). destruct a1 as [results|err].
  - apply exchanges_bind; intros _. destruct (countResultStatus _) as [su fa].
    do 2 (apply exchanges_bind; intros ?). apply exchanges_write. by intros s' w.
  - destruct (classifyProduceError _) as [[status code] msg].
    do 3 (apply exchanges_bind; intros ?). apply exchanges_end_stream.
Qed.

Lemma bind_unlimited {B} cost (k : bool → M B) w : byteRateLimiter w = None →
  bind (allowByteRate clock cost) k w = k true w.
Proof. intros Hw. unfold bind, allowByteRate. by rewrite Hw. Qed.

Ltac as_exchange :=
  match goal with |- ∀ w, ?m' w = (redec _ (?m w).1, _) => change (exchanges m m') end.

Lemma exchanges_record target rec before before' s w :
  byteRateLimiter w = None →
  stream_record clock time_MarshalJSON h target rec before' (set_dec d s) w =
    (redec d (stream_record clock time_MarshalJSON h target rec before s w).1,
     (stream_record clock time_MarshalJSON h target rec before s w).2).
Proof.
  intros Hw. unfold stream_record. rewrite !bind_unlimited by done. cbn [negb].
  set (s1 := {| sm_dec := sm_dec s; sm_wrote := sm_wrote s; sm_status := sm_status s;
                sm_records := sm_records s + 1 |}).
  change {| sm_dec := sm_dec (set_dec d s); sm_wrote := sm_wrote (set_dec d s);
            sm_status := sm_status (set_dec d s); sm_records := sm_records (set_dec d s) + 1 |}
    with (set_dec d s1).
  change (sm_records (set_dec d s1)) with (sm_records s1). revert w Hw. intros w _.
  revert w. as_exchange. destruct (cfg_MaxRecords (h_cfg h) <? sm_records s1).
  - apply exchanges_bind. intros _. apply exchanges_end_stream.
  - apply exchanges_bind. intros [env|err]; [apply exchanges_produce|].
    apply exchanges_bind. intros _. apply exchanges_write. by intros s' w.
Qed.
End exchange.

(** ** Two arrivals of one body *)

Section chunks.
Context {P R : Type} `{Producer P} `{Codecs} `{Registry R} (clock : nat → Z).
Context (time_UnmarshalJSON : string → option error) (time_MarshalJSON : nat → string).
Context (h : Handler) (c1 c2 : nat → nat).
Abbreviation World := (@World P R).
Abbreviation M := (@M P R).
Abbreviation loop c := (stream_loop clock time_UnmarshalJSON time_MarshalJSON c h).
Abbreviation turn c := (stream_step clock time_UnmarshalJSON time_MarshalJSON c h).

(** Two decoders that have the same input before them. *)
Definition same_input (d1 d2 : decoder) : Prop :=
  pending d1 = pending d2 ∧ src_end (dec_src d1) = src_end (dec_src d2) ∧
  dec_err d1 = None ∧ dec_err d2 = None.

Lemma Decode_same {A} (decode : A → json → dec A) (zero : A) d1 d2 : same_input d1 d2 →
  let r1 := stream_Decode c1 decode zero d1 in
  let r2 := stream_Decode c2 decode zero d2 in
  r1.1 = r2.1 ∧ (is_ok r1.1 = true → same_input r1.2 r2.2).
Proof.
  intros (Hp&He&H1'&H2'). cbv zeta.
  destruct (stream_Decode_whole c1 decode zero d1 H1') as [E1 W1].
  destruct (stream_Decode_whole c2 decode zero d2 H2') as [E2 W2].
  rewrite <- Hp, <- He in W2. destruct (whole_value _ _) as [[j rest]|e].
  - destruct W1 as (->&P1&N1), W2 as (->&P2&N2). split; [done|]. intros _.
    split_and!; congruence.
  - destruct W1 as [-> _], W2 as [-> _]. done.
Qed.

(** Results that agree but for the byte counter. *)
Definition same_turn (r1 r2 : observed + stream) : Prop :=
  match r1, r2 with
  | inl o1, inl o2 => o1.1.1 = o2.1.1 ∧ o1.2 = o2.2
  | inr s1, inr s2 =>
      ∃ d1 d2 s, s1 = set_dec d1 s ∧ s2 = set_dec d2 s ∧ same_input d1 d2
  | _, _ => False
  end.

Lemma redec_same d1 d2 r : same_input d1 d2 → same_turn (redec d1 r) (redec d2 r).
Proof. intros Hd. destruct r as [o|s]; cbn; [done|]. by exists d1, d2, s. Qed.

Lemma record_keeps_limiter target rec before s (w : World) : byteRateLimiter w = None →
  byteRateLimiter (stream_record clock time_MarshalJSON h target rec before s w).2 = None.
Proof.
  intros Hw. unfold stream_record. rewrite bind_unlimited, <- Hw by done. cbn [negb].
  match goal with |- byteRateLimiter (?m w).2 = _ =>
    assert (keeps byteRateLimiter m) as Hk; [|exact (Hk w)] end.
  unfold stream_produce, end_stream, writeStreamError, writeRecordResponse, writeAPIError,
    v3_envelope, v3ResponseForResult, now_UTC. keeps.
Qed.

Lemma turn_same target d1 d2 s (w : World) : same_input d1 d2 → byteRateLimiter w = None →
  (turn c1 target (set_dec d1 s) w).2 = (turn c2 target (set_dec d2 s) w).2 ∧
  byteRateLimiter (turn c1 target (set_dec d1 s) w).2 = None ∧
  same_turn (turn c1 target (set_dec d1 s) w).1 (turn c2 target (set_dec d2 s) w).1.
Proof.
  intros Hd Hw. unfold stream_step. cbn [sm_dec set_dec sm_wrote sm_status sm_records].
  destruct (Decode_same (decode_v3ProduceRecord time_UnmarshalJSON) zero_v3ProduceRecord d1 d2 Hd)
    as [Hr Hok].
  destruct (stream_Decode c1 _ _ d1) as [r1 d1'], (stream_Decode c2 _ _ d2) as [r2 d2'].
  cbn in Hr, Hok. subst r2. destruct r1 as [rec|err].
  - specialize (Hok eq_refl).
    change {| sm_dec := d1'; sm_wrote := sm_wrote s; sm_status := sm_status s;
              sm_records := sm_records s |} with (set_dec d1' s).
    change {| sm_dec := d2'; sm_wrote := sm_wrote s; sm_status := sm_status s;
              sm_records := sm_records s |} with (set_dec d2' s).
    rewrite !(exchanges_record clock time_MarshalJSON h _ target rec 0 _ s w) by done.
    split; [done|]. split; [by apply record_keeps_limiter|by apply redec_same].
  - destruct (errors_Is err ioEOF).
    + unfold stream_end. cbn [sm_records]. by destruct (sm_records s =? 0).
    + destruct (as_max_bytes err); unfold end_stream; cbn [sm_wrote];
        destruct (sm_wrote s) eqn:E; unfold writeStreamError, writeRecordResponse;
        cbn [sm_wrote]; rewrite ?E; done.
Qed.

Lemma loop_same fuel target d1 d2 s (w : World) : same_input d1 d2 → byteRateLimiter w = None →
  (loop c1 fuel target (set_dec d1 s) w).2 = (loop c2 fuel target (set_dec d2 s) w).2 ∧
  ((λ o, (o.1.1, o.2)) <$> (loop c1 fuel target (set_dec d1 s) w).1) =
  ((λ o, (o.1.1, o.2)) <$> (loop c2 fuel target (set_dec d2 s) w).1).
Proof.
  revert d1 d2 s w. induction fuel as [|fuel IH]; intros d1 d2 s w Hd Hw; [done|].
  cbn [stream_loop]. unfold bind.
  destruct (turn_same target d1 d2 s w Hd Hw) as (E&Hw'&Ht).
  destruct (turn c1 target _ w) as [r1 w1], (turn c2 target _ w) as [r2 w2].
  cbn in E, Hw', Ht. subst w2. destruct r1 as [o1|s1], r2 as [o2|s2]; try done.
  - destruct Ht as [Ho1 Ho2]. cbn. by rewrite Ho1, Ho2.
  - destruct Ht as (d1'&d2'&s'&->&->&Hd'). by apply IH.
Qed.

End chunks.

Section claims.
Context {P R : Type} `{Producer P} `{Codecs} `{Registry R} (clock : nat → Z).
Context (time_UnmarshalJSON : string → option error) (time_MarshalJSON : nat → string).
Context (h : Handler).

(** C15: a record stream means the same however its body arrives: without a byte
    rate limit, the records that are produced, the lines that are written, the
    metrics, the status and the number of records do not depend on the sizes of
    the pieces in which the network delivers the body, even if they cut through
    a value. *)
Theorem v3_stream_chunks (c1 c2 : nat → nat) (r : Request) target (w : @World P R) :
  byteRateLimiter w = None →
  let run c := handleV3RecordStream clock time_UnmarshalJSON time_MarshalJSON c h r target w in
  (run c1).2 = (run c2).2 ∧
  (run c1).1.1.1 = (run c2).1.1.1 ∧ (run c1).1.2 = (run c2).1.2.
Proof.
  intros Hw. cbv zeta. unfold handleV3RecordStream, bind. set (src := body_reader h r).
  set (s := {| sm_dec := NewDecoder src; sm_wrote := false; sm_status := 200; sm_records := 0 |}).
  destruct (loop_same clock time_UnmarshalJSON time_MarshalJSON h c1 c2
    (S (String.length (src_left src))) target (NewDecoder src) (NewDecoder src) s w)
    as [E1 E2]; [done|done|].
  change (set_dec (NewDecoder src) s) with s in E1, E2.
  destruct (stream_loop _ _ _ c1 _ _ _ s w) as [o1 w1], (stream_loop _ _ _ c2 _ _ _ s w) as [o2 w2].
  cbn in *. split; [done|]. destruct o1, o2; cbn in *; try done. by injection E2.
Qed.
End claims.

Lemma v3_stream_chunks_witness :
  let run c := handleV3RecordStream (H := Sample.producer) (H0 := Sample.codecs) (λ n, Z.of_nat n)
    (λ _, None) (λ _, qt "'2024-01-01T00:00:00Z'") c Sample.h sample_v3_stream
    {| clusterID := "c"; v3_topic := "t1"; batch := false |} Sample.world in
  (run (λ _, 1%nat)).2 = (run (λ _, 512%nat)).2 ∧
  (run (λ _, 1%nat)).1.1.1 = (run (λ _, 512%nat)).1.1.1 ∧
  (run (λ _, 1%nat)).1.2 = (run (λ _, 512%nat)).1.2.
Proof.
  exact (v3_stream_chunks (H := Sample.producer) (H0 := Sample.codecs) (λ n, Z.of_nat n)
    (λ _, None) (λ _, qt "'2024-01-01T00:00:00Z'") Sample.h (λ _, 1%nat) (λ _, 512%nat)
    sample_v3_stream {| clusterID := "c"; v3_topic := "t1"; batch := false |} Sample.world eq_refl).
Defined.
