(* ===== verification/Routes.v ===== *)
(** * Routing: [Handler.Routes] of internal/api/handler.go

    The patterns the handler registers, [http.ServeMux]'s choice among them
    (go 1.22 and later), and the authentication in front. *)

From S2P Require Import Prelude.
From S2P Require Import GoStrings.
From S2P Require Import Strconv.
From S2P Require Import GoErrors.
From S2P Require Import Json.
From S2P Require Import Url.
From S2P Require Import Paths.
From S2P Require Import Mime.
From S2P Require Import GoFloat.
From S2P Require Import Config.
From S2P Require Import RateLimit.
From S2P Require Import Metrics.
From S2P Require Import SchemaTypes.
From S2P Require Import SchemaRegistry.
From S2P Require Import SchemaEncoder.
From S2P Require Import Producer.
From S2P Require Import Media.
From S2P Require Import Types.
From S2P Require Import TypesFacts.
From S2P Require Import JsonText.
From S2P Require Import JsonFacts.
From S2P Require Import Handler.
From S2P Require Import HandlerFacts.
From S2P Require Import HandlerSpecs.
From S2P Require Import V3.
From S2P Require Import HandlerV3.
From S2P Require Import V3Facts.
Local Open Scope Z_scope.

(** ** [http.ServeMux] *)

(** What a registered pattern serves. *)
Inductive endpoint :=
  | TopicProduce | V3Produce | Health | Ready | MetricsPage | Pprof (name : string).

#[export] Instance endpoint_eq_dec : EqDecision endpoint.
Proof. solve_decision. Defined.

(** The segments of a path or pattern after its first slash; a trailing slash
    shows as a last empty segment. *)
Definition path_segments (p : string) : list string := Split (TrimPrefix p "/") "/".

(** [pathUnescape]: segments that do not unescape are matched as they are. *)
Definition mux_unescape (s : string) : string := default s (PathUnescape s).

(** A pattern with a trailing slash matches every path below it. *)
Definition is_multi (pat : string) : bool := HasSuffix pat "/".

(** The literal segments of a pattern. *)
Definition literals (pat : string) : list string :=
  filter (λ s, s ≠ "") (path_segments pat).

Definition pattern_matches (pat path : string) : bool :=
  let segs := mux_unescape <$> path_segments path in
  let lits := literals pat in
  if is_multi pat
  then bool_decide (take (length lits) segs = lits) && (length lits <? length segs)%nat
  else bool_decide (segs = lits).

Section mux.
Context (patterns : list (string * endpoint)).

(** [routingNode.match]: a literal wins over what a trailing slash stands for
    at every segment, so the longest matching pattern does. *)
Definition longer (p q : string * endpoint) : bool :=
  (length (literals q.1) <? length (literals p.1))%nat.
Fixpoint longest (best : option (string * endpoint)) (l : list (string * endpoint))
  : option (string * endpoint) :=
  match l with
  | [] => best
  | p :: l => longest (match best with
                       | Some q => if longer p q then Some p else Some q
                       | None => Some p
                       end) l
  end.
Definition mux_match (path : string) : option (string * endpoint) :=
  longest None (filter (λ p, pattern_matches p.1 path = true) patterns).

(** [exactMatch]. *)
Definition exactMatch (n : option (string * endpoint)) (path : string) : bool :=
  match n with
  | None => false
  | Some (pat, _) =>
      negb (is_multi pat) ||
      HasSuffix path "/" && (length (path_segments path) =? S (length (literals pat)))%nat
  end.

(** [cleanPath]. *)
Definition cleanPath (p : string) : string :=
  if String.eqb p "" then "/"
  else
    let p := if HasPrefix p "/" then p else "/" +:+ p in
    let np := Clean p in
    if HasSuffix p "/" && negb (String.eqb np "/") then np +:+ "/" else np.

(** The handler a request is given to: a pattern's, a redirection to a path,
    or [http.NotFoundHandler]. *)
Inductive routing := Serve (e : endpoint) | RedirectTo (path : string) | NotFound.

(** [matchOrRedirect]: the path lacks the trailing slash of a pattern. *)
Definition add_slash (path : string) (u : URL) : option string :=
  let slashed := path +:+ "/" in
  if negb (exactMatch (mux_match path) path) && negb (HasSuffix path "/") &&
     negb (String.eqb path "") && exactMatch (mux_match slashed) slashed
  then Some (cleanPath (Path u) +:+ "/") else None.

(** [ServeMux.findHandler]; CONNECT requests are not canonicalized. *)
Definition findHandler (method : string) (u : URL) : routing :=
  let escapedPath := EscapedPath u in
  let connect := String.eqb method "CONNECT" in
  let path := if connect then escapedPath else cleanPath escapedPath in
  match add_slash path u with
  | Some p => RedirectTo p
  | None =>
      if negb connect && negb (String.eqb path escapedPath) then RedirectTo path
      else match mux_match path with
           | Some (_, e) => Serve e
           | None => NotFound
           end
  end.
End mux.

(** ** [Routes] *)

Definition route_table (h : Handler) (metrics : bool) : list (string * endpoint) :=
  [("/topics/", TopicProduce); ("/v3/clusters/", V3Produce);
   ("/healthz", Health); ("/readyz", Ready)] ++
  (if metrics then [("/metrics", MetricsPage)] else []) ++
  (if PprofEnable (h_cfg h)
   then [("/debug/pprof", Pprof "index"); ("/debug/pprof/", Pprof "index");
         ("/debug/pprof/cmdline", Pprof "cmdline"); ("/debug/pprof/profile", Pprof "profile");
         ("/debug/pprof/symbol", Pprof "symbol"); ("/debug/pprof/trace", Pprof "trace")]
   else []).

Section routes.
Context {P R : Type} `{Producer P} `{Codecs} `{Registry R}.
Context (clock : nat → Z).
Context (time_UnmarshalJSON : string → option error) (time_MarshalJSON : nat → string).
Context (chunk : nat → nat).
(** The responses of the handlers of other packages: the metrics page and
    profiles, and [http.Redirect]. *)
Context (page : endpoint → Request → list raction) (redirect : string → Request → list raction).
Context (h : Handler).
Abbreviation World := (@World P R).
Abbreviation M := (@M P R).

Fixpoint outs (l : list raction) : M unit :=
  match l with
  | [] => ret tt
  | a :: l => bind (out a) (λ _, outs l)
  end.

(** [http.NotFound]. *)
Definition notFound : M unit :=
  outs [RSetHeader "Content-Type" "text/plain; charset=utf-8";
        RSetHeader "X-Content-Type-Options" "nosniff"; RWriteHeader 404;
        RWrite ("404 page not found" +:+ nl)].

Definition serve (e : endpoint) (r : Request) : M unit :=
  match e with
  | TopicProduce => handleTopicProduce clock h r
  | V3Produce => handleV3Produce clock time_UnmarshalJSON time_MarshalJSON chunk h r
  | Health => handleHealth r
  | Ready => handleReady clock r
  | _ => outs (page e r)
  end.

(** [mux.ServeHTTP]. *)
Definition serve_mux (r : Request) : M unit := λ w,
  match findHandler (route_table h (bool_decide (is_Some (w_metrics w)))) (rq_Method r)
          (rq_URL r) with
  | Serve e => serve e r w
  | RedirectTo p => outs (redirect p r) w
  | NotFound => notFound w
  end.

Definition Routes : Request → M unit := authMiddleware h serve_mux.
End routes.

Example routes_ex :
  let t := route_table Sample.h true in
  let get p := from_option (findHandler t "GET") NotFound (setPath p) in
  (get "/topics/a%2Fb", get "/topics", get "/topics/", get "/topics//x", get "/topics/.",
   get "/healthz", get "/healthz/", get "/%68ealthz", get "/v3/clusters/c/topics/t/records",
   get "/debug/pprof/", get "/")
  = (Serve TopicProduce, RedirectTo "/topics/", Serve TopicProduce, RedirectTo "/topics/x",
     RedirectTo "/topics/", Serve Health, NotFound, Serve Health, Serve V3Produce,
     NotFound, NotFound).
Proof. vm_compute. reflexivity. Qed.

(** ** Clean paths *)

Lemma ordinary_escape s : ordinary s → ordinary (PathEscape s).
Proof.
  intros (H1&H2&H3). pose proof (unescape_escape s encodePathSegment) as Hu.
  unfold PathEscape. split_and!; intros E; rewrite E in Hu; injection Hu as <-; done.
Qed.

(** The path of ordinary segments. *)
Definition escaped (l : list string) : string := "/" +:+ Join (PathEscape <$> l) "/".

Lemma escaped_segments l : l ≠ [] → path_segments (escaped l) = PathEscape <$> l.
Proof.
  intros Hl. unfold path_segments, escaped. by rewrite TrimPrefix_app, Split_Join.
Qed.

Lemma mux_unescape_escaped (l : list string) : mux_unescape <$> (PathEscape <$> l) = l.
Proof.
  induction l as [|s l IH]; [done|]. rewrite !fmap_cons, IH.
  unfold mux_unescape, PathUnescape, PathEscape. by rewrite unescape_escape.
Qed.

Lemma escaped_no_slash l : l ≠ [] → Forall ordinary l → HasSuffix (escaped l) "/" = false.
Proof.
  intros Hne Hl. apply not_true_is_false. intros [t Ht]%HasSuffix_iff.
  pose proof (f_equal (λ s, Split s "/") Ht) as E. cbn beta in E. rewrite Split_slash in E.
  change (Split (escaped l) "/") with ("" :: Split (Join (PathEscape <$> l) "/") "/") in E.
  rewrite Split_Join in E by done. destruct l as [|s l _] using rev_ind; [done|].
  rewrite fmap_app, app_comm_cons in E. apply app_inj_2 in E as [_ E]; [|done].
  injection E as E. apply Forall_app in Hl as [_ [[Hs _]%ordinary_escape _]%Forall_cons].
  done.
Qed.

Lemma cleanPath_escaped l : l ≠ [] → Forall ordinary l → cleanPath (escaped l) = escaped l.
Proof.
  intros Hne Hl.
  assert (HasPrefix (escaped l) "/" = true) as Hp by apply (HasPrefix_app "/").
  assert (Clean (escaped l) = escaped l) as Hc.
  { unfold Clean. rewrite Hp.
    change (Split (escaped l) "/") with ("" :: Split (Join (PathEscape <$> l) "/") "/").
    rewrite Split_Join by done. cbn [clean_elems String.eqb orb].
    rewrite clean_elems_normal; [done|].
    apply Forall_fmap. eapply Forall_impl; [exact Hl|]. apply ordinary_escape. }
  unfold cleanPath. cbv zeta. rewrite Hp, Hc, (escaped_no_slash l Hne Hl). by destruct l.
Qed.

(** ** Where paths go *)

Lemma not_multi_exact table path :
  HasSuffix path "/" = false →
  exactMatch (mux_match table path) path =
    match mux_match table path with Some (pat, _) => negb (is_multi pat) | None => false end.
Proof.
  intros Hs. unfold exactMatch. rewrite Hs. destruct (mux_match table path) as [[pat e]|]; [|done].
  cbn. apply orb_false_r.
Qed.

Lemma path_segments_slash l : l ≠ [] →
  path_segments (escaped l +:+ "/") = (PathEscape <$> l) ++ [""].
Proof.
  intros Hl. unfold path_segments, escaped. rewrite app_assoc_s, TrimPrefix_app, Split_slash.
  by rewrite Split_Join.
Qed.

(** A clean path whose match is not beaten by one for the path with a slash. *)
Lemma findHandler_escaped table method u l pat e :
  l ≠ [] → Forall ordinary l → EscapedPath u = escaped l →
  mux_match table (escaped l) = Some (pat, e) →
  mux_match table (escaped l +:+ "/") = Some (pat, e) →
  is_multi pat = true → (length (literals pat) < length l)%nat →
  findHandler table method u = Serve e.
Proof.
  intros Hne Hl Hu Hm Hm' Hp Hlen. unfold findHandler. rewrite Hu.
  rewrite (cleanPath_escaped l Hne Hl).
  replace (if String.eqb method "CONNECT" then escaped l else escaped l) with (escaped l)
    by (by destruct (String.eqb method "CONNECT")).
  unfold add_slash. rewrite Hm'. cbn [exactMatch]. rewrite Hp, path_segments_slash by done.
  rewrite length_app, length_fmap. cbn [length].
  destruct (Nat.eqb_spec (length l + 1) (S (length (literals pat)))) as [|_]; [lia|].
  rewrite andb_false_r. cbn [negb orb andb]. rewrite andb_false_r.
  rewrite String.eqb_refl, andb_false_r, Hm. done.
Qed.

Lemma mux_unescape_slash (l : list string) :
  mux_unescape <$> ((PathEscape <$> l) ++ [""]) = l ++ [""].
Proof. by rewrite fmap_app, mux_unescape_escaped. Qed.

Lemma Itoa_ordinary z : 0 <= z → ordinary (Itoa z).
Proof.
  intros Hz. split; [by apply Itoa_nonempty|].
  unfold Itoa. destruct (Z.ltb_spec z 0); [lia|].
  destruct (Utoa_spec z Hz) as [(Ha&_) _]. split; intros E; by rewrite E in Ha.
Qed.

Definition v3_segments (target : v3ProduceTarget) : list string :=
  ["v3"; "clusters"; clusterID target; "topics"; v3_topic target;
   if batch target then "records:batch" else "records"].

Lemma v3_path_join target : v3_path target = escaped (v3_segments target).
Proof. by destruct target as [c t []]. Qed.

(** The match depends on the unescaped segments only. *)
Lemma mux_match_topics h metrics path s l :
  mux_unescape <$> path_segments path = "topics" :: s :: l →
  mux_match (route_table h metrics) path = Some ("/topics/", TopicProduce).
Proof.
  intros E. unfold mux_match, route_table, pattern_matches. rewrite E.
  destruct metrics, (PprofEnable (h_cfg h)); vm_compute; reflexivity.
Qed.
Lemma mux_match_v3 h metrics path s l :
  mux_unescape <$> path_segments path = "v3" :: "clusters" :: s :: l →
  mux_match (route_table h metrics) path = Some ("/v3/clusters/", V3Produce).
Proof.
  intros E. unfold mux_match, route_table, pattern_matches. rewrite E.
  destruct metrics, (PprofEnable (h_cfg h)); vm_compute; reflexivity.
Qed.

Lemma topic_path_routed h metrics method t p u :
  ordinary t → from_option (λ p, 0 <= p < 2 ^ 31) True p →
  setPath (topic_path t p) = Some u →
  findHandler (route_table h metrics) method u = Serve TopicProduce.
Proof.
  intros Ht Hp Hu. rewrite topic_path_join in Hu by done.
  destruct (escaped_path ("topics" :: topic_segments t p)) as (u'&Hu'&He&_); [done|].
  assert (u' = u) as -> by (apply (inj Some); etrans; [symmetry; exact Hu'|exact Hu]).
  apply (findHandler_escaped _ _ _ ("topics" :: topic_segments t p) "/topics/"); [done| |exact He| | |done|vm_compute; lia].
  - constructor; [done|]. constructor; [done|]. destruct p as [z|]; [|constructor].
    simpl in Hp. constructor; [done|]. constructor; [|constructor].
    apply Itoa_ordinary. lia.
  - eapply mux_match_topics. rewrite escaped_segments by done. apply (mux_unescape_escaped ("topics" :: topic_segments t p)).
  - eapply mux_match_topics. rewrite path_segments_slash by done. apply (mux_unescape_slash ("topics" :: topic_segments t p)).
Qed.

(** C23: no topic is shadowed: whatever is registered besides, the path of
    every topic but the empty one, [.] and [..], with or without a partition,
    is served by the v2 produce handler, and every such v3 path by the v3
    handler; none is redirected or left to another handler. *)
Theorem produce_paths_routed (h : Handler) (metrics : bool) (method : string) :
  (∀ t p, ordinary t → from_option (λ p, 0 <= p < 2 ^ 31) True p →
     ∃ u, setPath (topic_path t p) = Some u ∧
          findHandler (route_table h metrics) method u = Serve TopicProduce) ∧
  (∀ target, ordinary (clusterID target) → ordinary (v3_topic target) →
     ∃ u, setPath (v3_path target) = Some u ∧
          findHandler (route_table h metrics) method u = Serve V3Produce).
Proof.
  split.
  - intros t p Ht Hp. destruct (topic_path_target t p) as (u&Hu&_); [apply Ht|done|].
    exists u. split; [exact Hu|]. by eapply topic_path_routed.
  - intros target Hc Ht. rewrite v3_path_join.
    destruct (escaped_path (v3_segments target)) as (u&Hu&He&_); [done|].
    exists u. split; [exact Hu|].
    apply (findHandler_escaped _ _ _ (v3_segments target) "/v3/clusters/"); [done| |exact He| | |done|vm_compute; lia].
    + repeat constructor; try done; try apply Hc; try apply Ht; by destruct (batch target).
    + eapply mux_match_v3. rewrite escaped_segments by done. apply (mux_unescape_escaped (v3_segments target)).
    + eapply mux_match_v3. rewrite path_segments_slash by done. apply (mux_unescape_slash (v3_segments target)).
Qed.

Lemma produce_paths_routed_witness :
  let t := route_table Sample.h true in
  (∃ u, setPath (topic_path "a/b" (Some 3)) = Some u ∧ findHandler t "POST" u = Serve TopicProduce) ∧
  (let target := {| clusterID := "c"; v3_topic := "a/b"; batch := true |} in
   ∃ u, setPath (v3_path target) = Some u ∧ findHandler t "POST" u = Serve V3Produce).
Proof.
  split.
  - by apply (proj1 (produce_paths_routed Sample.h true "POST")).
  - by apply (proj2 (produce_paths_routed Sample.h true "POST")).
Defined.

(** ** Requests without a token *)

Lemma unescape_EscapedPath u : unescape (EscapedPath u) = Some (Path u).
Proof.
  unfold EscapedPath. destruct (_ && _)%bool eqn:E.
  - apply andb_true_iff in E as [_ E]. by apply bool_decide_eq_true in E.
  - destruct (String.eqb_spec (Path u) "*") as [->|]; [done|]. apply unescape_escape.
Qed.

Lemma Split_head s c x l : Split s "/" = String c x :: l → ∃ t, s = String c t.
Proof.
  destruct s as [|d s]; [done|]. cbn [Split]. destruct (Ascii.eqb d "/"); [done|].
  destruct (Split s "/"); intros E; injection E as E; subst; eauto.
Qed.

Definition health_path (p : string) : Prop := p = "/healthz" ∨ p = "/readyz".

(** However it is escaped, a health path is no target of a produce handler. *)
Lemma health_no_topic u : health_path (Path u) → produceTargetFromPath u = None.
Proof.
  intros Hp. unfold produceTargetFromPath.
  destruct (HasPrefix (EscapedPath u) "/topics/") eqn:E; [|done]. exfalso.
  apply HasPrefix_iff in E as [t E]. pose proof (unescape_EscapedPath u) as Hu.
  rewrite E in Hu. rewrite !app_cons in Hu. cbn in Hu.
  destruct (unescape _); [|done]. injection Hu as Hu. destruct Hp as [Hp|Hp]; by rewrite Hp in Hu.
Qed.

Lemma health_no_v3 u : health_path (Path u) → v3ProduceTargetFromPath u = None.
Proof.
  intros Hp. unfold v3ProduceTargetFromPath.
  destruct (Split _ _) as [|s0 [|s1 [|s2 [|s3 [|s4 [|s5 [|]]]]]]] eqn:Es; try done.
  destruct (String.eqb_spec s0 "v3") as [->|]; [|done]. exfalso.
  apply Split_head in Es as [t Es]. pose proof (unescape_EscapedPath u) as Hu.
  assert (∃ t, EscapedPath u = String "v" t ∨ EscapedPath u = String "/" (String "v" t))
    as [t' [E|E]].
  { exists t. revert Es. unfold TrimPrefix. destruct (HasPrefix (EscapedPath u) "/") eqn:E; [|auto].
    apply HasPrefix_iff in E as [t' ->]. rewrite sdrop_app. intros ->. by right. }
  all: rewrite E in Hu; cbn in Hu; destruct (unescape t'); [|done]; injection Hu as Hu;
    destruct Hp as [Hp|Hp]; by rewrite Hp in Hu.
Qed.

(** What a request is served by matches its escaped path. *)
Lemma longest_elem best l p : longest best l = Some p → best = Some p ∨ p ∈ l.
Proof.
  revert best. induction l as [|q l IH]; intros best; cbn [longest]; [by left|].
  intros [E|?]%IH; [|right; by constructor].
  destruct best as [b|]; [destruct (longer q b)|]; injection E as ->; auto; right; constructor.
Qed.

Lemma findHandler_serve table method u e : findHandler table method u = Serve e →
  ∃ pat, (pat, e) ∈ table ∧ pattern_matches pat (EscapedPath u) = true.
Proof.
  unfold findHandler. destruct (add_slash _ _ _); [done|].
  assert (∀ path, match mux_match table path with Some (_, e) => Serve e | None => NotFound end =
    Serve e → ∃ pat, (pat, e) ∈ table ∧ pattern_matches pat path = true) as Hm.
  { intros path. unfold mux_match. destruct (longest _ _) as [[pat e']|] eqn:El; [|done].
    intros [= ->]. apply longest_elem in El as [?|Hl]; [done|].
    apply list_elem_of_filter in Hl as [Hl Ht]. eauto. }
  destruct (String.eqb method "CONNECT"); cbn [negb andb]; [apply Hm|].
  destruct (String.eqb_spec (cleanPath (EscapedPath u)) (EscapedPath u)) as [->|]; [|done].
  apply Hm.
Qed.

Lemma ready_path h metrics method u :
  findHandler (route_table h metrics) method u = Serve Ready → Path u ≠ "/healthz".
Proof.
  intros (pat&Hin&Hm)%findHandler_serve Hp.
  assert (pat = "/readyz") as ->.
  { apply list_elem_of_In in Hin. unfold route_table in Hin.
    destruct metrics, (PprofEnable (h_cfg h)); cbn in Hin; intuition congruence. }
  apply bool_decide_eq_true in Hm. change (literals "/readyz") with ["readyz"] in Hm.
  pose proof (unescape_EscapedPath u) as Hu. unfold path_segments in Hm.
  destruct (Split _ _) as [|x [|]] eqn:E; [done| |done]. apply Split_single in E.
  injection Hm as Hx. unfold mux_unescape, PathUnescape in Hx. unfold TrimPrefix in E.
  destruct (HasPrefix _ _) eqn:Hs.
  - apply HasPrefix_iff in Hs as [t Et]. rewrite Et, sdrop_app in E. subst t.
    rewrite Et, Hp in Hu. change ("/" +:+ x) with (String "/" x) in Hu. cbn in Hu.
    destruct (unescape x) as [y|] eqn:Ey; [|done]. cbn in Hx, Hu. congruence.
  - rewrite E, Hp in Hu. rewrite Hu in Hx. done.
Qed.

Section unauthenticated.
Context {P R : Type} `{Producer P} `{Codecs} `{Registry R} (clock : nat → Z).
Context (time_UnmarshalJSON : string → option error) (time_MarshalJSON : nat → string).
Context (chunk : nat → nat).
Context (page : endpoint → Request → list raction) (redirect : string → Request → list raction).
Context (cfg : APIConfig) (enc : option Encoder) (t0 : Z).
Let h := (NewHandlerWithSchema cfg enc t0).1.1.
Abbreviation World := (@World P R).
Abbreviation M := (@M P R).

(** What the proxy stands in front of: Kafka and the schema registry. *)
Definition backend (w : World) : P * R := (w_producer w, w_registry w).

Lemma keeps_outs l : keeps backend (outs l : M unit).
Proof. induction l as [|a l IH]; cbn [outs]; [done|]. apply keeps_bind; [done|intros _; exact IH]. Qed.

Lemma keeps_observed (body : M observed) :
  keeps backend body → keeps backend (observed_request clock body).
Proof. intros Hb. unfold observed_request. repeat first [exact Hb | keeps_step]. Qed.

Lemma health_backend e r (w : World) : health_path (Path (rq_URL r)) →
  backend (serve clock time_UnmarshalJSON time_MarshalJSON chunk page h e r w).2 = backend w ∨
  e = Ready ∧
  backend (serve clock time_UnmarshalJSON time_MarshalJSON chunk page h e r w).2 =
    ((Ping (w_producer w)).2, w_registry w).
Proof.
  intros Hp. destruct e; cbn [serve]; try (left; apply keeps_outs).
  - left. revert w. apply keeps_observed. unfold topic_produce. rewrite health_no_topic by done.
    unfold fail, writeAPIError. keeps.
  - left. revert w. apply keeps_observed. unfold v3_produce. rewrite health_no_v3 by done.
    unfold fail, writeAPIError. keeps.
  - left. refine ((_ : keeps backend _) w). unfold handleHealth, method_not_allowed, write_status, writeAPIError. keeps.
  - unfold handleReady. destruct (negb _).
    { left. refine ((_ : keeps backend _) w). unfold method_not_allowed, writeAPIError. keeps. }
    right. split; [done|]. unfold bind, ping. cbn.
    destruct (Ping (w_producer w)) as [[err|] p]; done.
Qed.

Lemma authMiddleware_health next r (w : World) : health_path (Path (rq_URL r)) →
  authMiddleware h next r w = next r w.
Proof.
  intros Hp. unfold authMiddleware. destruct (_ =? 0)%nat; [done|].
  by destruct Hp as [Hp|Hp]; rewrite Hp.
Qed.

(** C6: without a token nothing gets through: once a non-blank token is
    configured, a request that presents none of the configured tokens - on
    whatever path, however escaped, with whatever method and body, against
    every registered handler - never produces to Kafka and never makes the
    schema registry resolve anything; at most, on /readyz, it pings the broker.
    Anything but a health check gets the 401 response and nothing else. *)
Theorem unauthenticated_never_produces (r : Request) (w : World) :
  token_set (BearerTokens cfg) ≠ ∅ → ¬ authorized cfg r →
  let w' := (Routes clock time_UnmarshalJSON time_MarshalJSON chunk page redirect h r w).2 in
  (backend w' = backend w ∨
   Path (rq_URL r) = "/readyz" ∧ backend w' = ((Ping (w_producer w)).2, w_registry w)) ∧
  (health_path (Path (rq_URL r)) ∨
   ∃ message, w_out w' = w_out w ++
     [RSetHeader "Content-Type" mediaKafkaV2; RWriteHeader 401;
      RWrite (errorResponse errorCodeUnauthorized message)]).
Proof.
  intros Hne Hr. cbv zeta. unfold Routes.
  destruct (decide (health_path (Path (rq_URL r)))) as [Hp|Hp].
  - rewrite authMiddleware_health by done. split; [|by left].
    unfold serve_mux. destruct (findHandler _ _ _) as [e|p|] eqn:E.
    + destruct (health_backend e r w Hp) as [Hb|[-> Hb]]; [by left|].
      destruct Hp as [Hp|Hp]; [|by right]. exfalso. by apply ready_path in E.
    + left. apply keeps_outs.
    + left. apply keeps_outs.
  - assert (Path (rq_URL r) ≠ "/healthz" ∧ Path (rq_URL r) ≠ "/readyz") as [Hz Hy].
    { split; intros E; apply Hp; [by left|by right]. }
    pose proof (auth_decides cfg enc t0
      (serve_mux clock time_UnmarshalJSON time_MarshalJSON chunk page redirect h) r w Hne Hz Hy)
      as Ha. change (NewHandlerWithSchema cfg enc t0).1.1 with h in Ha.
    destruct Ha as [[? _]|[_ [message ->]]]; [done|]. split; [by left|]. right. exists message.
    cbn. by rewrite <- !app_assoc.
Qed.
End unauthenticated.

(** A request that produces, but with no Authorization header. *)
Definition anonymous : Request :=
  {| rq_Method := "POST"; rq_URL := rq_URL Sample.produce_one; rq_Header _ := "";
     rq_ContentLength := rq_ContentLength Sample.produce_one;
     rq_Body := rq_Body Sample.produce_one; rq_body_err := None |}.

Definition serve_routes (r : Request) (w : @World (list PRecord) MemoryRegistry) :=
  (Routes (H := Sample.producer) (H0 := Sample.codecs) (λ n, Z.of_nat n) (λ _, None) (λ _, "")
     (λ _, 3%nat) (λ _ _, []) (λ _ _, []) Sample.h r w).2.

Lemma unauthenticated_never_produces_witness :
  let w' := serve_routes anonymous Sample.world in
  (backend w' = backend Sample.world ∨
   Path (rq_URL anonymous) = "/readyz" ∧
     backend w' = ((Ping (Producer := Sample.producer) (w_producer Sample.world)).2,
                   w_registry Sample.world)) ∧
  (health_path (Path (rq_URL anonymous)) ∨
   ∃ message, w_out w' = w_out Sample.world ++
     [RSetHeader "Content-Type" mediaKafkaV2; RWriteHeader 401;
      RWrite (errorResponse errorCodeUnauthorized message)]).
Proof.
  apply (unauthenticated_never_produces (H := Sample.producer)).
  - intros E. assert ("secret" ∈ token_set (BearerTokens Sample.cfg)) as Hs by (by vm_compute).
    by rewrite E in Hs.
  - intros (token&c&(rest&Hr&_)&_). done.
Defined.

(** The routes serve the request with the token and refuse the one without. *)
Example routes_serve_ex :
  (length (w_producer (serve_routes Sample.produce_one Sample.world)),
   length (w_producer (serve_routes anonymous Sample.world))) = (1, 0)%nat.
Proof. vm_compute. reflexivity. Qed.
