(* ===== verification/Main.v ===== *)
(** * cmd/kafka-rest-proxy-go/main.go

    How [run] puts the parts together: the handler's configuration from the
    environment's, the schema registry if one is configured, and the order in
    which everything is started and shut down. *)

From S2P Require Import Prelude.
From S2P Require Import GoStrings.
From S2P Require Import GoErrors.
From S2P Require Import Url.
From S2P Require Import Admission.
From S2P Require Import GoFloat.
From S2P Require Import FloatExact.
From S2P Require Import Config.
From S2P Require Import RateLimit.
From S2P Require Import SchemaTypes.
From S2P Require Import SchemaRegistry.
From S2P Require Import SchemaEncoder.
From S2P Require Import Franz.
From S2P Require Import Metrics.
From S2P Require Import Types.
From S2P Require Import Handler.
Local Open Scope Z_scope.

(** ** The schema registry *)

(** What [url.Parse] finds, as far as the program looks. *)
Record parsedURL := { pu_Scheme : string; pu_Host : string; pu_URL : URL }.

(** The [api.Config] that [run] builds. *)
Definition api_config (cfg : Config) : APIConfig := {|
  MaxRequestBytes := RequestMaxBytes cfg;
  cfg_MaxRecords := RequestMaxRecords cfg;
  cfg_MaxRecordBytes := RequestMaxRecordBytes cfg;
  cfg_MaxKeyBytes := RequestMaxKeyBytes cfg;
  cfg_MaxHeaders := RequestMaxHeaders cfg;
  cfg_MaxHeaderBytes := RequestMaxHeaderBytes cfg;
  AllowedTopics := TopicAllowlist cfg;
  ProduceTimeout := cfg_ProduceTimeout cfg;
  BearerTokens := AuthBearerTokens cfg;
  PprofEnable := cfg_PprofEnable cfg;
  ClusterID := cfg_ClusterID cfg;
  RateLimitRequestsPerSecond := RequestsPerSecond (RateLimit cfg);
  RateLimitRequestsBurst := RequestsBurst (RateLimit cfg);
  RateLimitBytesPerSecond := BytesPerSecond (RateLimit cfg);
  RateLimitBytesBurst := BytesBurst (RateLimit cfg);
|}.

(** What starts and stops, in the order it happens. *)
Inductive action :=
  | NewProducer | NewMetrics
  | ListenAndServe (handler : Handler)
  | ShutdownServer | CloseProducer | ShutdownMetrics.

(** What ends the [select]: a signal, or the error of [ListenAndServe], which
    is [http.ErrServerClosed] or another one. *)
Inductive exit_cause := SignalReceived | ServerClosed | ListenFailed (err : error).

Section main.
Context (url_Parse : string → res parsedURL).

(** [NewHTTPRegistry]: [Ok None] is the nil registry of an empty URL. *)
Definition NewHTTPRegistry (rawURL username password : string) : res (option HTTPRegistry) :=
  let rawURL := TrimSpace rawURL in
  if String.eqb rawURL "" then Ok None
  else match url_Parse rawURL with
  | Err err => Err err
  | Ok u =>
      if String.eqb (pu_Scheme u) "" || String.eqb (pu_Host u) ""
      then Err (ENew "schema registry URL must include scheme and host")
      else Ok (Some {| baseURL := pu_URL u; username := username; password := password |})
  end.

(** The operating system, the Kafka client and the metrics exporter. *)
Context {pool cert client : Type} (ReadFile : string → res string)
  (AppendCertsFromPEM : string → option pool) (LoadX509KeyPair : string → string → res cert)
  (NewClient : list (@Opt pool cert) → res client).
Context (otelprom_New : option error) (register : instrument → option error).
Context (Getenv : string → string) (started : Z).
(** How the server ends, and what [srv.Shutdown] returns. *)
Context (exited : exit_cause) (srv_Shutdown : option error).

(** What [run] connects the gauges to: the admission controller and the Kafka
    client of the producer. *)
Definition wired_snapshots {C : Type} (BufferedProduceRecords BufferedProduceBytes : C → Z)
  : Snapshots (Admission * C) :=
  SetBufferedSnapshot (λ p, BufferedSnapshot BufferedProduceRecords BufferedProduceBytes p.2)
    (SetAdmissionSnapshot (λ p, AdmissionSnapshot p.1) no_snapshots).

(** [run] from the registry on; the deferred calls are the callers'. *)
Definition run_server (cfg : Config) : option error * list action :=
  let sr := SchemaRegistry cfg in
  match NewHTTPRegistry (sr_URL sr) (sr_Username sr) (sr_Password sr) with
  | Err err => (Some err, [])
  | Ok registry =>
      let schemaEncoder := (λ _, {| has_Registry := true |}) <$> registry in
      let handler := (NewHandlerWithSchema (api_config cfg) schemaEncoder started).1.1 in
      match exited with
      | ListenFailed err => (Some err, [ListenAndServe handler])
      | SignalReceived | ServerClosed =>
          match srv_Shutdown with
          | Some err => (Some err, [ListenAndServe handler; ShutdownServer])
          | None => (None, [ListenAndServe handler; ShutdownServer; CloseProducer])
          end
      end
  end.

(** [defer f()]: [f] happens after the rest of the function, on every path. *)
Definition deferring (f : action) (rest : option error * list action)
  : option error * list action := (rest.1, rest.2 ++ [f]).
Definition after (a : action) (rest : option error * list action)
  : option error * list action := (rest.1, a :: rest.2).

Definition run : option error * list action :=
  match LoadFromEnv Getenv with
  | Err err => (Some err, [])
  | Ok cfg =>
      match newProducer ReadFile AppendCertsFromPEM LoadX509KeyPair NewClient (Kafka cfg) with
      | Err err => (Some err, [])
      | Ok _ =>
          after NewProducer (deferring CloseProducer
            (match metrics_New otelprom_New register with
             | Err err => (Some err, [])
             | Ok _ => after NewMetrics (deferring ShutdownMetrics (run_server cfg))
             end))
      end
  end.
End main.

(** ** The order of things *)

(** What is open, as the actions are performed.  The discipline: the producer
    is opened first, requests are accepted only while the producer and the
    metrics are open, and neither is closed while they are accepted; closing
    the producer again is allowed. *)
Record resources := { producer_open : bool; metrics_open : bool; accepting : bool }.
Definition all_closed : resources :=
  {| producer_open := false; metrics_open := false; accepting := false |}.

Definition perform (failed : bool) (s : resources) (a : action) : option resources :=
  match a with
  | NewProducer =>
      if producer_open s then None
      else Some {| producer_open := true; metrics_open := metrics_open s; accepting := accepting s |}
  | NewMetrics =>
      if metrics_open s || negb (producer_open s) then None
      else Some {| producer_open := true; metrics_open := true; accepting := accepting s |}
  | ListenAndServe _ =>
      if producer_open s && metrics_open s && negb (accepting s)
      then Some {| producer_open := true; metrics_open := true; accepting := negb failed |}
      else None
  | ShutdownServer =>
      if accepting s
      then Some {| producer_open := producer_open s; metrics_open := metrics_open s;
                   accepting := false |}
      else None
  | CloseProducer =>
      if accepting s then None
      else Some {| producer_open := false; metrics_open := metrics_open s; accepting := false |}
  | ShutdownMetrics =>
      if accepting s || negb (metrics_open s) then None
      else Some {| producer_open := producer_open s; metrics_open := false; accepting := false |}
  end.

Fixpoint perform_all (failed : bool) (s : resources) (l : list action) : option resources :=
  match l with
  | [] => Some s
  | a :: l => match perform failed s a with Some s => perform_all failed s l | None => None end
  end.

Definition listen_failed (e : exit_cause) : bool :=
  match e with ListenFailed _ => true | _ => false end.

Section lifecycle.
Context {pool cert client : Type} (url_Parse : string → res parsedURL)
  (ReadFile : string → res string) (AppendCertsFromPEM : string → option pool)
  (LoadX509KeyPair : string → string → res cert) (NewClient : list (@Opt pool cert) → res client)
  (otelprom_New : option error) (register : instrument → option error)
  (Getenv : string → string) (started : Z) (exited : exit_cause) (srv_Shutdown : option error).
Let run := run url_Parse ReadFile AppendCertsFromPEM LoadX509KeyPair NewClient otelprom_New
             register Getenv started exited srv_Shutdown.

Lemma run_server_actions cfg :
  let r := run_server url_Parse started exited srv_Shutdown cfg in
  r.2 = [] ∧ r.1 ≠ None ∨
  ∃ registry,
    let sr := SchemaRegistry cfg in
    NewHTTPRegistry url_Parse (sr_URL sr) (sr_Username sr) (sr_Password sr) = Ok registry ∧
    let h := (NewHandlerWithSchema (api_config cfg)
                ((λ _, {| has_Registry := true |}) <$> registry) started).1.1 in
    if listen_failed exited then r.1 ≠ None ∧ r.2 = [ListenAndServe h]
    else r.1 = srv_Shutdown ∧
         r.2 = [ListenAndServe h; ShutdownServer] ++
               match srv_Shutdown with None => [CloseProducer] | Some _ => [] end.
Proof.
  unfold run_server. destruct (NewHTTPRegistry _ _ _ _) as [registry|err]; [right|by left].
  exists registry. split; [done|]. by destruct exited, srv_Shutdown.
Qed.

Local Ltac listed := setoid_rewrite list_elem_of_In; cbn in *; intuition (try congruence; eauto; simplify_eq; eauto).

Lemma lifecycle_nothing (err : error) cfg :
  let r : option error * list action := (Some err, []) in
  perform_all (listen_failed exited) all_closed r.2 = Some all_closed ∧
  (∀ h, ListenAndServe h ∈ r.2 → cfg h) ∧
  (r.1 = None ↔ ShutdownServer ∈ r.2 ∧ srv_Shutdown = None).
Proof.
  cbn. split_and!; [done|intros h Hin; by apply not_elem_of_nil in Hin|].
  split; [done|]. intros [Hin _]. by apply not_elem_of_nil in Hin.
Qed.

(** C28: nothing is left open and nothing is closed under a request being
    accepted: whatever fails on the way up or down, and however the server
    ends, the actions of [run] follow the discipline and end with everything
    closed; requests are served with the configuration of the environment,
    and [run] returns no error exactly when the server was shut down cleanly. *)
Theorem run_lifecycle :
  perform_all (listen_failed exited) all_closed run.2 = Some all_closed ∧
  (∀ h, ListenAndServe h ∈ run.2 →
     ∃ cfg enc, LoadFromEnv Getenv = Ok cfg ∧
       h = (NewHandlerWithSchema (api_config cfg) enc started).1.1) ∧
  (run.1 = None ↔ ShutdownServer ∈ run.2 ∧ srv_Shutdown = None).
Proof.
  unfold run, Main.run. destruct (LoadFromEnv Getenv) as [cfg|err]; [|by apply lifecycle_nothing].
  destruct (newProducer _ _ _ _ _) as [p|err]; [|by apply lifecycle_nothing].
  destruct (metrics_New _ _) as [m|err].
  - unfold after, deferring.
    destruct (run_server_actions cfg) as [[Ha Hb]|(registry&_&Hr)]; [|destruct (listen_failed _)];
      [rewrite Ha|destruct Hr as [Hb ->]..]; cbn [fst snd].
    + split_and!; [done|listed..].
    + split_and!; [done|listed..].
    + rewrite Hb. destruct srv_Shutdown; (split_and!; [done|listed..]).
  - split_and!; [done|listed..].
Qed.
End lifecycle.

(** ** What is in force *)

(** The limits of a configuration, as the decoder takes them. *)
Definition configured_limits (cfg : Config) : decodeLimits := {|
  MaxRecords := RequestMaxRecords cfg;
  MaxRecordBytes := RequestMaxRecordBytes cfg;
  MaxKeyBytes := RequestMaxKeyBytes cfg;
  MaxHeaders := RequestMaxHeaders cfg;
  MaxHeaderBytes := RequestMaxHeaderBytes cfg;
|}.

Lemma positive_or_pos v def : 0 < v → positive_or v def = v.
Proof. intros Hv. unfold positive_or. destruct (Z.leb_spec v 0); [lia|done]. Qed.

(** C27: the configured limits are the ones in force: the handler that [run]
    builds from a loaded environment decodes with exactly the configured
    limits - the defaults of package api never replace one, except that a
    configured zero of headers means 64 - and, where no byte burst is set, the
    rate limiter starts with room for the largest body that is accepted. *)
Theorem deployed_limits Getenv cfg enc started :
  LoadFromEnv Getenv = Ok cfg →
  let '(h, _, bytes) := NewHandlerWithSchema (api_config cfg) enc started in
  MaxRequestBytes (h_cfg h) = RequestMaxBytes cfg ∧
  (if RequestMaxHeaders cfg =? 0
   then config_decodeLimits (h_cfg h) =
        {| MaxRecords := RequestMaxRecords cfg; MaxRecordBytes := RequestMaxRecordBytes cfg;
           MaxKeyBytes := RequestMaxKeyBytes cfg; MaxHeaders := 64;
           MaxHeaderBytes := RequestMaxHeaderBytes cfg |}
   else config_decodeLimits (h_cfg h) = configured_limits cfg) ∧
  (∀ l n, bytes = Some l → BytesBurst (RateLimit cfg) = 0 →
     RequestMaxBytes cfg < 2 ^ 53 → f64_ceil_i64 (BytesPerSecond (RateLimit cfg)) < 2 ^ 53 →
     0 < n <= RequestMaxBytes cfg → (Allow (Some l) n started).2 = true).
Proof.
  unfold LoadFromEnv. destruct (config_error _) eqn:E; [done|]. intros [= <-].
  generalize dependent (envConfig Getenv). clear. intros cfg E.
  apply config_error_none in E as (_&(Hr&Hb&Hrb&Hk&Hh&Hhb)&_).
  unfold NewHandlerWithSchema. cbn [h_cfg].
  assert (MaxRequestBytes (config_withDefaults (api_config cfg)) = RequestMaxBytes cfg) as Hm
    by (apply positive_or_pos; tauto).
  split_and!; [exact Hm| |].
  - unfold config_decodeLimits, config_withDefaults, api_config, configured_limits.
    cbn. rewrite (positive_or_pos (RequestMaxRecords cfg)),
      (positive_or_pos (RequestMaxRecordBytes cfg)), (positive_or_pos (RequestMaxKeyBytes cfg)),
      (positive_or_pos (RequestMaxHeaderBytes cfg)) by lia.
    destruct (Z.eqb_spec (RequestMaxHeaders cfg) 0) as [->|Hn]; [done|].
    by rewrite positive_or_pos by lia.
  - intros l n Hl Hz H53 Hc Hn. unfold byte_limiter in Hl. rewrite Hm in Hl. cbn in Hl.
    rewrite Hz in Hl. destruct (f64_ltb _ _); [|done]. cbn in Hl. unfold New in Hl.
    destruct (f64_leb _ _); [done|]. injection Hl as <-.
    set (b := maxInt64 _ _) in *.
    assert (RequestMaxBytes cfg <= b < 2 ^ 53) as Hb'.
    { unfold b, maxInt64. destruct (Z.ltb_spec (RequestMaxBytes cfg)
        (f64_ceil_i64 (BytesPerSecond (RateLimit cfg)))); lia. }
    destruct (Z.leb_spec b 0); [lia|].
    set (l := {| rate := _; burst := _; tokens := _; last := _ |}).
    change (Allow (Some l) n started) with (Allow (Some (with_tokens l b)) n (last l)).
    rewrite Allow_exact by (unfold f64_int; lia).
    destruct (Z.leb_spec n 0); [done|]. destruct (Z.ltb_spec b n); [lia|done].
Qed.

Lemma deployed_limits_witness :
  let cfg := envConfig (λ n, if String.eqb n "RATE_LIMIT_BYTES_PER_SECOND" then "10" else "") in
  let '(h, _, bytes) := NewHandlerWithSchema (api_config cfg) None 5 in
  MaxRequestBytes (h_cfg h) = RequestMaxBytes cfg ∧
  (if RequestMaxHeaders cfg =? 0
   then config_decodeLimits (h_cfg h) =
        {| MaxRecords := RequestMaxRecords cfg; MaxRecordBytes := RequestMaxRecordBytes cfg;
           MaxKeyBytes := RequestMaxKeyBytes cfg; MaxHeaders := 64;
           MaxHeaderBytes := RequestMaxHeaderBytes cfg |}
   else config_decodeLimits (h_cfg h) = configured_limits cfg) ∧
  (∀ l n, bytes = Some l → BytesBurst (RateLimit cfg) = 0 →
     RequestMaxBytes cfg < 2 ^ 53 → f64_ceil_i64 (BytesPerSecond (RateLimit cfg)) < 2 ^ 53 →
     0 < n <= RequestMaxBytes cfg → (Allow (Some l) n 5).2 = true).
Proof.
  apply (deployed_limits
    (λ n, if String.eqb n "RATE_LIMIT_BYTES_PER_SECOND" then "10" else "")).
  vm_compute. reflexivity.
Defined.
