(* ===== verification/GaugeFacts.v ===== *)
(** * What the gauges of the proxy show

    The metrics page reads the admission controller and the Kafka client through
    the functions [run] hands over; together with the invariant of the producer
    this says what an operator sees there. *)

From S2P Require Import Prelude.
From S2P Require Import GoStrings.
From S2P Require Import Producer.
From S2P Require Import Admission.
From S2P Require Import Franz.
From S2P Require Import Metrics.
From S2P Require Import ProduceSteps.
From S2P Require Import ProduceSafety.
From S2P Require Import ProduceCorrect.
From S2P Require Import Main.
Local Open Scope Z_scope.

(** Before [run] has connected them the gauges show zeros. *)
Lemma unwired_gauges {S} (g : gauge) m (s : S) : g ≠ GOutstanding →
  Forall (λ v, v.1 = 0) (observe g m no_snapshots s).
Proof. intros Hg. destruct g; [done|..]; by repeat constructor. Qed.

(** C29: the gauges tell the truth: whenever the page is scraped, between any
    two steps of any number of concurrent [Produce] calls, callbacks and
    cancellations, the admission gauges show exactly the records and bytes of
    the requests that hold a reservation at that moment, below the configured
    limits, which they show next to them; the buffer gauges show the client's
    own counters. *)
Theorem gauges_truthful {C : Type} (records bytes : C → Z) E mr mb s (client : C) m :
  0 < mr < 2 ^ 62 → 0 < mb < 2 ^ 62 → reachable E mr mb s →
  let scrape g := observe g m (wired_snapshots records bytes) (s_admit s, client) in
  scrape GAdmissionRecords = [(zsum held_records (s_reqs s), "used"); (mr, "limit")] ∧
  scrape GAdmissionBytes = [(zsum held_bytes (s_reqs s), "used"); (mb, "limit")] ∧
  0 <= zsum held_records (s_reqs s) <= mr ∧ 0 <= zsum held_bytes (s_reqs s) <= mb ∧
  scrape GBufferedRecords = [(records client, "")] ∧
  scrape GBufferedBytes = [(bytes client, "")].
Proof.
  intros Hmr Hmb Hr. apply (reachable_inv E mr mb Hmr Hmb) in Hr as [Hp Hall Hu Hub Hwf [H1 H2]].
  destruct Hwf. cbv zeta. cbn. rewrite Hu, Hub, H1, H2 in *. split_and!; try done; lia.
Qed.

Lemma gauges_truthful_witness :
  observe GAdmissionRecords zero_Metrics (wired_snapshots (λ n, n) (λ n, n)) (s_admit sample_end, 7) =
    [(zsum held_records (s_reqs sample_end), "used"); (10, "limit")] ∧
  observe GBufferedRecords zero_Metrics (wired_snapshots (λ n, n) (λ n, n)) (s_admit sample_end, 7) =
    [(7, "")].
Proof.
  destruct (gauges_truthful (λ n : Z, n) (λ n, n) client_closed 10 100 sample_end 7 zero_Metrics)
    as (H1&_&_&_&H2&_); [lia|lia|apply sample_reachable|].
  split; [exact H1|exact H2].
Defined.
