(* ===== verification/GoFmt.v ===== *)
(** * The parts of Go's [fmt] and [time] that print numbers and durations

    [%.nf] on a [float64] (the exact decimal value, rounded half to even), and
    the [Round] and [String] methods of [time.Duration]. *)

From S2P Require Import Prelude.
From S2P Require Import GoStrings.
From S2P Require Import Strconv.
From S2P Require Import GoFloat.
From S2P Require Import Config.
Local Open Scope Z_scope.

(** [n / d] rounded to the nearest integer, ties to even. *)
Definition div_half_even (n d : Z) : Z :=
  let q := n / d in
  let r := n mod d in
  if 2 * r <? d then q
  else if d <? 2 * r then q + 1
  else if Z.even q then q else q + 1.

(** [z] in decimal, padded with zeros to [w] digits. *)
Definition pad_left (w : nat) (s : string) : string := Repeat "0" (w - String.length s) +:+ s.

Definition fixed_digits (prec : nat) (z : Z) : string :=
  match prec with
  | O => Utoa z
  | S _ =>
      let p := 10 ^ Z.of_nat prec in
      Utoa (z / p) +:+ "." +:+ pad_left prec (Utoa (z mod p))
  end.

(** [%.nf]. *)
Definition format_fixed (prec : nat) (f : float64) : string :=
  match f with
  | S754_nan => "NaN"
  | S754_infinity s => if (s : bool) then "-Inf" else "+Inf"
  | S754_zero s => (if (s : bool) then "-" else "") +:+ fixed_digits prec 0
  | S754_finite s m e =>
      let p := 10 ^ Z.of_nat prec in
      let z := if 0 <=? e then Z.pos m * 2 ^ e * p else div_half_even (Z.pos m * p) (2 ^ (- e)) in
      (if (s : bool) then "-" else "") +:+ fixed_digits prec z
  end.

Example format_fixed_ex :
  (format_fixed 2 (f64_div (f64_of_Z 2) (f64_of_Z 3)), format_fixed 0 (f64_div (f64_of_Z 5) (f64_of_Z 2)),
   format_fixed 4 (f64_of_Z (-3)), format_fixed 2 (f64_div (f64_of_Z 1) (f64_of_Z 1000)))
  = ("0.67", "2", "-3.0000", "0.00").
Proof. vm_compute. reflexivity. Qed.

(** ** [time.Duration] *)

Definition Millisecond : Z := 1000000.
Definition minDuration : Z := - 2 ^ 63.
Definition maxDuration : Z := 2 ^ 63 - 1.

(** [Duration.Round]. *)
Definition Round (d m : Z) : Z :=
  if m <=? 0 then d
  else
    let r := Z.rem d m in
    if d <? 0 then
      let r := - r in
      if 2 * r <? m then d + r
      else let d1 := d - m + r in if minDuration <=? d1 then d1 else minDuration
    else
      if 2 * r <? m then d - r
      else let d1 := d + m - r in if d1 <=? maxDuration then d1 else maxDuration.

(** [fmtFrac]: [v] as a fraction of [prec] digits without trailing zeros. *)
Fixpoint trim_zeros (n : nat) (v : Z) : nat * Z :=
  match n with
  | O => (O, v)
  | S n' => if v mod 10 =? 0 then trim_zeros n' (v / 10) else (n, v)
  end.
Definition fmtFrac (prec : nat) (v : Z) : string :=
  match trim_zeros prec v with
  | (O, _) => ""
  | (n, v) => "." +:+ pad_left n (Utoa v)
  end.

(** [Duration.String]. *)
Definition Duration_String (d : Z) : string :=
  let u := Z.abs d in
  let sign := if d <? 0 then "-" else "" in
  let with_frac prec unit name :=
    sign +:+ Utoa (u / unit) +:+ fmtFrac prec (u mod unit) +:+ name in
  if u =? 0 then "0s"
  else if u <? 1000 then sign +:+ Utoa u +:+ "ns"
  else if u <? 1000000 then with_frac 3%nat 1000 "µs"
  else if u <? 1000000000 then with_frac 6%nat 1000000 "ms"
  else
    let secs := u / Second in
    let mins := secs / 60 in
    let hours := mins / 60 in
    sign +:+ (if 0 <? hours then Utoa hours +:+ "h" else "") +:+
    (if 0 <? mins then Utoa (mins mod 60) +:+ "m" else "") +:+
    Utoa (secs mod 60) +:+ fmtFrac 9 (u mod Second) +:+ "s".

Example duration_ex :
  (Duration_String 1500000000, Duration_String (90 * 60 * Second), Duration_String 1500,
   Duration_String (-2500000), Duration_String (Round 1499999 Millisecond), Duration_String 100000000)
  = ("1.5s", "1h30m0s", "1.5µs", "-2.5ms", "1ms", "100ms").
Proof. vm_compute. reflexivity. Qed.

(** [int(f)] on amd64: truncation, the least integer when out of range. *)
Definition f64_to_i64 (f : float64) : Z :=
  match f with
  | S754_zero _ => 0
  | S754_finite _ _ _ =>
      let z := f64_trunc f in if (- 2 ^ 63 <=? z) && (z <? 2 ^ 63) then z else - 2 ^ 63
  | _ => - 2 ^ 63
  end.
