(* ===== verification/GoFile.v ===== *)
(** * The file system as the tools use it

    The operations the tools perform, a monad that records them and stops at the
    first failure, and what the recorded operations leave on disk. *)

From S2P Require Import Prelude.
From S2P Require Import GoStrings.
From S2P Require Import GoErrors.
From S2P Require Import Url.
From S2P Require Import Paths.

(** ** Operations *)

Inductive fsop :=
  | MkdirAll (path : string)
  | RemoveAll (path : string)
  | WriteFile (path body : string).

(** Operations that record what they did; the first error ends the run. *)
Definition io (A : Type) : Type := list fsop → res A * list fsop.
Definition ret {A} (a : A) : io A := λ log, (Ok a, log).
Definition raise {A} (err : error) : io A := λ log, (Err err, log).
Definition bind {A B} (m : io A) (f : A → io B) : io B :=
  λ log, match m log with
         | (Ok a, log) => f a log
         | (Err err, log) => (Err err, log)
         end.
Local Notation "'let*' x ':=' c 'in' k" := (bind c (λ x, k))
  (at level 10, x pattern, c at level 100, k at level 200).

Definition with_context {A} (prefix : string) (m : io A) : io A :=
  λ log, match m log with
         | (Err err, log) => (Err (EWrap prefix err), log)
         | r => r
         end.

(** An operation; [fault] says which ones fail. *)
Definition perform (fault : list fsop → fsop → option error) (op : fsop) : io unit :=
  λ log, match fault log op with
         | Some err => (Err err, log)
         | None => (Ok tt, log ++ [op])
         end.

(** [filepath.Dir]: what precedes the last slash, cleaned. *)
Definition filepath_Dir (path : string) : string :=
  match removelast (Split path "/") with
  | [] => "."
  | l => Clean (Join l "/" +:+ "/")
  end.

Example filepath_Dir_ex :
  (filepath_Dir "report.html", filepath_Dir "out/a/r.html", filepath_Dir "/r.html",
   filepath_Dir "out//r", filepath_Dir "../r", filepath_Dir "") =
  (".", "out/a", "/", "out", "..", ".").
Proof. reflexivity. Qed.

(** The directory of a file, made when it is not the current one. *)
Definition make_parent (fault : list fsop → fsop → option error) (path : string) : io unit :=
  let dir := filepath_Dir path in
  if String.eqb dir "." || String.eqb dir "" then ret tt else perform fault (MkdirAll dir).

(** ** What the operations leave on disk *)

Definition within (path dir : string) : bool := String.eqb path dir || HasPrefix path (dir +:+ "/").

Definition apply_op (files : gmap string string) (op : fsop) : gmap string string :=
  match op with
  | MkdirAll _ => files
  | RemoveAll dir => filter (λ kv, within kv.1 dir = false) files
  | WriteFile path body => <[path := body]> files
  end.

Definition files_after (files : gmap string string) (log : list fsop) : gmap string string :=
  foldl apply_op files log.
