(* ===== verification/Flag.v ===== *)
(** * Command lines: package flag

    [FlagSet.Parse] of Go's library with the kinds of flags the tools define, as
    a function of the arguments, and what it makes of the command lines one
    would write.  A set of flags is a list of names, each with the function that
    sets it in the record of values. *)

From S2P Require Import Prelude.
From S2P Require Import GoStrings.
From S2P Require Import Strconv.
From S2P Require Import GoErrors.
From S2P Require Import GoFloat.
From coqutil Require Import Datatypes.RecordSetters.

Local Open Scope Z_scope.

(** ** [strconv.ParseInt(s, 0, bits)] *)

Definition digit_val (c : ascii) : Z :=
  if is_digit c then bval c - 48
  else let l := bval (lower c) in
       if (97 <=? l) && (l <=? 122) then l - 87 else 36.

(** The loop of [ParseUint] for 64 bits, with the underscores of base 0. *)
Fixpoint scan_uint (base n : Z) (s : string) : num_error + Z :=
  match s with
  | EmptyString => inr n
  | String c s =>
      if Ascii.eqb c "_" then scan_uint base n s
      else if base <=? digit_val c then inl ErrSyntax
      else let n := n * base + digit_val c in
           if 2 ^ 64 <=? n then inl ErrRange else scan_uint base n s
  end.

(** The base a prefix asks for, whether it is a letter, and the digits. *)
Definition int_base (s : string) : Z * bool * string :=
  match s with
  | String z rest =>
      if Ascii.eqb z "0" then
        match rest with
        | String x ((String _ _) as digits) =>
            if Ascii.eqb (lower x) "b" then (2, true, digits)
            else if Ascii.eqb (lower x) "o" then (8, true, digits)
            else if Ascii.eqb (lower x) "x" then (16, true, digits)
            else (8, false, rest)
        | _ => (8, false, rest)
        end
      else (10, false, s)
  | EmptyString => (10, false, s)
  end.

(** [ParseUint(s, 0, 64)].  The leading 0 of an octal number counts as a digit
    before an underscore. *)
Definition ParseUint_0 (s : string) : num_error + Z :=
  if String.eqb s "" then inl ErrSyntax
  else
    let '(base, prefixed, digits) := int_base s in
    match scan_uint base 0 digits with
    | inl err => inl err
    | inr n =>
        if Contains s "_" &&
           negb (underscores_ok (prefixed && (base =? 16)) prefixed false
                   (if (prefixed : bool) then digits else s))
        then inl ErrSyntax else inr n
    end.

Definition ParseInt_0 (bits : Z) (s : string) : num_error + Z :=
  if String.eqb s "" then inl ErrSyntax
  else
    let '(neg, digits) := take_sign s in
    match ParseUint_0 digits with
    | inl err => inl err
    | inr n =>
        let cutoff := 2 ^ (bits - 1) in
        if (neg : bool) then if cutoff <? n then inl ErrRange else inr (- n)
        else if cutoff <=? n then inl ErrRange else inr n
    end.

Example ParseInt_0_ex :
  (ParseInt_0 64 "42", ParseInt_0 64 "-0x_fF", ParseInt_0 64 "0b101", ParseInt_0 64 "017",
   ParseInt_0 64 "0o17", ParseInt_0 64 "1_000", ParseInt_0 64 "1__0", ParseInt_0 64 "08") =
  (inr 42, inr (-255), inr 5, inr 15, inr 15, inr 1000, inl ErrSyntax, inl ErrSyntax) ∧
  (ParseInt_0 64 "0", ParseInt_0 64 "9223372036854775808", ParseInt_0 64 "-9223372036854775808",
   ParseInt_0 64 "99999999999999999999x", ParseInt_0 64 "+-1", ParseInt_0 64 "0_7") =
  (inr 0, inl ErrRange, inr (- 2 ^ 63), inl ErrRange, inl ErrSyntax, inr 7).
Proof. vm_compute. done. Qed.

(** ** Flags *)

(** A flag of a set whose values are an [F]: its name, whether it is boolean,
    and [Value.Set]. *)
Record flag (F : Type) := Flag { fl_name : string; fl_bool : bool; fl_Set : string → F → res F }.
Arguments Flag {F} _ _ _.
Arguments fl_name {F} _.
Arguments fl_bool {F} _.
Arguments fl_Set {F} _ _ _.

Definition errParse : error := ENew "parse error".
Definition errRange : error := ENew "value out of range".
Definition ErrHelp : error := ENew "flag: help requested".

Definition numError (e : num_error) : error :=
  match e with ErrSyntax => errParse | ErrRange => errRange end.

(** [strconv.ParseBool]. *)
Definition ParseBool (s : string) : option bool :=
  if decide (s ∈ ["1"; "t"; "T"; "true"; "TRUE"; "True"]) then Some true
  else if decide (s ∈ ["0"; "f"; "F"; "false"; "FALSE"; "False"]) then Some false
  else None.

(** The update of one field of a record, by its projection. *)
Definition set_field {F A : Type} (field : F → A) {update : Setter field} (a : A) : F → F :=
  update (λ _, a).

Section kinds.
Context {F : Type}.
Implicit Types f : F.

Definition String_flag (name : string) (set : string → F → F) : flag F :=
  Flag name false (λ v f, Ok (set v f)).

(** [Int] and [Int64] on a 64-bit target. *)
Definition Int_flag (name : string) (set : Z → F → F) : flag F :=
  Flag name false (λ v f, match ParseInt_0 64 v with
                          | inl e => Err (numError e)
                          | inr n => Ok (set n f)
                          end).

Definition Float64_flag (name : string) (set : float64 → F → F) : flag F :=
  Flag name false (λ v f, match parse_float v with
                          | inl e => Err (numError e)
                          | inr x => Ok (set x f)
                          end).

Definition Duration_flag (name : string) (set : Z → F → F) : flag F :=
  Flag name false (λ v f, match ParseDuration v with
                          | None => Err errParse
                          | Some d => Ok (set d f)
                          end).

Definition Bool_flag (name : string) (set : bool → F → F) : flag F :=
  Flag name true (λ v f, match ParseBool v with
                         | None => Err errParse
                         | Some b => Ok (set b f)
                         end).
End kinds.

(** ** Parsing *)

(** What [parseOne] sees in an argument. *)
Inductive argument :=
  | Positional                                  (* not a flag: parsing stops before it *)
  | Terminator                                  (* [--]: parsing stops after it *)
  | BadSyntax
  | Named (name : string) (value : option string).

Definition read_argument (s : string) : argument :=
  let named name :=
    match name with
    | EmptyString => BadSyntax
    | String c _ =>
        if Ascii.eqb c "-" || Ascii.eqb c "=" then BadSyntax
        else let '(name, value, found) := Cut name "=" in
             Named name (if (found : bool) then Some value else None)
    end in
  match s with
  | String d ((String e rest) as name) =>
      if negb (Ascii.eqb d "-") then Positional
      else if negb (Ascii.eqb e "-") then named name
      else if String.eqb rest "" then Terminator
      else named rest
  | _ => Positional
  end.

Section parse.
Context {F : Type} (formal : list (flag F)).

Definition find_flag (name : string) : option (flag F) :=
  List.find (λ fl, String.eqb (fl_name fl) name) formal.

(** [failf] with the message of a value that does not parse. *)
Definition set_flag (fl : flag F) (value : option string) (f : F) : res F :=
  match fl_Set fl (default "true" value) f with
  | Ok f => Ok f
  | Err err =>
      Err (ENew (match value with
                 | Some v =>
                     (if fl_bool fl then "invalid boolean value " +:+ Quote v +:+ " for -"
                      else "invalid value " +:+ Quote v +:+ " for flag -") +:+
                     fl_name fl +:+ ": " +:+ Error err
                 | None => "invalid boolean flag " +:+ fl_name fl +:+ ": " +:+ Error err
                 end))
  end.

(** [FlagSet.Parse]: the values, and the arguments that are left ([Args]). *)
Fixpoint Parse (args : list string) (f : F) : res (F * list string) :=
  match args with
  | [] => Ok (f, [])
  | s :: rest =>
      match read_argument s with
      | Positional => Ok (f, args)
      | Terminator => Ok (f, rest)
      | BadSyntax => Err (ENew ("bad flag syntax: " +:+ s))
      | Named name value =>
          match find_flag name with
          | None =>
              if String.eqb name "help" || String.eqb name "h" then Err ErrHelp
              else Err (ENew ("flag provided but not defined: -" +:+ name))
          | Some fl =>
              match value, rest with
              | None, v :: rest' =>
                  if fl_bool fl then let? f := set_flag fl None f in Parse rest f
                  else let? f := set_flag fl (Some v) f in Parse rest' f
              | None, [] =>
                  if fl_bool fl then let? f := set_flag fl None f in Parse rest f
                  else Err (ENew ("flag needs an argument: -" +:+ name))
              | Some v, _ => let? f := set_flag fl (Some v) f in Parse rest f
              end
          end
      end
  end.

(** [flag.Parse] on the command line, which exits on an error: the values, or
    the exit code. *)
Definition CommandLine_Parse (args : list string) (f : F) : Z + F * list string :=
  match Parse args f with
  | Ok parsed => inr parsed
  | Err err => inl (if decide (err = ErrHelp) then 0 else 2)
  end.
End parse.

(** ** Numbers on the command line

    A number printed by [Itoa] is read back, and so are nanoseconds. *)

Lemma digit_val_digit c : is_digit c = true → digit_val c = bval c - 48 ∧ 0 <= digit_val c < 10.
Proof. unfold digit_val. intros Hc. rewrite Hc. unfold is_digit in Hc. zbool. lia. Qed.

Lemma is_digit_not c d : is_digit c = true → is_digit d = false → Ascii.eqb c d = false.
Proof. intros Hc Hd. apply Ascii.eqb_neq. intros ->. congruence. Qed.

Lemma parse_digits_le s a n : 0 <= a → parse_digits a s = Some n → a <= n.
Proof.
  revert a. induction s as [|c s IH]; simpl; intros a Ha; [by intros [= ->]|].
  destruct (is_digit c) eqn:Hc; [|done]. destruct (digit_val_digit c Hc) as [<- ?].
  intros Hn. apply IH in Hn; lia.
Qed.

Lemma scan_uint_digits s a n : 0 <= a → n < 2 ^ 64 →
  parse_digits a s = Some n → scan_uint 10 a s = inr n.
Proof.
  revert a. induction s as [|c s IH]; intros a Ha Hn; simpl; [congruence|].
  destruct (is_digit c) eqn:Hc; [|done]. intros H.
  rewrite (is_digit_not c "_") by done. destruct (digit_val_digit c Hc) as [E ?].
  rewrite <- E in H. assert (a * 10 + digit_val c <= n) by (eapply parse_digits_le; [|done]; lia).
  do 2 (split_if; zbool; [lia|]). apply IH; [lia|done..].
Qed.

Lemma underscores_ok_digits s hex d : all_bytes is_digit s = true → underscores_ok hex d false s = true.
Proof.
  revert d. induction s as [|c s IH]; intros d H; [done|]. simpl in *.
  apply andb_true_iff in H as [-> Hs]. simpl. by apply IH.
Qed.

Lemma ParseUint_0_Utoa n : 0 <= n < 2 ^ 64 → ParseUint_0 (Utoa n) = inr n.
Proof.
  intros Hn. destruct (Utoa_spec n) as [(Hd&Hne&Hz) Hp]; [lia|].
  destruct (Utoa n) as [|c t] eqn:E; [done|]. rewrite <- E in *.
  assert (parse_digits 0 (Utoa n) = Some n) as Hs by (revert Hp; unfold parse_nat; by rewrite E).
  destruct Hz as [Hz|Hz].
  { rewrite Hz in Hp |- *. by injection Hp as [= <-]. }
  unfold ParseUint_0.
  assert (int_base (Utoa n) = (10, false, Utoa n)) as ->.
  { rewrite E in *. simpl. destruct (Ascii.eqb c "0") eqn:Ec; [|done].
    apply Ascii.eqb_eq in Ec as ->. by destruct (Hz t). }
  rewrite (scan_uint_digits _ 0 n) by (done || lia).
  rewrite underscores_ok_digits, andb_false_r by done. by rewrite E.
Qed.

Lemma take_sign_Itoa z : take_sign (Itoa z) = (z <? 0, Utoa (Z.abs z)).
Proof.
  unfold Itoa. destruct (z <? 0) eqn:E; zbool.
  { simpl. do 2 f_equal. lia. }
  rewrite Z.abs_eq by done. destruct (Utoa_spec z) as [(Hd&Hne&_) _]; [done|].
  destruct (Utoa z) as [|c t]; [done|]. simpl in *. apply andb_true_iff in Hd as [Hc _].
  unfold is_sign. by rewrite !is_digit_not.
Qed.

Lemma Itoa_not_empty z : String.eqb (Itoa z) "" = false.
Proof.
  apply String.eqb_neq. unfold Itoa. split_if; [done|]. zbool.
  by destruct (Utoa_spec z) as [(_&Hne&_) _].
Qed.

Lemma ParseInt_0_Itoa z : in_i64 z → ParseInt_0 64 (Itoa z) = inr z.
Proof.
  unfold in_i64. intros Hz. unfold ParseInt_0. rewrite Itoa_not_empty, take_sign_Itoa.
  rewrite ParseUint_0_Utoa by lia. change (2 ^ (64 - 1)) with (2 ^ 63).
  destruct (z <? 0) eqn:E; zbool; split_if; zbool; f_equal; lia.
Qed.

Lemma leadingInt_digits s a n rest : 0 <= a → n <= 2 ^ 63 → parse_digits a s = Some n →
  (∀ c t, rest = String c t → is_digit c = false) →
  leadingInt a (s +:+ rest) = Some (n, rest).
Proof.
  revert a. induction s as [|c s IH]; intros a Ha Hn H Hrest.
  - simpl in H. injection H as [= ->]. rewrite app_nil_l. destruct rest as [|c t]; [done|].
    simpl. by rewrite (Hrest c t).
  - rewrite app_cons. simpl in *. destruct (is_digit c) eqn:Hc; [|done].
    destruct (digit_val_digit c Hc) as [E ?]. rewrite <- E in *.
    assert (a * 10 + digit_val c <= n) by (eapply parse_digits_le; [|done]; lia).
    change (2 ^ 63 / 10) with 922337203685477580.
    do 2 (split_if; zbool; [lia|]). apply IH; [lia|done..].
Qed.

Lemma duration_part_nanoseconds n : 0 <= n <= 2 ^ 63 → duration_part (Utoa n +:+ "ns") = Some (n, "").
Proof.
  intros Hn. destruct (Utoa_spec n) as [(Hd&Hne&_) Hp]; [lia|].
  unfold duration_part. destruct (Utoa n +:+ "ns") as [|c t] eqn:E.
  { by destruct (Utoa n). }
  assert (unit_char c = false) as ->.
  { destruct (Utoa n) as [|c' t']; [done|]. rewrite app_cons in E. injection E as [= -> _].
    simpl in Hd. apply andb_true_iff in Hd as [Hc _]. unfold unit_char. rewrite Hc.
    by rewrite orb_true_r. }
  rewrite <- E, (leadingInt_digits _ 0 n "ns"); [|lia|lia| |by intros ?? [= <- _]].
  2:{ revert Hp. unfold parse_nat. by destruct (Utoa n). }
  rewrite length_app_s. cbv zeta. simpl (String.length "ns").
  assert ((String.length (Utoa n) + 2 =? 2)%nat = false) as ->.
  { apply Nat.eqb_neq. destruct (Utoa n); simpl; [done|lia]. }
  change ("n" =? ".")%char with false. cbv iota beta zeta.
  change (take_unit "ns") with ("ns", ""). cbv iota beta zeta.
  change (unit_ns "ns") with (Some 1). cbv iota beta.
  rewrite Z.ltb_irrefl, Z.div_1_r, Z.mul_1_r.
  destruct (2 ^ 63 <? n) eqn:E'; zbool; [lia|done].
Qed.

(** The text of a duration in nanoseconds. *)
Definition nanoseconds (d : Z) : string := Itoa d +:+ "ns".

Lemma ParseDuration_nanoseconds d : in_i64 d → ParseDuration (nanoseconds d) = Some d.
Proof.
  unfold in_i64, nanoseconds. intros Hd. unfold ParseDuration.
  assert (take_sign (Itoa d +:+ "ns") = (d <? 0, Utoa (Z.abs d) +:+ "ns")) as ->.
  { pose proof (take_sign_Itoa d) as H. pose proof (Itoa_not_empty d) as Hne.
    destruct (Itoa d) as [|c t]; [done|]. rewrite app_cons. simpl in *.
    destruct (is_sign c); injection H as [= <- <-]; by rewrite ?app_cons. }
  assert (0 <= Z.abs d <= 2 ^ 63) as Ha by lia.
  pose proof (duration_part_nanoseconds _ Ha) as Hp.
  destruct (Utoa_spec (Z.abs d)) as [(_&Hne&_) _]; [lia|].
  destruct (Utoa (Z.abs d)) as [|c t]; [done|]. rewrite app_cons in *.
  assert ((String c (t +:+ "ns") =? "0")%string = false) as ->.
  { apply String.eqb_neq. intros [= _ H]. by destruct t. }
  cbn [String.eqb String.length duration_parts]. rewrite Hp.
  destruct (2 ^ 63 <? 0 + Z.abs d) eqn:E; zbool; [lia|].
  replace (duration_parts _ _ "") with (Some (0 + Z.abs d)) by (by destruct (String.length _)).
  destruct (d <? 0) eqn:E'; zbool; [f_equal; lia|]. split_if; zbool; [lia|]. f_equal. lia.
Qed.

(** ** Command lines

    A name as flags have it, and an argument that gives it a value. *)

Definition plain_name (name : string) : Prop :=
  match name with
  | EmptyString => False
  | String c _ => c ≠ "-"%char ∧ all_bytes (λ c, negb (Ascii.eqb c "=")) name = true
  end.

Definition assignment (name value : string) : string := "-" +:+ name +:+ "=" +:+ value.

Lemma Cut_none s sep : all_bytes (λ c, negb (Ascii.eqb c sep)) s = true → Cut s sep = (s, "", false).
Proof.
  induction s as [|c s IH]; [done|]. simpl. intros H.
  apply andb_true_iff in H as [Hc%negb_true_iff Hs]. by rewrite Hc, IH.
Qed.

Lemma Cut_app s sep t : all_bytes (λ c, negb (Ascii.eqb c sep)) s = true →
  Cut (s +:+ String sep t) sep = (s, t, true).
Proof.
  induction s as [|c s IH]; simpl; [by rewrite Ascii.eqb_refl|]. intros H.
  apply andb_true_iff in H as [Hc%negb_true_iff Hs]. by rewrite Hc, IH.
Qed.

Lemma read_named name rest : plain_name name → (∀ c t, rest = String c t → c = "="%char) →
  read_argument ("-" +:+ name +:+ rest) =
  Named name (match rest with String _ v => Some v | EmptyString => None end) ∧
  read_argument ("--" +:+ name +:+ rest) = read_argument ("-" +:+ name +:+ rest).
Proof.
  intros Hn Hrest. destruct name as [|c name]; [done|]. destruct Hn as [Hc Hn].
  assert (Ascii.eqb c "-" = false) as Ec by by apply Ascii.eqb_neq.
  assert (Ascii.eqb c "=" = false) as Ee.
  { simpl in Hn. by apply andb_true_iff in Hn as [?%negb_true_iff _]. }
  assert (Cut (String c (name +:+ rest)) "=" =
          (String c name, match rest with String _ v => v | _ => "" end,
           match rest with String _ _ => true | _ => false end)) as HC.
  { rewrite <- app_cons. destruct rest as [|d v].
    - rewrite app_nil_r_s. by apply Cut_none.
    - rewrite (Hrest d v) by done. by apply Cut_app. }
  change ("-" +:+ String c name +:+ rest) with (String "-" (String c (name +:+ rest))).
  change ("--" +:+ String c name +:+ rest) with (String "-" (String "-" (String c (name +:+ rest)))).
  unfold read_argument. rewrite Ascii.eqb_refl, Ec, Ee, HC. simpl. by destruct rest.
Qed.

Section command_lines.
Context {F : Type} (formal : list (flag F)).

(** [-name=value] sets the flag and goes on; [--name=value] and, unless the
    flag is boolean, [-name value] mean the same. *)
Lemma Parse_assignment name value fl rest f : plain_name name → find_flag formal name = Some fl →
  Parse formal (assignment name value :: rest) f =
  (let? f := set_flag fl (Some value) f in Parse formal rest f).
Proof.
  intros Hn Hf. unfold assignment. destruct (read_named name ("=" +:+ value)) as [H _]; [done| |].
  { by intros c t [= <- _]. }
  cbn [Parse]. by rewrite H, Hf.
Qed.

(** The values that always parse. *)
Lemma Parse_string name value set rest f : plain_name name →
  find_flag formal name = Some (String_flag name set) →
  Parse formal (assignment name value :: rest) f = Parse formal rest (set value f).
Proof. intros Hn Hf. by rewrite (Parse_assignment _ _ _ _ _ Hn Hf). Qed.

Lemma Parse_int name z set rest f : plain_name name → in_i64 z →
  find_flag formal name = Some (Int_flag name set) →
  Parse formal (assignment name (Itoa z) :: rest) f = Parse formal rest (set z f).
Proof.
  intros Hn Hz Hf. rewrite (Parse_assignment _ _ _ _ _ Hn Hf).
  unfold set_flag. cbn. by rewrite ParseInt_0_Itoa.
Qed.

Lemma Parse_duration name d set rest f : plain_name name → in_i64 d →
  find_flag formal name = Some (Duration_flag name set) →
  Parse formal (assignment name (nanoseconds d) :: rest) f = Parse formal rest (set d f).
Proof.
  intros Hn Hd Hf. rewrite (Parse_assignment _ _ _ _ _ Hn Hf).
  unfold set_flag. cbn. by rewrite ParseDuration_nanoseconds.
Qed.

Lemma Parse_float name text x set rest f : plain_name name → parse_float text = inr x →
  find_flag formal name = Some (Float64_flag name set) →
  Parse formal (assignment name text :: rest) f = Parse formal rest (set x f).
Proof.
  intros Hn Hx Hf. rewrite (Parse_assignment _ _ _ _ _ Hn Hf).
  unfold set_flag. cbn. by rewrite Hx.
Qed.

Lemma Parse_two_dashes name value rest f : plain_name name →
  Parse formal (("-" +:+ assignment name value) :: rest) f =
  Parse formal (assignment name value :: rest) f.
Proof.
  intros Hn. unfold assignment. destruct (read_named name ("=" +:+ value)) as [H1 H2]; [done| |].
  { by intros c t [= <- _]. }
  change ("-" +:+ "-" +:+ name +:+ "=" +:+ value) with ("--" +:+ name +:+ "=" +:+ value).
  rewrite H1 in H2. cbn [Parse]. change ("=" +:+ value) with (String "=" value) in *.
  by rewrite H1, H2.
Qed.

Lemma Parse_separate name value fl rest f : plain_name name →
  find_flag formal name = Some fl → fl_bool fl = false →
  Parse formal (("-" +:+ name) :: value :: rest) f =
  Parse formal (assignment name value :: rest) f.
Proof.
  intros Hn Hf Hb. rewrite (Parse_assignment name value fl) by done.
  destruct (read_named name "") as [H _]; [done..|]. rewrite app_nil_r_s in H.
  cbn [Parse]. by rewrite H, Hf, Hb.
Qed.

(** Arguments from the first one that is no flag on are left alone. *)
Lemma Parse_positional s rest f : read_argument s = Positional →
  Parse formal (s :: rest) f = Ok (f, s :: rest).
Proof. intros H. cbn [Parse]. by rewrite H. Qed.

Lemma Parse_terminator rest f : Parse formal ("--" :: rest) f = Ok (f, rest).
Proof. done. Qed.
End command_lines.
