(* ===== verification/FlagFacts.v ===== *)
(** * What a command line can say

    The numbers and durations package flag accepts are in the range of their
    types, and what every [Set] of a set of flags keeps, [Parse] keeps. *)

From S2P Require Import Prelude.
From S2P Require Import GoStrings.
From S2P Require Import Strconv.
From S2P Require Import GoErrors.
From S2P Require Import GoFloat.
From S2P Require Import Flag.

Local Open Scope Z_scope.

(** ** Integers *)

Lemma digit_val_nonneg c : 0 <= digit_val c.
Proof.
  unfold digit_val, is_digit. pose proof (bval_range c). repeat split_if; zbool; lia.
Qed.

Lemma scan_uint_nonneg base n s m : 0 <= base → 0 <= n → scan_uint base n s = inr m → 0 <= m.
Proof.
  intros Hb. revert n. induction s as [|c s IH]; simpl; intros n Hn H; [congruence|].
  pose proof (digit_val_nonneg c).
  destruct (Ascii.eqb c "_"); [by apply IH in H|].
  do 2 (split_if_in H; [done|]). apply IH in H; [done|nia].
Qed.

Lemma int_base_nonneg s : 0 <= (int_base s).1.1.
Proof. destruct s as [|z [|x [|y t]]]; simpl; repeat split_if; simpl; lia. Qed.

Lemma ParseInt_0_range s n : ParseInt_0 64 s = inr n → in_i64 n.
Proof.
  unfold ParseInt_0, in_i64. destruct (String.eqb s ""); [done|].
  destruct (take_sign s) as [neg digits]. unfold ParseUint_0.
  destruct (String.eqb digits ""); [done|].
  pose proof (int_base_nonneg digits) as Hb.
  destruct (int_base digits) as [[base prefixed] ds]. simpl in Hb.
  destruct (scan_uint base 0 ds) as [|m] eqn:E; [done|].
  apply scan_uint_nonneg in E; [|lia..].
  destruct (Contains digits "_" && _)%bool; [done|]. change (2 ^ (64 - 1)) with (2 ^ 63).
  destruct neg; (split_if; [done|]); zbool; intros [= <-]; lia.
Qed.

(** ** Durations

    The fraction of a part is a float without a minus sign. *)

Definition unsigned (f : float64) : Prop :=
  match f with
  | S754_finite s _ _ | S754_infinity s | S754_zero s => s = false
  | S754_nan => True
  end.

Lemma unsigned_round prec emax m e l : unsigned (binary_round_aux prec emax false m e l).
Proof.
  unfold binary_round_aux.
  repeat case_match; done.
Qed.

Lemma unsigned_of_Z z : 0 <= z → unsigned (f64_of_Z z).
Proof.
  destruct z as [|p|p]; intros Hz; [done| |lia]. unfold f64_of_Z, binary_normalize, binary_round.
  destruct (shl_align _ _ _). apply unsigned_round.
Qed.

Lemma unsigned_mul f g : unsigned f → unsigned g → unsigned (f64_mul f g).
Proof.
  destruct f, g; simpl; try done; intros -> ->; try done. apply unsigned_round.
Qed.

Lemma unsigned_div f g : unsigned f → unsigned g → unsigned (f64_div f g).
Proof.
  destruct f as [| | |s m e], g as [| | |s' m' e']; simpl; try done; intros -> ->; try done.
  change (unsigned (let '(mz, ez, lz) := SFdiv_core_binary 53 1024 (Z.pos m) e (Z.pos m') e' in
                    binary_round_aux 53 1024 (xorb false false) mz ez lz)).
  destruct (SFdiv_core_binary _ _ _ _ _ _) as [[mz ez] lz]. apply unsigned_round.
Qed.

Lemma unsigned_trunc f : unsigned f → 0 <= f64_trunc f.
Proof.
  destruct f as [| | |s m e]; simpl; try done. intros ->. split_if; zbool.
  - apply Z.mul_nonneg_nonneg; [lia|]. apply Z.pow_nonneg. lia.
  - apply Z.div_pos; [lia|]. apply Z.pow_pos_nonneg; lia.
Qed.

Lemma leadingInt_nonneg x s v rest : 0 <= x → leadingInt x s = Some (v, rest) → 0 <= v.
Proof.
  revert x. induction s as [|c s IH]; simpl; intros x Hx H; [by injection H as [= <- _]|].
  destruct (is_digit c) eqn:Hc; [|by injection H as [= <- _]].
  do 2 (split_if_in H; [done|]). apply IH in H; [done|].
  unfold is_digit in Hc. zbool. lia.
Qed.

Lemma leadingFraction_nonneg x scale o s f scale' rest : 0 <= x → 0 <= scale →
  leadingFraction x scale o s = (f, scale', rest) → 0 <= f ∧ 0 <= scale'.
Proof.
  revert x scale o. induction s as [|c s IH]; simpl; intros x scale o Hx Hs H.
  { by injection H as [= <- <- _]. }
  destruct (is_digit c) eqn:Hc; [|by injection H as [= <- <- _]].
  unfold is_digit in Hc. zbool.
  repeat (split_if_in H); apply IH in H; try done; lia.
Qed.

Lemma unit_ns_pos u unit : unit_ns u = Some unit → 0 < unit.
Proof. unfold unit_ns. intros H. repeat (split_if_in H); by simplify_eq. Qed.

Lemma duration_part_nonneg s v rest : duration_part s = Some (v, rest) → 0 <= v.
Proof.
  unfold duration_part. destruct s as [|c s']; [done|]. intros H.
  split_if_in H; [done|]. destruct (leadingInt _ _) as [[n s1]|] eqn:E1; [|done].
  apply leadingInt_nonneg in E1; [|done]. cbv zeta in H.
  match type of H with
  | context [match ?x with pair _ _ => _ end] => remember x as fr eqn:E2
  end.
  destruct fr as [[[f scale] s2] post].
  assert (0 <= f ∧ 0 <= scale) as [Hf Hscale].
  { destruct s1 as [|d s1']; [by injection E2 as -> ->|].
    split_if_in E2; [|by injection E2 as -> ->].
    destruct (leadingFraction _ _ _ _) as [[f' scale'] s2'] eqn:E3.
    injection E2 as -> -> _ _. by eapply leadingFraction_nonneg; [| |exact E3]. }
  split_if_in H; [done|]. destruct (take_unit s2) as [u rest'].
  destruct (unit_ns u) as [unit|] eqn:Eu; [|done]. apply unit_ns_pos in Eu.
  split_if_in H; [done|].
  assert (0 <= f64_trunc (f64_mul (f64_of_Z f) (f64_div (f64_of_Z unit) (f64_of_Z scale)))) as Ht.
  { apply unsigned_trunc, unsigned_mul; [by apply unsigned_of_Z|].
    apply unsigned_div; apply unsigned_of_Z; lia. }
  destruct (0 <? f); (split_if_in H; [done|]); injection H as [= <- _]; nia.
Qed.

Lemma duration_parts_nonneg fuel d s d' : 0 <= d → duration_parts fuel d s = Some d' → 0 <= d' ∧ (d <= 2 ^ 63 → d' <= 2 ^ 63).
Proof.
  revert d s. induction fuel as [|fuel IH]; intros d s Hd H.
  { destruct s; simpl in H; [by injection H as [= <-]|done]. }
  destruct s as [|c s]; cbn [duration_parts] in H; [by injection H as [= <-]|].
  destruct (duration_part _) as [[v rest]|] eqn:E; [|done].
  apply duration_part_nonneg in E. split_if_in H; [done|]. zbool.
  apply IH in H; [|lia]. split; [by destruct H|]. intros _. apply H. lia.
Qed.

Lemma ParseDuration_range s d : ParseDuration s = Some d → in_i64 d.
Proof.
  unfold ParseDuration, in_i64. destruct (take_sign s) as [neg s1].
  split_if; [by intros [= <-]|]. split_if; [done|].
  destruct (duration_parts _ _ _) as [n|] eqn:E; [|done].
  apply duration_parts_nonneg in E as [Hn Hm]; [|done]. specialize (Hm ltac:(lia)).
  destruct neg; [intros [= <-]; lia|]. split_if; [done|]. zbool. intros [= <-]. lia.
Qed.

(** ** What parsing keeps *)

(** The cases of [H : fl_Set fl v g = Ok g'] for the kinds of flags, with what is
    known of the value. *)
Ltac set_cases H :=
  lazymatch type of H with
  | context [ParseInt_0 64 ?v] =>
      let E := fresh "E" in destruct (ParseInt_0 64 v) eqn:E; [done|]; apply ParseInt_0_range in E
  | context [ParseDuration ?v] =>
      let E := fresh "E" in destruct (ParseDuration v) eqn:E; [|done]; apply ParseDuration_range in E
  | context [parse_float ?v] => let E := fresh "E" in destruct (parse_float v) eqn:E; [done|]
  | context [ParseBool ?v] => let E := fresh "E" in destruct (ParseBool v) eqn:E; [|done]
  | _ => idtac
  end.

Section invariant.
Context {F : Type} (formal : list (flag F)) (I : F → Prop).

Lemma Parse_invariant args f f' rest :
  Forall (λ fl, ∀ v g g', fl_Set fl v g = Ok g' → I g → I g') formal →
  Parse formal args f = Ok (f', rest) → I f → I f'.
Proof.
  rewrite Forall_forall. intros Hall. remember (length args) as n eqn:En.
  revert args f En. induction (lt_wf n) as [n _ IH]. intros args f En H Hf.
  destruct args as [|s args]; cbn [Parse length] in *; [by simplify_eq|].
  destruct (read_argument s) as [| | |name value]; simplify_eq; try done.
  destruct (find_flag formal name) as [fl|] eqn:Efl; [|by repeat split_if_in H].
  apply find_some in Efl as [Hin%list_elem_of_In _].
  assert (∀ v g g', set_flag fl v g = Ok g' → I g → I g') as Hset.
  { unfold set_flag. intros v g g' Hg. destruct (fl_Set _ _ _) eqn:E; simplify_eq.
    by eapply Hall. }
  destruct value as [v|]; [|destruct args as [|v args']].
  - destruct (set_flag _ _ _) as [g|] eqn:E; [|done]. eapply IH; [|done..|by eapply Hset]. lia.
  - destruct (fl_bool fl); [|done]. destruct (set_flag _ _ _) as [g|] eqn:E; [|done].
    eapply IH; [|done..|by eapply Hset]. simpl. lia.
  - destruct (fl_bool fl); (destruct (set_flag _ _ _) as [g|] eqn:E; [|done]);
      (eapply IH; [|done..|by eapply Hset]; simpl in *; lia).
Qed.
End invariant.
