(* ===== verification/Soak.v ===== *)
(** * cmd/soak-produce/main.go

    The soak test driver: its options, the requests it sends, how it counts the
    proxy's answers, the summary and the thresholds that decide its exit code,
    and the steps of its clients, its timer and the results channel. *)

From stdpp Require Import sorting.
From S2P Require Import Prelude.
From S2P Require Import GoStrings.
From S2P Require Import Strconv.
From S2P Require Import GoErrors.
From S2P Require Import Json.
From S2P Require Import Base64.
From S2P Require Import Url.
From S2P Require Import GoFloat.
From S2P Require Import Config.
From S2P Require Import RateLimit.
From S2P Require Import GoFmt.
From S2P Require Import Flag.
From S2P Require Import Main.
From coqutil Require Import Datatypes.RecordSetters.
Local Open Scope Z_scope.

(** ** Options *)

Record thresholds := {
  MaxFailureRate : float64;
  MinRecordsPerSecond : float64;
  MaxP99 : Z;
}.

Record options := {
  o_URL : string;
  o_Topic : string;
  o_Duration : Z;
  o_Warmup : Z;
  o_Clients : Z;
  o_RecordsPerRequest : Z;
  o_PayloadBytes : Z;
  o_Format : string;
  o_Timeout : Z;
  o_MaxLatencySamples : Z;
  o_Thresholds : thresholds;
}.

Definition parseFormat (v : string) : res string :=
  let l := ToLower (TrimSpace v) in
  if String.eqb l "" || String.eqb l "json" then Ok "json"
  else if String.eqb l "binary" || String.eqb l "bin" then Ok "binary"
  else Err (ENew ("format must be json or binary, got " +:+ Quote v)).

Definition contentTypeForFormat (format : string) : string :=
  if String.eqb format "binary" then "application/vnd.kafka.binary.v2+json"
  else "application/vnd.kafka.json.v2+json".

Definition parseFailureRate (v : string) : res float64 :=
  let raw := TrimSpace v in
  if String.eqb raw "" then Err (ENew "must not be empty")
  else
    let hasPercent := HasSuffix raw "%" in
    match ParseFloat (TrimSpace (TrimSuffix raw "%")) with
    | None => Err (ENew (Quote v +:+ " is not a number"))
    | Some n =>
        if f64_ltb n f64_zero then Err (ENew "must be zero or positive")
        else
          let n := if hasPercent then f64_div n (f64_of_Z 100) else n in
          if f64_ltb (f64_of_Z 1) n
          then Err (ENew "must be <= 1.0 as a fraction or <= 100%")
          else Ok n
    end.

(** The variables of the flags, and the positional arguments [Parse] leaves. *)
Record flags := {
  f_url : string;
  f_topic : string;
  f_duration : Z;
  f_warmup : Z;
  f_clients : Z;
  f_recordsPerRequest : Z;
  f_payloadBytes : Z;
  f_format : string;
  f_timeout : Z;
  f_maxLatencySamples : Z;
  f_maxFailureRate : string;
  f_minRecordsPerSec : float64;
  f_maxP99 : Z;
  f_args : list string;
}.

Definition default_flags : flags := {|
  f_url := "http://localhost:8080"; f_topic := "orders"; f_duration := 10 * 60 * Second;
  f_warmup := 0; f_clients := 32; f_recordsPerRequest := 10; f_payloadBytes := 512;
  f_format := "json"; f_timeout := 30 * Second; f_maxLatencySamples := 1000000;
  f_maxFailureRate := "0"; f_minRecordsPerSec := f64_zero; f_maxP99 := 0; f_args := [] |}.

Definition soak_formal : list (flag flags) :=
  [String_flag "url" (set_field f_url); String_flag "topic" (set_field f_topic);
   Duration_flag "duration" (set_field f_duration);
   Duration_flag "warmup" (set_field f_warmup); Int_flag "clients" (set_field f_clients);
   Int_flag "records-per-request" (set_field f_recordsPerRequest);
   Int_flag "payload-bytes" (set_field f_payloadBytes);
   String_flag "format" (set_field f_format); Duration_flag "timeout" (set_field f_timeout);
   Int_flag "max-latency-samples" (set_field f_maxLatencySamples);
   String_flag "max-failure-rate" (set_field f_maxFailureRate);
   Float64_flag "min-records-sec" (set_field f_minRecordsPerSec);
   Duration_flag "max-p99" (set_field f_maxP99)].

Section options.
Context (url_Parse : string → res parsedURL).

(** [url.Parse] succeeds with a scheme and a host. *)
Definition absolute_url (raw : string) : bool :=
  match url_Parse raw with
  | Ok u => negb (String.eqb (pu_Scheme u) "") && negb (String.eqb (pu_Host u) "")
  | Err _ => false
  end.

(** [parseOptions] after the flags are parsed. *)
Definition check_flags (f : flags) : res options :=
  let fail msg := Err (ENew msg) in
  if negb (length (f_args f) =? 0)%nat
  then fail ("unexpected positional arguments: " +:+ Join (f_args f) " ")
  else if negb (absolute_url (TrimSpace (f_url f))) then fail "url must be an absolute URL"
  else if String.eqb (TrimSpace (f_topic f)) "" then fail "topic must not be empty"
  else if f_duration f <=? 0 then fail "duration must be positive"
  else if f_warmup f <? 0 then fail "warmup must be zero or positive"
  else if f_clients f <=? 0 then fail "clients must be positive"
  else if f_recordsPerRequest f <=? 0 then fail "records-per-request must be positive"
  else if f_payloadBytes f <? 0 then fail "payload-bytes must be zero or positive"
  else if f_timeout f <=? 0 then fail "timeout must be positive"
  else if f_maxLatencySamples f <=? 0 then fail "max-latency-samples must be positive"
  else if f64_ltb (f_minRecordsPerSec f) f64_zero
  then fail "min-records-sec must be zero or positive"
  else if f_maxP99 f <? 0 then fail "max-p99 must be zero or positive"
  else
    let? format := parseFormat (f_format f) in
    match parseFailureRate (f_maxFailureRate f) with
    | Err err => Err (EWrap "max-failure-rate: " err)
    | Ok rate =>
        Ok {| o_URL := TrimRightByte (TrimSpace (f_url f)) "/";
              o_Topic := TrimSpace (f_topic f);
              o_Duration := f_duration f; o_Warmup := f_warmup f; o_Clients := f_clients f;
              o_RecordsPerRequest := f_recordsPerRequest f;
              o_PayloadBytes := f_payloadBytes f; o_Format := format;
              o_Timeout := f_timeout f; o_MaxLatencySamples := f_maxLatencySamples f;
              o_Thresholds := {| MaxFailureRate := rate;
                                 MinRecordsPerSecond := f_minRecordsPerSec f;
                                 MaxP99 := f_maxP99 f |} |}
    end.

Definition parseOptions (args : list string) : res options :=
  match Parse soak_formal args default_flags with
  | Err err => Err err
  | Ok (f, rest) => check_flags (set_field f_args rest f)
  end.
End options.

(** ** Requests *)

(** [json.Marshal] of a [produceRequest]: the value of a record is a string or
    a map, whose keys are printed in order. *)
Definition record_json (format payload : string) (i : Z) : string :=
  "{" +:+ json_string "value" +:+ ":" +:+
  (if String.eqb format "binary" then json_string (EncodeToString payload)
   else "{" +:+ json_string "index" +:+ ":" +:+ Itoa i +:+ "," +:+
        json_string "payload" +:+ ":" +:+ json_string payload +:+ "}") +:+ "}".

Definition buildBody (records payloadBytes : nat) (format : string) : string :=
  let payload := Repeat "x" payloadBytes in
  "{" +:+ json_string "records" +:+ ":[" +:+
  Join ((λ i, record_json format payload (Z.of_nat i)) <$> seq 0 records) "," +:+ "]}".

Example buildBody_ex :
  (buildBody 2 3 "json", buildBody 1 3 "binary") =
  (qt "{'records':[{'value':{'index':0,'payload':'xxx'}},{'value':{'index':1,'payload':'xxx'}}]}",
   qt "{'records':[{'value':'eHh4'}]}").
Proof. vm_compute. reflexivity. Qed.

(** ** Responses *)

Record produceOffset := { ErrorCode : option Z; OffsetError : option string }.
Definition zero_produceOffset : produceOffset := {| ErrorCode := None; OffsetError := None |}.

Definition offset_field (cx : dctx) (cur : produceOffset) (key : string) (j : json)
  : dec produceOffset :=
  let cx f := in_field cx "produceOffset" f in
  match field_of ["error_code"; "error"] key with
  | Some 0%nat => let! x := decode_int_ptr 64 "int" (cx "error_code") (ErrorCode cur) j in
                  dret {| ErrorCode := x; OffsetError := OffsetError cur |}
  | Some 1%nat => let! x := decode_string_ptr (cx "error") (OffsetError cur) j in
                  dret {| ErrorCode := ErrorCode cur; OffsetError := x |}
  | _ => dret cur
  end.

Definition produceResponse : Type := gslice produceOffset.

Definition response_field (cur : produceResponse) (key : string) (j : json)
  : dec produceResponse :=
  let cx := in_field ctx0 "produceResponse" "offsets" in
  match field_of ["offsets"] key with
  | Some 0%nat =>
      decode_slice zero_produceOffset
        (decode_struct (offset_field cx) "main.produceOffset" cx)
        "[]main.produceOffset" cx cur j
  | _ => dret cur
  end.

Definition Unmarshal_response (body : string) : res produceResponse :=
  Unmarshal (decode_struct response_field "main.produceResponse" ctx0)
    {| elems := None; spare := [] |} body.

Definition offset_failed (o : produceOffset) : bool :=
  match ErrorCode o, OffsetError o with
  | Some _, _ => true
  | None, Some e => negb (String.eqb e "")
  | None, None => false
  end.

Definition recordFailureReason (o : produceOffset) : string :=
  match ErrorCode o with
  | Some c => "record_error_code_" +:+ Itoa c
  | None =>
      match OffsetError o with
      | Some e => if String.eqb e "" then "record_error_unknown" else "record_error"
      | None => "record_error_unknown"
      end
  end.

(** The loop of [countRecordResults]: successes, failures, the first reason. *)
Fixpoint count_offsets (offsets : list produceOffset) (success failed : Z) (reason : string)
  : Z * Z * string :=
  match offsets with
  | [] => (success, failed, reason)
  | o :: offsets =>
      if offset_failed o
      then count_offsets offsets success (failed + 1)
             (if String.eqb reason "" then recordFailureReason o else reason)
      else count_offsets offsets (success + 1) failed reason
  end.

Definition countRecordResults (body : string) (expectedRecords : Z) : res (Z * Z * string) :=
  match Unmarshal_response body with
  | Err err => Err (EWrap "decode produce response: " err)
  | Ok decoded =>
      let offsets := default [] (elems decoded) in
      if negb (Z.of_nat (length offsets) =? expectedRecords)
      then Err (ENew ("produce response offsets length " +:+ Itoa (Z.of_nat (length offsets)) +:+
                      " does not match records " +:+ Itoa expectedRecords))
      else Ok (count_offsets offsets 0 0 "")
  end.

Definition classifyClientError (err : error) : string :=
  if errors_Is err ctxDeadlineExceeded || errors_Is err ctxCanceled then "client_timeout"
  else
    let msg := ToLower (Error err) in
    if Contains msg "connection reset" then "client_connection_reset"
    else if Contains msg "connection refused" then "client_connection_refused"
    else if Contains msg "eof" then "client_eof"
    else if Contains msg "broken pipe" then "client_broken_pipe"
    else if Contains msg "timeout" then "client_timeout"
    else "client_error".

Definition classifyResponseError (err : error) : string :=
  let msg := Error err in
  if Contains msg "decode produce response" then "response_decode_error"
  else if Contains msg "offsets length" then "response_offsets_length_mismatch"
  else "response_error".

Record requestResult := {
  Status : Z;
  Records : Z;
  SuccessRecords : Z;
  FailedRecords : Z;
  Bytes : Z;
  Latency : Z;
  ResErr : option error;
  FailureReason : string;
}.

(** A request, and what sending it comes to: no request could be built, no
    response arrived, or a response whose body may break off. *)
Record outgoing := { out_url : string; out_ContentType : string; out_Accept : string;
                     out_body : string }.
Inductive exchange :=
  | NewRequestFailed (err : error)
  | DoFailed (err : error)
  | Responded (status : Z) (body : string) (readErr : option error).

Definition soak_request (opts : options) (body : string) : outgoing :=
  {| out_url := o_URL opts +:+ "/topics/" +:+ PathEscape (o_Topic opts);
     out_ContentType := contentTypeForFormat (o_Format opts);
     out_Accept := "application/vnd.kafka.v2+json"; out_body := body |}.

(** [postOnce]: [send] is the HTTP client, [latency] the time since [start]
    where it is read. *)
Definition postOnce (send : outgoing → exchange) (latency : Z) (opts : options) (body : string)
  : requestResult :=
  let n := o_RecordsPerRequest opts in
  let failed status err reason :=
    {| Status := status; Records := n; SuccessRecords := 0; FailedRecords := n;
       Bytes := slen body; Latency := latency; ResErr := err; FailureReason := reason |} in
  match send (soak_request opts body) with
  | NewRequestFailed err => failed 0 (Some err) "request_build_error"
  | DoFailed err => failed 0 (Some err) (classifyClientError err)
  | Responded status _ (Some readErr) => failed status (Some readErr) "response_read_error"
  | Responded status respBody None =>
      if (status <? 200) || (300 <=? status)
      then failed status None ("http_status_" +:+ Itoa status)
      else match countRecordResults respBody n with
      | Err err => failed status (Some err) (classifyResponseError err)
      | Ok (success, nfailed, reason) =>
          {| Status := status; Records := n; SuccessRecords := success;
             FailedRecords := nfailed; Bytes := slen body; Latency := latency;
             ResErr := None; FailureReason := reason |}
      end
  end.

(** ** The load

    The goroutines of [runSoak].  Its clients share the channel [done], which
    the timer closes, and the buffered channel [results], from which the loop
    of [runSoak] receives; each step is one atomic action of one of them.
    [post] is one call of [postOnce] in a world the calls share, where [D] is
    what happens to the request on its way. *)

Inductive soak_client :=
  | SLoop                               (* at the select *)
  | SPosting                            (* in [postOnce] *)
  | SSending (res : requestResult)      (* sending its result *)
  | SExited.

Inductive soak_event (D : Type) :=
  | SPoll (i : nat) | SPost (i : nat) (d : D) | SSend (i : nat) | SReceive | STimer.
Arguments SPoll {D}.
Arguments SPost {D}.
Arguments SSend {D}.
Arguments SReceive {D}.
Arguments STimer {D}.

Section load.
Context {W D : Type} (post : D → W → requestResult * W) (capacity : nat).

Record soak_load := {
  sl_world : W;
  sl_done : bool;                       (* [done] is closed *)
  sl_clients : list soak_client;
  sl_results : list requestResult;      (* in the channel *)
  sl_arrived : list requestResult;      (* received, in this order *)
}.

Definition set_soak_client (i : nat) (c : soak_client) (s : soak_load) : soak_load :=
  {| sl_world := sl_world s; sl_done := sl_done s; sl_clients := <[i := c]> (sl_clients s);
     sl_results := sl_results s; sl_arrived := sl_arrived s |}.

Definition soak_step (e : soak_event D) (s : soak_load) : option soak_load :=
  match e with
  | STimer => Some {| sl_world := sl_world s; sl_done := true; sl_clients := sl_clients s;
                      sl_results := sl_results s; sl_arrived := sl_arrived s |}
  | SPoll i =>
      match sl_clients s !! i with
      | Some SLoop => Some (set_soak_client i (if sl_done s then SExited else SPosting) s)
      | _ => None
      end
  | SPost i d =>
      match sl_clients s !! i with
      | Some SPosting =>
          let '(res, w) := post d (sl_world s) in
          Some {| sl_world := w; sl_done := sl_done s;
                  sl_clients := <[i := SSending res]> (sl_clients s);
                  sl_results := sl_results s; sl_arrived := sl_arrived s |}
      | _ => None
      end
  | SSend i =>
      match sl_clients s !! i with
      | Some (SSending res) =>
          if (length (sl_results s) <? capacity)%nat
          then Some {| sl_world := sl_world s; sl_done := sl_done s;
                       sl_clients := <[i := SLoop]> (sl_clients s);
                       sl_results := sl_results s ++ [res]; sl_arrived := sl_arrived s |}
          else None
      | _ => None
      end
  | SReceive =>
      match sl_results s with
      | res :: rest =>
          Some {| sl_world := sl_world s; sl_done := sl_done s; sl_clients := sl_clients s;
                  sl_results := rest; sl_arrived := sl_arrived s ++ [res] |}
      | [] => None
      end
  end.

Fixpoint soak_run (es : list (soak_event D)) (s : soak_load) : option soak_load :=
  match es with
  | [] => Some s
  | e :: es => s ← soak_step e s; soak_run es s
  end.

Definition soak_start (n : nat) (w : W) : soak_load :=
  {| sl_world := w; sl_done := false; sl_clients := replicate n SLoop; sl_results := [];
     sl_arrived := [] |}.

(** The loop of [runSoak] ends: every client returned, the channel was closed
    and emptied. *)
Definition soak_finished (s : soak_load) : Prop :=
  Forall (λ c, c = SExited) (sl_clients s) ∧ sl_results s = [].
End load.

(** The settings of an [http.Client] and its [http.Transport] that the drivers
    choose. *)
Record http_client := {
  hc_Timeout : Z;
  MaxIdleConns : Z;
  MaxIdleConnsPerHost : Z;
  MaxConnsPerHost : Z;
  IdleConnTimeout : Z;
  TLSHandshakeTimeout : Z;
  ResponseHeaderTimeout : Z;
  ExpectContinueTimeout : Z;
}.

(** Four connections per client and at least 32. *)
Definition connections (clients : Z) : Z :=
  let maxConns := i64 (clients * 4) in if maxConns <? 32 then 32 else maxConns.

Definition newSoakHTTPClient (opts : options) : http_client := {|
  hc_Timeout := o_Timeout opts;
  MaxIdleConns := connections (o_Clients opts);
  MaxIdleConnsPerHost := connections (o_Clients opts);
  MaxConnsPerHost := connections (o_Clients opts);
  IdleConnTimeout := 90 * Second;
  TLSHandshakeTimeout := 10 * Second;
  ResponseHeaderTimeout := o_Timeout opts;
  ExpectContinueTimeout := Second |}.

(** The buffer of the channel [results]. *)
Definition results_capacity (opts : options) : nat := Z.to_nat (o_Clients opts * 4).

(** ** The summary *)

Record failureCount := { Reason : string; Count : Z }.

Record summary := {
  s_URL : string;
  s_Topic : string;
  s_Duration : Z;
  s_Elapsed : Z;
  s_Clients : Z;
  s_RecordsPerRequest : Z;
  s_PayloadBytes : Z;
  s_Format : string;
  TotalRequests : Z;
  SuccessRequests : Z;
  FailedRequests : Z;
  s_AttemptedRecords : Z;
  s_SuccessRecords : Z;
  s_FailedRecords : Z;
  RequestBytes : Z;
  RequestsPerSecond : float64;
  RecordsPerSecond : float64;
  RequestFailureRate : float64;
  RecordFailureRate : float64;
  P50 : Z;
  P95 : Z;
  P99 : Z;
  LatencySamples : Z;
  FailureBreakdown : list failureCount;
}.

(** [percentile], and the constants it is called with. *)
Definition percentile (sorted : list Z) (p : float64) : Z :=
  match sorted with
  | [] => 0
  | _ =>
      let n := Z.of_nat (length sorted) in
      let idx := f64_to_i64 (f64_mul (f64_of_Z (n - 1)) p) in
      let idx := if idx <? 0 then 0 else idx in
      let idx := if n <=? idx then n - 1 else idx in
      nth (Z.to_nat idx) sorted 0
  end.
Definition p50 : float64 := f64_div (f64_of_Z 50) (f64_of_Z 100).
Definition p95 : float64 := f64_div (f64_of_Z 95) (f64_of_Z 100).
Definition p99 : float64 := f64_div (f64_of_Z 99) (f64_of_Z 100).

(** The comparison [topFailureReasons] sorts by: larger counts first, then the
    names in byte order. *)
Definition before (a b : failureCount) : Prop :=
  Count b < Count a ∨ Count a = Count b ∧ String.le (Reason a) (Reason b).
#[export] Instance before_dec a b : Decision (before a b).
Proof. unfold before. apply _. Defined.

(** [topFailureReasons] on the entries of the map, in the order in which the
    iteration yields them. *)
Definition topFailureReasons (reasons : list (string * Z)) (limit : nat) : list failureCount :=
  take limit (merge_sort before ((λ p, {| Reason := p.1; Count := p.2 |}) <$> reasons)).

Definition formatPercent (v : float64) : string :=
  format_fixed 4 (f64_mul v (f64_of_Z 100)) +:+ "%".

(** The local variables of [runSoak]'s loop over the results. *)
Record totals := {
  totalRequests : Z;
  successRequests : Z;
  failedRequests : Z;
  attemptedRecords : Z;
  successRecords : Z;
  failedRecords : Z;
  requestBytes : Z;
  latencies : list Z;
  failureReasons : gmap string Z;
}.
Definition zero_totals : totals :=
  {| totalRequests := 0; successRequests := 0; failedRequests := 0; attemptedRecords := 0;
     successRecords := 0; failedRecords := 0; requestBytes := 0; latencies := [];
     failureReasons := ∅ |}.

Definition request_failed (res : requestResult) : bool :=
  match ResErr res with Some _ => true | None => false end || (Status res <? 200) || (300 <=? Status res) || (0 <? FailedRecords res).

Definition failure_reason (res : requestResult) : string :=
  if String.eqb (FailureReason res) "" then "unknown_failure" else FailureReason res.

Definition collect (opts : options) (t : totals) (res : requestResult) : totals :=
  let failed := request_failed res in
  {| totalRequests := totalRequests t + 1;
     successRequests := if failed then successRequests t else successRequests t + 1;
     failedRequests := if failed then failedRequests t + 1 else failedRequests t;
     attemptedRecords := attemptedRecords t + Records res;
     successRecords := successRecords t + SuccessRecords res;
     failedRecords := failedRecords t + FailedRecords res;
     requestBytes := requestBytes t + Bytes res;
     latencies := if Z.of_nat (length (latencies t)) <? o_MaxLatencySamples opts
                  then latencies t ++ [Latency res] else latencies t;
     failureReasons :=
       if failed then
         let reason := failure_reason res in
         <[reason := default 0 (failureReasons t !! reason) + 1]> (failureReasons t)
       else failureReasons t |}.

Definition ratio (a b : Z) : float64 :=
  if 0 <? b then f64_div (f64_of_Z a) (f64_of_Z b) else f64_zero.

Definition summarize (opts : options) (elapsed : Z) (t : totals) : summary :=
  let sorted := merge_sort Z.le (latencies t) in
  let seconds := Seconds elapsed in
  let seconds := if f64_leb seconds f64_zero then f64_div (f64_of_Z 1) (f64_of_Z 1000)
                 else seconds in
  {| s_URL := o_URL opts; s_Topic := o_Topic opts; s_Duration := o_Duration opts;
     s_Elapsed := elapsed; s_Clients := o_Clients opts;
     s_RecordsPerRequest := o_RecordsPerRequest opts; s_PayloadBytes := o_PayloadBytes opts;
     s_Format := o_Format opts;
     TotalRequests := totalRequests t; SuccessRequests := successRequests t;
     FailedRequests := failedRequests t; s_AttemptedRecords := attemptedRecords t;
     s_SuccessRecords := successRecords t; s_FailedRecords := failedRecords t;
     RequestBytes := requestBytes t;
     RequestsPerSecond := f64_div (f64_of_Z (totalRequests t)) seconds;
     RecordsPerSecond := f64_div (f64_of_Z (successRecords t)) seconds;
     RequestFailureRate := ratio (failedRequests t) (totalRequests t);
     RecordFailureRate := ratio (failedRecords t) (attemptedRecords t);
     P50 := percentile sorted p50; P95 := percentile sorted p95; P99 := percentile sorted p99;
     LatencySamples := Z.of_nat (length (latencies t));
     FailureBreakdown := topFailureReasons (map_to_list (failureReasons t)) 8 |}.

(** [runSoak], given the results in the order in which they arrive on the
    channel and the time the run took. *)
Definition runSoak (opts : options) (arrivals : list requestResult) (elapsed : Z) : summary :=
  summarize opts elapsed (foldl (collect opts) zero_totals arrivals).

(** ** Thresholds *)

Record violation := { v_Name : string; v_Actual : string; v_Threshold : string }.

Definition evaluateThresholds (result : summary) (limits : thresholds) : list violation :=
  (if f64_ltb (MaxFailureRate limits) (RecordFailureRate result) then
     [{| v_Name := "max_failure_rate"; v_Actual := formatPercent (RecordFailureRate result);
         v_Threshold := "<= " +:+ formatPercent (MaxFailureRate limits) |}] else []) ++
  (if f64_ltb f64_zero (MinRecordsPerSecond limits) &&
      f64_ltb (RecordsPerSecond result) (MinRecordsPerSecond limits) then
     [{| v_Name := "min_records_sec"; v_Actual := format_fixed 2 (RecordsPerSecond result);
         v_Threshold := ">= " +:+ format_fixed 2 (MinRecordsPerSecond limits) |}] else []) ++
  (if (0 <? MaxP99 limits) && (MaxP99 limits <? P99 result) then
     [{| v_Name := "max_p99"; v_Actual := Duration_String (Round (P99 result) Millisecond);
         v_Threshold := "<= " +:+ Duration_String (MaxP99 limits) |}] else []).

Definition formatFailureBreakdown (reasons : list failureCount) : string :=
  Join ((λ r, Reason r +:+ ":" +:+ Itoa (Count r)) <$> reasons) ",".

(** What [printSummary] prints. *)
Definition printSummary (r : summary) (limits : thresholds) (violations : list violation)
  : string :=
  let ms d := Duration_String (Round d Millisecond) in
  let field name text := name +:+ "=" +:+ text in
  Join [field "soak_result" (match violations with [] => "pass" | _ => "fail" end);
        field "url" (s_URL r); field "topic" (s_Topic r);
        field "duration" (Duration_String (s_Duration r)); field "elapsed" (ms (s_Elapsed r));
        field "clients" (Itoa (s_Clients r));
        field "records_per_request" (Itoa (s_RecordsPerRequest r));
        field "payload_bytes" (Itoa (s_PayloadBytes r)); field "format" (s_Format r);
        field "requests" (Itoa (TotalRequests r));
        field "success_requests" (Itoa (SuccessRequests r));
        field "failed_requests" (Itoa (FailedRequests r));
        field "attempted_records" (Itoa (s_AttemptedRecords r));
        field "success_records" (Itoa (s_SuccessRecords r));
        field "failed_records" (Itoa (s_FailedRecords r));
        field "records_per_sec" (format_fixed 2 (RecordsPerSecond r));
        field "requests_per_sec" (format_fixed 2 (RequestsPerSecond r));
        field "record_failure_rate" (formatPercent (RecordFailureRate r));
        field "request_failure_rate" (formatPercent (RequestFailureRate r));
        field "p50" (ms (P50 r)); field "p95" (ms (P95 r)); field "p99" (ms (P99 r));
        field "latency_samples" (Itoa (LatencySamples r));
        field "thresholds" ("max_failure_rate:" +:+ formatPercent (MaxFailureRate limits) +:+
          ",min_records_sec:" +:+ format_fixed 2 (MinRecordsPerSecond limits) +:+
          ",max_p99:" +:+ Duration_String (MaxP99 limits))] " " +:+ nl +:+
  (match FailureBreakdown r with
   | [] => ""
   | l => "failure_breakdown=" +:+ formatFailureBreakdown l +:+ nl
   end) +:+
  concat_s ((λ v, "violation=" +:+ v_Name v +:+ " actual=" +:+ v_Actual v +:+
                  " threshold=" +:+ v_Threshold v +:+ nl) <$> violations).

(** The line [main] prints after the warm-up. *)
Definition warmup_line (r : summary) : string :=
  "warmup_complete elapsed=" +:+ Duration_String (Round (s_Elapsed r) Millisecond) +:+
  " requests=" +:+ Itoa (TotalRequests r) +:+ " records=" +:+ Itoa (s_SuccessRecords r) +:+
  " records_per_sec=" +:+ format_fixed 2 (RecordsPerSecond r) +:+
  " failure_rate=" +:+ format_fixed 4 (f64_mul (RecordFailureRate r) (f64_of_Z 100)) +:+ "%" +:+
  " p99=" +:+ Duration_String (Round (P99 r) Millisecond) +:+ nl.

Section main.
Context (url_Parse : string → res parsedURL).
(** A run of the load: the results in arrival order and the time it took. *)
Context (load : options → string → list requestResult * Z).

Definition soak (opts : options) (body : string) : summary :=
  let '(arrivals, elapsed) := load opts body in runSoak opts arrivals elapsed.

(** [main]: the exit code and the standard output. *)
Definition soak_main (args : list string) : Z * string :=
  match parseOptions url_Parse args with
  | Err _ => (2, "")
  | Ok opts =>
      let body := buildBody (Z.to_nat (o_RecordsPerRequest opts))
                    (Z.to_nat (o_PayloadBytes opts)) (o_Format opts) in
      let warm :=
        if 0 <? o_Warmup opts then
          warmup_line (soak {| o_URL := o_URL opts; o_Topic := o_Topic opts;
            o_Duration := o_Warmup opts; o_Warmup := o_Warmup opts; o_Clients := o_Clients opts;
            o_RecordsPerRequest := o_RecordsPerRequest opts;
            o_PayloadBytes := o_PayloadBytes opts; o_Format := o_Format opts;
            o_Timeout := o_Timeout opts; o_MaxLatencySamples := o_MaxLatencySamples opts;
            o_Thresholds := o_Thresholds opts |} body)
        else "" in
      let result := soak opts body in
      let violations := evaluateThresholds result (o_Thresholds opts) in
      (match violations with [] => 0 | _ => 1 end,
       warm +:+ printSummary result (o_Thresholds opts) violations)
  end.
End main.
