(* ===== verification/SoakFacts.v ===== *)
(** * Correctness of cmd/soak-produce

    What the driver counts is what the proxy reported, what it sends the proxy
    accepts, and its verdict does not depend on the order in which concurrent
    answers arrive. *)

From stdpp Require Import sorting.
From S2P Require Import Prelude.
From S2P Require Import GoStrings.
From S2P Require Import Strconv.
From S2P Require Import GoErrors.
From S2P Require Import Json.
From S2P Require Import JsonFacts.
From S2P Require Import Base64.
From S2P Require Import JsonText.
From S2P Require Import Mime.
From S2P Require Import GoFloat.
From S2P Require Import Producer.
From S2P Require Import Media.
From S2P Require Import Types.
From S2P Require Import TypesFacts.
From S2P Require Import TypesText.
From S2P Require Import GoFmt.
From S2P Require Import Main.
From S2P Require Import Soak.
Local Open Scope Z_scope.

(** ** Counting the proxy's answers *)

(** What the driver reads of an offset object. *)
Definition seen_offset (r : Result) : Soak.produceOffset :=
  if resultFailed r
  then {| ErrorCode := Some (default confluentKafkaRecordErrorCode (res_ErrorCode r));
          OffsetError := Some (error_text r) |}
  else zero_produceOffset.

Lemma decode_seen_offset cx cx' r sv :
  result_ok r →
  decode_struct (Soak.offset_field cx) "main.produceOffset" cx' zero_produceOffset
    (Json (offset_text r) (offset_val r)) sv = (inr (seen_offset r), sv).
Proof.
  intros (_&_&Hc&_). unfold decode_struct, offset_val, seen_offset. cbn [jval].
  destruct (resultFailed r); cbn [decode_members]; unfold Soak.offset_field; unfold dbind; simpl.
  - rewrite decode_Itoa; [done|].
    destruct (res_ErrorCode r); [done|]. vm_compute. by split.
  - done.
Qed.

Lemma Unmarshal_seen results meta :
  Forall result_ok results →
  Soak.Unmarshal_response (appendProduceResponse results meta) = Ok (fresh (seen_offset <$> results)).
Proof.
  intros Hr. unfold Soak.Unmarshal_response, Unmarshal.
  rewrite appendProduceResponse_text.
  rewrite (reads_parse_space _ _ _ nl (response_reads _ _ Hr)) by done.
  unfold decode_struct at 1. cbn [jval decode_members]. unfold Soak.response_field at 1.
  unfold dbind at 1. simpl.
  change {| elems := None; spare := [] |} with (Build_gslice (A := Soak.produceOffset) None []).
  rewrite (decode_slice_map _ _ _ _ (λ r, Json (offset_text r) (offset_val r)) seen_offset).
  - done.
  - eapply Forall_impl; [exact Hr|]. intros r Hr' sv. by apply decode_seen_offset.
Qed.

Lemma seen_failed r : offset_failed (seen_offset r) = resultFailed r.
Proof. unfold seen_offset. by destruct (resultFailed r). Qed.

Lemma failure_reason_nonempty o : offset_failed o = true → recordFailureReason o ≠ "".
Proof.
  unfold offset_failed, recordFailureReason. destruct (ErrorCode o); [done|].
  destruct (OffsetError o); [|done]. by destruct (String.eqb _ _).
Qed.

Lemma count_offsets_spec os s f reason :
  count_offsets os s f reason =
    (s + Z.of_nat (length (filter (λ o, offset_failed o = false) os)),
     f + Z.of_nat (length (filter (λ o, offset_failed o = true) os)),
     if String.eqb reason ""
     then from_option recordFailureReason "" (head (filter (λ o, offset_failed o = true) os))
     else reason).
Proof.
  revert s f reason. induction os as [|o os IH]; intros s f reason.
  { cbn. destruct (String.eqb_spec reason "") as [->|]; f_equal; [f_equal; lia..]. }
  cbn [count_offsets]. rewrite !filter_cons. destruct (offset_failed o) eqn:E; rewrite IH.
  - rewrite decide_False, decide_True by congruence. cbn [length head from_option].
    destruct (String.eqb_spec reason "") as [->|Hn].
    + rewrite (proj2 (String.eqb_neq _ _) (failure_reason_nonempty o E)). f_equal; f_equal; lia.
    + rewrite (proj2 (String.eqb_neq _ _) Hn). f_equal; f_equal; lia.
  - rewrite decide_True, decide_False by congruence. cbn [length]. f_equal; f_equal; lia.
Qed.

Lemma countResultStatus_filter results :
  countResultStatus results =
    (Z.of_nat (length (filter (λ r, resultFailed r = false) results)),
     Z.of_nat (length (filter (λ r, resultFailed r = true) results))).
Proof.
  assert (∀ a b, foldl (λ n r, if resultFailed r then (n.1, n.2 + 1) else (n.1 + 1, n.2)) (a, b)
    results = (a + Z.of_nat (length (filter (λ r, resultFailed r = false) results)),
               b + Z.of_nat (length (filter (λ r, resultFailed r = true) results)))) as H.
  { induction results as [|r results IH]; intros a b; [simpl; f_equal; lia|].
    rewrite !filter_cons. cbn [foldl]. destruct (resultFailed r); rewrite IH;
      [rewrite decide_False, decide_True by congruence
      |rewrite decide_True, decide_False by congruence]; simpl; f_equal; lia. }
  unfold countResultStatus. by rewrite H.
Qed.

Lemma filter_seen b (results : list Result) :
  filter (λ o, offset_failed o = b) (seen_offset <$> results) =
  seen_offset <$> filter (λ r, resultFailed r = b) results.
Proof.
  induction results as [|r results IH]; [done|]. rewrite fmap_cons, !filter_cons, seen_failed.
  case_decide; by rewrite IH.
Qed.

(** The soak driver counts what the proxy reports: of the response that
    [appendProduceResponse] writes for a batch it reads exactly the success and
    failure counts the proxy's own metrics have for it, never a length mismatch
    or a decoding error, and it has a reason exactly when a record failed. *)
Lemma soak_counts_agree results meta :
  Forall result_ok results →
  ∃ reason,
    countRecordResults (appendProduceResponse results meta) (Z.of_nat (length results)) =
      Ok ((countResultStatus results).1, (countResultStatus results).2, reason) ∧
    (reason = "" ↔ (countResultStatus results).2 = 0).
Proof.
  intros Hr. unfold countRecordResults. rewrite (Unmarshal_seen _ meta Hr).
  change (default [] (elems (fresh (seen_offset <$> results)))) with (seen_offset <$> results).
  rewrite length_fmap, Z.eqb_refl. cbn [negb].
  rewrite count_offsets_spec, !filter_seen, !length_fmap, countResultStatus_filter, !Z.add_0_l.
  cbn [fst snd String.eqb]. eexists. split; [done|].
  destruct (filter (λ r, resultFailed r = true) results) as [|r l] eqn:E; [done|].
  cbn [fmap list_fmap head from_option length]. split; [|lia]. intros Hn. exfalso. revert Hn.
  apply failure_reason_nonempty. rewrite seen_failed.
  assert (r ∈ filter (λ r, resultFailed r = true) results) as Hin by (rewrite E; constructor).
  by apply list_elem_of_filter in Hin as [? _].
Qed.

Lemma soak_counts_agree_witness :
  ∃ reason,
    countRecordResults (appendProduceResponse
      [Build_Result 3 42 None None; Build_Result 0 0 None (Some (ENew "no leader"))]
      zero_produceMetadata) 2 = Ok (1, 1, reason) ∧ (reason = "" ↔ 1 = 0).
Proof.
  apply (soak_counts_agree
    [Build_Result 3 42 None None; Build_Result 0 0 None (Some (ENew "no leader"))]
    zero_produceMetadata).
  repeat apply Forall_cons_2; [by vm_compute..|constructor].
Defined.

(** ** The order of arrival *)

(** The counts agree, and the latencies up to their order. *)
Record same_totals (t t' : totals) : Prop := {
  same_counts :
    (totalRequests t, successRequests t, failedRequests t, attemptedRecords t,
     successRecords t, failedRecords t, requestBytes t, failureReasons t) =
    (totalRequests t', successRequests t', failedRequests t', attemptedRecords t',
     successRecords t', failedRecords t', requestBytes t', failureReasons t');
  same_latencies : latencies t ≡ₚ latencies t';
}.

#[export] Instance same_totals_equiv : Equivalence same_totals.
Proof.
  split.
  - intros t. by split.
  - intros t t' [H1 H2]. by split.
  - intros t1 t2 t3 [H1 H2] [H3 H4]. split; [by rewrite H1|by rewrite H2].
Qed.

#[export] Instance collect_proper opts :
  Proper (same_totals ==> eq ==> same_totals) (collect opts).
Proof.
  intros [] [] [Hc Hl] res _ <-. cbn in Hc, Hl. simplify_eq.
  split; cbn; [done|]. rewrite (Permutation_length Hl).
  destruct (_ <? _); [by rewrite Hl|done].
Qed.

Definition bump (reason : string) (m : gmap string Z) : gmap string Z :=
  <[reason := default 0 (m !! reason) + 1]> m.

Lemma bump_comm a b m : bump a (bump b m) = bump b (bump a m).
Proof.
  apply map_eq. intros k. unfold bump.
  destruct (decide (a = b)) as [->|Hab]; [done|].
  destruct (decide (k = a)) as [->|Ha]; [|destruct (decide (k = b)) as [->|Hb]];
    by simplify_map_eq.
Qed.

Lemma collect_comm opts t x y :
  Z.of_nat (length (latencies t)) + 2 <= o_MaxLatencySamples opts →
  same_totals (collect opts (collect opts t x) y) (collect opts (collect opts t y) x).
Proof.
  intros Hm. split; cbn.
  - destruct (request_failed x), (request_failed y);
      repeat match goal with |- (_, _) = (_, _) => f_equal end;
      first [lia | done | apply (bump_comm (failure_reason y) (failure_reason x))].
  - destruct (Z.ltb_spec (Z.of_nat (length (latencies t))) (o_MaxLatencySamples opts)); [|lia].
    rewrite !length_app. cbn [length].
    destruct (Z.ltb_spec (Z.of_nat (length (latencies t) + 1)) (o_MaxLatencySamples opts)); [|lia].
    rewrite <- !app_assoc. by apply Permutation_app_head, perm_swap.
Qed.

Lemma collect_latencies opts t x :
  (length (latencies (collect opts t x)) <= S (length (latencies t)))%nat.
Proof. cbn. destruct (_ <? _); rewrite ?length_app; cbn; lia. Qed.

Lemma collect_permutation opts l l' : l ≡ₚ l' → ∀ t,
  Z.of_nat (length (latencies t)) + Z.of_nat (length l) <= o_MaxLatencySamples opts →
  same_totals (foldl (collect opts) t l) (foldl (collect opts) t l').
Proof.
  induction 1 as [|x l l' _ IH|x y l|l1 l2 l3 H1 IH1 _ IH2]; intros t Hm.
  - done.
  - cbn [foldl]. apply IH. pose proof (collect_latencies opts t x). cbn [length] in Hm. lia.
  - cbn [foldl length] in *. assert (∀ l t t', same_totals t t' →
      same_totals (foldl (collect opts) t l) (foldl (collect opts) t' l)) as Hf.
    { clear. induction l as [|z l IH]; intros t t' Ht; [done|]. cbn [foldl]. apply IH.
      by rewrite Ht. }
    apply Hf, collect_comm. lia.
  - rewrite (IH1 t) by done. apply IH2. by rewrite <- H1.
Qed.

(** ** The list of failure reasons *)

#[export] Instance before_trans : Transitive before.
Proof.
  intros a b c [Hab|[Hab Sab]] [Hbc|[Hbc Sbc]]; unfold before; [left; lia..|right].
  split; [lia|]. by etrans.
Qed.
#[export] Instance before_total : Total before.
Proof.
  intros a b. unfold before.
  destruct (Z.lt_trichotomy (Count a) (Count b)) as [|[E|]]; [by right; left| |by left; left].
  destruct (total String.le (Reason a) (Reason b)); [left; right|right; right]; done.
Qed.
#[export] Instance before_antisymm : AntiSymm (=) before.
Proof.
  intros [n a] [m b] [Hab|[Hab Sab]] [Hba|[Hba Sba]]; cbn in *; try lia. f_equal; [|done].
  by apply (anti_symm String.le).
Qed.

Lemma merge_sort_unique {A} (R : relation A) `{!RelDecision R, !Transitive R, !Total R,
    !AntiSymm (=) R} (l l' : list A) : l ≡ₚ l' → merge_sort R l = merge_sort R l'.
Proof.
  intros Hl. apply (Sorted_unique R); [by apply (Sorted_merge_sort R)..|].
  by rewrite !merge_sort_Permutation.
Qed.

Lemma topFailureReasons_permutation reasons reasons' limit :
  reasons ≡ₚ reasons' → topFailureReasons reasons limit = topFailureReasons reasons' limit.
Proof.
  intros Hr. unfold topFailureReasons. f_equal. apply (merge_sort_unique before).
  by rewrite Hr.
Qed.

(** The reasons that are kept come first: they are in order, no more than the
    limit, and none of those left out comes before any of them; the order in
    which the map is iterated does not matter. *)
Lemma topFailureReasons_spec reasons reasons' limit :
  reasons ≡ₚ reasons' →
  topFailureReasons reasons limit = topFailureReasons reasons' limit ∧
  ∃ rest,
    (λ p, {| Reason := p.1; Count := p.2 |}) <$> reasons ≡ₚ topFailureReasons reasons limit ++ rest ∧
    StronglySorted before (topFailureReasons reasons limit) ∧
    length (topFailureReasons reasons limit) = min limit (length reasons) ∧
    ∀ kept left, kept ∈ topFailureReasons reasons limit → left ∈ rest → before kept left.
Proof.
  intros Hr. split; [by apply topFailureReasons_permutation|]. unfold topFailureReasons.
  set (l := (λ p, _) <$> reasons). pose proof (StronglySorted_merge_sort before l) as Hs.
  exists (drop limit (merge_sort before l)).
  rewrite <- (take_drop limit (merge_sort before l)) in Hs. split_and!.
  - by rewrite take_drop, merge_sort_Permutation.
  - by eapply StronglySorted_app_1_l.
  - rewrite length_take, (Permutation_length (merge_sort_Permutation before l)).
    unfold l. by rewrite length_fmap.
  - intros kept left Hk Hl. by eapply StronglySorted_app_1_elem_of in Hs.
Qed.

(** The verdict of a soak run does not depend on scheduling: as long as
    every latency is sampled, the summary - counts, rates, percentiles and the
    failure reasons with their order - and with it the violations and the exit
    code are the same for every order in which the answers of the concurrent
    clients arrive. *)
Lemma soak_order_irrelevant opts arrivals arrivals' elapsed :
  arrivals ≡ₚ arrivals' → Z.of_nat (length arrivals) <= o_MaxLatencySamples opts →
  runSoak opts arrivals elapsed = runSoak opts arrivals' elapsed.
Proof.
  intros Hp Hm. unfold runSoak.
  destruct (collect_permutation opts _ _ Hp zero_totals) as [Hc Hl]; [done|].
  injection Hc as H1 H2 H3 H4 H5 H6 H7 H8. unfold summarize.
  rewrite (merge_sort_unique Z.le _ _ Hl), (Permutation_length Hl).
  by rewrite H1, H2, H3, H4, H5, H6, H7, H8.
Qed.

(** ** Accounting *)

Lemma count_offsets_total os s f reason :
  (count_offsets os s f reason).1.1 + (count_offsets os s f reason).1.2 =
    s + f + Z.of_nat (length os).
Proof.
  revert s f reason. induction os as [|o os IH]; intros s f reason; [cbn; lia|].
  cbn [count_offsets]. destruct (offset_failed o); rewrite IH; cbn [length]; lia.
Qed.

(** What every result of [postOnce] satisfies. *)
Definition accounted (opts : options) (res : requestResult) : Prop :=
  Records res = o_RecordsPerRequest opts ∧ SuccessRecords res + FailedRecords res = Records res.

Lemma postOnce_accounted send latency opts body :
  accounted opts (postOnce send latency opts body).
Proof.
  unfold accounted, postOnce.
  destruct (send _) as [err|err|status resp [err|]]; [split; cbn; lia..|].
  destruct (_ || _)%bool; [split; cbn; lia|]. unfold countRecordResults.
  destruct (Unmarshal_response resp) as [d|err]; [|split; cbn; lia].
  destruct (Z.eqb_spec (Z.of_nat (length (default [] (elems d)))) (o_RecordsPerRequest opts))
    as [E|]; cbn [negb]; [|split; cbn; lia].
  pose proof (count_offsets_total (default [] (elems d)) 0 0 "") as Ht.
  destruct (count_offsets _ _ _ _) as [[s f] r]. cbn in *. lia.
Qed.

(** The totals after [k] accounted results. *)
Record tallied (opts : options) (t : totals) (k : Z) : Prop := {
  tallied_requests : totalRequests t = k ∧ successRequests t + failedRequests t = k;
  tallied_records : attemptedRecords t = k * o_RecordsPerRequest opts ∧
    successRecords t + failedRecords t = attemptedRecords t;
  tallied_reasons : map_fold (λ _ c acc, c + acc) 0 (failureReasons t) = failedRequests t;
  tallied_samples : 0 < o_MaxLatencySamples opts →
    Z.of_nat (length (latencies t)) = Z.min k (o_MaxLatencySamples opts);
}.

Lemma bump_sum reason (m : gmap string Z) :
  map_fold (λ _ c acc, c + acc) 0 (bump reason m) = map_fold (λ _ c acc, c + acc) 0 m + 1.
Proof.
  unfold bump. destruct (m !! reason) as [c|] eqn:E; cbn [default].
  - rewrite <- insert_delete_eq, map_fold_insert_L;
      [|intros; lia|apply lookup_delete_eq].
    rewrite (map_fold_delete_L _ _ _ _ m) by (done || intros; lia). cbn. lia.
  - rewrite map_fold_insert_L by (done || intros; lia). cbn. lia.
Qed.

Lemma collect_tallied opts t k res : 0 <= k →
  tallied opts t k → accounted opts res → tallied opts (collect opts t res) (k + 1).
Proof.
  intros Hk [[H1 H2] [H3 H4] H5 H6] [Ha Hb]. split; cbn.
  - destruct (request_failed res); lia.
  - lia.
  - destruct (request_failed res); [|done].
    etrans; [apply (bump_sum (failure_reason res))|lia].
  - intros Hm. specialize (H6 Hm). destruct (Z.ltb_spec (Z.of_nat (length (latencies t)))
      (o_MaxLatencySamples opts)); rewrite ?length_app; cbn [length]; lia.
Qed.

Lemma foldl_tallied opts arrivals t k : 0 <= k →
  tallied opts t k → Forall (accounted opts) arrivals →
  tallied opts (foldl (collect opts) t arrivals) (k + Z.of_nat (length arrivals)).
Proof.
  intros Hk Ht Ha. revert t k Hk Ht. induction Ha as [|res l Hr _ IH]; intros t k Hk Ht.
  { cbn. by rewrite Z.add_0_r. }
  cbn [foldl length]. replace (k + Z.of_nat (S (length l))) with (k + 1 + Z.of_nat (length l)) by lia.
  apply IH; [lia|]. by apply collect_tallied.
Qed.

(** Nothing is lost or counted twice by the soak driver: for every run, its
    requests are split into successes and failures, the records of every
    request sent, answered or not, into successful and failed ones, every
    failed request has a reason, and the retained latency samples are all or
    the configured number. *)
Lemma soak_accounting opts body posts elapsed :
  let arrivals := (λ p, postOnce p.1 p.2 opts body) <$> posts in
  let t := foldl (collect opts) zero_totals arrivals in
  let n := Z.of_nat (length posts) in
  let s := runSoak opts arrivals elapsed in
  TotalRequests s = n ∧ SuccessRequests s + FailedRequests s = n ∧
  s_AttemptedRecords s = n * o_RecordsPerRequest opts ∧
  s_SuccessRecords s + s_FailedRecords s = s_AttemptedRecords s ∧
  map_fold (λ _ c acc, c + acc) 0 (failureReasons t) = FailedRequests s ∧
  (0 < o_MaxLatencySamples opts → LatencySamples s = Z.min n (o_MaxLatencySamples opts)).
Proof.
  cbv zeta. set (arrivals := _ <$> posts).
  destruct (foldl_tallied opts arrivals zero_totals 0) as [[H1 H2] [H3 H4] H5 H6]; [done| | |].
  - by split; cbn; try lia.
  - apply Forall_fmap, Forall_true. intros [send latency]. apply postOnce_accounted.
  - unfold arrivals in *. rewrite length_fmap in *. cbn. split_and!; try done; lia.
Qed.

Lemma soak_order_irrelevant_witness :
  let opts := {| o_URL := ""; o_Topic := "t"; o_Duration := 1; o_Warmup := 0; o_Clients := 2;
    o_RecordsPerRequest := 1; o_PayloadBytes := 1; o_Format := "json"; o_Timeout := 1;
    o_MaxLatencySamples := 10;
    o_Thresholds := {| MaxFailureRate := f64_zero; MinRecordsPerSecond := f64_zero; MaxP99 := 0 |} |} in
  let a := postOnce (λ _, Responded 503 "" None) 7 opts "" in
  let b := postOnce (λ _, DoFailed (ESentinel ctxDeadlineExceeded)) 3 opts "" in
  runSoak opts [a; b] 1000 = runSoak opts [b; a] 1000.
Proof. apply soak_order_irrelevant; [apply perm_swap|cbn; lia]. Defined.

(** ** What the driver sends *)

Lemma compact_outside s t :
  all_bytes (λ c, negb (Ascii.eqb c dq || is_space c)) s = true →
  raw_is_compact false false (s +:+ t) = raw_is_compact false false t.
Proof.
  induction s as [|c s IH]; [done|]. cbn [all_bytes]. rewrite app_cons.
  intros [Hc Hs]%andb_true_iff. cbn [raw_is_compact].
  destruct (Ascii.eqb c dq), (is_space c); try done. by apply IH.
Qed.

Lemma compact_inside s t :
  all_bytes (λ c, negb (Ascii.eqb c dq || Ascii.eqb c "\")) s = true →
  raw_is_compact true false (s +:+ String dq t) = raw_is_compact false false t.
Proof.
  induction s as [|c s IH]; [done|]. cbn [all_bytes]. rewrite app_cons.
  intros [Hc Hs]%andb_true_iff. cbn [raw_is_compact].
  destruct (Ascii.eqb c dq), (Ascii.eqb c "\"); try done. by apply IH.
Qed.

Lemma Repeat_bytes p c n : p c = true → all_bytes p (Repeat (String c "") n) = true.
Proof.
  intros Hc. induction n as [|n IH]; [done|]. cbn [Repeat]. rewrite all_bytes_app, IH. cbn.
  by rewrite Hc.
Qed.

Lemma json_string_xs n : json_string (Repeat "x" n) = quoted (Repeat "x" n).
Proof.
  unfold json_string, quoted. do 2 f_equal. induction n as [|n IH]; [done|].
  change (Repeat "x" (S n)) with (String "x" (Repeat "x" n)). rewrite runes_cons by done.
  cbn [fmap list_fmap concat_s]. by rewrite IH.
Qed.

(** The value text of the [i]-th record. *)
Definition value_text (format payload : string) (i : Z) : string :=
  if String.eqb format "binary" then json_string (EncodeToString payload)
  else obj_text [("index", Itoa i); ("payload", quoted payload)].
Definition value_val (format payload : string) (i : Z) : jvalue :=
  if String.eqb format "binary" then JString (EncodeToString payload)
  else JObject [("index", Json (Itoa i) (JNumber (Itoa i)));
                ("payload", Json (quoted payload) (JString payload))].

Lemma record_json_text format n i :
  record_json format (Repeat "x" n) i = obj_text [("value", value_text format (Repeat "x" n) i)].
Proof.
  unfold record_json, value_text. rewrite json_string_xs. unfold obj_text, member_text.
  cbn [fmap list_fmap fst snd Join]. destruct (String.eqb format "binary"); [done|].
  change (json_string "value") with (String dq ("value" +:+ String dq "")).
  autorewrite with strs. done.
Qed.

Definition xs (n : nat) : string := Repeat "x" n.

Lemma xs_plain n : all_bytes plain_ascii (xs n) = true.
Proof. by apply Repeat_bytes. Qed.

Lemma encoded_ascii s : all_bytes is_ascii (EncodeToString s) = true.
Proof.
  eapply all_bytes_impl; [|apply b64_plain]. intros c Hc. by apply andb_true_iff in Hc as [_ ?].
Qed.

Lemma value_reads format n i : reads 1 (value_text format (xs n) i) (value_val format (xs n) i).
Proof.
  unfold value_text, value_val. destruct (String.eqb format "binary").
  - apply (reads_weaken 0); [|done]. apply json_string_ascii, encoded_ascii.
  - apply (reads_fields 0 [("index", Itoa i, JNumber (Itoa i));
                           ("payload", quoted (xs n), JString (xs n))]); [|done].
    repeat (apply Forall_cons_2; [split; [done|]|]); [apply reads_Itoa| |constructor].
    apply reads_quoted, xs_plain.
Qed.

Definition soak_record_json (format : string) (n : nat) (i : Z) : json :=
  Json (record_json format (xs n) i)
    (JObject [("value", Json (value_text format (xs n) i) (value_val format (xs n) i))]).

Lemma buildBody_reads format n k :
  reads 4 (buildBody k n format)
    (JObject [("records",
       Json (arr_text ((λ i, record_json format (xs n) (Z.of_nat i)) <$> seq 0 k))
         (JArray ((λ i, soak_record_json format n (Z.of_nat i)) <$> seq 0 k)))]).
Proof.
  set (texts := (λ i, record_json format (xs n) (Z.of_nat i)) <$> seq 0 k).
  assert (buildBody k n format = obj_text [("records", arr_text texts)]) as ->.
  { unfold buildBody, obj_text, member_text, arr_text. cbn [fmap list_fmap Join fst snd].
    change (json_string "records") with (String dq ("records" +:+ String dq "")).
    change (list_fmap _ _ _ _) with texts. by autorewrite with strs. }
  apply (reads_fields 3 [("records", arr_text texts, JArray _)]); [|done].
  constructor; [|constructor]. split; [done|]. cbn [fst snd].
  apply (reads_array_map (λ i, record_json format (xs n) (Z.of_nat i))
    (λ i, JObject [("value", Json (value_text format (xs n) (Z.of_nat i))
                               (value_val format (xs n) (Z.of_nat i)))]) 2); [|done].
  apply Forall_true. intros i. rewrite record_json_text.
  apply (reads_fields 1 [("value", value_text format (xs n) (Z.of_nat i),
                          value_val format (xs n) (Z.of_nat i))]); [|done].
  constructor; [|constructor]. split; [done|]. apply value_reads.
Qed.

(** The raw record and the record such a document stands for. *)
Definition soak_raw (format : string) (n : nat) (i : Z) : rawRecord :=
  {| rr_Key := rr_Key zero_rawRecord;
     rr_Value := {| Present := true; Raw := value_text format (xs n) i |};
     rr_Partition := None; rr_Headers := rr_Headers zero_rawRecord |}.

Definition soak_record (topic format : string) (n : nat) (i : Z) : PRecord :=
  {| r_Topic := topic; r_Key := None;
     r_Value := Some (if String.eqb format "binary" then xs n
                      else obj_text [("index", Itoa i); ("payload", quoted (xs n))]);
     r_Headers := []; r_Partition := None |}.

Lemma Unmarshal_buildBody format n k :
  Unmarshal_request (buildBody k n format) =
    Ok {| rp_KeySchemaID := None; rp_KeySchema := ""; rp_ValueSchemaID := None;
          rp_ValueSchema := "";
          rp_Records := fresh ((λ i, soak_raw format n (Z.of_nat i)) <$> seq 0 k) |}.
Proof.
  unfold Unmarshal_request, Unmarshal.
  rewrite (reads_parse _ _ _ (buildBody_reads format n k)) by done.
  unfold decode_struct at 1. cbn [jval decode_members]. unfold rawProduceRequest_field at 1.
  unfold dbind at 1. simpl. unfold dbind at 1.
  rewrite (decode_slice_map _ _ _ _ (λ i, soak_record_json format n (Z.of_nat i))
             (λ i, soak_raw format n (Z.of_nat i))); [done|].
  by apply Forall_true.
Qed.

Lemma TrimSpace_braces s : TrimSpace ("{" +:+ s +:+ "}") = "{" +:+ s +:+ "}".
Proof. exact (TrimSpace_solid "{" s "}" eq_refl eq_refl). Qed.

Lemma digits_outside z : 0 <= z →
  all_bytes (λ c, negb (Ascii.eqb c dq || is_space c)) (Itoa z) = true.
Proof.
  intros Hz. unfold Itoa. destruct (Z.ltb_spec z 0); [lia|].
  destruct (Utoa_spec z Hz) as [(Ha&_) _]. revert Ha. apply all_bytes_impl.
  intros c Hc. destruct c as [[] [] [] [] [] [] [] []]; first [discriminate Hc | reflexivity].
Qed.

Lemma index_compact i n : 0 <= i →
  decodeJSONValue (obj_text [("index", Itoa i); ("payload", quoted (xs n))]) =
    Ok (obj_text [("index", Itoa i); ("payload", quoted (xs n))]).
Proof.
  intros Hi. unfold decodeJSONValue. set (t := obj_text _).
  assert (TrimSpace t = t) as Ht by apply TrimSpace_braces. rewrite Ht.
  assert (jsonRawIsCompact t = true) as ->; [|done].
  assert (t = "{" +:+ String dq ("index" +:+ String dq (":" +:+ (Itoa i +:+ ("," +:+
    String dq ("payload" +:+ String dq (":" +:+ String dq (xs n +:+ String dq "}")))))))) as ->.
  { unfold t, obj_text, member_text, quoted. cbn [fmap list_fmap Join fst snd].
    by autorewrite with strs. }
  unfold jsonRawIsCompact. rewrite compact_outside by done. cbn [raw_is_compact].
  change (Ascii.eqb dq dq) with true. cbv iota. rewrite compact_inside by done.
  rewrite compact_outside, compact_outside, compact_outside by (done || by apply digits_outside).
  cbn [raw_is_compact]. change (Ascii.eqb dq dq) with true. cbv iota.
  rewrite compact_inside by done. rewrite compact_outside by done. cbn [raw_is_compact].
  change (Ascii.eqb dq dq) with true. cbv iota. rewrite compact_inside; [done|].
  by apply Repeat_bytes.
Qed.

(** The payload format the driver's content type names. *)
Definition soak_format (format : string) : payloadFormat :=
  if String.eqb format "binary" then formatBinary else formatJSON.

Lemma decode_value format n i : 0 <= i →
  decodeNullableValue {| Present := true; Raw := value_text format (xs n) i |} (soak_format format) =
    Ok (r_Value (soak_record "" format n i)).
Proof.
  intros Hi. unfold decodeNullableValue, soak_format, value_text, soak_record, api_isJSONNull.
  cbn [Present Raw negb orb r_Value]. destruct (String.eqb format "binary").
  - change (json_string (EncodeToString (xs n))) with
      (quoted (concat_s (escape_json <$> runes (EncodeToString (xs n))))).
    rewrite TrimSpace_quoted, quoted_not_null. unfold Unmarshal.
    change (quoted (concat_s _)) with (json_string (EncodeToString (xs n))).
    rewrite (reads_parse _ _ _ (json_string_ascii _ (encoded_ascii (xs n)))) by done.
    cbn [decode_string jval]. unfold dret. by rewrite decode_encode.
  - unfold obj_text at 1. rewrite TrimSpace_braces. by rewrite index_compact.
Qed.

(** What the soak driver sends, the proxy accepts: under the content type
    the driver announces, and as long as the batch and the size of a record are
    within the configured limits, the body decodes to exactly the records asked
    for, in order, keyless and without partition, with the payload the driver
    was asked to send (in JSON with the index of the record). *)
Lemma soak_body_accepted topic format (limits : decodeLimits) n k :
  0 < Z.of_nat k <= MaxRecords (limits_withDefaults limits) →
  (∀ i, (i < k)%nat →
     blen (r_Value (soak_record topic format n (Z.of_nat i))) <=
       MaxRecordBytes (limits_withDefaults limits)) →
  parseContentType (contentTypeForFormat format) = Some (soak_format format) ∧
  decodeProduceRequest topic (buildBody k n format) (soak_format format) limits None =
    Ok ((λ i, soak_record topic format n (Z.of_nat i)) <$> seq 0 k).
Proof.
  intros Hk Hs. split.
  { unfold contentTypeForFormat, soak_format. by destruct (String.eqb format "binary"). }
  apply accepted_iff; [unfold soak_format; by destruct (String.eqb format "binary")|].
  eexists _, ((λ i, soak_raw format n (Z.of_nat i)) <$> seq 0 k).
  split; [apply Unmarshal_buildBody|]. split; [done|].
  rewrite length_fmap, length_seq. split; [done|]. split.
  - generalize 0%nat as j. clear. induction k as [|k IH]; intros j; [constructor|].
    cbn [seq fmap list_fmap]. constructor; [|apply IH].
    split; [done|apply (decode_value format n); lia|constructor|done].
  - apply Forall_fmap, Forall_seq. intros i Hi. specialize (Hs i ltac:(lia)).
    pose proof (limits_positive limits) as (_&_&?&?&_).
    split; cbn -[limits_withDefaults]; try done; lia.
Qed.

Lemma soak_body_accepted_witness :
  parseContentType (contentTypeForFormat "json") = Some formatJSON ∧
  decodeProduceRequest "t" (buildBody 2 3 "json") formatJSON no_limits None =
    Ok [soak_record "t" "json" 3 0; soak_record "t" "json" 3 1].
Proof.
  apply (soak_body_accepted "t" "json" no_limits 3 2).
  - vm_compute. split; congruence.
  - intros [|[|i]] Hi; [vm_compute; congruence..|lia].
Defined.

(** ** Where the driver goes wrong *)

(** A maximal failure rate of NaN is accepted, and then no failure rate exceeds
    it. *)
Lemma nan_failure_rate_never_trips result limits :
  parseFailureRate "NaN" = Ok S754_nan ∧
  (MaxFailureRate limits = S754_nan →
   ∀ v, v ∈ evaluateThresholds result limits → v_Name v ≠ "max_failure_rate").
Proof.
  split; [by vm_compute|]. intros Hl v. unfold evaluateThresholds. rewrite Hl.
  cbn [f64_ltb]. change (f64_ltb S754_nan _) with false. cbn [app].
  intros [Hv|Hv]%elem_of_app; revert Hv; case_match; intros Hv;
    by first [apply not_elem_of_nil in Hv|apply list_elem_of_singleton in Hv as ->].
Qed.
