(* ===== verification/SoakArgs.v ===== *)
(** * The command line of cmd/soak-produce

    The options the driver can run with are exactly the valid ones: nothing else
    gets past [parseOptions], and every one of them is what some command line
    means. *)

From S2P Require Import Prelude.
From S2P Require Import GoStrings.
From S2P Require Import Strconv.
From S2P Require Import GoErrors.
From S2P Require Import GoFloat.
From S2P Require Import Flag.
From S2P Require Import FlagFacts.
From S2P Require Import Url.
From S2P Require Import Main.
From S2P Require Import Soak.
From coqutil Require Import Datatypes.RecordSetters.

Local Open Scope Z_scope.

Definition positive_i64 (z : Z) : Prop := 0 < z < 2 ^ 63.
Definition natural_i64 (z : Z) : Prop := 0 <= z < 2 ^ 63.

(** The options as the messages of [parseOptions] ask for them. *)
Record valid_options (url_Parse : string → res parsedURL) (opts : options) : Prop := {
  valid_URL : ∃ raw, absolute_url url_Parse (TrimSpace raw) = true ∧
                     o_URL opts = TrimRightByte (TrimSpace raw) "/";
  valid_Topic : ∃ raw, o_Topic opts = TrimSpace raw ∧ o_Topic opts ≠ "";
  valid_Duration : positive_i64 (o_Duration opts);
  valid_Warmup : natural_i64 (o_Warmup opts);
  valid_Clients : positive_i64 (o_Clients opts);
  valid_RecordsPerRequest : positive_i64 (o_RecordsPerRequest opts);
  valid_PayloadBytes : natural_i64 (o_PayloadBytes opts);
  valid_Format : o_Format opts ∈ ["json"; "binary"];
  valid_Timeout : positive_i64 (o_Timeout opts);
  valid_MaxLatencySamples : positive_i64 (o_MaxLatencySamples opts);
  valid_MaxFailureRate : ∃ text, parseFailureRate text = Ok (MaxFailureRate (o_Thresholds opts));
  valid_MinRecordsPerSecond :
    f64_ltb (MinRecordsPerSecond (o_Thresholds opts)) f64_zero = false ∧
    (MinRecordsPerSecond (o_Thresholds opts) = f64_zero ∨
     ∃ text, parse_float text = inr (MinRecordsPerSecond (o_Thresholds opts)));
  valid_MaxP99 : natural_i64 (MaxP99 (o_Thresholds opts));
}.

(** ** What the flags can hold *)

Record flags_ok (f : flags) : Prop := {
  ok_duration : in_i64 (f_duration f); ok_warmup : in_i64 (f_warmup f);
  ok_clients : in_i64 (f_clients f); ok_records : in_i64 (f_recordsPerRequest f);
  ok_payload : in_i64 (f_payloadBytes f); ok_timeout : in_i64 (f_timeout f);
  ok_samples : in_i64 (f_maxLatencySamples f); ok_p99 : in_i64 (f_maxP99 f);
  ok_min : f_minRecordsPerSec f = f64_zero ∨ ∃ text, parse_float text = inr (f_minRecordsPerSec f);
}.

Lemma flags_ok_parsed args f rest :
  Parse soak_formal args default_flags = Ok (f, rest) → flags_ok f.
Proof.
  intros H. eapply Parse_invariant; [|exact H|].
  - unfold soak_formal, String_flag, Int_flag, Float64_flag, Duration_flag.
    repeat apply Forall_cons_2; [..|done]; cbn [fl_Set]; intros v g g' Hg Hok; destruct Hok; set_cases Hg.
    all: by injection Hg as <-; constructor; cbn; eauto.
  - constructor; cbn; (by left) || by vm_compute.
Qed.

Lemma parseFormat_formats v format : parseFormat v = Ok format → format ∈ ["json"; "binary"].
Proof.
  unfold parseFormat. cbv zeta. intros H. repeat (split_if_in H); simplify_eq; set_solver.
Qed.

Section parse.
Context (url_Parse : string → res parsedURL).

Lemma check_flags_valid f opts : flags_ok f → check_flags url_Parse f = Ok opts →
  valid_options url_Parse opts.
Proof.
  intros [] H. unfold check_flags, in_i64 in *.
  do 12 (split_if_in H; [done|]).
  destruct (parseFormat _) as [format|] eqn:Eformat; [|done].
  destruct (parseFailureRate _) as [rate|] eqn:Erate; [|done].
  injection H as <-. zbool.
  constructor; cbn; unfold positive_i64, natural_i64; eauto; try lia.
  - exists (f_topic f). split; [done|]. by apply String.eqb_neq.
  - by eapply parseFormat_formats.
Qed.

(** ** The command line of given options *)

Definition soak_args (raw topic rate : string) (min : list string) (opts : options) : list string :=
  [assignment "url" raw; assignment "topic" topic;
   assignment "duration" (nanoseconds (o_Duration opts));
   assignment "warmup" (nanoseconds (o_Warmup opts));
   assignment "clients" (Itoa (o_Clients opts));
   assignment "records-per-request" (Itoa (o_RecordsPerRequest opts));
   assignment "payload-bytes" (Itoa (o_PayloadBytes opts));
   assignment "format" (o_Format opts);
   assignment "timeout" (nanoseconds (o_Timeout opts));
   assignment "max-latency-samples" (Itoa (o_MaxLatencySamples opts));
   assignment "max-failure-rate" rate;
   assignment "max-p99" (nanoseconds (MaxP99 (o_Thresholds opts)))] ++
  (assignment "min-records-sec" <$> min).

(** They parse to the values they were printed from. *)
Lemma parse_soak_args raw topic rate min opts f :
  Forall in_i64 [o_Duration opts; o_Warmup opts; o_Clients opts; o_RecordsPerRequest opts;
                 o_PayloadBytes opts; o_Timeout opts; o_MaxLatencySamples opts;
                 MaxP99 (o_Thresholds opts)] →
  Parse soak_formal (soak_args raw topic rate min opts) f =
  Parse soak_formal (assignment "min-records-sec" <$> min)
    {| f_url := raw; f_topic := topic; f_duration := o_Duration opts;
       f_warmup := o_Warmup opts; f_clients := o_Clients opts;
       f_recordsPerRequest := o_RecordsPerRequest opts; f_payloadBytes := o_PayloadBytes opts;
       f_format := o_Format opts; f_timeout := o_Timeout opts;
       f_maxLatencySamples := o_MaxLatencySamples opts; f_maxFailureRate := rate;
       f_minRecordsPerSec := f_minRecordsPerSec f; f_maxP99 := MaxP99 (o_Thresholds opts);
       f_args := f_args f |}.
Proof.
  intros H. unfold soak_args. repeat apply Forall_cons in H as [? H]. cbn [app].
  repeat first [erewrite Parse_string by (reflexivity || done)
               |erewrite Parse_int by (reflexivity || done)
               |erewrite Parse_duration by (reflexivity || done)].
  reflexivity.
Qed.

Lemma parse_min_args x g : x = f64_zero ∨ (∃ text, parse_float text = inr x) →
  f_minRecordsPerSec g = f64_zero → ∃ min, ∀ f, f_minRecordsPerSec f = f_minRecordsPerSec g →
  Parse soak_formal (assignment "min-records-sec" <$> min) f =
  Ok (set_field f_minRecordsPerSec x f, []).
Proof.
  intros [->|[text Htext]] Hg.
  - exists []. intros f Hf. rewrite Hg in Hf. destruct f; cbn in *. by subst.
  - exists [text]. intros f _. cbn [fmap list_fmap].
    by erewrite Parse_float by (exact Htext || reflexivity || done).
Qed.

Theorem soak_command_line opts :
  (∃ args, parseOptions url_Parse args = Ok opts) ↔ valid_options url_Parse opts.
Proof.
  split.
  - intros [args H]. unfold parseOptions in H.
    destruct (Parse _ _ _) as [[f rest]|] eqn:E; [|done].
    apply flags_ok_parsed in E. eapply check_flags_valid; [|exact H].
    by destruct E; constructor.
  - intros [(raw&Hraw&HURL) (topic&Htopic&Hne) ????? Hformat ?? (rate&Hrate) [Hneg Hmin] ?].
    destruct (parse_min_args _ default_flags Hmin eq_refl) as [min Hparse].
    exists (soak_args raw topic rate min opts). unfold parseOptions.
    rewrite parse_soak_args; [|unfold positive_i64, natural_i64, in_i64 in *; repeat constructor; lia].
    rewrite Hparse by done.
    unfold positive_i64, natural_i64 in *. unfold check_flags. cbn -[absolute_url TrimSpace parseFormat parseFailureRate String.eqb Z.leb Z.ltb f64_ltb f64_zero].
    rewrite Hraw, <- Htopic, Hneg, Hrate. cbn -[absolute_url TrimSpace parseFormat parseFailureRate String.eqb Z.leb Z.ltb f64_ltb f64_zero].
    rewrite (proj2 (String.eqb_neq _ _) Hne).
    repeat (split_if; zbool; [lia|]).
    assert (parseFormat (o_Format opts) = Ok (o_Format opts)) as ->.
    { repeat (apply elem_of_cons in Hformat as [->|Hformat]; [done|]). set_solver. }
    destruct opts as [? ? ? ? ? ? ? ? ? ? []]. cbn in *. by rewrite HURL.
Qed.
End parse.

(** ** Examples *)

Definition example_Parse (_ : string) : res parsedURL :=
  Ok {| pu_Scheme := "http"; pu_Host := "localhost"; pu_URL := {| Path := ""; RawPath := "" |} |}.

Definition refusal (args : list string) : string :=
  match parseOptions example_Parse args with Ok _ => "" | Err err => Error err end.

Example parseOptions_ex : ∃ opts,
  parseOptions example_Parse
    ["-clients"; "0x10"; "--format=BIN"; "-max-failure-rate=0.1%"; "-duration"; "1m30s";
     "-url= http://localhost:8080// "; "--"] = Ok opts ∧
  o_Clients opts = 16 ∧ o_Format opts = "binary" ∧ o_Duration opts = 90 * 10 ^ 9 ∧
  o_URL opts = "http://localhost:8080" ∧ o_RecordsPerRequest opts = 10.
Proof. eexists. split; [vm_compute; reflexivity|]. by vm_compute. Qed.

Example refusal_ex :
  refusal <$> [["-clients=0"]; ["-clients=many"]; ["-clients=9223372036854775808"]; ["-topic"];
               ["-rate=1"]; ["--=x"]; ["-h"]; ["now"; "-clients=0"]; ["-timeout=5"];
               ["-topic="]] =
  ["clients must be positive"; qt "invalid value 'many' for flag -clients: parse error";
   qt "invalid value '9223372036854775808' for flag -clients: value out of range";
   "flag needs an argument: -topic"; "flag provided but not defined: -rate";
   "bad flag syntax: --=x"; "flag: help requested"; "unexpected positional arguments: now -clients=0";
   qt "invalid value '5' for flag -timeout: parse error"; "topic must not be empty"].
Proof. vm_compute. reflexivity. Qed.
