(* ===== verification/SoakLoad.v ===== *)
(** * The clients of cmd/soak-produce

    However the goroutines of [runSoak] interleave, every result of a call of
    [postOnce] is at exactly one place - with its client, in the channel, or
    counted - and once the timer has fired the run comes to an end. *)

From S2P Require Import Prelude.
From S2P Require Import GoStrings.
From S2P Require Import GoErrors.
From S2P Require Import GoFloat.
From S2P Require Import Soak.
From S2P Require Import SoakFacts.
Local Open Scope Z_scope.

Section load.
Context {W D : Type} (post : D → W → requestResult * W) (capacity : nat).
Abbreviation soak_load := (@soak_load W).
Abbreviation step := (soak_step post capacity).
Abbreviation run := (soak_run post capacity).

Definition pending (c : soak_client) : option requestResult :=
  match c with SSending res => Some res | _ => None end.

(** Every result so far, wherever it is. *)
Definition results_of (s : soak_load) : list requestResult :=
  sl_arrived s ++ sl_results s ++ omap pending (sl_clients s).

Lemma omap_insert_client (l : list soak_client) i c c' : l !! i = Some c →
  option_list (pending c) ++ omap pending (<[i := c']> l) ≡ₚ
  option_list (pending c') ++ omap pending l.
Proof.
  intros Hi. rewrite <- (take_drop_middle l i c Hi) at 2.
  rewrite insert_take_drop by (by eapply lookup_lt_Some).
  rewrite !omap_app. cbn [omap list_omap].
  destruct (pending c), (pending c'); cbn [option_list]; solve_Permutation.
Qed.

(** A step adds the result of a post, or only moves results. *)
Lemma soak_step_results e s s' : step e s = Some s' →
  (∃ i d res, e = SPost i d ∧ post d (sl_world s) = (res, sl_world s') ∧
     results_of s' ≡ₚ res :: results_of s) ∨
  sl_world s' = sl_world s ∧ results_of s' ≡ₚ results_of s.
Proof.
  unfold results_of. destruct e as [i|i d|i| |]; cbn [soak_step].
  - destruct (sl_clients s !! i) as [[]|] eqn:Ei; try done. intros [= <-]. right. cbn.
    pose proof (omap_insert_client _ _ _ (if sl_done s then SExited else SPosting) Ei) as Hp.
    split; [done|]. destruct (sl_done s); cbn in Hp; by rewrite Hp.
  - destruct (sl_clients s !! i) as [[]|] eqn:Ei; try done.
    destruct (post d (sl_world s)) as [res w] eqn:Ep. intros [= <-]. left. cbn.
    pose proof (omap_insert_client _ _ _ (SSending res) Ei) as Hp. cbn in Hp.
    exists i, d, res. split_and!; [done..|]. rewrite Hp. solve_Permutation.
  - destruct (sl_clients s !! i) as [[]|] eqn:Ei; try done.
    destruct (_ <? _)%nat; [|done]. intros [= <-]. right. cbn. split; [done|].
    pose proof (omap_insert_client _ _ _ SLoop Ei) as Hp. cbn in Hp.
    rewrite <- Hp. solve_Permutation.
  - destruct (sl_results s) as [|res rest] eqn:Er; [done|]. intros [= <-]. right. cbn.
    split; [done|]. solve_Permutation.
  - intros [= <-]. by right.
Qed.

Definition is_post (e : soak_event D) (d : D) : Prop := ∃ i, e = SPost i d.

(** What posts establish of the world and the results so far holds after every
    run. *)
Lemma soak_run_invariant (Q : D → Prop) (P : W → list requestResult → Prop) :
  (∀ w l l', l ≡ₚ l' → P w l → P w l') →
  (∀ d w l, Q d → P w l → P (post d w).2 ((post d w).1 :: l)) →
  ∀ es s s', (∀ i d, SPost i d ∈ es → Q d) → run es s = Some s' →
    P (sl_world s) (results_of s) → P (sl_world s') (results_of s').
Proof.
  intros Hperm Hpost es. induction es as [|e es IH]; intros s s' Hq; cbn [soak_run].
  - by intros [= <-].
  - intros (s1&H1&H2)%bind_Some HP. apply (IH s1); [|done|].
    { intros i d Hd. apply (Hq i d). by constructor. }
    destruct (soak_step_results _ _ _ H1) as [(i&d&res&->&Hd&Hr)|[-> Hr]].
    + apply (Hperm _ _ _ (symmetry Hr)).
      pose proof (Hpost d _ _ (Hq i d ltac:(constructor)) HP) as Hn. by rewrite Hd in Hn.
    + by apply (Hperm _ _ _ (symmetry Hr)).
Qed.

Lemma results_of_start n w : results_of (soak_start n w) = [].
Proof. unfold results_of. cbn. induction n as [|n IH]; [done|exact IH]. Qed.

Lemma results_of_finished (s : soak_load) : soak_finished s → results_of s = sl_arrived s.
Proof.
  intros [Hc Hr]. unfold results_of. rewrite Hr.
  assert (omap pending (sl_clients s) = []) as ->; [|by rewrite app_nil_r].
  induction Hc as [|c l -> _ IH]; [done|exact IH].
Qed.

(** ** Termination *)

(** What a client still does once the timer has fired: it sends the result it
    has or is getting, which is then received, and returns. *)
Definition to_do (c : soak_client) : Z :=
  match c with SLoop => 1 | SPosting => 4 | SSending _ => 3 | SExited => 0 end.
Definition remaining_steps (s : soak_load) : Z :=
  zsum to_do (sl_clients s) + Z.of_nat (length (sl_results s)).

Lemma remaining_steps_nonneg s : 0 <= remaining_steps s.
Proof.
  unfold remaining_steps. assert (0 <= zsum to_do (sl_clients s)); [|lia].
  apply zsum_nonneg. by intros [].
Qed.

Lemma soak_step_decreases e s s' : e ≠ STimer → sl_done s = true → step e s = Some s' →
  sl_done s' = true ∧ remaining_steps s' < remaining_steps s.
Proof.
  intros He Hd. unfold remaining_steps. destruct e as [i|i d|i| |]; cbn [soak_step]; [..|done].
  1-3: destruct (sl_clients s !! i) as [c|] eqn:Ei; [|done]; destruct c; try done.
  - rewrite Hd. intros [= <-]. cbn. rewrite (zsum_insert _ _ _ _ _ Ei). cbn. split; [done|lia].
  - destruct (post d (sl_world s)) as [res w]. intros [= <-]. cbn.
    rewrite (zsum_insert _ _ _ _ _ Ei). cbn. split; [done|lia].
  - destruct (_ <? _)%nat; [|done]. intros [= <-]. cbn.
    rewrite (zsum_insert _ _ _ _ _ Ei), length_app. cbn. split; [done|lia].
  - destruct (sl_results s); [done|]. intros [= <-]. cbn. split; [done|lia].
Qed.

(** Nothing blocks for good: unless the run is over some goroutine can go on. *)
Lemma soak_step_enabled (d : D) s : (0 < capacity)%nat → ¬ soak_finished s →
  ∃ e s', e ≠ STimer ∧ step e s = Some s'.
Proof.
  intros Hc Hn. destruct (sl_results s) as [|res rest] eqn:Er.
  - assert (¬ Forall (λ c, c = SExited) (sl_clients s)) as Hf by (intros Hf; by apply Hn).
    apply not_Forall_Exists in Hf; [|intros []; (by left) || by right].
    apply Exists_exists in Hf as (c&Hi&Hx). apply list_elem_of_lookup_1 in Hi as [i Hi].
    destruct c as [| |res|]; [| | |by destruct Hx].
    + exists (SPoll i). eexists. split; [done|]. cbn. by rewrite Hi.
    + exists (SPost i d). cbn. rewrite Hi. destruct (post d (sl_world s)). by eexists; split.
    + exists (SSend i). cbn. rewrite Hi, Er. destruct capacity; [lia|]. by eexists; split.
  - exists SReceive. cbn. rewrite Er. by eexists; split.
Qed.

(** Once the timer has fired the run ends: every run goes on for at most
    [remaining_steps] steps, and until it is finished some step is possible. *)
Lemma soak_load_ends es s s' : sl_done s = true → STimer ∉ es → run es s = Some s' →
  Z.of_nat (length es) <= remaining_steps s.
Proof.
  revert s. induction es as [|e es IH]; intros s Hd He; cbn [soak_run].
  - intros _. apply remaining_steps_nonneg.
  - apply not_elem_of_cons in He as [He Hes]. intros (s1&H1&H2)%bind_Some.
    destruct (soak_step_decreases e s s1) as [Hd1 Hm]; [by intros ->|done..|].
    specialize (IH s1 Hd1 Hes H2). cbn [length]. lia.
Qed.
End load.

(** The settings of the transport and of the results channel fit the load: a
    connection for each client, none closed while idle, and room for four
    results of each. *)
Lemma connections_suffice opts : 0 < o_Clients opts < 2 ^ 61 →
  let c := newSoakHTTPClient opts in
  32 <= MaxConnsPerHost c ∧ o_Clients opts <= MaxConnsPerHost c ∧
  MaxIdleConnsPerHost c = MaxConnsPerHost c ∧
  Z.of_nat (results_capacity opts) = o_Clients opts * 4.
Proof.
  intros Hc. cbv zeta. unfold newSoakHTTPClient, connections, results_capacity.
  cbn [MaxConnsPerHost MaxIdleConnsPerHost].
  rewrite i64_id by (unfold in_i64; lia).
  destruct (Z.ltb_spec (o_Clients opts * 4) 32); split_and!; lia.
Qed.

(** ** The sums of a summary *)

Lemma collect_success opts arrivals t :
  successRecords (foldl (collect opts) t arrivals) = successRecords t + zsum SuccessRecords arrivals.
Proof.
  revert t. induction arrivals as [|res l IH]; intros t; cbn [foldl zsum]; [lia|].
  rewrite IH. cbn. lia.
Qed.

Lemma runSoak_success opts arrivals elapsed :
  s_SuccessRecords (runSoak opts arrivals elapsed) = zsum SuccessRecords arrivals.
Proof. cbn. by rewrite collect_success. Qed.
