(* ===== verification/EndToEnd.v ===== *)
(** * The soak driver against the proxy

    The modelled driver talks to the modelled proxy: a request of [postOnce] is
    parsed, routed, authenticated and served by [Routes], and what the response
    writer was told comes back as the response the driver reads - unless the
    network loses one or the other.  The theorems say what the driver's numbers
    mean for Kafka. *)

From S2P Require Import Prelude.
From S2P Require Import GoStrings.
From S2P Require Import Strconv.
From S2P Require Import GoErrors.
From S2P Require Import Json.
From S2P Require Import Url.
From S2P Require Import Paths.
From S2P Require Import Mime.
From S2P Require Import GoFloat.
From S2P Require Import Config.
From S2P Require Import RateLimit.
From S2P Require Import Metrics.
From S2P Require Import SchemaTypes.
From S2P Require Import SchemaRegistry.
From S2P Require Import SchemaEncoder.
From S2P Require Import Producer.
From S2P Require Import Media.
From S2P Require Import Types.
From S2P Require Import TypesFacts.
From S2P Require Import TypesText.
From S2P Require Import Handler.
From S2P Require Import HandlerFacts.
From S2P Require Import HandlerSpecs.
From S2P Require Import V3.
From S2P Require Import HandlerV3.
From S2P Require Import Routes.
From S2P Require Import Soak.
From S2P Require Import SoakFacts.
From S2P Require Import SoakLoad.
Local Open Scope Z_scope.

(** ** The exchange *)

(** The status [net/http] sends: of the first [WriteHeader], or 200 from the
    first [Write] on. *)
Fixpoint status_of (acts : list raction) : Z :=
  match acts with
  | RWriteHeader status :: _ => status
  | RWrite _ :: _ => 200
  | _ :: acts => status_of acts
  | [] => 200
  end.

Definition body_of (acts : list raction) : string :=
  concat_s (omap (λ a, match a with RWrite body => Some body | _ => None end) acts).

(** The response as the client reads it; a panic closes the connection. *)
Definition answer (acts : list raction) : exchange :=
  if bool_decide (RPanic ∈ acts) then DoFailed (ESentinel ioEOF)
  else Responded (status_of acts) (body_of acts) None.

(** What the network does with a request. *)
Inductive network :=
  | Answered                          (* the response arrives *)
  | Unreached (err : error)           (* the request does not arrive *)
  | Unanswered (err : error)          (* the response does not arrive *)
  | Cut (n : nat) (err : error).      (* the response ends after [n] bytes *)

(** The request the server reads: the base URL is a scheme and a host. *)
Definition received (base : string) (o : outgoing) : option Request :=
  (λ u, {| rq_Method := "POST"; rq_URL := u;
           rq_Header k := if String.eqb k "Content-Type" then out_ContentType o
                          else if String.eqb k "Accept" then out_Accept o else "";
           rq_ContentLength := slen (out_body o); rq_Body := out_body o;
           rq_body_err := None |}) <$> setPath (TrimPrefix (out_url o) base).

Section wire.
Context {P R : Type} `{Producer P} `{Codecs} `{Registry R}.
Context (clock : nat → Z).
Context (time_UnmarshalJSON : string → option error) (time_MarshalJSON : nat → string).
Context (chunk : nat → nat).
Context (page : endpoint → Request → list raction) (redirect : string → Request → list raction).
Context (h : Handler).
Abbreviation World := (@World P R).
Abbreviation routes := (Routes clock time_UnmarshalJSON time_MarshalJSON chunk page redirect h).

(** A new response writer for a request. *)
Definition fresh_writer (w : World) : World :=
  {| w_producer := w_producer w; w_registry := w_registry w;
     requestRateLimiter := requestRateLimiter w; byteRateLimiter := byteRateLimiter w;
     w_metrics := w_metrics w; w_tick := w_tick w; w_out := [] |}.

(** The proxy serves a request; a request line it cannot parse is answered 400
    by [net/http]. *)
Definition served (r : option Request) (w : World) : exchange * World :=
  match r with
  | None => (Responded 400 "400 Bad Request" None, w)
  | Some r => let w := (routes r (fresh_writer w)).2 in (answer (w_out w), w)
  end.

Definition exchanged (base : string) (net : network) (o : outgoing) (w : World)
  : exchange * World :=
  match net with
  | Unreached err => (DoFailed err, w)
  | Answered => served (received base o) w
  | Unanswered err => (DoFailed err, (served (received base o) w).2)
  | Cut n err =>
      let '(x, w) := served (received base o) w in
      (match x with
       | Responded status body _ => Responded status (stake n body) (Some err)
       | x => x
       end, w)
  end.

(** One call of [postOnce] against the proxy; [n.2] is the latency it has. *)
Definition post (opts : options) (body : string) (n : network * Z) (w : World)
  : requestResult * World :=
  let '(x, w) := exchanged (o_URL opts) n.1 (soak_request opts body) w in
  (postOnce (λ _, x) n.2 opts body, w).

(** ** What a request of the driver comes to *)

Lemma answer_status status acts : answers status acts →
  ∃ body, answer acts = Responded status body None.
Proof.
  intros (hdrs&body&->&Hh&_). unfold answer. rewrite bool_decide_false.
  - exists (body_of (hdrs ++ [RWriteHeader status; RWrite body])). f_equal.
    induction Hh as [|a l Ha _ IH]; [done|]. by destruct a.
  - rewrite elem_of_app. intros [Hp|Hp]; [|set_solver].
    rewrite Forall_forall in Hh. by apply Hh in Hp.
Qed.

Lemma received_request opts body : ordinary (o_Topic opts) → ∃ r,
  received (o_URL opts) (soak_request opts body) = Some r ∧
  rq_Method r = "POST" ∧ rq_Body r = body ∧ rq_body_err r = None ∧
  rq_Header r "Authorization" = "" ∧
  acceptsResponse (rq_Header r "Accept") = true ∧
  rq_Header r "Content-Type" = contentTypeForFormat (o_Format opts) ∧
  produceTargetFromPath (rq_URL r) = Some {| topic := o_Topic opts; partition := None |} ∧
  ∀ m, findHandler (route_table h m) "POST" (rq_URL r) = Serve TopicProduce.
Proof.
  intros Ht. destruct (topic_path_target (o_Topic opts) None (proj1 Ht) I) as (u&Hu&Htarget).
  unfold received. change (out_url (soak_request opts body)) with
    (o_URL opts +:+ ("/topics/" +:+ PathEscape (o_Topic opts))). rewrite TrimPrefix_app.
  replace ("/topics/" +:+ PathEscape (o_Topic opts)) with (topic_path (o_Topic opts) None)
    by (unfold topic_path, partition_suffix; by rewrite app_nil_r_s).
  rewrite Hu. eexists. split; [done|]. split_and!; try done.
  intros m. by apply (topic_path_routed _ _ _ (o_Topic opts) None).
Qed.

Lemma routes_target r w target :
  rq_Method r = "POST" → rq_Header r "Authorization" = "" →
  produceTargetFromPath (rq_URL r) = Some target →
  (∀ m, findHandler (route_table h m) "POST" (rq_URL r) = Serve TopicProduce) →
  if (size (h_tokens h) =? 0)%nat then routes r w = handleTopicProduce clock h r w
  else routes r w = writeAPIError 401 errorCodeUnauthorized "missing bearer token" w.
Proof.
  intros Hm Ha Ht Hr. unfold Routes, authMiddleware. destruct (size (h_tokens h) =? 0)%nat.
  - unfold serve_mux. by rewrite Hm, Hr.
  - assert (¬ health_path (Path (rq_URL r))) as Hp.
    { intros Hp%health_no_topic. by rewrite Hp in Ht. }
    destruct (String.eqb_spec (Path (rq_URL r)) "/healthz") as [E|_]; [destruct Hp; by left|].
    destruct (String.eqb_spec (Path (rq_URL r)) "/readyz") as [E|_]; [destruct Hp; by right|].
    cbn [orb]. rewrite Ha. done.
Qed.

(** Either it is turned away without a trace in the producer, or the producer
    is asked once for what the body decodes to and the response says so. *)
Definition turned_away (x : exchange) : Prop :=
  ∃ status body, x = Responded status body None ∧ 400 <= status < 500.

Definition asked (opts : options) (body : string) (w : World) (x : exchange) (w' : World) : Prop :=
  ∃ records deadline outcome,
    decodeProduceRequest (o_Topic opts) body (soak_format (o_Format opts))
      (config_decodeLimits (h_cfg h)) None = Ok records ∧
    Produce deadline records (w_producer w) = (outcome, w_producer w') ∧
    match outcome with
    | Ok results => x = Responded 200 (appendProduceResponse results zero_produceMetadata) None
    | Err err => ∃ b, x = Responded (produce_error_status err) b None
    end.

Lemma content_type_parses format :
  parseContentType (contentTypeForFormat format) = Some (soak_format format).
Proof. unfold contentTypeForFormat, soak_format. by destruct (String.eqb format "binary"). Qed.

Lemma soak_format_plain format : schemaType (soak_format format) = "".
Proof. unfold soak_format. by destruct (String.eqb format "binary"). Qed.

Lemma produced_asked opts body w w' records deadline outcome :
  decodeProduceRequest (o_Topic opts) body (soak_format (o_Format opts))
    (config_decodeLimits (h_cfg h)) None = Ok records →
  w_out w = [] →
  Produce deadline records (w_producer w) = (outcome, w_producer w') →
  match outcome with
  | Ok results => w_out w' = w_out w ++
      [RSetHeader "Content-Type" mediaKafkaV2; RWriteHeader 200;
       RWrite (appendProduceResponse results zero_produceMetadata)]
  | Err err => ∃ status acts, w_out w' = w_out w ++ acts ∧ answers status acts ∧
      status = produce_error_status err
  end →
  asked opts body w (answer (w_out w')) w'.
Proof.
  intros Hd Hw Hp Ho. exists records, deadline, outcome. split_and!; [done..|]. rewrite Hw in Ho.
  destruct outcome as [results|err].
  - rewrite Ho. unfold answer. rewrite bool_decide_false by set_solver. cbn.
    by rewrite app_nil_r_s.
  - destruct Ho as (status&acts&->&Ha&->). by apply answer_status.
Qed.

Lemma served_outcome opts body w : ordinary (o_Topic opts) →
  let s := served (received (o_URL opts) (soak_request opts body)) w in
  turned_away s.1 ∧ w_producer s.2 = w_producer w ∨ asked opts body w s.1 s.2.
Proof.
  intros Ht. destruct (received_request opts body Ht) as (r&->&Hm&Hb&_&Ha&_&Hc&Hp&Hf).
  cbn [served fst snd]. pose proof (routes_target r (fresh_writer w) _ Hm Ha Hp Hf) as Hr.
  destruct (size (h_tokens h) =? 0)%nat; rewrite Hr.
  - destruct (handleTopicProduce_outcome clock h r (fresh_writer w))
      as [[Hpr (status&acts&Ho&Hans&Hst)]|(records&meta&[_ _ _ Htg _]&d&outcome&Hpr&Ho)].
    + left. rewrite Ho. destruct (answer_status _ _ Hans) as (b&Hb'). split; [|exact Hpr].
      exists status, b. by split.
    + right. destruct Htg as (target&format&reg&reg'&Htg&_&Hfm&Hd&_).
      rewrite Hc, content_type_parses in Hfm. injection Hfm as <-.
      rewrite Hp in Htg. injection Htg as <-.
      rewrite decode_plain_encoder in Hd by apply soak_format_plain.
      injection Hd as Hd <- _. cbn [topic partition] in Hd. rewrite Hb in Hd.
      by apply (produced_asked opts body (fresh_writer w) _ records d outcome).
  - left. unfold writeAPIError, bind, out. cbn. split; [|done]. exists 401. eexists. split; [done|lia].
Qed.

(** What the configuration of the proxy has to allow. *)
Record welcome (opts : options) (body : string) (w : World) : Prop := {
  wl_topic : topicAllowed h (o_Topic opts) = true;
  wl_tokens : h_tokens h = ∅;
  wl_limiters : requestRateLimiter w = None ∧ byteRateLimiter w = None;
  wl_body : slen body <= MaxRequestBytes (h_cfg h);
}.

Lemma served_welcome opts body w records : ordinary (o_Topic opts) → welcome opts body w →
  decodeProduceRequest (o_Topic opts) body (soak_format (o_Format opts))
    (config_decodeLimits (h_cfg h)) None = Ok records →
  let s := served (received (o_URL opts) (soak_request opts body)) w in
  asked opts body w s.1 s.2.
Proof.
  intros Ht [Hal Hto [Hrl Hbl] Hs] Hd.
  destruct (received_request opts body Ht) as (r&->&Hm&Hb&He&Ha&Hac&Hc&Hp&Hf).
  cbn [served fst snd]. pose proof (routes_target r (fresh_writer w) _ Hm Ha Hp Hf) as Hr.
  rewrite Hto, size_empty in Hr. cbn in Hr. rewrite Hr.
  destruct (handleTopicProduce_served clock h r (fresh_writer w) _ (soak_format (o_Format opts))
    records Hm Hp Hal Hac) as (d&outcome&Hpr&Ho);
    [by rewrite Hc; apply content_type_parses|apply soak_format_plain|done|done|by rewrite Hb|done
    |by rewrite Hb|].
  by apply (produced_asked opts body (fresh_writer w) _ records d outcome).
Qed.

(** The driver's reading of it. *)
Lemma postOnce_failed send latency opts body status b :
  send (soak_request opts body) = Responded status b None → 300 <= status →
  let res := postOnce send latency opts body in
  Status res = status ∧ SuccessRecords res = 0 ∧ FailedRecords res = o_RecordsPerRequest opts ∧
  FailureReason res = "http_status_" +:+ Itoa status.
Proof.
  intros E Hs. unfold postOnce. rewrite E.
  destruct (Z.ltb_spec status 200); [lia|]. destruct (Z.leb_spec 300 status); [done|lia].
Qed.

Lemma postOnce_counts send latency opts body results meta :
  send (soak_request opts body) = Responded 200 (appendProduceResponse results meta) None →
  Forall result_ok results → Z.of_nat (length results) = o_RecordsPerRequest opts →
  let res := postOnce send latency opts body in
  Status res = 200 ∧ ResErr res = None ∧
  (SuccessRecords res, FailedRecords res) = countResultStatus results ∧
  (FailureReason res = "" ↔ FailedRecords res = 0).
Proof.
  intros E Hr Hl. unfold postOnce. rewrite E. cbn [Z.ltb Z.leb Z.compare Pos.compare Pos.compare_cont orb].
  destruct (soak_counts_agree results meta Hr) as (reason&Hc&Hn). rewrite Hl in Hc.
  rewrite Hc. cbn. split_and!; try done. by destruct (countResultStatus results).
Qed.

Lemma error_status_range err : 400 <= produce_error_status err.
Proof. unfold produce_error_status. repeat case_match; lia. Qed.
End wire.

(** ** What the driver's numbers mean *)

(** The successes among what a call of [Produce] returns. *)
Definition successes (outcome : res (list Result)) : Z :=
  match outcome with
  | Ok results => Z.of_nat (length (filter (λ r, resultFailed r = false) results))
  | Err _ => 0
  end.

(** A producer that knows how many records it has written for good: what a call
    reports as a success was written during it, besides records of other calls
    and of calls that fail, and none is taken back.  There is a result for every
    record, and it fits the response format. *)
Class CommitLaws (P : Type) `{Producer P} (committed : P → Z) := {
  commit_grows d rs p outcome p' : Produce d rs p = (outcome, p') →
    committed p + successes outcome <= committed p';
  commit_results d rs p results p' : Produce d rs p = (Ok results, p') →
    length results = length rs ∧ Forall result_ok results;
}.

(** Nothing is written but what calls report. *)
Definition exact_commits {P} `{Producer P} (committed : P → Z) : Prop :=
  ∀ d rs p outcome p', Produce d rs p = (outcome, p') →
    committed p' = committed p + successes outcome.

(** The body [main] builds, and what it stands for. *)
Definition soak_body (opts : options) : string :=
  buildBody (Z.to_nat (o_RecordsPerRequest opts)) (Z.to_nat (o_PayloadBytes opts)) (o_Format opts).
Definition soak_records (opts : options) : list PRecord :=
  (λ i, soak_record (o_Topic opts) (o_Format opts) (Z.to_nat (o_PayloadBytes opts)) (Z.of_nat i))
    <$> seq 0 (Z.to_nat (o_RecordsPerRequest opts)).

Lemma decoded_length opts limits records : 0 <= o_RecordsPerRequest opts →
  decodeProduceRequest (o_Topic opts) (soak_body opts) (soak_format (o_Format opts)) limits None =
    Ok records →
  Z.of_nat (length records) = o_RecordsPerRequest opts.
Proof.
  intros Hn Hd. apply accepted_iff in Hd as (req&rrs&Hu&He&_&H2&_); [|apply soak_format_plain].
  unfold soak_body in Hu. rewrite Unmarshal_buildBody in Hu. injection Hu as <-.
  cbn in He. injection He as <-. apply Forall2_length in H2.
  rewrite <- H2, length_fmap, length_seq. lia.
Qed.

(** Without a response that has arrived in full there are no successes. *)
Lemma postOnce_unanswered send latency opts body :
  (∃ err, send (soak_request opts body) = DoFailed err) ∨
  (∃ status b err, send (soak_request opts body) = Responded status b (Some err)) ∨
  (∃ status b, send (soak_request opts body) = Responded status b None ∧ 300 <= status) →
  SuccessRecords (postOnce send latency opts body) = 0.
Proof.
  intros [(err&E)|[(status&b&err&E)|(status&b&E&Hs)]].
  1,2: unfold postOnce; by rewrite E.
  by destruct (postOnce_failed _ latency opts body status b E Hs) as (_&?&_).
Qed.

Section claims.
Context {P R : Type} `{HP : Producer P} `{HC : Codecs} `{HR : Registry R}.
Context (clock : nat → Z).
Context (time_UnmarshalJSON : string → option error) (time_MarshalJSON : nat → string).
Context (chunk : nat → nat).
Context (page : endpoint → Request → list raction) (redirect : string → Request → list raction).
Context (h : Handler).
Abbreviation World := (@World P R).
Abbreviation post :=
  (post clock time_UnmarshalJSON time_MarshalJSON chunk page redirect h).


Context (committed : P → Z) `{HL : !CommitLaws P committed}.

(** One request, whatever the proxy and the network make of it. *)
Lemma post_reports opts n (w : World) : ordinary (o_Topic opts) →
  0 <= o_RecordsPerRequest opts →
  let '(res, w') := post opts (soak_body opts) n w in
  0 <= SuccessRecords res ∧
  committed (w_producer w) + SuccessRecords res <= committed (w_producer w') ∧
  (n.1 = Answered → exact_commits committed →
   committed (w_producer w') = committed (w_producer w) + SuccessRecords res).
Proof.
  intros Ht Hn. unfold EndToEnd.post. destruct n as [net latency]. cbn [fst snd].
  pose proof (served_outcome clock time_UnmarshalJSON time_MarshalJSON chunk page redirect h
    opts (soak_body opts) w Ht) as Ho. cbv zeta in Ho.
  destruct (served _ _ _ _ _ _ _ _ w) as [x w1] eqn:Es. cbn [fst snd] in Ho.
  assert (committed (w_producer w) <= committed (w_producer w1)) as Hgrow.
  { destruct Ho as [[_ ->]|(rs&d&[results|err]&_&Hp&_)]; [done|..].
    all: apply commit_grows in Hp; cbn in Hp; lia. }
  destruct net as [|err|err|m err]; unfold exchanged; rewrite ?Es; cbn [snd].
  - destruct Ho as [[(status&b&->&Hst) ->]|(rs&d&[results|err]&Hd&Hp&Hx)].
    + rewrite (postOnce_unanswered _ latency opts (soak_body opts))
        by (right; right; exists status, b; split; [done|lia]).
      split_and!; intros; lia.
    + pose proof (commit_results _ _ _ _ _ Hp) as [Hl Hr]. pose proof (commit_grows _ _ _ _ _ Hp) as Hc.
      apply decoded_length in Hd; [|done].
      destruct (postOnce_counts (λ _, x) latency opts (soak_body opts) results
        zero_produceMetadata Hx Hr) as (_&_&Hs&_); [by rewrite Hl|].
      rewrite countResultStatus_filter in Hs. injection Hs as -> _. cbn in Hc.
      split_and!; [lia..|]. intros _ He. apply He in Hp. cbn in Hp. lia.
    + destruct Hx as (b&->). pose proof (error_status_range err).
      rewrite (postOnce_unanswered _ latency opts (soak_body opts))
        by (right; right; exists (produce_error_status err), b; split; [done|lia]).
      split; [done|]. split; [lia|]. intros _ He. apply He in Hp. cbn in Hp. lia.
  - rewrite (postOnce_unanswered _ latency opts (soak_body opts)) by eauto.
    split; [done|]. split; [lia|]. done.
  - rewrite (postOnce_unanswered _ latency opts (soak_body opts)) by eauto.
    split; [done|]. split; [lia|]. done.
  - rewrite (postOnce_unanswered _ latency opts (soak_body opts)).
    + split; [done|]. split; [lia|]. done.
    + assert (∃ status b, x = Responded status b None) as (status&b&->); [|eauto 6].
      destruct Ho as [[(status&b&->&_) _]|(rs&d&[results|err']&_&_&Hx)]; [eauto| |].
      * rewrite Hx. eauto.
      * destruct Hx as (b&->). eauto.
Qed.

Lemma soak_reports_committed opts (w : World) capacity n es s elapsed :
  ordinary (o_Topic opts) → 0 <= o_RecordsPerRequest opts →
  soak_run (post opts (soak_body opts)) capacity es (soak_start n w) = Some s →
  s_SuccessRecords (runSoak opts (sl_arrived s) elapsed) <=
    committed (w_producer (sl_world s)) - committed (w_producer w) ∧
  (soak_finished s →
   (∀ i net latency, SPost i (net, latency) ∈ es → net = Answered) →
   exact_commits committed →
   s_SuccessRecords (runSoak opts (sl_arrived s) elapsed) =
     committed (w_producer (sl_world s)) - committed (w_producer w)).
Proof.
  intros Ht Hn Hrun. rewrite runSoak_success. split.
  - assert (Forall (λ res, 0 <= SuccessRecords res) (results_of s) ∧
      committed (w_producer w) + zsum SuccessRecords (results_of s) <=
      committed (w_producer (sl_world s))) as [Hpos Hle].
    { refine (soak_run_invariant _ _ (λ _, True)
        (λ w' l, Forall (λ res, 0 <= SuccessRecords res) l ∧
           committed (w_producer w) + zsum SuccessRecords l <= committed (w_producer w'))
        _ _ es _ _ _ Hrun _); [| |done|].
      - intros w1 l l' ->. done.
      - intros d w1 l _ [H1 H2]. pose proof (post_reports opts d w1 Ht Hn) as Hp.
        destruct (post opts (soak_body opts) d w1) as [res w2]. destruct Hp as (H3&H4&_).
        cbn [fst snd]. split; [by constructor|]. cbn [zsum]. lia.
      - rewrite results_of_start. cbn. split; [constructor|lia]. }
    unfold results_of in Hpos, Hle. rewrite zsum_app in Hle.
    apply Forall_app in Hpos as [_ Hpos]. rewrite Forall_forall in Hpos.
    pose proof (zsum_nonneg SuccessRecords _ Hpos). lia.
  - intros Hf Hnet Herr. rewrite <- results_of_finished by done.
    assert (committed (w_producer w) + zsum SuccessRecords (results_of s) =
      committed (w_producer (sl_world s))); [|lia].
    refine (soak_run_invariant _ _ (λ d, d.1 = Answered)
      (λ w' l, committed (w_producer w) + zsum SuccessRecords l = committed (w_producer w'))
      _ _ es _ _ _ Hrun _).
    + intros w1 l l' Hl. by rewrite Hl.
    + intros d w1 l Hd H1. pose proof (post_reports opts d w1 Ht Hn) as Hp.
      destruct (post opts (soak_body opts) d w1) as [res w2]. destruct Hp as (_&_&H4).
      cbn [fst snd]. rewrite H4 by done. cbn [zsum]. lia.
    + intros i [net latency] Hi. by apply (Hnet i net latency).
    + rewrite results_of_start. cbn. lia.
Qed.

End claims.

(** ** A concrete run

    Two clients send to a proxy without tokens; one response is lost. *)
Module SoakSample.
Definition cfg : APIConfig :=
  {| MaxRequestBytes := 0; cfg_MaxRecords := 0; cfg_MaxRecordBytes := 0; cfg_MaxKeyBytes := 0;
     cfg_MaxHeaders := 0; cfg_MaxHeaderBytes := 0; AllowedTopics := ["t*"];
     ProduceTimeout := 0; BearerTokens := []; PprofEnable := false; ClusterID := "";
     RateLimitRequestsPerSecond := f64_zero; RateLimitRequestsBurst := 0;
     RateLimitBytesPerSecond := f64_zero; RateLimitBytesBurst := 0 |}.
Definition h : Handler := (NewHandlerWithSchema cfg None 0).1.1.

Definition opts : options :=
  {| o_URL := "http://proxy:8080"; o_Topic := "t/1"; o_Duration := 1; o_Warmup := 0;
     o_Clients := 2; o_RecordsPerRequest := 3; o_PayloadBytes := 4; o_Format := "json";
     o_Timeout := 1; o_MaxLatencySamples := 10;
     o_Thresholds := {| MaxFailureRate := f64_zero; MinRecordsPerSecond := f64_zero; MaxP99 := 0 |} |}.

Definition post_sample := post (H := Sample.producer) (H0 := Sample.codecs) (λ n, Z.of_nat n) (λ _, None)
  (λ _, "") (λ _, 3%nat) (λ _ _, []) (λ _ _, []) h opts (soak_body opts).

Definition events : list (soak_event (network * Z)) :=
  [SPoll 0; SPoll 1; SPost 1 (Answered, 5); SPost 0 (Unanswered (ENew "EOF"), 9); SSend 0; STimer;
   SSend 1; SPoll 0; SReceive; SPoll 1; SReceive].

(** Six records were written; the driver has seen the answer for three. *)
Example run_ex :
  (λ s, (length (w_producer (sl_world s)),
         s_SuccessRecords (runSoak opts (sl_arrived s) 1), s_FailedRecords (runSoak opts (sl_arrived s) 1)))
    <$> soak_run post_sample 8 events (soak_start 2 Sample.world) = Some (6%nat, 3, 3).
Proof. vm_compute. reflexivity. Qed.

#[export] Instance sample_commits :
  CommitLaws (H := Sample.producer) (list PRecord) (λ p, Z.of_nat (length p)).
Proof.
  assert (∀ l : list PRecord, Forall result_ok ((λ _, zero_Result) <$> l) ∧
    filter (λ r, resultFailed r = false) ((λ _, zero_Result) <$> l) = (λ _, zero_Result) <$> l)
    as Hl.
  { induction l as [|x l [IH1 IH2]]; [done|]. rewrite fmap_cons. split.
    - constructor; [by vm_compute|done].
    - rewrite filter_cons_True by done. by rewrite IH2. }
  split; intros d rs p o p'; cbn; intros [= <- <-]; destruct (Hl rs) as [H1 H2].
  - unfold successes. rewrite H2, length_fmap, length_app. lia.
  - by rewrite length_fmap.
Qed.
End SoakSample.


