(* ===== verification/FranzContract.v ===== *)
(** * The franz-go producer keeps the producer contract

    The handlers are verified against the interface [Producer]; here the actions
    of internal/producer/franz are made an implementation of it.  The state is
    the system of all requests together with everything that is still going to
    happen in it - callbacks, cancellations, other calls - in some order: a call
    of [Produce] enters its request into the system and lets things happen until
    that request has returned. *)

From S2P Require Import Prelude.
From S2P Require Import GoStrings.
From S2P Require Import GoErrors.
From S2P Require Import Producer.
From S2P Require Import Admission.
From S2P Require Import Franz.
From S2P Require Import ProduceSteps.
From S2P Require Import ProduceSafety.
From S2P Require Import ProduceCorrect.
From S2P Require Import Types.
From S2P Require Import TypesText.
From S2P Require Import EndToEnd.
Local Open Scope Z_scope.

(** ** The implementation *)

(** A system and the schedule of what happens next; an action that is not
    enabled when its turn comes does not happen. *)
Record franz := {
  fr_sys : sys;
  fr_schedule : list event;
  fr_pings : list (option error);     (* the answers of the broker *)
}.

Definition returned (r : nat) (s : sys) : option (res (list Result)) :=
  q ← s_reqs s !! r; match q_caller q with Returned outcome => Some outcome | _ => None end.

Section implementation.
(** [kgo.ErrClientClosed]. *)
Context (E : error).

Definition happen (s : sys) (e : event) : sys := default s (step E e s).

Fixpoint await (r : nat) (es : list event) (s : sys) : list event * sys :=
  match returned r s, es with
  | None, e :: es => await r es (happen s e)
  | _, _ => (es, s)
  end.

(** What the goroutine of a request still does when nothing else happens: the
    deadline of its context passes in the select. *)
Definition on_its_own (r n : nat) : list event :=
  Req r <$> [Enter; Acquire] ++ replicate n Submit ++
    [WaitDone; CtxDone (ESentinel ctxDeadlineExceeded); CallerCas; CallerRelease].

#[local] Instance in_memory_dec records : Decision (in_memory records).
Proof. unfold in_memory. apply _. Defined.

(** A batch that does not fit into memory does not come this far. *)
Definition franz_produce (records : list PRecord) (p : franz) : res (list Result) * franz :=
  if decide (in_memory records) then
    let r := length (s_reqs (fr_sys p)) in
    let '(schedule, s) := await r (fr_schedule p) (happen (fr_sys p) (Call records)) in
    let s := foldl happen s (on_its_own r (length records)) in
    (default (Err E) (returned r s),
     {| fr_sys := s; fr_schedule := schedule; fr_pings := fr_pings p |})
  else (Err (ENew "out of memory"), p).

(** [Ping]: a closed producer does not ask the broker. *)
Definition franz_ping (p : franz) : option error * franz :=
  if s_closed (fr_sys p) then (Some E, p)
  else (default None (head (fr_pings p)),
        {| fr_sys := fr_sys p; fr_schedule := fr_schedule p; fr_pings := tail (fr_pings p) |}).
End implementation.

(** The records Kafka acknowledged: callbacks without an error. *)
Definition acknowledged_result (r : Result) : Z := if resultFailed r then 0 else 1.
Definition acknowledged_request (q : request) : Z :=
  zsum (λ i, zsum acknowledged_result (cb_at q i)) (seq 0 (size q)).
Definition acknowledged (p : franz) : Z := zsum acknowledged_request (s_reqs (fr_sys p)).

(** ** Steps *)

Section contract.
Context (E : error) (mr mb : Z).
Context (Hmr : 0 < mr < 2 ^ 62) (Hmb : 0 < mb < 2 ^ 62).
Abbreviation happen := (happen E).
Abbreviation acks s := (zsum acknowledged_request (s_reqs s)).

(** The client calls back with values of its types and printable errors. *)
Definition event_ok (e : event) : Prop :=
  match e with
  | Req _ (CbWrite _ rec err) => result_ok (callback_result rec err)
  | Call records => in_memory records
  | _ => True
  end.

Definition results_ok (q : request) : Prop := ∀ i, Forall result_ok (cb_at q i).
Definition good_sys (s : sys) : Prop := sys_inv mr mb s ∧ Forall results_ok (s_reqs s).

Lemma ack_nonneg l : 0 <= zsum acknowledged_result l.
Proof. apply zsum_nonneg. intros r _. unfold acknowledged_result. destruct (resultFailed r); lia. Qed.

Lemma request_ack_nonneg q : 0 <= acknowledged_request q.
Proof. apply zsum_nonneg. intros. apply ack_nonneg. Qed.

(** What one action of a request does to its callbacks. *)
Lemma req_step_acks closed e q a q' a' p r :
  req_inv q → results_ok q → event_ok (Req r e) → req_step E closed e q a = Some (q', a', p) →
  results_ok q' ∧ acknowledged_request q <= acknowledged_request q'.
Proof.
  intros Hi Hok He Hs. pose proof (req_step_records E _ _ _ _ _ _ _ Hs) as Hrec.
  assert (∀ i, cb_at q' i = cb_at q i ++ outcome r i (Req r e)) as Hcb
    by (intros i; by eapply step_cb_at).
  split.
  - intros i. rewrite Hcb. apply Forall_app. split; [apply Hok|].
    rewrite outcome_same. destruct e; try constructor. case_decide; [|constructor].
    by apply Forall_singleton.
  - unfold acknowledged_request, size. rewrite Hrec.
    induction (seq 0 (length (q_records q))) as [|i l IH]; cbn [zsum]; [done|].
    rewrite Hcb, zsum_app. pose proof (ack_nonneg (outcome r i (Req r e))). lia.
Qed.

(** Everything that happens keeps the invariant; a request that exists keeps
    its batch, and the acknowledgements of the others do not decrease. *)
Lemma happen_good s e r q : good_sys s → event_ok e → s_reqs s !! r = Some q →
  good_sys (happen s e) ∧
  ∃ q', s_reqs (happen s e) !! r = Some q' ∧ q_records q' = q_records q ∧
    acks s - acknowledged_request q <= acks (happen s e) - acknowledged_request q'.
Proof.
  intros [Hinv Hok] He Hr. unfold FranzContract.happen. destruct (step E e s) as [s'|] eqn:Hs; cbn [default from_option id].
  2:{ split; [done|]. exists q. split_and!; [done..|lia]. }
  assert (sys_inv mr mb s') as Hinv'.
  { eapply sys_inv_step; [exact Hmr|exact Hmb|exact Hinv| |exact Hs]. by intros records ->. }
  destruct e as [records|r' e|]; cbn [step] in Hs.
  - injection Hs as <-. split.
    + split; [done|]. apply Forall_app. split; [done|]. apply Forall_singleton. intros i. constructor.
    + exists q. cbn. split_and!; [by apply lookup_app_l_Some|done|].
      rewrite zsum_app. cbn [zsum].
      pose proof (request_ack_nonneg (Build_request records None [] Entry)). lia.
  - destruct (s_reqs s !! r') as [q0|] eqn:Hr'; [|done]. cbn [mbind option_bind] in Hs.
    destruct (req_step E (s_closed s) e q0 (s_admit s)) as [[[q1 a1] p1]|] eqn:Hstep; [|done].
    injection Hs as <-. cbn [fst snd s_reqs] in *.
    destruct (req_step_acks _ _ _ _ _ _ _ r' (Forall_lookup_1 _ _ _ _ (inv_reqs _ _ _ Hinv) Hr')
      (Forall_lookup_1 _ _ _ _ Hok Hr') He Hstep) as [Hok1 Hack].
    split; [split; [done|by apply Forall_insert]|].
    cbn [s_reqs]. rewrite (zsum_insert _ _ _ _ q1 Hr').
    destruct (decide (r' = r)) as [->|Hne].
    + rewrite Hr in Hr'. injection Hr' as <-. exists q1. split_and!.
      * apply list_lookup_insert_eq. by eapply lookup_lt_Some.
      * by eapply req_step_records.
      * lia.
    + exists q. rewrite list_lookup_insert_ne by done. split_and!; [done..|lia].
  - injection Hs as <-. split; [done|]. exists q. cbn. split_and!; [done..|lia].
Qed.

(** The same of any number of actions. *)
Lemma happens_good es s r q : good_sys s → Forall event_ok es → s_reqs s !! r = Some q →
  good_sys (foldl happen s es) ∧
  ∃ q', s_reqs (foldl happen s es) !! r = Some q' ∧ q_records q' = q_records q ∧
    acks s - acknowledged_request q <= acks (foldl happen s es) - acknowledged_request q'.
Proof.
  intros Hs Hes. revert s q Hs. induction Hes as [|e es He _ IH]; intros s q Hs Hr; cbn [foldl].
  { split; [done|]. exists q. split_and!; [done..|lia]. }
  destruct (happen_good s e r q Hs He Hr) as (Hs1&q1&Hr1&Hq1&Ha1).
  destruct (IH (happen s e) q1 Hs1 Hr1) as (Hs2&q2&Hr2&Hq2&Ha2).
  split; [done|]. exists q2. split_and!; [done|congruence|lia].
Qed.

(** Waiting is letting a part of the schedule happen. *)
Lemma await_split r es : ∀ s, ∃ es1, es = es1 ++ (await E r es s).1 ∧
  (await E r es s).2 = foldl happen s es1.
Proof.
  induction es as [|e es IH]; intros s; cbn [await].
  { exists []. by destruct (returned r s). }
  destruct (returned r s); [by exists []|].
  destruct (IH (happen s e)) as (es1&H1&H2). exists (e :: es1). cbn. by rewrite <- H1.
Qed.

(** ** On its own a request returns *)

(** How far the goroutine of a request of [n] records is. *)
Definition progress (n : nat) (c : caller) : nat :=
  match c with
  | Entry => 0
  | Admitting => 1
  | Submitting i => 2 + i
  | Cancelled _ => 3 + n
  | CReleasing _ => 4 + n
  | Returned _ => 5 + n
  end.

(** The action that takes it further from each point. *)
Definition next_action (n k : nat) : req_event :=
  if (k =? 0)%nat then Enter
  else if (k =? 1)%nat then Acquire
  else if (k <? 2 + n)%nat then Submit
  else if (k =? 2 + n)%nat then CtxDone (ESentinel ctxDeadlineExceeded)
  else if (k =? 3 + n)%nat then CallerCas
  else CallerRelease.

Lemma next_submit n i : (i < n)%nat → next_action n (2 + i) = Submit.
Proof. intros Hi. unfold next_action. cbn [Nat.add Nat.eqb]. by destruct (Nat.ltb_spec (S (S i)) (S (S n))); [|lia]. Qed.

Lemma next_late n k : next_action n (2 + n + k) =
  match k with
  | O => CtxDone (ESentinel ctxDeadlineExceeded) | 1%nat => CallerCas | _ => CallerRelease
  end.
Proof.
  unfold next_action. cbn [Nat.add Nat.eqb].
  destruct (Nat.ltb_spec (S (S (n + k))) (S (S n))); [lia|].
  destruct (Nat.eqb_spec (n + k) n), (Nat.eqb_spec (n + k) (S n)); destruct k as [|[|k]]; try lia; done.
Qed.

Definition submitting_in (q : request) : Prop :=
  match q_caller q with Submitting i => (i <= size q)%nat | _ => True end.

Lemma req_inv_submitting q : req_inv q → submitting_in q.
Proof.
  intros [_ Hi]. unfold submitting_in. destruct (q_caller q) eqn:Hq; try done.
  destruct (q_state q) as [st|].
  - pose proof (i_caller _ _ Hi) as Hc. unfold caller_inv in Hc. by rewrite Hq in Hc.
  - destruct Hi as [_ Hc]. by rewrite Hq in Hc.
Qed.

(** No action takes it back. *)
Lemma progress_mono closed e q a q' a' p : submitting_in q →
  req_step E closed e q a = Some (q', a', p) →
  (progress (size q) (q_caller q) <= progress (size q) (q_caller q'))%nat.
Proof.
  unfold submitting_in, req_step. intros Hs H.
  destruct e, (q_caller q) eqn:Hq; try discriminate H;
    (destruct (q_state q) as [st|]; cbn [mbind option_bind] in H; try discriminate H);
    step_cases H; injection H as <- <- <-;
    cbn [q_caller set_caller set_cb set_state progress]; rewrite ?Hq; cbn [progress]; try lia;
    repeat case_match; cbn [progress]; lia.
Qed.

(** The next action is always enabled, and takes it on. *)
Lemma progress_next closed q a : req_inv q → (progress (size q) (q_caller q) < 5 + size q)%nat →
  ∃ q' a' p,
    req_step E closed (next_action (size q) (progress (size q) (q_caller q))) q a =
      Some (q', a', p) ∧
    (progress (size q) (q_caller q) < progress (size q) (q_caller q'))%nat.
Proof.
  intros Hinv Hlt. pose proof (req_inv_submitting q Hinv) as Hsub. destruct Hinv as [_ Hi].
  unfold submitting_in in Hsub. destruct (q_caller q) as [| |i|err|err|o] eqn:Hq; cbn [progress] in *; [..|lia].
  - eexists _, _, _. split; [cbn; by rewrite Hq|]. cbn. repeat case_match; cbn; lia.
  - change (next_action (size q) 1) with Acquire. unfold req_step. rewrite Hq.
    destruct (TryAcquire_some a (Z.of_nat (size q)) (batch_bytes (q_records q))) as (a'&ok&->).
    destruct ok; eexists _, _, _; (split; [done|]); cbn; lia.
  - destruct (Nat.lt_ge_cases i (size q)) as [Hi'|Hge].
    + rewrite next_submit by done. unfold req_step. rewrite Hq.
      destruct (Nat.ltb_spec i (size q)); [|lia]. eexists _, _, _. split; [done|]. cbn. lia.
    + assert (i = size q) as -> by lia. pose proof (next_late (size q) 0) as En.
      rewrite Nat.add_0_r in En. rewrite En. unfold req_step.
      rewrite Hq, Nat.eqb_refl. eexists _, _, _. split; [done|]. cbn. lia.
  - replace (3 + size q)%nat with (2 + size q + 1)%nat by lia. rewrite next_late. unfold req_step.
    rewrite Hq. destruct (q_state q) as [st|]; [|by destruct Hi as [_ Hi]; rewrite Hq in Hi].
    cbn [mbind option_bind]. destruct (cas_released st) as [st' []];
      eexists _, _, _; (split; [done|]); cbn; lia.
  - replace (4 + size q)%nat with (2 + size q + 2)%nat by lia. rewrite next_late. unfold req_step.
    rewrite Hq. destruct (q_state q) as [st|]; [|by destruct Hi as [_ Hi]; rewrite Hq in Hi].
    cbn [mbind option_bind].
    destruct (Release_some a (st_records st) (st_bytes st)) as [a' Ha]. rewrite Ha.
    cbn [mbind option_bind]. eexists _, _, _. split; [done|]. cbn. lia.
Qed.

(** One action of request [r] in the system. *)
Lemma happen_req s r q e : s_reqs s !! r = Some q →
  s_reqs (happen s (Req r e)) !! r = Some match req_step E (s_closed s) e q (s_admit s) with
                                          | Some (q', _, _) => q'
                                          | None => q
                                          end.
Proof.
  intros Hr. unfold FranzContract.happen. cbn [step]. rewrite Hr. cbn [mbind option_bind].
  destruct (req_step E (s_closed s) e q (s_admit s)) as [[[q' a'] p]|]; cbn; [|done].
  apply list_lookup_insert_eq. by eapply lookup_lt_Some.
Qed.

(** At least at point [k] of [n]. *)
Definition at_least (n k : nat) (r : nat) (s : sys) : Prop :=
  good_sys s ∧ ∃ q, s_reqs s !! r = Some q ∧ size q = n ∧ (k <= progress n (q_caller q))%nat.

Lemma at_least_step n k r s e : event_ok (Req r e) → at_least n k r s →
  at_least n k r (happen s (Req r e)) ∧
  (e = next_action n k → (k < 5 + n)%nat → at_least n (S k) r (happen s (Req r e))).
Proof.
  intros He (Hs&q&Hr&Hn&Hk). destruct (happen_good s (Req r e) r q Hs He Hr) as (Hs'&q'&Hr'&Hq'&_).
  assert (size q' = n) as Hn' by (unfold size in *; congruence).
  pose proof (happen_req s r q e Hr) as Hr2. rewrite Hr' in Hr2. injection Hr2 as Hr2.
  assert (req_inv q) as Hi by (destruct Hs as [[_ Hi _ _ _ _] _]; by eapply Forall_lookup_1).
  assert (progress n (q_caller q) <= progress n (q_caller q'))%nat as Hmono.
  { destruct (req_step E (s_closed s) e q (s_admit s)) as [[[q1 a1] p1]|] eqn:E1; subst q'; [|done].
    apply progress_mono in E1; [|by apply req_inv_submitting]. by rewrite Hn in E1. }
  split; [split; [done|]; exists q'; split_and!; [done..|lia]|].
  intros -> Hlt. split; [done|]. exists q'. split_and!; [done..|].
  destruct (Nat.lt_ge_cases k (progress n (q_caller q))) as [|Heq]; [lia|].
  assert (progress n (q_caller q) = k) as Hpk by lia.
  destruct (progress_next (s_closed s) q (s_admit s) Hi) as (q1&a1&p1&E1&Hlt1);
    [rewrite Hn; lia|]. rewrite Hn, Hpk in E1, Hlt1. rewrite E1 in Hr2. subst q'. lia.
Qed.

Lemma at_least_next n k r s : (k < 5 + n)%nat → at_least n k r s →
  at_least n (S k) r (happen s (Req r (next_action n k))).
Proof.
  intros Hk Hs. apply at_least_step; [|done..].
  unfold next_action. repeat case_match; exact I.
Qed.

(** Submitting all the records. *)
Lemma at_least_submits n r m : ∀ j s, (j + m = n)%nat → at_least n (2 + j) r s →
  at_least n (2 + n) r (foldl happen s (Req r <$> replicate m Submit)).
Proof.
  induction m as [|m IH]; intros j s Hj Hs.
  { assert (j = n) as -> by lia. exact Hs. }
  cbn [replicate fmap list_fmap foldl]. apply (IH (S j)); [lia|].
  apply at_least_next in Hs; [|lia]. by rewrite next_submit in Hs by lia.
Qed.

Lemma on_its_own_returns n r s : at_least n 0 r s →
  good_sys (foldl happen s (on_its_own r n)) ∧
  ∃ outcome, returned r (foldl happen s (on_its_own r n)) = Some outcome.
Proof.
  intros Hs. assert (at_least n (5 + n) r (foldl happen s (on_its_own r n))) as (Hg&q&Hr&Hn&Hp).
  { unfold on_its_own. rewrite !fmap_app, !foldl_app. cbn [fmap list_fmap foldl].
    apply at_least_next in Hs; [|lia]. apply at_least_next in Hs; [|lia].
    apply (at_least_submits n r n 0) in Hs; [|lia].
    pose proof (next_late n 0) as N0. pose proof (next_late n 1) as N1.
    pose proof (next_late n 2) as N2. rewrite Nat.add_0_r in N0.
    replace (2 + n + 1)%nat with (3 + n)%nat in N1 by lia.
    replace (2 + n + 2)%nat with (4 + n)%nat in N2 by lia.
    apply (at_least_step n (2 + n) r _ WaitDone I) in Hs as [Hs _].
    apply at_least_next in Hs; [|lia]. rewrite N0 in Hs.
    apply at_least_next in Hs; [|lia]. change (S (2 + n)) with (3 + n)%nat in Hs. rewrite N1 in Hs.
    apply at_least_next in Hs; [|lia]. change (S (3 + n)) with (4 + n)%nat in Hs. by rewrite N2 in Hs. }
  split; [done|]. unfold returned. rewrite Hr. cbn [mbind option_bind].
  pose proof (req_inv_submitting q) as Hsub.
  destruct (q_caller q) as [| |i|err|err|o] eqn:Hq; cbn [progress] in Hp; try lia; [|by eexists].
  exfalso. assert (req_inv q) as Hi by (destruct Hg as [[_ Hi _ _ _ _] _]; by eapply Forall_lookup_1).
  specialize (Hsub Hi). unfold submitting_in in Hsub. rewrite Hq in Hsub. lia.
Qed.

(** ** The contract *)

Definition good (p : franz) : Prop :=
  good_sys (fr_sys p) ∧ Forall event_ok (fr_schedule p).

(** What a request that returned results has: a result of its own for every
    record, each from the callback of that record. *)
Lemma returned_results q results : req_inv q → results_ok q →
  q_caller q = Returned (Ok results) →
  length results = size q ∧ Forall result_ok results ∧
  successes (Ok results) = acknowledged_request q.
Proof.
  intros Hi Hok Hret. destruct (returned_slots q results Hi Hret) as [Hl Hs].
  split; [done|]. split.
  - apply Forall_lookup. intros i r Hr. specialize (Hok i). rewrite (Hs i r Hr) in Hok.
    exact (proj1 (Forall_singleton _ _) Hok).
  - unfold successes, acknowledged_request. rewrite <- Hl. clear Hi Hok Hret Hl.
    assert (∀ l j, (∀ i r, l !! i = Some r → cb_at q (j + i) = [r]) →
      Z.of_nat (length (filter (λ r, resultFailed r = false) l)) =
      zsum (λ i, zsum acknowledged_result (cb_at q i)) (seq j (length l))) as H.
    { induction l as [|r l IH]; intros j Hj; [done|]. cbn [length seq zsum].
      rewrite <- (IH (S j)).
      - rewrite <- (Nat.add_0_r j) at 1. rewrite (Hj 0%nat r) by done. rewrite filter_cons. cbn [zsum].
        unfold acknowledged_result. destruct (resultFailed r);
          [rewrite decide_False by done|rewrite decide_True by done; cbn [length]]; lia.
      - intros i r' Hr'. rewrite Nat.add_succ_comm. by apply Hj. }
    apply (H results 0%nat). intros i r. apply Hs.
Qed.

Lemma franz_produce_contract records p outcome p' : good p →
  franz_produce E records p = (outcome, p') →
  good p' ∧ acknowledged p + successes outcome <= acknowledged p' ∧
  ∀ results, outcome = Ok results → length results = length records ∧ Forall result_ok results.
Proof.
  intros [Hg Hes]. unfold franz_produce. destruct (decide (in_memory records)) as [Hm|].
  2:{ intros [= <- <-]. cbn. split_and!; [done|lia|done]. }
  set (r := length (s_reqs (fr_sys p))). set (s0 := happen (fr_sys p) (Call records)).
  assert (s_reqs s0 !! r = Some (Build_request records None [] Entry)) as Hr0.
  { unfold s0, FranzContract.happen. cbn. by rewrite lookup_app_r, Nat.sub_diag by done. }
  assert (good_sys s0 ∧ acks s0 = acknowledged p) as [Hg0 Ha0].
  { destruct Hg as [Hinv Hok]. split.
    - split; [|apply Forall_app; split; [done|]; apply Forall_singleton; intros i; constructor].
      apply (sys_inv_step E mr mb Hmr Hmb (fr_sys p) (Call records)); [done| |reflexivity].
      by intros ? [= <-].
    - unfold s0, FranzContract.happen, acknowledged. cbn. rewrite zsum_app. cbn [zsum].
      assert (acknowledged_request (Build_request records None [] Entry) = 0) as ->; [|lia].
      unfold acknowledged_request. by apply zsum_zero. }
  destruct (await_split r (fr_schedule p) s0) as (es1&He1&Hs1).
  destruct (await E r (fr_schedule p) s0) as [es s1]. cbn [fst snd] in *. subst s1.
  rewrite He1 in Hes. apply Forall_app in Hes as [Hes1 Hes].
  destruct (happens_good es1 s0 r _ Hg0 Hes1 Hr0) as (Hg1&q1&Hr1&Hq1&Ha1).
  destruct (on_its_own_returns (length records) r (foldl happen s0 es1)) as (Hg2&o&Ho).
  { split; [done|]. exists q1. split_and!; [done|by unfold size; rewrite Hq1|lia]. }
  assert (Forall event_ok (on_its_own r (length records))) as Hown.
  { apply Forall_fmap. rewrite !Forall_app. split_and!; try by repeat constructor.
    by apply Forall_replicate. }
  destruct (happens_good _ _ r q1 Hg1 Hown Hr1) as (_&q2&Hr2&Hq2&Ha2).
  set (s2 := foldl happen (foldl happen s0 es1) (on_its_own r (length records))) in *.
  intros [= <- <-]. rewrite Ho. cbn [default from_option id].
  assert (acknowledged_request (Build_request records None [] Entry) = 0) as Hz
    by (unfold acknowledged_request; by apply zsum_zero).
  unfold returned in Ho. rewrite Hr2 in Ho. cbn [mbind option_bind] in Ho.
  destruct (q_caller q2) as [| | | | |o'] eqn:Hc; try done. injection Ho as ->.
  assert (req_inv q2 ∧ results_ok q2) as [Hi2 Hok2].
  { destruct Hg2 as [[_ Hi _ _ _ _] Hok]. split; by eapply Forall_lookup_1. }
  split; [done|]. unfold acknowledged at 2. cbn [fr_sys]. rewrite <- Ha0.
  destruct o as [results|err].
  - destruct (returned_results q2 results Hi2 Hok2 Hc) as (Hl&Hr&Hs). rewrite Hs. split; [lia|].
    intros ? [= <-]. split; [|done]. cbn in Hq1. unfold size in Hl. congruence.
  - cbn [successes]. pose proof (request_ack_nonneg q2). split; [lia|done].
Qed.

Lemma franz_ping_good p : good p → good (franz_ping E p).2.
Proof. intros Hp. unfold franz_ping. by destruct (s_closed (fr_sys p)). Qed.
End contract.
