(* ===== verification/FranzInstance.v ===== *)
(** * The franz-go producer under the handlers

    The implementation of FranzContract.v as an instance of the interface
    [Producer] and its laws, and with it the whole chain from the soak driver
    through the proxy to the callbacks of the Kafka client. *)

From S2P Require Import Prelude.
From S2P Require Import GoStrings.
From S2P Require Import GoErrors.
From S2P Require Import Paths.
From S2P Require Import Producer.
From S2P Require Import Admission.
From S2P Require Import Types.
From S2P Require Import TypesText.
From S2P Require Import SchemaTypes.
From S2P Require Import SchemaRegistry.
From S2P Require Import SchemaEncoder.
From S2P Require Import Handler.
From S2P Require Import HandlerFacts.
From S2P Require Import Routes.
From S2P Require Import Soak.
From S2P Require Import SoakLoad.
From S2P Require Import EndToEnd.
From S2P Require Import Franz.
From S2P Require Import ProduceSteps.
From S2P Require Import ProduceSafety.
From S2P Require Import ProduceCorrect.
From S2P Require Import FranzContract.
Local Open Scope Z_scope.

(** ** The instance *)

Section instance.
Context {E : error} {mr mb : Z} {Hmr : 0 < mr < 2 ^ 62} {Hmb : 0 < mb < 2 ^ 62}.

(** A producer whose system is reachable in kind and whose future is one the
    client can bring about. *)
Definition good_franz : Type := {p : franz | good mr mb p}.
Definition franz_of (p : good_franz) : franz := `p.

Definition produced_good records (p : good_franz) : good mr mb (franz_produce E records (`p)).2 :=
  proj1 (franz_produce_contract E mr mb Hmr Hmb records (`p) _ _ (proj2_sig p)
           (surjective_pairing _)).

#[export] Instance franz_producer : Producer good_franz := {|
  Produce _ records p :=
    ((franz_produce E records (`p)).1, (franz_produce E records (`p)).2 ↾ produced_good records p);
  Ping p := ((franz_ping E (`p)).1, (franz_ping E (`p)).2 ↾ franz_ping_good E mr mb _ (proj2_sig p));
|}.

Lemma franz_call deadline records (p p' : good_franz) outcome :
  Produce deadline records p = (outcome, p') →
  acknowledged (`p) + successes outcome <= acknowledged (`p') ∧
  ∀ results, outcome = Ok results → length results = length records ∧ Forall result_ok results.
Proof.
  intros [= <- <-]. by apply (franz_produce_contract E mr mb Hmr Hmb records (`p) _ _ (proj2_sig p)
    (surjective_pairing _)).
Qed.

#[export] Instance franz_laws : ProducerLaws good_franz.
Proof. intros d rs p results p' Hp. by apply (franz_call d rs p p' (Ok results)). Qed.

#[export] Instance franz_commits : CommitLaws good_franz (λ p, acknowledged (franz_of p)).
Proof.
  split.
  - intros d rs p outcome p' Hp. by apply (franz_call d rs p p' outcome).
  - intros d rs p results p' Hp. by apply (franz_call d rs p p' (Ok results)).
Qed.

End instance.

(** ** The whole chain

    Driver, proxy and Kafka client together: the records the soak driver
    reports as successful were acknowledged by Kafka. *)
Lemma soak_against_franz {E mr mb Hmr Hmb} {R : Type} `{Codecs} `{Registry R}
    clock time_UnmarshalJSON time_MarshalJSON chunk page redirect h opts
    (w : @World (@good_franz mr mb) R) capacity n es s elapsed :
  ordinary (o_Topic opts) → 0 <= o_RecordsPerRequest opts →
  soak_run (post (H := @franz_producer E mr mb Hmr Hmb) clock time_UnmarshalJSON time_MarshalJSON
              chunk page redirect h opts (soak_body opts)) capacity es (soak_start n w) = Some s →
  s_SuccessRecords (runSoak opts (sl_arrived s) elapsed) <=
    acknowledged (franz_of (w_producer (sl_world s))) - acknowledged (franz_of (w_producer w)).
Proof.
  intros Ht Hn Hrun.
  exact (proj1 (soak_reports_committed (HP := @franz_producer E mr mb Hmr Hmb) _ _ _ _ _ _ h
    (λ p : good_franz, acknowledged (franz_of p)) opts w capacity n es s elapsed Ht Hn Hrun)).
Qed.

(** ** A concrete call: the callbacks arrive in the opposite order. *)
Module FranzSample.
Definition schedule : list event :=
  [Req 0 Enter; Req 0 Acquire; Req 0 Submit; Req 0 Submit; Req 0 (CbWrite 1 (rec_at 3 101) None);
   Req 0 (CbAdd 1); Req 0 (CbWrite 0 None (Some (ENew "not leader"))); Req 0 (CbAdd 0);
   Req 0 (CbCas 0); Req 0 (CbRelease 0); Req 0 (CbClose 0)].
Definition start : franz :=
  {| fr_sys := init 10 100; fr_schedule := schedule; fr_pings := [] |}.

Lemma start_good : good 10 100 start.
Proof.
  split; [split; [apply sys_inv_init; lia|constructor]|].
  unfold start, schedule. cbn [fr_schedule].
  repeat apply Forall_cons_2; try exact I; [by vm_compute..|constructor].
Qed.

Definition producer : @good_franz 10 100 := start ↾ start_good.

(** One record is acknowledged, one is not; a second call, with nothing left to
    happen, ends with its deadline. *)
Example produce_ex :
  let '(outcome, p) := franz_produce client_closed [one_record; one_record] start in
  (outcome, acknowledged p, (franz_produce client_closed [one_record] p).1) =
  (Ok [Build_Result 0 0 (Some 50002) (Some (ENew "not leader")); Build_Result 3 101 None None], 1,
   Err (ESentinel ctxDeadlineExceeded)).
Proof. vm_compute. reflexivity. Qed.
End FranzSample.

