(* ===== verification/Bench.v ===== *)
(** * cmd/bench-produce/main.go

    The benchmark driver: its options, the load of one scenario with its bound
    on the number of requests, the results, and the comparison of targets.
    The HTML report and [main] are in HtmlReport.v. *)

From stdpp Require Import sorting.
From S2P Require Import Prelude.
From S2P Require Import GoStrings.
From S2P Require Import Strconv.
From S2P Require Import GoErrors.
From S2P Require Import Json.
From S2P Require Import Base64.
From S2P Require Import Url.
From S2P Require Import GoFloat.
From S2P Require Import Config.
From S2P Require Import RateLimit.
From S2P Require Import GoFmt.
From S2P Require Import Flag.
From S2P Require Import Handler.
From S2P Require Import Main.
From S2P Require Soak.
From coqutil Require Import Datatypes.RecordSetters.
Local Open Scope Z_scope.

(** ** Options *)

Record targetSpec := { t_Name : string; t_URL : string }.

Record scenarioSpec := {
  PayloadBytes : Z;
  RecordsPerRequest : Z;
  Clients : Z;
  Format : string;
  Compression : string;
  Acks : string;
}.

Record capacityConfig := { TargetRecordsPerSecond : float64; Headroom : float64 }.

Record benchOptions := {
  bo_Topic : string;
  bo_Duration : Z;
  bo_Requests : Z;
  bo_Timeout : Z;
  bo_MaxSamples : Z;
  bo_KeyPrefix : string;
  bo_Targets : list targetSpec;
  bo_Scenarios : list scenarioSpec;
  bo_HTMLPath : string;
  bo_Suite : bool;
  bo_GeneratedAt : string;       (* the time, as RFC 3339 prints it *)
  bo_Capacity : capacityConfig;
}.

Definition splitCSV (v : string) : list string :=
  if String.eqb (TrimSpace v) "" then []
  else filter (λ p, p ≠ "") (TrimSpace <$> Split v ",").

Definition parseFormat (v : string) : res string := Soak.parseFormat v.
Definition contentTypeForFormat (format : string) : string := Soak.contentTypeForFormat format.

(** [strings.ReplaceAll(s, " ", "")]. *)
Fixpoint drop_blanks (s : string) : string :=
  match s with
  | EmptyString => EmptyString
  | String c s => if Ascii.eqb c " " then drop_blanks s else String c (drop_blanks s)
  end.

(** The unit suffixes, in the order in which they are tried. *)
Definition size_unit (raw : string) : Z * string :=
  if HasSuffix raw "KIB" then (1024, TrimSuffix raw "KIB")
  else if HasSuffix raw "KB" then (1000, TrimSuffix raw "KB")
  else if HasSuffix raw "MIB" then (1024 * 1024, TrimSuffix raw "MIB")
  else if HasSuffix raw "MB" then (1000 * 1000, TrimSuffix raw "MB")
  else if HasSuffix raw "B" then (1, TrimSuffix raw "B")
  else (1, raw).

Definition parseByteSize (v : string) : res Z :=
  let raw := drop_blanks (ToUpper (TrimSpace v)) in
  if String.eqb raw "" then Err (ENew "empty size")
  else
    let '(multiplier, raw) := size_unit raw in
    match Atoi raw with
    | None => Err (ENew (Quote v +:+ " is not a valid byte size"))
    | Some n => Ok (i64 (n * multiplier))
    end.

(** A list whose elements are all parsed, or the first error. *)
Fixpoint parse_all {A} (f : string → res A) (parts : list string) : res (list A) :=
  match parts with
  | [] => Ok []
  | p :: parts => let? x := f p in let? xs := parse_all f parts in Ok (x :: xs)
  end.

Definition positiveInts (l : list Z) : res (list Z) :=
  if (length l =? 0)%nat then Err (ENew "at least one value is required")
  else if existsb (λ n, n <=? 0) l then Err (ENew "values must be positive")
  else Ok l.

Definition parseByteSizeList (v : string) : res (list Z) :=
  let? out := parse_all parseByteSize (splitCSV v) in positiveInts out.

Definition parse_int (part : string) : res Z :=
  match Atoi part with
  | None => Err (ENew (Quote part +:+ " is not an integer"))
  | Some n => Ok n
  end.

Definition parseIntList (v : string) : res (list Z) :=
  let? out := parse_all parse_int (splitCSV v) in positiveInts out.

Definition parseLabelList (v : string) : list string :=
  match splitCSV v with [] => ["runtime"] | parts => parts end.

Definition parseFormatList (v : string) : res (list string) :=
  match splitCSV v with [] => Ok ["json"] | parts => parse_all parseFormat parts end.

Definition firstLabel (v : string) : string := hd "" (parseLabelList v).

Definition formatBytes (n : Z) : string :=
  if (Z.rem n 1024 =? 0) && (1024 * 1024 <=? n) then Itoa (Z.quot n (1024 * 1024)) +:+ "MiB"
  else if (Z.rem n 1024 =? 0) && (1024 <=? n) then Itoa (Z.quot n 1024) +:+ "KiB"
  else Itoa n +:+ "B".

Definition scenarioLabel (s : scenarioSpec) : string :=
  "format=" +:+ Format s +:+ " payload=" +:+ formatBytes (PayloadBytes s) +:+
  " records/request=" +:+ Itoa (RecordsPerRequest s) +:+ " clients=" +:+ Itoa (Clients s) +:+
  " compression=" +:+ Compression s +:+ " acks=" +:+ Acks s.

(** The nested loops of the suite. *)
Definition suite_scenarios (payloads counts clients : list Z)
    (formats compressions acks : list string) : list scenarioSpec :=
  payload ← payloads; recs ← counts; n ← clients; format ← formats;
  compression ← compressions; a ← acks;
  [{| PayloadBytes := payload; RecordsPerRequest := recs; Clients := n; Format := format;
      Compression := compression; Acks := a |}].

(** The variables of the flags but [targets]. *)
Record bench_flags := {
  b_url : string; b_confluentURL : string; b_topic : string; b_duration : Z;
  b_clients : Z; b_records : Z; b_payloadBytes : Z; b_requests : Z; b_timeout : Z;
  b_maxSamples : Z; b_keyPrefix : string; b_format : string; b_htmlPath : string;
  b_suite : bool; b_payloadSizes : string; b_recordsPerRequest : string;
  b_clientCounts : string; b_formats : string; b_compressionLabels : string;
  b_acksLabels : string; b_compressionLabel : string; b_acksLabel : string;
  b_capacityTarget : float64; b_capacityHeadroom : float64;
}.

Definition default_bench_flags : bench_flags := {|
  b_url := "http://localhost:8080"; b_confluentURL := ""; b_topic := "orders";
  b_duration := 30 * Second; b_clients := 32; b_records := 10; b_payloadBytes := 512;
  b_requests := 0; b_timeout := 30 * Second; b_maxSamples := 1000000; b_keyPrefix := "";
  b_format := "json"; b_htmlPath := ""; b_suite := false;
  b_payloadSizes := "128,512,1KB,10KB"; b_recordsPerRequest := "1,10,100,1000";
  b_clientCounts := "4,16,64,256"; b_formats := "json"; b_compressionLabels := "runtime";
  b_acksLabels := "runtime"; b_compressionLabel := "runtime"; b_acksLabel := "runtime";
  b_capacityTarget := f64_of_Z 1000000;
  b_capacityHeadroom := f64_div (f64_of_Z 3) (f64_of_Z 10) |}.

Section options.
Context (url_Parse : string → res parsedURL).
(** [time.Now()]: in nanoseconds and as RFC 3339 prints it. *)
Context (now_nanos : Z) (now_text : string).

Definition parseTarget (v : string) : res targetSpec :=
  let '(name, rawURL, ok) := Cut v "=" in
  let '(name, rawURL) :=
    if (ok : bool) then (name, rawURL) else ("target" +:+ Itoa now_nanos, v) in
  let name := TrimSpace name in
  let rawURL := TrimSpace rawURL in
  if String.eqb name "" || String.eqb rawURL "" then Err (ENew "target must be name=url")
  else if negb (Soak.absolute_url url_Parse rawURL)
  then Err (ENew ("target " +:+ Quote v +:+ " must be an absolute URL"))
  else Ok {| t_Name := name; t_URL := TrimRightByte rawURL "/" |}.

(** [targetFlags.Set], for each occurrence of the flag, and [String]. *)
Definition targetFlags_Set (t : list targetSpec) (v : string) : res (list targetSpec) :=
  let? target := parseTarget v in Ok (t ++ [target]).
Definition targetFlags_String (t : list targetSpec) : string :=
  Join ((λ x, t_Name x +:+ "=" +:+ t_URL x) <$> t) ",".

(** The flags of the command: all but the targets set a variable. *)
Definition variable {A : Type} (field : bench_flags → A) {update : Setter field} (a : A)
    (x : bench_flags * list targetSpec) : bench_flags * list targetSpec :=
  (set_field field a x.1, x.2).

Definition bench_formal : list (flag (bench_flags * list targetSpec)) :=
  [String_flag "url" (variable b_url); String_flag "confluent-url" (variable b_confluentURL);
   String_flag "topic" (variable b_topic); Duration_flag "duration" (variable b_duration);
   Int_flag "clients" (variable b_clients); Int_flag "records" (variable b_records);
   Int_flag "payload-bytes" (variable b_payloadBytes);
   Int_flag "requests" (variable b_requests); Duration_flag "timeout" (variable b_timeout);
   Int_flag "max-latency-samples" (variable b_maxSamples);
   String_flag "key-prefix" (variable b_keyPrefix); String_flag "format" (variable b_format);
   String_flag "html" (variable b_htmlPath); Bool_flag "suite" (variable b_suite);
   String_flag "payload-sizes" (variable b_payloadSizes);
   String_flag "records-per-request" (variable b_recordsPerRequest);
   String_flag "client-counts" (variable b_clientCounts);
   String_flag "formats" (variable b_formats);
   String_flag "compression-labels" (variable b_compressionLabels);
   String_flag "acks-labels" (variable b_acksLabels);
   String_flag "compression-label" (variable b_compressionLabel);
   String_flag "acks-label" (variable b_acksLabel);
   Float64_flag "capacity-target-records" (variable b_capacityTarget);
   Float64_flag "capacity-headroom" (variable b_capacityHeadroom);
   Flag "target" false (λ v x, let? targets := targetFlags_Set x.2 v in Ok (x.1, targets))].

Definition context {A} (name : string) (r : res A) : res A :=
  match r with Ok a => Ok a | Err err => Err (EWrap (name +:+ ": ") err) end.

Definition build_scenarios (f : bench_flags) : res (list scenarioSpec) :=
  if b_suite f then
    let? payloads := context "payload-sizes" (parseByteSizeList (b_payloadSizes f)) in
    let? counts := context "records-per-request" (parseIntList (b_recordsPerRequest f)) in
    let? clients := context "client-counts" (parseIntList (b_clientCounts f)) in
    let? formats := context "formats" (parseFormatList (b_formats f)) in
    Ok (suite_scenarios payloads counts clients formats
          (parseLabelList (b_compressionLabels f)) (parseLabelList (b_acksLabels f)))
  else if (b_clients f <=? 0) || (b_records f <=? 0) || (b_payloadBytes f <? 0)
  then Err (ENew "clients and records must be positive, and payload-bytes must be zero or positive")
  else
    let? format := parseFormat (b_format f) in
    Ok [{| PayloadBytes := b_payloadBytes f; RecordsPerRequest := b_records f;
           Clients := b_clients f; Format := format;
           Compression := firstLabel (b_compressionLabel f); Acks := firstLabel (b_acksLabel f) |}].

Definition build_targets (targets : list targetSpec) (f : bench_flags) : res (list targetSpec) :=
  let? out := match targets with
              | [] => let? t := parseTarget ("go=" +:+ b_url f) in Ok [t]
              | _ => Ok targets
              end in
  if String.eqb (TrimSpace (b_confluentURL f)) "" then Ok out
  else let? t := parseTarget ("confluent=" +:+ b_confluentURL f) in Ok (out ++ [t]).

Definition buildOptions (targets : list targetSpec) (f : bench_flags) : res benchOptions :=
  if String.eqb (TrimSpace (b_topic f)) "" then Err (ENew "topic must not be empty")
  else if (b_duration f <=? 0) || (b_timeout f <=? 0)
  then Err (ENew "duration and timeout must be positive")
  else if b_maxSamples f <=? 0 then Err (ENew "max-latency-samples must be positive")
  else if f64_ltb (b_capacityTarget f) f64_zero
  then Err (ENew "capacity-target-records must be zero or positive")
  else if f64_ltb (b_capacityHeadroom f) f64_zero
  then Err (ENew "capacity-headroom must be zero or positive")
  else
    let? targets := build_targets targets f in
    let? scenarios := build_scenarios f in
    if (length scenarios =? 0)%nat then Err (ENew "at least one scenario is required")
    else Ok {|
      bo_Topic := b_topic f; bo_Duration := b_duration f; bo_Requests := b_requests f;
      bo_Timeout := b_timeout f; bo_MaxSamples := b_maxSamples f; bo_KeyPrefix := b_keyPrefix f;
      bo_Targets := targets; bo_Scenarios := scenarios; bo_HTMLPath := b_htmlPath f;
      bo_Suite := b_suite f; bo_GeneratedAt := now_text;
      bo_Capacity := {| TargetRecordsPerSecond := b_capacityTarget f;
                        Headroom := b_capacityHeadroom f |} |}.

(** The options a command line means, or the exit code. *)
Definition command_options (args : list string) : Z + benchOptions :=
  match CommandLine_Parse bench_formal args (default_bench_flags, []) with
  | inl code => inl code
  | inr (f, targets, _) =>
      match buildOptions targets f with
      | Err _ => inl 2
      | Ok opts => inr opts
      end
  end.
End options.

(** ** Requests *)

(** [json.Marshal] of the i-th record: the key is omitted when there is no
    prefix. *)
Definition record_json (keyPrefix format payload : string) (i : Z) : string :=
  let key := keyPrefix +:+ "-" +:+ Itoa i in
  "{" +:+
  (if String.eqb keyPrefix "" then ""
   else json_string "key" +:+ ":" +:+
        json_string (if String.eqb format "binary" then EncodeToString key else key) +:+ ",") +:+
  json_string "value" +:+ ":" +:+
  (if String.eqb format "binary" then json_string (EncodeToString payload)
   else "{" +:+ json_string "index" +:+ ":" +:+ Itoa i +:+ "," +:+
        json_string "payload" +:+ ":" +:+ json_string payload +:+ "}") +:+ "}".

Definition buildBody (records payloadBytes : nat) (keyPrefix format : string) : string :=
  let payload := Repeat "x" payloadBytes in
  "{" +:+ json_string "records" +:+ ":[" +:+
  Join ((λ i, record_json keyPrefix format payload (Z.of_nat i)) <$> seq 0 records) "," +:+ "]}".

(** [type result struct]. *)
Record result := {
  r_status : Z;
  r_records : Z;
  r_bytes : Z;
  r_latency : Z;
  r_err : option error;
}.

Definition postOnce (send : Soak.outgoing → Soak.exchange) (latency : Z)
    (baseURL topic body : string) (records : Z) (format : string) : result :=
  match send {| Soak.out_url := TrimRightByte baseURL "/" +:+ "/topics/" +:+ PathEscape topic;
                Soak.out_ContentType := contentTypeForFormat format;
                Soak.out_Accept := "application/vnd.kafka.v2+json"; Soak.out_body := body |} with
  | Soak.NewRequestFailed err =>
      {| r_status := 0; r_records := 0; r_bytes := 0; r_latency := latency; r_err := Some err |}
  | Soak.DoFailed err =>
      {| r_status := 0; r_records := 0; r_bytes := slen body; r_latency := latency;
         r_err := Some err |}
  | Soak.Responded status _ _ =>
      {| r_status := status; r_records := records; r_bytes := slen body; r_latency := latency;
         r_err := None |}
  end.

(** ** The load of a scenario

    The clients of [runScenario] share the counter [started] and the channel
    [done]; each step below is one atomic action of one of them, or the timer
    that closes [done]. *)

Inductive client :=
  | CLoop                    (* at the head of the loop *)
  | CClaimed                 (* past the request limit, before the select *)
  | CPosting                 (* in [postOnce] and the send of its result *)
  | CExited.

#[export] Instance client_eq_dec : EqDecision client.
Proof. solve_decision. Defined.

Record load := {
  started : Z;
  stopped : bool;            (* [done] is closed *)
  clients : list client;
  posts : Z;                 (* calls of [postOnce] so far *)
}.

Inductive load_event := Claim (i : nat) | Select (i : nat) | Deliver (i : nat) | Timer.

Definition set_client (i : nat) (c : client) (s : load) : load :=
  {| started := started s; stopped := stopped s; clients := <[i := c]> (clients s);
     posts := posts s |}.

Definition load_step (requests : Z) (e : load_event) (s : load) : option load :=
  match e with
  | Timer => Some {| started := started s; stopped := true; clients := clients s; posts := posts s |}
  | Claim i =>
      match clients s !! i with
      | Some CLoop =>
          if 0 <? requests then
            let n := i64 (started s + 1) in
            let s := {| started := n; stopped := stopped s; clients := clients s;
                        posts := posts s |} in
            Some (set_client i (if requests <? n then CExited else CClaimed) s)
          else Some (set_client i CClaimed s)
      | _ => None
      end
  | Select i =>
      match clients s !! i with
      | Some CClaimed =>
          if stopped s then Some (set_client i CExited s)
          else Some (set_client i CPosting
                 {| started := started s; stopped := stopped s; clients := clients s;
                    posts := posts s + 1 |})
      | _ => None
      end
  | Deliver i =>
      match clients s !! i with
      | Some CPosting => Some (set_client i CLoop s)
      | _ => None
      end
  end.

Fixpoint load_run (requests : Z) (es : list load_event) (s : load) : option load :=
  match es with
  | [] => Some s
  | e :: es => s ← load_step requests e s; load_run requests es s
  end.

Definition load_start (n : nat) : load :=
  {| started := 0; stopped := false; clients := replicate n CLoop; posts := 0 |}.

(** [newBenchHTTPClient]: the default transport, cloned, with its own limits. *)
Definition newBenchHTTPClient (cloned : Soak.http_client) (clients timeout : Z)
  : Soak.http_client := {|
  Soak.hc_Timeout := timeout;
  Soak.MaxIdleConns := Soak.connections clients;
  Soak.MaxIdleConnsPerHost := Soak.connections clients;
  Soak.MaxConnsPerHost := Soak.connections clients;
  Soak.IdleConnTimeout := Soak.IdleConnTimeout cloned;
  Soak.TLSHandshakeTimeout := Soak.TLSHandshakeTimeout cloned;
  Soak.ResponseHeaderTimeout := timeout;
  Soak.ExpectContinueTimeout := Soak.ExpectContinueTimeout cloned |}.

(** ** Results *)

Definition percentile (sorted : list Z) (p : float64) : Z := Soak.percentile sorted p.

(** [math.Ceil] then [int], as in [estimateNodes]; the text of no capacity is
    the infinity sign. *)
Definition effective_target (cfg : capacityConfig) : float64 :=
  f64_mul (TargetRecordsPerSecond cfg) (f64_add (f64_of_Z 1) (Headroom cfg)).

Definition infinity_sign : string :=
  String "226" (String "136" (String "158" "")).

Definition estimateNodes (cfg : capacityConfig) (recordsPerSecond : float64) : Z * string :=
  if f64_leb (TargetRecordsPerSecond cfg) f64_zero then (0, "n/a")
  else if f64_leb recordsPerSecond f64_zero then (0, infinity_sign)
  else
    let nodes := f64_ceil_i64 (f64_div (effective_target cfg) recordsPerSecond) in
    let nodes := if nodes <? 1 then 1 else nodes in
    (nodes, Itoa nodes).

Record benchResult := {
  br_GeneratedAt : string;
  br_TargetName : string;
  br_TargetURL : string;
  br_Scenario : string;
  br_Topic : string;
  br_Duration : string;
  br_RequestsLimit : Z;
  br_Timeout : string;
  br_KeyPrefix : string;
  br_spec : scenarioSpec;          (* PayloadBytes to Acks *)
  br_Elapsed : string;
  br_TotalRequests : Z;
  br_SuccessRequests : Z;
  br_FailedRequests : Z;
  br_AttemptedRecords : Z;
  br_SuccessRecords : Z;
  br_RequestBytes : Z;
  br_RequestsPerSecond : float64;
  br_RecordsPerSecond : float64;
  br_MiBPerSecond : float64;
  br_FailureRate : float64;
  br_CapacityNodes : Z;
  br_LatencyP50 : Z;
  br_LatencyP95 : Z;
  br_LatencyP99 : Z;
  br_LatencySamples : Z;
  br_Error : string;
  br_CapacityNodesText : string;
}.

(** The texts [summarize] derives from the numbers. *)
Definition RequestsPerSecondText (r : benchResult) : string := format_fixed 2 (br_RequestsPerSecond r).
Definition RecordsPerSecondText (r : benchResult) : string := format_fixed 2 (br_RecordsPerSecond r).
Definition MiBPerSecondText (r : benchResult) : string := format_fixed 2 (br_MiBPerSecond r).
Definition FailureRateText (r : benchResult) : string := format_fixed 2 (br_FailureRate r) +:+ "%".
Definition latency_text (d : Z) : string := Duration_String (Round d Millisecond).
Definition latency_millis (d : Z) : string :=
  format_fixed 2 (f64_div (f64_of_Z d) (f64_of_Z Millisecond)).

(** The local variables of [runScenario]'s loop over the results. *)
Record totals := {
  totalRequests : Z;
  successRequests : Z;
  failedRequests : Z;
  attemptedRecords : Z;
  successRecords : Z;
  requestBytes : Z;
  latencies : list Z;
}.
Definition zero_totals : totals :=
  {| totalRequests := 0; successRequests := 0; failedRequests := 0; attemptedRecords := 0;
     successRecords := 0; requestBytes := 0; latencies := [] |}.

Definition result_failed (res : result) : bool :=
  match r_err res with Some _ => true | None => false end ||
  (r_status res <? 200) || (300 <=? r_status res).

Definition collect (opts : benchOptions) (t : totals) (res : result) : totals :=
  let failed := result_failed res in
  {| totalRequests := totalRequests t + 1;
     attemptedRecords := attemptedRecords t + r_records res;
     requestBytes := requestBytes t + r_bytes res;
     failedRequests := if failed then failedRequests t + 1 else failedRequests t;
     successRequests := if failed then successRequests t else successRequests t + 1;
     successRecords := if failed then successRecords t else successRecords t + r_records res;
     latencies := if Z.of_nat (length (latencies t)) <? bo_MaxSamples opts
                  then latencies t ++ [r_latency res] else latencies t |}.

Definition summarize (opts : benchOptions) (target : targetSpec) (scenario : scenarioSpec)
    (elapsed : Z) (t : totals) (sorted : list Z) (errText : string) : benchResult :=
  let seconds := Seconds elapsed in
  let least := f64_div (f64_of_Z 1) (f64_of_Z 1000) in
  let seconds := if f64_ltb seconds least then least else seconds in
  let failureRate := if 0 <? totalRequests t
    then f64_mul (f64_div (f64_of_Z (failedRequests t)) (f64_of_Z (totalRequests t))) (f64_of_Z 100)
    else f64_zero in
  let recordsPerSec := f64_div (f64_of_Z (successRecords t)) seconds in
  let '(nodes, nodesText) := estimateNodes (bo_Capacity opts) recordsPerSec in
  {| br_GeneratedAt := bo_GeneratedAt opts; br_TargetName := t_Name target;
     br_TargetURL := t_URL target; br_Scenario := scenarioLabel scenario;
     br_Topic := bo_Topic opts; br_Duration := Duration_String (bo_Duration opts);
     br_RequestsLimit := bo_Requests opts; br_Timeout := Duration_String (bo_Timeout opts);
     br_KeyPrefix := bo_KeyPrefix opts; br_spec := scenario;
     br_Elapsed := Duration_String (Round elapsed Millisecond);
     br_TotalRequests := totalRequests t; br_SuccessRequests := successRequests t;
     br_FailedRequests := failedRequests t; br_AttemptedRecords := attemptedRecords t;
     br_SuccessRecords := successRecords t; br_RequestBytes := requestBytes t;
     br_RequestsPerSecond := f64_div (f64_of_Z (totalRequests t)) seconds;
     br_RecordsPerSecond := recordsPerSec;
     br_MiBPerSecond :=
       f64_div (f64_div (f64_of_Z (requestBytes t)) (f64_of_Z (1024 * 1024))) seconds;
     br_FailureRate := failureRate;
     br_CapacityNodes := nodes; br_CapacityNodesText := nodesText;
     br_LatencyP50 := percentile sorted Soak.p50; br_LatencyP95 := percentile sorted Soak.p95;
     br_LatencyP99 := percentile sorted Soak.p99;
     br_LatencySamples := Z.of_nat (length sorted); br_Error := errText |}.

(** [runScenario], given the results in arrival order and the time it took;
    [buildBody] cannot fail for these values. *)
Definition runScenario (opts : benchOptions) (target : targetSpec) (scenario : scenarioSpec)
    (arrivals : list result) (elapsed : Z) : benchResult :=
  let t := foldl (collect opts) zero_totals arrivals in
  summarize opts target scenario elapsed t (merge_sort Z.le (latencies t)) "".

Definition failedResult (opts : benchOptions) (target : targetSpec) (scenario : scenarioSpec)
    (err : error) : benchResult :=
  summarize opts target scenario 0 zero_totals [] (Error err).

Definition printResult (res : benchResult) : string :=
  "target=" +:+ br_TargetName res +:+ " scenario=" +:+ Quote (br_Scenario res) +:+
  " elapsed=" +:+ br_Elapsed res +:+ " requests=" +:+ Itoa (br_TotalRequests res) +:+
  " success=" +:+ Itoa (br_SuccessRequests res) +:+ " failed=" +:+ Itoa (br_FailedRequests res) +:+
  " records=" +:+ Itoa (br_SuccessRecords res) +:+
  " records_per_sec=" +:+ RecordsPerSecondText res +:+
  " requests_per_sec=" +:+ RequestsPerSecondText res +:+
  " capacity_nodes=" +:+ br_CapacityNodesText res +:+
  " latency_p50=" +:+ latency_text (br_LatencyP50 res) +:+
  " latency_p95=" +:+ latency_text (br_LatencyP95 res) +:+
  " latency_p99=" +:+ latency_text (br_LatencyP99 res) +:+
  " failure_rate=" +:+ FailureRateText res +:+ nl +:+
  (if String.eqb (br_Error res) "" then ""
   else "target=" +:+ br_TargetName res +:+ " scenario=" +:+ Quote (br_Scenario res) +:+
        " error=" +:+ br_Error res +:+ nl).

(** ** Comparing targets *)

Record comparisonRow := {
  Scenario : string;
  Winner : string;
  BestRecordsPerSecondText : string;
  NodeWinner : string;
  FewestNodesText : string;
  Results : list benchResult;
}.

(** The scan of [buildComparisons] over the results of one scenario. *)
Record scan := { winner : string; best : float64; nodeWinner : string; fewestNodes : Z }.

Definition scan_step (s : scan) (res : benchResult) : scan :=
  let faster := String.eqb (winner s) "" || f64_ltb (best s) (br_RecordsPerSecond res) in
  let fewer := (0 <? br_CapacityNodes res) &&
               (String.eqb (nodeWinner s) "" || (br_CapacityNodes res <? fewestNodes s)) in
  {| winner := if faster then br_TargetName res else winner s;
     best := if faster then br_RecordsPerSecond res else best s;
     nodeWinner := if fewer then br_TargetName res else nodeWinner s;
     fewestNodes := if fewer then br_CapacityNodes res else fewestNodes s |}.

Definition scan_group (group : list benchResult) : scan :=
  foldl scan_step {| winner := ""; best := f64_zero; nodeWinner := ""; fewestNodes := 0 |} group.

(** The order of [sort.Slice] on a group.  Results of equal target names, which
    only a repeated -target name gives, keep their order here; the sort of Go
    does so for groups of up to twelve. *)
Definition by_target (a b : benchResult) : Prop :=
  String.le (br_TargetName a) (br_TargetName b).
#[export] Instance by_target_dec a b : Decision (by_target a b).
Proof. unfold by_target. apply _. Defined.

Definition comparison_row (scenario : string) (group : list benchResult) : comparisonRow :=
  let group := merge_sort by_target group in
  let s := scan_group group in
  {| Scenario := scenario; Winner := winner s;
     BestRecordsPerSecondText := format_fixed 2 (best s); NodeWinner := nodeWinner s;
     FewestNodesText := if String.eqb (nodeWinner s) "" then "n/a" else Itoa (fewestNodes s);
     Results := group |}.

(** The keys of the map [grouped], sorted; each group in the order of the
    results. *)
Definition scenario_names (results : list benchResult) : list string :=
  merge_sort String.le (remove_dups (br_Scenario <$> results)).

Definition buildComparisons (results : list benchResult) : list comparisonRow :=
  (λ scenario, comparison_row scenario (filter (λ r, br_Scenario r = scenario) results))
    <$> scenario_names results.

(** [type closestGap struct], [closestComparison]. *)
Record closestGap := {
  g_winner : string; g_runnerUp : string; g_scenario : string; g_ratio : float64 }.
Definition no_gap : closestGap :=
  {| g_winner := ""; g_runnerUp := ""; g_scenario := ""; g_ratio := f64_zero |}.

(** The two fastest results of a row; [None] stands for the zero result, whose
    name is empty (as is that of a result without a name). *)
Definition named (r : option benchResult) : option benchResult :=
  match r with Some r => if String.eqb (br_TargetName r) "" then None else Some r | None => None end.

Definition gap_step (acc : option benchResult * option benchResult) (res : benchResult)
  : option benchResult * option benchResult :=
  let '(best, second) := acc in
  if f64_leb (br_RecordsPerSecond res) f64_zero then acc
  else
    let beats r := match named r with
                   | None => true
                   | Some r => f64_ltb (br_RecordsPerSecond r) (br_RecordsPerSecond res)
                   end in
    if beats best then (Some res, best)
    else if beats second then (best, Some res)
    else acc.

Definition row_gap (row : comparisonRow) : option closestGap :=
  let '(best, second) := foldl gap_step (None, None) (Results row) in
  match named best, named second with
  | Some b, Some s =>
      if f64_leb (br_RecordsPerSecond s) f64_zero then None
      else Some {| g_winner := br_TargetName b; g_runnerUp := br_TargetName s;
                   g_scenario := Scenario row;
                   g_ratio := f64_div (br_RecordsPerSecond b) (br_RecordsPerSecond s) |}
  | _, _ => None
  end.

Definition closestComparison (comparisons : list comparisonRow) : closestGap :=
  foldl (λ closest row,
    match row_gap row with
    | None => closest
    | Some gap => if String.eqb (g_winner closest) "" || f64_ltb (g_ratio gap) (g_ratio closest)
                  then gap else closest
    end) no_gap comparisons.

Definition uniqueTargetCount (results : list benchResult) : Z :=
  Z.of_nat (size (list_to_set (filter (λ n, n ≠ "") (br_TargetName <$> results)) : gset string)).

Definition large_binary_batch (res : benchResult) : bool :=
  String.eqb (Format (br_spec res)) "binary" && (1024 <=? PayloadBytes (br_spec res)) &&
  (100 <=? RecordsPerRequest (br_spec res)).

(** The constant 1.15. *)
Definition narrow_ratio : float64 := f64_div (f64_of_Z 115) (f64_of_Z 100).

Definition hasNarrowLargeBinaryBatch (comparisons : list comparisonRow) : bool :=
  existsb (λ row,
    let gap := closestComparison [row] in
    if String.eqb (g_winner gap) "" || f64_ltb narrow_ratio (g_ratio gap) then false
    else existsb large_binary_batch (Results row)) comparisons.

Definition hasLargeBinaryBatch (results : list benchResult) : bool :=
  existsb large_binary_batch results.
Definition hasFormat (results : list benchResult) (format : string) : bool :=
  existsb (λ res, String.eqb (Format (br_spec res)) format) results.

(** [winnerSummary], on the entries of the map: larger counts first, then the
    names. *)
Definition winnerSummary (counts : gmap string Z) (total : Z) : string :=
  if (total <=? 0) || (size counts =? 0)%nat then "no winner could be determined."
  else
    let items := merge_sort Soak.before
      ((λ p, {| Soak.Reason := p.1; Soak.Count := p.2 |}) <$> map_to_list counts) in
    Join ((λ i, Soak.Reason i +:+ " won " +:+ Itoa (Soak.Count i) +:+ "/" +:+ Itoa total +:+
                " scenarios") <$> items) "; " +:+ ".".

(** How often each name wins. *)
Definition win_counts (names : list string) : gmap string Z :=
  foldl (λ m name, if String.eqb name "" then m else <[name := default 0 (m !! name) + 1]> m)
    ∅ names.

(** ** Capacity and the summary *)

Definition formatRate (v : float64) : string :=
  if f64_leb (f64_of_Z 1000000) v then format_fixed 2 (f64_div v (f64_of_Z 1000000)) +:+ "M"
  else if f64_leb (f64_of_Z 1000) v then format_fixed 2 (f64_div v (f64_of_Z 1000)) +:+ "K"
  else format_fixed 0 v.

Record capacityReport := {
  Enabled : bool;
  TargetText : string;
  HeadroomText : string;
  EffectiveText : string;
  Description : string;
}.

Definition times_sign : string := String "195" (String "151" "").
Definition division_sign : string := String "195" (String "183" "").

Definition capacityReportFromConfig (cfg : capacityConfig) : capacityReport :=
  if f64_leb (TargetRecordsPerSecond cfg) f64_zero
  then {| Enabled := false; TargetText := ""; HeadroomText := ""; EffectiveText := "";
          Description := "" |}
  else {| Enabled := true;
          TargetText := formatRate (TargetRecordsPerSecond cfg);
          HeadroomText := format_fixed 0 (f64_mul (Headroom cfg) (f64_of_Z 100)) +:+ "%";
          EffectiveText := formatRate (effective_target cfg);
          Description := "Nodes are estimated as ceil(target records/sec " +:+ times_sign +:+
            " (1 + headroom) " +:+ division_sign +:+ " measured records/sec). Treat rows with " +:+
            "non-zero failure rate as saturation signals, not reliable sizing points." |}.

Record tldrReport := { tl_Enabled : bool; Lead : string; Bullets : list string }.

Definition buildTLDR (results : list benchResult) (comparisons : list comparisonRow)
    (capacity : capacityReport) : tldrReport :=
  if (length results =? 0)%nat then {| tl_Enabled := false; Lead := ""; Bullets := [] |}
  else
    let compared := negb (length comparisons =? 0)%nat && (1 <? uniqueTargetCount results) in
    let total := Z.of_nat (length comparisons) in
    let nodes := win_counts (NodeWinner <$> comparisons) in
    let closest := closestComparison comparisons in
    {| tl_Enabled := true;
       Lead := if compared
               then "Throughput: " +:+ winnerSummary (win_counts (Winner <$> comparisons)) total
               else "Single-target run; use this report as a baseline for that target and scenario.";
       Bullets :=
         (if compared && Enabled capacity && negb (size nodes =? 0)%nat
          then ["Estimated nodes: " +:+ winnerSummary nodes total] else []) ++
         (if String.eqb (g_winner closest) "" then []
          else ["Closest throughput gap: " +:+ g_winner closest +:+ " was " +:+
                format_fixed 2 (g_ratio closest) +:+ "x over " +:+ g_runnerUp closest +:+
                " for " +:+ g_scenario closest +:+ "; treat small margins as topology-sensitive " +:+
                "until confirmed with longer, broker-isolated runs."]) ++
         (if hasNarrowLargeBinaryBatch comparisons
          then ["Large binary batches can naturally narrow the gap: at 1KiB+ payloads and 100 " +:+
                "records/request, REST overhead is amortized and Kafka broker/network byte " +:+
                "throughput becomes the ceiling."]
          else if hasLargeBinaryBatch results
          then ["Large binary batch rows are more likely to measure Kafka broker/network byte " +:+
                "throughput than REST proxy overhead."]
          else []) ++
         (if hasFormat results "binary"
          then ["Binary format here means Confluent REST binary media type: JSON envelope with " +:+
                "base64 keys/values, not raw Kafka protocol bytes."] else []) ++
         (if Enabled capacity
          then ["Node estimates are rough capacity planning numbers based on measured " +:+
                "records/sec plus configured headroom; validate with longer production-like runs " +:+
                "before sizing clusters."] else []) |}.

Record benchReport := {
  rp_GeneratedAt : string;
  rp_Suite : bool;
  rp_Targets : list targetSpec;
  rp_Results : list benchResult;
  rp_Comparisons : list comparisonRow;
  rp_Capacity : capacityReport;
  rp_TLDR : tldrReport;
}.

(** [main] after the flags: every scenario on every target, then the report.
    [measure] is the load: the results in arrival order and the time taken. *)
Definition bench_report (opts : benchOptions)
    (measure : targetSpec → scenarioSpec → list result * Z) : benchReport :=
  let results :=
    scenario ← bo_Scenarios opts; target ← bo_Targets opts;
    [(let '(arrivals, elapsed) := measure target scenario in
      runScenario opts target scenario arrivals elapsed)] in
  let comparisons := buildComparisons results in
  let capacity := capacityReportFromConfig (bo_Capacity opts) in
  {| rp_GeneratedAt := bo_GeneratedAt opts; rp_Suite := bo_Suite opts;
     rp_Targets := bo_Targets opts; rp_Results := results; rp_Comparisons := comparisons;
     rp_Capacity := capacity; rp_TLDR := buildTLDR results comparisons capacity |}.
