(* ===== verification/BenchFacts.v ===== *)
(** * Correctness of cmd/bench-produce

    The bound on the number of requests under every interleaving, the options
    a benchmark runs with, the size texts, and the comparison of targets. *)

From stdpp Require Import sorting.
From S2P Require Import Prelude.
From S2P Require Import UnicodeTables.
From S2P Require Import GoStrings.
From S2P Require Import Strconv.
From S2P Require Import GoErrors.
From S2P Require Import Json.
From S2P Require Import JsonFacts.
From S2P Require Import Base64.
From S2P Require Import JsonText.
From S2P Require Import GoFloat.
From S2P Require Import FloatExact.
From S2P Require Import Url.
From S2P Require Import Config.
From S2P Require Import Handler.
From S2P Require Import GoFmt.
From S2P Require Import Main.
From S2P Require Soak.
From S2P Require Import SoakFacts.
From S2P Require Import Bench.
Local Open Scope Z_scope.

(** ** The request limit *)

Definition is_claimed (c : client) : Z := match c with CClaimed => 1 | _ => 0 end.
Definition is_exited (c : client) : Z := match c with CExited => 1 | _ => 0 end.

(** The steps a client still takes before it is at the head of its loop. *)
Definition todo (c : client) : Z :=
  match c with CClaimed => 2 | CPosting => 1 | _ => 0 end.

Definition of_client (e : load_event) : bool := match e with Timer => false | _ => true end.

(** What holds of every state a load with [n] clients and a limit reaches after
    [k] steps of its clients. *)
Record load_inv (requests n k : Z) (s : load) : Prop := {
  inv_clients : Z.of_nat (length (clients s)) = n;
  inv_started : 0 <= started s <= requests + zsum is_exited (clients s);
  inv_granted : posts s + zsum is_claimed (clients s) <= Z.min (started s) requests;
  inv_running : stopped s = false →
    posts s + zsum is_claimed (clients s) = Z.min (started s) requests;
  inv_exited : stopped s = false → 0 < zsum is_exited (clients s) → requests < started s;
  inv_steps : k + zsum todo (clients s) <= 3 * started s;
}.

Lemma exited_bound l : 0 <= zsum is_exited l <= Z.of_nat (length l).
Proof. induction l as [|[] l IH]; simpl zsum; simpl length; lia. Qed.

Lemma claimed_nonneg l : 0 <= zsum is_claimed l.
Proof. apply zsum_nonneg. by intros []. Qed.

Lemma todo_nonneg l : 0 <= zsum todo l.
Proof. apply zsum_nonneg. by intros []. Qed.

Lemma load_start_inv requests n : 0 < requests →
  load_inv requests (Z.of_nat n) 0 (load_start n).
Proof.
  intros Hr. split; cbn; rewrite ?length_replicate, ?zsum_replicate; cbn; lia.
Qed.

Lemma set_client_inv i c c' s : clients s !! i = Some c →
  length (<[i := c']> (clients s)) = length (clients s) ∧
  zsum is_exited (<[i := c']> (clients s)) = zsum is_exited (clients s) - is_exited c + is_exited c' ∧
  zsum is_claimed (<[i := c']> (clients s)) =
    zsum is_claimed (clients s) - is_claimed c + is_claimed c' ∧
  zsum todo (<[i := c']> (clients s)) = zsum todo (clients s) - todo c + todo c'.
Proof. intros Hi. by rewrite length_insert, !(zsum_insert _ _ _ _ _ Hi). Qed.

(** Another client than an exited one is not counted among the exited. *)
Lemma exited_but_one l i c : l !! i = Some c → is_exited c = 0 →
  zsum is_exited l <= Z.of_nat (length l) - 1.
Proof.
  intros Hi Hc. pose proof (zsum_insert is_exited l i c CExited Hi) as Hs.
  pose proof (exited_bound (<[i := CExited]> l)) as Hb. rewrite length_insert in Hb.
  rewrite Hc in Hs. cbn in Hs. lia.
Qed.

Lemma load_step_inv requests n k e s s' : 0 < requests → requests + n < 2 ^ 63 →
  load_step requests e s = Some s' → load_inv requests n k s →
  load_inv requests n (k + if of_client e then 1 else 0) s'.
Proof.
  intros Hr Hn He [H0 H1 H2 H3 H4 H5]. pose proof (claimed_nonneg (clients s)) as Hc.
  pose proof (exited_bound (clients s)) as Hb.
  destruct e as [i|i|i|]; cbn [load_step of_client] in *.
  - destruct (clients s !! i) as [[]|] eqn:Ei; try done.
    destruct (Z.ltb_spec 0 requests); [|lia].
    pose proof (exited_but_one _ _ _ Ei eq_refl) as Hx.
    assert (i64 (started s + 1) = started s + 1) as Hi by (apply i64_id; unfold in_i64; lia).
    rewrite Hi in He. injection He as <-.
    destruct (set_client_inv i _ (if requests <? started s + 1 then CExited else CClaimed) _ Ei)
      as (E0&E1&E2&E3).
    destruct (Z.ltb_spec requests (started s + 1)); cbn in E1, E2, E3.
    all: split; cbn; rewrite ?E0, ?E1, ?E2, ?E3; try lia.
    all: intros Hs; specialize (H3 Hs); specialize (H4 Hs); lia.
  - destruct (clients s !! i) as [[]|] eqn:Ei; try done.
    destruct (stopped s) eqn:Es; injection He as <-.
    + destruct (set_client_inv i _ CExited _ Ei) as (E0&E1&E2&E3). cbn in E1, E2, E3.
      split; cbn; rewrite ?E0, ?E1, ?E2, ?E3; try lia; by rewrite Es.
    + destruct (set_client_inv i _ CPosting _ Ei) as (E0&E1&E2&E3). cbn in E1, E2, E3.
      specialize (H3 eq_refl). specialize (H4 eq_refl).
      split; cbn; rewrite ?E0, ?E1, ?E2, ?E3; lia.
  - destruct (clients s !! i) as [[]|] eqn:Ei; try done. injection He as <-.
    destruct (set_client_inv i _ CLoop _ Ei) as (E0&E1&E2&E3). cbn in E1, E2, E3.
    split; cbn; rewrite ?E0, ?E1, ?E2, ?E3; try lia; intros Hs; specialize (H3 Hs);
      specialize (H4 Hs); lia.
  - injection He as <-. split; cbn; lia || done.
Qed.

Lemma load_run_inv requests n es : 0 < requests → requests + n < 2 ^ 63 → ∀ s s' k,
  load_run requests es s = Some s' → load_inv requests n k s →
  load_inv requests n (k + Z.of_nat (length (filter of_client es))) s'.
Proof.
  intros Hr Hn. induction es as [|e es IH]; intros s s' k He Hi; cbn [load_run] in He.
  - injection He as <-. cbn. by rewrite Z.add_0_r.
  - apply bind_Some in He as (s1&H1&H2). pose proof (load_step_inv _ _ _ _ _ _ Hr Hn H1 Hi) as H3.
    specialize (IH _ _ _ H2 H3). rewrite filter_cons.
    replace (k + Z.of_nat _) with
      (k + (if of_client e then 1 else 0) + Z.of_nat (length (filter of_client es))); [done|].
    destruct e; cbn [of_client]; case_decide; cbn [length]; try done; lia.
Qed.

Lemma all_exited l : Forall (λ c, c = CExited) l →
  zsum is_claimed l = 0 ∧ zsum is_exited l = Z.of_nat (length l).
Proof. induction 1 as [|c l -> _ [IH1 IH2]]; [done|]. simpl zsum. simpl length. lia. Qed.

(** C36: However the clients of a scenario interleave with each other and with the
    timer, at most Requests requests are posted when a limit is set; and when
    every client returned before the timer fired, exactly that many were. *)
Theorem bench_request_limit requests n es s :
  0 < requests → requests + Z.of_nat n < 2 ^ 63 →
  load_run requests es (load_start n) = Some s →
  posts s <= requests ∧
  ((0 < n)%nat → stopped s = false → Forall (λ c, c = CExited) (clients s) → posts s = requests).
Proof.
  intros Hr Hn He. pose proof (load_run_inv _ _ _ Hr Hn _ _ _ He (load_start_inv _ n Hr)) as [].
  pose proof (claimed_nonneg (clients s)). split; [lia|].
  intros H0 Hs Hx. destruct (all_exited _ Hx) as [E1 E2].
  specialize (inv_running0 Hs). specialize (inv_exited0 Hs). lia.
Qed.

(** Two clients share a limit of three: the second one posts once. *)
Definition sample_load : list load_event :=
  [Claim 0; Claim 1; Select 1; Select 0; Deliver 0; Claim 0; Select 0; Deliver 1; Claim 1;
   Deliver 0; Claim 0].

Definition sample_end : load :=
  {| started := 5; stopped := false; clients := [CExited; CExited]; posts := 3 |}.

Lemma sample_load_run : load_run 3 sample_load (load_start 2) = Some sample_end.
Proof. by vm_compute. Qed.

Lemma bench_request_limit_witness :
  load_run 3 sample_load (load_start 2) = Some sample_end ∧ posts sample_end <= 3 ∧
  posts sample_end = 3.
Proof.
  destruct (bench_request_limit 3 2 _ _ ltac:(lia) ltac:(lia) sample_load_run) as [H1 H2].
  split; [exact sample_load_run|]. split; [exact H1|].
  apply H2; [lia|done|repeat constructor].
Defined.

(** C37: A scenario with a request limit ends: its clients take at most
    3 * (Requests + Clients) steps in any interleaving, and as long as a client
    has not returned it has a step to take, so the loop over the results ends. *)
Theorem bench_load_terminates requests n es s :
  0 < requests → requests + Z.of_nat n < 2 ^ 63 →
  load_run requests es (load_start n) = Some s →
  Z.of_nat (length (filter of_client es)) <= 3 * (requests + Z.of_nat n) ∧
  (Forall (λ c, c = CExited) (clients s) ∨
   ∃ e s', of_client e = true ∧ load_step requests e s = Some s').
Proof.
  intros Hr Hn He. pose proof (load_run_inv _ _ _ Hr Hn _ _ _ He (load_start_inv _ n Hr)) as [].
  pose proof (todo_nonneg (clients s)). pose proof (exited_bound (clients s)). split; [lia|].
  destruct (decide (Forall (λ c, c = CExited) (clients s))) as [|Hf]; [by left|right].
  apply not_Forall_Exists, Exists_exists in Hf as (c&Hin&Hc); [|apply _].
  apply list_elem_of_lookup in Hin as [i Hi].
  destruct c; [exists (Claim i)|exists (Select i)|exists (Deliver i)|by destruct Hc].
  all: cbn; rewrite Hi; repeat case_match; eauto.
Qed.

Lemma bench_load_terminates_witness :
  load_run 3 sample_load (load_start 2) = Some sample_end ∧
  Z.of_nat (length (filter of_client sample_load)) <= 3 * (3 + Z.of_nat 2).
Proof.
  split; [exact sample_load_run|].
  exact (proj1 (bench_load_terminates 3 2 _ _ ltac:(lia) ltac:(lia) sample_load_run)).
Defined.

(** ** Sizes *)

(** The bytes of a decimal integer. *)
Definition int_byte (c : ascii) : bool := is_digit c || Ascii.eqb c "-".

Lemma Itoa_bytes z : ∃ s c, Itoa z = s +:+ String c "" ∧ all_bytes int_byte s = true ∧ int_byte c = true.
Proof.
  assert (all_bytes int_byte (Itoa z) = true ∧ Itoa z ≠ "") as [Ha Hn].
  { assert (∀ n, 0 <= n → all_bytes int_byte (Utoa n) = true ∧ Utoa n ≠ "") as Hu.
    { intros n Hz. destruct (Utoa_spec n Hz) as [(Ha&Hn&_) _]. split; [|done].
      revert Ha. apply all_bytes_impl. intros c Hc. unfold int_byte. by rewrite Hc. }
    unfold Itoa. destruct (Z.ltb_spec z 0); [|by apply Hu].
    split; [|done]. simpl. apply Hu. lia. }
  revert Ha Hn. generalize (Itoa z). intros s. induction s as [|c s IH]; [done|].
  simpl. intros [Hc Hs]%andb_true_iff _. destruct s as [|d s].
  - by exists "", c.
  - destruct (IH Hs) as (t&e&->&Ht&He); [done|]. exists (String c t), e.
    by rewrite app_cons; simpl; rewrite Hc.
Qed.

Ltac byte_cases c := destruct c as [[] [] [] [] [] [] [] []].

Lemma int_byte_spec c : int_byte c = true →
  is_ascii c = true ∧ solid c = true ∧ Ascii.eqb c " " = false ∧
  encode_rune (to_upper_rune (bval c)) = String c "".
Proof. byte_cases c; intros H; first [discriminate H | by vm_compute]. Qed.

Lemma ToUpper_int s t : all_bytes int_byte s = true → ToUpper (s +:+ t) = s +:+ ToUpper t.
Proof.
  induction s as [|c s IH]; [done|]. simpl all_bytes. intros [Hc Hs]%andb_true_iff.
  destruct (int_byte_spec c Hc) as (H1&_&_&H2). rewrite !app_cons. unfold ToUpper, map_runes in *.
  rewrite runes_cons by done. rewrite fmap_cons. cbn [concat_s fst]. rewrite H2, IH; done.
Qed.

Lemma drop_blanks_int s t : all_bytes int_byte s = true →
  drop_blanks (s +:+ t) = s +:+ drop_blanks t.
Proof.
  induction s as [|c s IH]; [done|]. simpl all_bytes. intros [Hc Hs]%andb_true_iff.
  destruct (int_byte_spec c Hc) as (_&_&H&_). rewrite !app_cons. cbn [drop_blanks].
  by rewrite H, IH.
Qed.

(** The units [formatBytes] writes, as they are read. *)
Lemma size_unit_int s c u k : int_byte c = true →
  (u, k) ∈ [("KIB", 1024); ("MIB", 1024 * 1024); ("B", 1)] →
  size_unit (s +:+ String c "" +:+ u) = (k, s +:+ String c "").
Proof.
  intros Hc Hu. rewrite <- !app_assoc_s. unfold size_unit, HasSuffix. rewrite !rev_app_s.
  repeat (apply elem_of_cons in Hu as [[= -> ->]|Hu]); [| | |by apply not_elem_of_nil in Hu].
  all: byte_cases c; try discriminate Hc; cbn; by rewrite <- app_assoc_s, TrimSuffix_app.
Qed.

Lemma TrimSpace_int k t d : solid d = true →
  TrimSpace (Itoa k +:+ t +:+ String d "") = Itoa k +:+ t +:+ String d "".
Proof.
  intros Hd. destruct (Itoa_bytes k) as (s&c&->&Hs&Hc). rewrite <- app_assoc_s.
  destruct s as [|e s]; [by apply TrimSpace_solid; [apply int_byte_spec|]|].
  simpl in Hs. apply andb_true_iff in Hs as [He _].
  rewrite !app_cons. by apply TrimSpace_solid; [apply int_byte_spec|].
Qed.

Lemma parseByteSize_int k text u m :
  in_i64 k → in_i64 (k * m) →
  (text, u, m) ∈ [("KiB", "KIB", 1024); ("MiB", "MIB", 1024 * 1024); ("B", "B", 1)] →
  parseByteSize (Itoa k +:+ text) = Ok (k * m).
Proof.
  intros Hk Hm Hu. unfold parseByteSize.
  destruct (Itoa_bytes k) as (s&c&E&Hs&Hc).
  assert (TrimSpace (Itoa k +:+ text) = Itoa k +:+ text) as ->.
  { repeat (apply elem_of_cons in Hu as [[= -> -> ->]|Hu]); [| | |by apply not_elem_of_nil in Hu].
    - by apply (TrimSpace_int k "Ki" "B").
    - by apply (TrimSpace_int k "Mi" "B").
    - by apply (TrimSpace_int k "" "B"). }
  assert (all_bytes int_byte (Itoa k) = true) as Hi.
  { rewrite E, all_bytes_app, Hs. simpl. by rewrite Hc. }
  rewrite ToUpper_int, drop_blanks_int by done.
  assert (drop_blanks (ToUpper text) = u ∧ (u, m) ∈ [("KIB", 1024); ("MIB", 1024 * 1024); ("B", 1)])
    as [-> Hum].
  { repeat (apply elem_of_cons in Hu as [[= -> -> ->]|Hu]); [| | |by apply not_elem_of_nil in Hu].
    all: split; [by vm_compute|rewrite !elem_of_cons; auto]. }
  assert (String.eqb (Itoa k +:+ u) "" = false) as ->.
  { rewrite E. by destruct s. }
  rewrite E at 1. rewrite app_assoc_s, (size_unit_int _ _ _ _ Hc Hum), <- E.
  unfold Atoi. rewrite ParseInt_Itoa by (unfold in_i64 in Hk; simpl; lia). by rewrite i64_id.
Qed.

(** A payload size written by formatBytes is read back by parseByteSize as
    the same number, except that from 1 MiB on a whole number of KiB is rounded
    down to whole MiB. *)
Lemma formatBytes_roundtrip n : in_i64 n →
  parseByteSize (formatBytes n) =
    Ok (if (1024 * 1024 <=? n) && (n mod 1024 =? 0) then n - n mod (1024 * 1024) else n).
Proof.
  unfold in_i64, formatBytes. intros Hn.
  destruct (Z.leb_spec (1024 * 1024) n) as [Hb|Hb]; [|destruct (Z.leb_spec 1024 n) as [Hl|Hl]].
  all: rewrite ?andb_false_r, ?andb_true_r; cbn [andb].
  - rewrite !Z.rem_mod_nonneg by lia. rewrite !Z.quot_div_nonneg by lia.
    pose proof (Z.div_mod n (1024 * 1024)). pose proof (Z.mod_pos_bound n (1024 * 1024) eq_refl).
    destruct (Z.eqb_spec (n mod 1024) 0).
    + rewrite (parseByteSize_int _ "MiB" "MIB" (1024 * 1024)); [f_equal; lia|unfold in_i64; lia..|].
      rewrite !elem_of_cons. auto.
    + replace (1024 <=? n) with true by lia. cbn [andb].
      rewrite (parseByteSize_int _ "B" "B" 1); [f_equal; lia|unfold in_i64; lia..|].
      rewrite !elem_of_cons. auto.
  - rewrite !Z.rem_mod_nonneg by lia. rewrite !Z.quot_div_nonneg by lia.
    pose proof (Z.div_mod n 1024). pose proof (Z.mod_pos_bound n 1024 eq_refl).
    destruct (Z.eqb_spec (n mod 1024) 0).
    + rewrite (parseByteSize_int _ "KiB" "KIB" 1024); [f_equal; lia|unfold in_i64; lia..|].
      rewrite !elem_of_cons. auto.
    + rewrite (parseByteSize_int _ "B" "B" 1); [f_equal; lia|unfold in_i64; lia..|].
      rewrite !elem_of_cons. auto.
  - rewrite (parseByteSize_int _ "B" "B" 1); [f_equal; lia|unfold in_i64; lia..|].
    rewrite !elem_of_cons. auto.
Qed.

Lemma formatBytes_roundtrip_witness :
  in_i64 1049600 ∧ parseByteSize (formatBytes 1049600) = Ok 1048576.
Proof. split; [by vm_compute|]. exact (formatBytes_roundtrip 1049600 ltac:(by vm_compute)). Defined.

(** Two scenarios of different payload sizes may have one label. *)
Lemma scenarioLabel_collision s :
  scenarioLabel {| PayloadBytes := 1024 * 1024; RecordsPerRequest := RecordsPerRequest s;
    Clients := Clients s; Format := Format s; Compression := Compression s; Acks := Acks s |} =
  scenarioLabel {| PayloadBytes := 1025 * 1024; RecordsPerRequest := RecordsPerRequest s;
    Clients := Clients s; Format := Format s; Compression := Compression s; Acks := Acks s |}.
Proof. reflexivity. Qed.

(** ** The options of a run *)

Lemma parse_all_spec {A} (f : string → res A) l xs :
  parse_all f l = Ok xs → Forall2 (λ p x, f p = Ok x) l xs.
Proof.
  revert xs. induction l as [|p l IH]; intros xs H; cbn in H; [by injection H as <-|].
  destruct (f p) as [x|] eqn:Ex; [|done]. destruct (parse_all f l) as [ys|]; [|done].
  injection H as <-. constructor; auto.
Qed.

Lemma positiveInts_spec l xs : positiveInts l = Ok xs → xs = l ∧ l ≠ [] ∧ Forall (λ n, 0 < n) l.
Proof.
  unfold positiveInts. destruct l as [|n l]; [done|].
  set (k := n :: l). change (length k =? 0)%nat with false. destruct (existsb _ k) eqn:E; [done|].
  intros [= <-]. split_and!; [done|done|]. apply Forall_forall. intros z Hz.
  destruct (Z.leb_spec z 0) as [Hl|]; [|lia]. apply Z.leb_le in Hl.
  enough (existsb (λ n, n <=? 0) k = true) by congruence.
  apply existsb_exists. exists z. by rewrite <- list_elem_of_In.
Qed.

Definition known_format (s : string) : Prop := s = "json" ∨ s = "binary".

Lemma parseFormat_known v s : parseFormat v = Ok s → known_format s.
Proof.
  unfold parseFormat, Soak.parseFormat, known_format. intros H. repeat split_if_in H; try done.
  all: injection H as <-; auto.
Qed.

Lemma splitCSV_nonempty v : Forall (λ s, s ≠ "") (splitCSV v).
Proof.
  unfold splitCSV. split_if; [constructor|]. apply Forall_forall. intros s Hs.
  by apply list_elem_of_filter in Hs as [Hs _].
Qed.

Lemma parseLabelList_spec v : parseLabelList v ≠ [] ∧ Forall (λ s, s ≠ "") (parseLabelList v).
Proof.
  unfold parseLabelList. pose proof (splitCSV_nonempty v) as H.
  destruct (splitCSV v); split; try done. by repeat constructor.
Qed.

Lemma firstLabel_nonempty v : firstLabel v ≠ "".
Proof.
  unfold firstLabel. destruct (parseLabelList_spec v) as [H1 H2].
  destruct (parseLabelList v); [done|]. by inversion H2.
Qed.

Lemma parseFormatList_spec v l : parseFormatList v = Ok l → l ≠ [] ∧ Forall known_format l.
Proof.
  unfold parseFormatList. destruct (splitCSV v) as [|p ps]; intros H.
  - injection H as <-. split; [done|]. constructor; [by left|constructor].
  - apply parse_all_spec in H. split; [by inversion H|].
    clear -H. induction H as [|q x qs xs Hq _ IH]; constructor; [by eapply parseFormat_known|done].
Qed.

Lemma parseIntList_spec v l : parseIntList v = Ok l → l ≠ [] ∧ Forall (λ n, 0 < n) l.
Proof.
  unfold parseIntList. destruct (parse_all _ _); [|done].
  by intros (->&?&?)%positiveInts_spec.
Qed.

Lemma parseByteSizeList_spec v l : parseByteSizeList v = Ok l → l ≠ [] ∧ Forall (λ n, 0 < n) l.
Proof.
  unfold parseByteSizeList. destruct (parse_all _ _); [|done].
  by intros (->&?&?)%positiveInts_spec.
Qed.

(** The suite runs every combination once. *)
Lemma elem_of_suite ps rs cs fs ks hs s :
  s ∈ suite_scenarios ps rs cs fs ks hs ↔
  PayloadBytes s ∈ ps ∧ RecordsPerRequest s ∈ rs ∧ Clients s ∈ cs ∧ Format s ∈ fs ∧
  Compression s ∈ ks ∧ Acks s ∈ hs.
Proof.
  unfold suite_scenarios. repeat setoid_rewrite list_elem_of_bind.
  setoid_rewrite list_elem_of_singleton. split.
  - intros (p&(r&(c&(f&(k&(h&->&?)&?)&?)&?)&?)&?). done.
  - intros (?&?&?&?&?&?). destruct s; cbn in *. eauto 20.
Qed.

Lemma length_bind {A B} (f : A → list B) n l : (∀ x, length (f x) = n) →
  length (l ≫= f) = (length l * n)%nat.
Proof. intros Hf. induction l as [|x l IH]; [done|]. csimpl. rewrite length_app, Hf. lia. Qed.

Lemma length_suite ps rs cs fs ks hs :
  length (suite_scenarios ps rs cs fs ks hs) =
  (length ps * length rs * length cs * length fs * length ks * length hs)%nat.
Proof.
  unfold suite_scenarios. rewrite <- !Nat.mul_assoc. repeat (apply length_bind; intros ?).
  rewrite (length_bind _ 1); [lia|done].
Qed.

Section options_facts.
Context (url_Parse : string → res parsedURL) (now_nanos : Z) (now_text : string).

Definition good_target (t : targetSpec) : Prop :=
  t_Name t ≠ "" ∧ ∃ raw, raw ≠ "" ∧ Soak.absolute_url url_Parse raw = true ∧
                         t_URL t = TrimRightByte raw "/".

Definition good_scenario (s : scenarioSpec) : Prop :=
  0 <= PayloadBytes s ∧ 0 < RecordsPerRequest s ∧ 0 < Clients s ∧ known_format (Format s) ∧
  Compression s ≠ "" ∧ Acks s ≠ "".

Lemma parseTarget_good v t : parseTarget url_Parse now_nanos v = Ok t → good_target t.
Proof.
  unfold parseTarget. destruct (Cut v "=") as [[name rest] ok].
  destruct (if ok then _ else _) as [name' raw]. intros H. repeat split_if_in H; try done.
  injection H as <-. apply orb_false_iff in Eb as [H1 H2]. apply negb_false_iff in Eb0.
  apply String.eqb_neq in H1, H2. split; [done|]. by exists (TrimSpace raw).
Qed.

Lemma build_targets_good targets f l : Forall good_target targets →
  build_targets url_Parse now_nanos targets f = Ok l → l ≠ [] ∧ Forall good_target l.
Proof.
  intros Ht. unfold build_targets.
  assert (∀ r : res (list targetSpec),
    r = match targets with
        | [] => let? t := parseTarget url_Parse now_nanos ("go=" +:+ b_url f) in Ok [t]
        | _ => Ok targets
        end → ∀ out, r = Ok out → out ≠ [] ∧ Forall good_target out) as Hr.
  { intros r -> out H. destruct targets as [|t ts].
    - destruct (parseTarget _ _ _) as [t|] eqn:E; [|done]. injection H as <-.
      split; [done|]. by apply Forall_singleton, (parseTarget_good _ _ E).
    - by injection H as <-. }
  specialize (Hr _ eq_refl). intros H. destruct (match targets with [] => _ | _ => _ end) as [out|]; [|done].
  destruct (Hr _ eq_refl) as [Hn Hf]. split_if_in H; [by injection H as <-|].
  destruct (parseTarget _ _ (_ +:+ _)) as [t|] eqn:E; [|done]. injection H as <-.
  split; [by destruct out|]. apply Forall_app; split; [done|].
  by apply Forall_singleton, (parseTarget_good _ _ E).
Qed.

Lemma build_scenarios_good f l : build_scenarios f = Ok l → l ≠ [] ∧ Forall good_scenario l.
Proof.
  unfold build_scenarios, context. intros H. split_if_in H.
  - destruct (parseByteSizeList _) as [ps|] eqn:E1; [|done].
    destruct (parseIntList (b_recordsPerRequest f)) as [rs|] eqn:E2; [|done].
    destruct (parseIntList (b_clientCounts f)) as [cs|] eqn:E3; [|done].
    destruct (parseFormatList _) as [fs|] eqn:E4; [|done]. injection H as <-.
    apply parseByteSizeList_spec in E1 as [N1 F1]. apply parseIntList_spec in E2 as [N2 F2].
    apply parseIntList_spec in E3 as [N3 F3]. apply parseFormatList_spec in E4 as [N4 F4].
    destruct (parseLabelList_spec (b_compressionLabels f)) as [N5 F5].
    destruct (parseLabelList_spec (b_acksLabels f)) as [N6 F6]. split.
    + intros Hnil. apply (f_equal length) in Hnil. rewrite length_suite in Hnil. cbn in Hnil.
      rewrite <- length_zero_iff_nil in N1, N2, N3, N4, N5, N6. nia.
    + apply Forall_forall. intros s (H1&H2&H3&H4&H5&H6)%elem_of_suite.
      apply (proj1 (Forall_forall _ _) F1) in H1. apply (proj1 (Forall_forall _ _) F2) in H2.
      apply (proj1 (Forall_forall _ _) F3) in H3. apply (proj1 (Forall_forall _ _) F4) in H4.
      apply (proj1 (Forall_forall _ _) F5) in H5. apply (proj1 (Forall_forall _ _) F6) in H6.
      by split_and!; try lia.
  - split_if_in H; [done|]. zbool. destruct (parseFormat _) as [fmt|] eqn:E; [|done].
    injection H as <-. split; [done|]. apply Forall_singleton. split_and!; cbn; try lia.
    all: first [by eapply parseFormat_known|apply firstLabel_nonempty].
Qed.

(** A benchmark only starts with options under which it measures something:
    a topic, positive times and sample bound, at least one target, each an
    absolute URL under a name, and at least one scenario, each with clients,
    records, a known format and labels, however many the suite combines. *)
Lemma bench_options_valid targets f o :
  Forall (λ t, ∃ v, parseTarget url_Parse now_nanos v = Ok t) targets →
  buildOptions url_Parse now_nanos now_text targets f = Ok o →
  TrimSpace (bo_Topic o) ≠ "" ∧ 0 < bo_Duration o ∧ 0 < bo_Timeout o ∧ 0 < bo_MaxSamples o ∧
  bo_Targets o ≠ [] ∧ Forall good_target (bo_Targets o) ∧
  bo_Scenarios o ≠ [] ∧ Forall good_scenario (bo_Scenarios o).
Proof.
  intros Ht. unfold buildOptions. intros H. do 5 (split_if_in H; [done|]).
  destruct (build_targets _ _ _ _) as [ts|] eqn:E1; [|done].
  destruct (build_scenarios f) as [ss|] eqn:E2; [|done]. split_if_in H; [done|].
  injection H as <-. cbn. zbool. apply String.eqb_neq in Eb.
  apply build_targets_good in E1 as [N1 F1].
  - apply build_scenarios_good in E2 as [N2 F2]. split_and!; done || lia.
  - eapply Forall_impl; [exact Ht|]. intros t [v Hv]. by eapply parseTarget_good.
Qed.
End options_facts.

(** ** Comparing targets *)

(** Strictly below is transitive on all of binary64, NaN and the infinities
    included. *)
Lemma f64_ltb_trans a b c : f64_ltb a b = true → f64_ltb b c = true → f64_ltb a c = true.
Proof.
  unfold f64_ltb, SFltb.
  destruct a as [sa|[]| |[] ma ea], b as [sb|[]| |[] mb eb], c as [sc|[]| |[] mc ec];
    cbn [SFcompare]; try done.
  all: fold (Pos.compare ma mb) (Pos.compare mb mc) (Pos.compare ma mc).
  all: destruct (Z.compare_spec ea eb), (Z.compare_spec eb ec), (Z.compare_spec ea ec); try done; try lia.
  all: destruct (Pos.compare_spec ma mb), (Pos.compare_spec mb mc), (Pos.compare_spec ma mc);
    cbn; done || lia.
Qed.

Lemma f64_ltb_irrefl a : f64_ltb a a = false.
Proof.
  unfold f64_ltb, SFltb. destruct a as [sa|[]| |[] m e]; cbn [SFcompare]; try done.
  all: rewrite Z.compare_refl; fold (Pos.compare m m); by rewrite Pos.compare_refl.
Qed.

(** [r] is a result of the group no result of the group is faster than. *)
Definition fastest (r : benchResult) (group : list benchResult) : Prop :=
  r ∈ group ∧ ∀ r', r' ∈ group → f64_ltb (br_RecordsPerSecond r) (br_RecordsPerSecond r') = false.

(** [r] is a result with an estimate of nodes, and none estimates fewer. *)
Definition smallest (r : benchResult) (group : list benchResult) : Prop :=
  r ∈ group ∧ 0 < br_CapacityNodes r ∧
  ∀ r', r' ∈ group → 0 < br_CapacityNodes r' → br_CapacityNodes r <= br_CapacityNodes r'.

Definition named_results (l : list benchResult) : Prop := Forall (λ r, br_TargetName r ≠ "") l.

Lemma fastest_snoc r x group : fastest r group →
  f64_ltb (br_RecordsPerSecond r) (br_RecordsPerSecond x) = false → fastest r (group ++ [x]).
Proof.
  intros [H1 H2] Hx. split; [apply elem_of_app; auto|].
  intros r' [Hr|Hr%list_elem_of_singleton]%elem_of_app; [auto|by subst].
Qed.

Lemma fastest_new r x group : fastest r group →
  f64_ltb (br_RecordsPerSecond r) (br_RecordsPerSecond x) = true → fastest x (group ++ [x]).
Proof.
  intros [_ Hg] Hx. split; [apply elem_of_app; right; by apply list_elem_of_singleton|].
  intros r' [Hr|Hr%list_elem_of_singleton]%elem_of_app; [|subst; apply f64_ltb_irrefl].
  destruct (f64_ltb (br_RecordsPerSecond x) (br_RecordsPerSecond r')) eqn:E; [|done].
  pose proof (f64_ltb_trans _ _ _ Hx E). by rewrite Hg in *.
Qed.

(** What the scan knows after the results [seen]. *)
Record scanned (seen : list benchResult) (s : scan) : Prop := {
  scanned_winner : seen = [] ∧ s = {| winner := ""; best := f64_zero; nodeWinner := "";
                                       fewestNodes := 0 |} ∨
    ∃ r, fastest r seen ∧ winner s = br_TargetName r ∧ best s = br_RecordsPerSecond r;
  scanned_nodes : nodeWinner s = "" ∧ (∀ r, r ∈ seen → br_CapacityNodes r <= 0) ∨
    ∃ r, smallest r seen ∧ nodeWinner s = br_TargetName r ∧ fewestNodes s = br_CapacityNodes r;
}.

Lemma scan_step_winner seen s x : named_results (seen ++ [x]) → scanned seen s →
  ∃ r, fastest r (seen ++ [x]) ∧ winner (scan_step s x) = br_TargetName r ∧
       best (scan_step s x) = br_RecordsPerSecond r.
Proof.
  intros Hn [[[-> ->]|(r&Hr&Hw&Hb)] _]; cbn.
  - exists x. split_and!; [|done..]. split; [by constructor|].
    intros r' ->%list_elem_of_singleton. apply f64_ltb_irrefl.
  - rewrite Hw, Hb. apply Forall_app in Hn as [Hn _].
    pose proof (proj1 (Forall_forall _ _) Hn r (proj1 Hr)) as He. apply String.eqb_neq in He.
    rewrite He. cbn. destruct (f64_ltb _ _) eqn:E.
    + exists x. split; [by eapply fastest_new|done].
    + exists r. split; [by apply fastest_snoc|done].
Qed.

Lemma smallest_snoc r x group : smallest r group →
  (0 < br_CapacityNodes x → br_CapacityNodes r <= br_CapacityNodes x) → smallest r (group ++ [x]).
Proof.
  intros (H1&H2&H3) Hx. split_and!; [apply elem_of_app; auto|done|].
  intros r' [Hr|Hr%list_elem_of_singleton]%elem_of_app; [auto|by subst].
Qed.

Lemma smallest_new x group : 0 < br_CapacityNodes x →
  (∀ r, r ∈ group → 0 < br_CapacityNodes r → br_CapacityNodes x <= br_CapacityNodes r) →
  smallest x (group ++ [x]).
Proof.
  intros Hx Hg. split_and!; [apply elem_of_app; right; by apply list_elem_of_singleton|done|].
  intros r' [Hr|Hr%list_elem_of_singleton]%elem_of_app; [auto|subst; lia].
Qed.

Lemma scan_step_nodes seen s x : named_results (seen ++ [x]) → scanned seen s →
  nodeWinner (scan_step s x) = "" ∧ (∀ r, r ∈ seen ++ [x] → br_CapacityNodes r <= 0) ∨
  ∃ r, smallest r (seen ++ [x]) ∧ nodeWinner (scan_step s x) = br_TargetName r ∧
       fewestNodes (scan_step s x) = br_CapacityNodes r.
Proof.
  intros Hn [_ [[Hw Hz]|(r&Hr&Hw&Hf)]]; cbn; rewrite Hw; cbn.
  - rewrite andb_true_r. destruct (Z.ltb_spec 0 (br_CapacityNodes x)).
    + right. exists x. split; [|done]. apply smallest_new; [done|].
      intros r Hr. specialize (Hz r Hr). lia.
    + left. split; [done|]. intros r [Hr| ->%list_elem_of_singleton]%elem_of_app; auto.
  - apply Forall_app in Hn as [Hn _].
    pose proof (proj1 (Forall_forall _ _) Hn r (proj1 Hr)) as He. apply String.eqb_neq in He.
    rewrite He, Hf. cbn. right. destruct (Z.ltb_spec 0 (br_CapacityNodes x)); cbn.
    + destruct (Z.ltb_spec (br_CapacityNodes x) (br_CapacityNodes r)).
      * exists x. split; [|done]. apply smallest_new; [done|]. destruct Hr as (_&_&Hr).
        intros r' Hr' Hp. specialize (Hr r' Hr' Hp). lia.
      * exists r. split; [|done]. by apply smallest_snoc; [|lia].
    + exists r. split; [|done]. apply smallest_snoc; [done|lia].
Qed.

Lemma scan_group_spec group : named_results group → scanned group (scan_group group).
Proof.
  unfold scan_group. induction group as [|x seen IH] using rev_ind; intros Hn.
  - split; [by left|]. left. split; [done|]. by intros r Hr%not_elem_of_nil.
  - rewrite foldl_app. cbn [foldl]. assert (named_results seen) as Hs by by apply Forall_app in Hn as [].
    specialize (IH Hs). split; [right; by apply scan_step_winner|by apply scan_step_nodes].
Qed.

#[export] Instance by_target_total : Total by_target.
Proof. intros a b. apply (total String.le). Qed.

(** Grouping by a key loses and repeats nothing. *)
Lemma group_permutation {A} (key : A → string) (names : list string) : NoDup names → ∀ l,
  Forall (λ x, key x ∈ names) l → names ≫= (λ n, filter (λ x, key x = n) l) ≡ₚ l.
Proof.
  induction 1 as [|n names Hn _ IH]; intros l Hl.
  - destruct l as [|x l]; [done|]. apply Forall_cons in Hl as [Hx%not_elem_of_nil _]. done.
  - csimpl. etrans; [|apply (filter_app_complement (λ x, key x = n) l)].
    apply Permutation_app_head. etrans; [|apply (IH (filter (λ x, key x ≠ n) l))].
    + enough (∀ m, m ≠ n → filter (λ x, key x = m) l =
                           filter (λ x, key x = m) (filter (λ x, key x ≠ n) l)) as Hf.
      { clear -Hn Hf. induction names as [|m names IH]; [done|].
        apply not_elem_of_cons in Hn as [Hm Hn]. csimpl. rewrite IH by done.
        by rewrite Hf by done. }
      intros m Hm. symmetry. apply list_filter_filter_l. by intros x -> .
    + apply Forall_forall. intros x [Hx Hi]%list_elem_of_filter.
      apply (proj1 (Forall_forall _ _) Hl) in Hi. by apply elem_of_cons in Hi as [|].
Qed.

Lemma comparison_row_spec scenario group : group ≠ [] → named_results group →
  let row := comparison_row scenario group in
  Results row ≡ₚ group ∧ Sorted by_target (Results row) ∧
  (∃ r, fastest r (Results row) ∧ Winner row = br_TargetName r ∧
        BestRecordsPerSecondText row = RecordsPerSecondText r) ∧
  (NodeWinner row = "" ∧ FewestNodesText row = "n/a" ∧
     (∀ r, r ∈ Results row → br_CapacityNodes r <= 0) ∨
   ∃ r, smallest r (Results row) ∧ NodeWinner row = br_TargetName r ∧
        FewestNodesText row = Itoa (br_CapacityNodes r)).
Proof.
  intros Hg Hn row. assert (Results row ≡ₚ group) as Hp by apply merge_sort_Permutation.
  assert (named_results (Results row)) as Hr by (unfold named_results; by rewrite Hp).
  split_and!; [done|apply (Sorted_merge_sort _)|..].
  all: destruct (scan_group_spec _ Hr) as [Hw Hf].
  - destruct Hw as [[Hw _]|(r&H1&H2&H3)]; [by rewrite Hw in Hp; apply Permutation_nil_l in Hp|].
    exists r. split_and!; [done..|]. unfold RecordsPerSecondText. by rewrite <- H3.
  - destruct Hf as [[H1 H2]|(r&H1&H2&H3)].
    + left. split_and!; [done| |done]. cbn. change (merge_sort by_target group) with (Results row).
      by rewrite H1.
    + right. exists r. split_and!; [done..|]. cbn. change (merge_sort by_target group) with (Results row).
      rewrite H2, H3. pose proof (proj1 (Forall_forall _ _) Hr r (proj1 H1)) as He.
      apply String.eqb_neq in He. by rewrite He.
Qed.

(** C38: The comparison has one row per scenario, in order, and every result is in
    exactly one row, that of its scenario; the throughput winner of a row is a
    target no result of the row is faster than, and the node winner one that is
    estimated to need the fewest nodes, if any has an estimate. *)
Theorem bench_comparisons_spec results : named_results results →
  (buildComparisons results ≫= Results) ≡ₚ results ∧
  Sorted String.le (Scenario <$> buildComparisons results) ∧
  NoDup (Scenario <$> buildComparisons results) ∧
  ∀ row, row ∈ buildComparisons results →
    (∀ r, r ∈ Results row ↔ r ∈ results ∧ br_Scenario r = Scenario row) ∧
    Sorted by_target (Results row) ∧
    (∃ r, fastest r (Results row) ∧ Winner row = br_TargetName r ∧
          BestRecordsPerSecondText row = RecordsPerSecondText r) ∧
    (NodeWinner row = "" ∧ FewestNodesText row = "n/a" ∧
       (∀ r, r ∈ Results row → br_CapacityNodes r <= 0) ∨
     ∃ r, smallest r (Results row) ∧ NodeWinner row = br_TargetName r ∧
          FewestNodesText row = Itoa (br_CapacityNodes r)).
Proof.
  intros Hn. unfold buildComparisons. set (names := scenario_names results).
  assert (names ≡ₚ remove_dups (br_Scenario <$> results)) as Hp by apply merge_sort_Permutation.
  assert (NoDup names) as Hd by (rewrite Hp; apply NoDup_remove_dups).
  assert (∀ f, Scenario <$> ((λ s, comparison_row s (f s)) <$> names) = names) as Hs.
  { intros f. rewrite <- list_fmap_compose. by apply list_fmap_id. }
  rewrite Hs. split_and!; [|apply (Sorted_merge_sort _)|done|].
  - rewrite list_fmap_bind. etrans; [|apply (group_permutation br_Scenario names Hd results)].
    + clear. induction names as [|n names IH]; [done|]. csimpl. rewrite IH.
      apply Permutation_app_tail, merge_sort_Permutation.
    + apply Forall_forall. intros r Hr. rewrite Hp, elem_of_remove_dups. by apply list_elem_of_fmap_2.
  - intros row (s&->&Hin)%list_elem_of_fmap.
    rewrite Hp, elem_of_remove_dups in Hin. apply list_elem_of_fmap in Hin as (r0&->&Hr0).
    set (group := filter _ results).
    assert (∀ r, r ∈ group ↔ r ∈ results ∧ br_Scenario r = br_Scenario r0) as Hg.
    { intros r. unfold group. rewrite list_elem_of_filter. tauto. }
    assert (named_results group) as Hgn.
    { apply Forall_forall. intros r [Hr _]%Hg. by apply (proj1 (Forall_forall _ _) Hn). }
    assert (group ≠ []) as Hne.
    { intros He. apply (not_elem_of_nil r0). rewrite <- He. by apply Hg. }
    destruct (comparison_row_spec (br_Scenario r0) group Hne Hgn) as (H1&H2&H3&H4).
    split_and!; [|done..]. intros r. rewrite H1. apply Hg.
Qed.

(** The results of a report carry the names of its targets. *)
Lemma bench_report_named opts measure :
  Forall (λ t, t_Name t ≠ "") (bo_Targets opts) → named_results (rp_Results (bench_report opts measure)).
Proof.
  intros Ht. apply Forall_forall. intros r. cbn. intros (s&Hr&_)%list_elem_of_bind.
  apply list_elem_of_bind in Hr as (t&Hr%list_elem_of_singleton&Hin).
  apply (proj1 (Forall_forall _ _) Ht) in Hin. subst r. destruct (measure t s) as [a e].
  unfold runScenario, summarize. by destruct (estimateNodes _ _).
Qed.

(** ** Witnesses *)

(** A URL parser that knows the scheme http. *)
Definition sample_Parse (s : string) : res parsedURL :=
  if HasPrefix s "http://"
  then Ok {| pu_Scheme := "http"; pu_Host := TrimPrefix s "http://";
             pu_URL := {| Path := ""; RawPath := "" |} |}
  else Err (ENew "no scheme").

Definition sample_flags : bench_flags := {|
  b_url := "http://go:8080"; b_confluentURL := "http://java:8082/"; b_topic := "orders";
  b_duration := 30; b_clients := 0; b_records := 0; b_payloadBytes := 0; b_requests := 0;
  b_timeout := 30; b_maxSamples := 10; b_keyPrefix := ""; b_format := ""; b_htmlPath := "";
  b_suite := true; b_payloadSizes := "128, 1KB"; b_recordsPerRequest := "1,100";
  b_clientCounts := "4"; b_formats := "json,bin"; b_compressionLabels := "";
  b_acksLabels := "all,1"; b_compressionLabel := ""; b_acksLabel := "";
  b_capacityTarget := f64_of_Z 1000000; b_capacityHeadroom := f64_zero |}.

Lemma bench_options_valid_witness : ∃ o,
  buildOptions sample_Parse 0 "now" [] sample_flags = Ok o ∧
  length (bo_Scenarios o) = 16%nat ∧ Forall (good_target sample_Parse) (bo_Targets o).
Proof.
  destruct (buildOptions sample_Parse 0 "now" [] sample_flags) as [o|] eqn:E; [|by vm_compute in E].
  exists o. split; [done|]. split; [vm_compute in E; by injection E as <-|].
  apply (bench_options_valid sample_Parse 0 "now" [] sample_flags o); [constructor|exact E].
Defined.

Definition sample_opts : benchOptions := {|
  bo_Topic := "orders"; bo_Duration := Second; bo_Requests := 2; bo_Timeout := Second;
  bo_MaxSamples := 10; bo_KeyPrefix := ""; bo_Targets := [{| t_Name := "go"; t_URL := "http://go" |};
    {| t_Name := "java"; t_URL := "http://java" |}];
  bo_Scenarios := [{| PayloadBytes := 1; RecordsPerRequest := 10; Clients := 1; Format := "json";
                      Compression := "runtime"; Acks := "runtime" |}];
  bo_HTMLPath := ""; bo_Suite := false; bo_GeneratedAt := "now";
  bo_Capacity := {| TargetRecordsPerSecond := f64_of_Z 100; Headroom := f64_zero |} |}.

(** The first target answers ten times as many requests as the second. *)
Definition sample_measure (t : targetSpec) (s : scenarioSpec) : list result * Z :=
  (replicate (if String.eqb (t_Name t) "go" then 10%nat else 1%nat)
     {| r_status := 200; r_records := 10; r_bytes := 50; r_latency := Millisecond; r_err := None |},
   Second).

Definition sample_report : benchReport := bench_report sample_opts sample_measure.

Example sample_winners :
  (λ r, (Winner r, BestRecordsPerSecondText r, NodeWinner r, FewestNodesText r))
    <$> rp_Comparisons sample_report = [("go", "100.00", "go", "1")].
Proof. by vm_compute. Qed.

Lemma bench_comparisons_spec_witness :
  named_results (rp_Results sample_report) ∧
  (buildComparisons (rp_Results sample_report) ≫= Results) ≡ₚ rp_Results sample_report.
Proof.
  assert (named_results (rp_Results sample_report)) as Hn.
  { apply bench_report_named. by repeat constructor. }
  split; [exact Hn|]. exact (proj1 (bench_comparisons_spec _ Hn)).
Defined.

(** ** Where the driver goes wrong *)

(** A size beyond the machine's integers wraps around instead of being refused. *)
Lemma parseByteSize_wraps : parseByteSize "18014398509481985KiB" = Ok 1024.
Proof. by vm_compute. Qed.

(** An estimate beyond the machine's integers becomes a single node. *)
Lemma estimateNodes_overflow :
  estimateNodes {| TargetRecordsPerSecond := f64_of_Z (10 ^ 19); Headroom := f64_zero |} (f64_of_Z 1)
  = (1, "1").
Proof. by vm_compute. Qed.

(** A target of NaN passes the checks. *)
Lemma nan_capacity_accepted :
  is_ok (buildOptions sample_Parse 0 "now" []
    {| b_url := "http://go"; b_confluentURL := ""; b_topic := "t"; b_duration := 1; b_clients := 1;
       b_records := 1; b_payloadBytes := 0; b_requests := 0; b_timeout := 1; b_maxSamples := 1;
       b_keyPrefix := ""; b_format := "json"; b_htmlPath := ""; b_suite := false;
       b_payloadSizes := ""; b_recordsPerRequest := ""; b_clientCounts := ""; b_formats := "";
       b_compressionLabels := ""; b_acksLabels := ""; b_compressionLabel := ""; b_acksLabel := "";
       b_capacityTarget := S754_nan; b_capacityHeadroom := f64_zero |}) = true.
Proof. by vm_compute. Qed.
