(* ===== verification/HtmlReport.v ===== *)
(** * The HTML report of cmd/bench-produce

    The template of [htmlReportTemplate] as [html/template] executes it, piece by
    piece: text of the template, and data, which is escaped.  Data only ever
    stands in element content, so there is one escaper; the class attributes are
    chosen, not filled in.  At the end [writeHTMLReport] and [main]. *)

From S2P Require Import Prelude.
From S2P Require Import GoStrings.
From S2P Require Import Strconv.
From S2P Require Import GoErrors.
From S2P Require Import Url.
From S2P Require Import Main.
From S2P Require Import GoFloat.
From S2P Require Import GoFmt.
From S2P Require Import GoFile.
From S2P Require Import Bench.
Local Open Scope Z_scope.

(** ** [html/template] *)

(** [htmlReplacementTable]. *)
Definition escape_byte (c : ascii) : string :=
  if bool_decide (bval c = 0) then String "239" (String "191" (String "189" ""))
  else if Ascii.eqb c dq then "&#34;"
  else if Ascii.eqb c "&" then "&amp;"
  else if bool_decide (bval c = 39) then "&#39;"
  else if Ascii.eqb c "+" then "&#43;"
  else if Ascii.eqb c "<" then "&lt;"
  else if Ascii.eqb c ">" then "&gt;"
  else String c "".

(** [htmlEscaper] on element content. *)
Definition html_escape (s : string) : string := replace_bytes escape_byte s.

Inductive piece :=
  | Text (s : string)              (* of the template *)
  | Data (s : string).             (* of the report *)

Definition render_piece (p : piece) : string :=
  match p with Text s => s | Data s => html_escape s end.
Definition render (ps : list piece) : string := concat_s (render_piece <$> ps).

(** Lines of the template, the value of an action, a number, [if] and [range]. *)
Definition raw (lines : list string) : list piece := [Text (qt (Join lines nl))].
Definition val (s : string) : list piece := [Data s].
Definition count {A} (l : list A) : string := Itoa (Z.of_nat (length l)).
Definition when (b : bool) (ps : list piece) : list piece := if b then ps else [].
Definition each {A} (f : A → list piece) (l : list A) : list piece := mbind f l.

(** ** The template *)

(** The page up to its style sheet. *)
Definition page_open : list piece :=
  raw ["<!doctype html>"; "<html lang='en'>"; "<head>"; "  <meta charset='utf-8'>";
       "  <meta name='viewport' content='width=device-width, initial-scale=1'>";
       "  <title>Kafka REST Proxy Benchmark Report</title>"; "  <style>"; ""].

Definition style_sheet : list piece :=
  raw ["    :root {"; "      color-scheme: light dark;"; "      --bg: Canvas;";
       "      --fg: CanvasText;"; "      --muted: color-mix(in srgb, CanvasText 65%, Canvas);";
       "      --card: color-mix(in srgb, Canvas 92%, CanvasText);";
       "      --border: color-mix(in srgb, CanvasText 18%, Canvas);";
       "      --accent: #3b82f6;"; "      --good: #16a34a;"; "      --bad: #dc2626;"; "    }";
       "    * { box-sizing: border-box; }"; "    body {"; "      margin: 0;";
       "      font-family: ui-sans-serif, system-ui, -apple-system, BlinkMacSystemFont, 'Segoe UI', sans-serif;";
       "      background: var(--bg);"; "      color: var(--fg);"; "      line-height: 1.45;";
       "    }"; "    main {"; "      width: min(1280px, calc(100vw - 32px));";
       "      margin: 32px auto;"; "    }";
       "    h1 { margin: 0 0 6px; font-size: clamp(1.6rem, 2vw, 2.2rem); }";
       "    h2 { margin: 28px 0 12px; font-size: 1.1rem; }";
       "    .muted { color: var(--muted); }"; "    .grid {"; "      display: grid;";
       "      grid-template-columns: repeat(4, minmax(0, 1fr));"; "      gap: 12px;";
       "      margin: 24px 0;"; "    }"; "    .card {";
       "      border: 1px solid var(--border);"; "      border-radius: 14px;";
       "      padding: 16px;"; "      background: var(--card);"; "    }"; "    .tldr {";
       "      border: 1px solid color-mix(in srgb, var(--accent) 45%, var(--border));";
       "      border-radius: 14px;"; "      padding: 16px 18px;"; "      margin: 24px 0;";
       "      background: color-mix(in srgb, var(--accent) 9%, Canvas);"; "    }";
       "    .tldr h2 { margin-top: 0; }"; "    .tldr p { margin: 0 0 10px; }";
       "    .tldr ul { margin: 0; padding-left: 20px; }";
       "    .tldr li + li { margin-top: 6px; }"; "    .label {"; "      color: var(--muted);";
       "      font-size: .85rem;"; "      margin-bottom: 6px;"; "    }"; "    .value {";
       "      font-size: 1.45rem;"; "      font-weight: 650;"; "      letter-spacing: -.02em;";
       "    }"; "    .ok { color: var(--good); }"; "    .bad { color: var(--bad); }";
       "    table {"; "      width: 100%;"; "      border-collapse: collapse;";
       "      border: 1px solid var(--border);"; "      border-radius: 14px;";
       "      overflow: hidden;"; "      margin-bottom: 20px;"; "    }"; "    th, td {";
       "      text-align: left;"; "      padding: 9px 10px;";
       "      border-bottom: 1px solid var(--border);"; "      vertical-align: top;";
       "      white-space: nowrap;"; "    }";
       "    th { color: var(--muted); font-weight: 600; }";
       "    tr:last-child th, tr:last-child td { border-bottom: 0; }";
       "    .scenario { white-space: normal; min-width: 280px; }";
       "    .target { font-weight: 650; }"; "    code {";
       "      background: color-mix(in srgb, CanvasText 8%, Canvas);";
       "      padding: 2px 5px;"; "      border-radius: 5px;"; "    }";
       "    .scroll { overflow-x: auto; }"; "    @media (max-width: 760px) {";
       "      .grid { grid-template-columns: repeat(2, minmax(0, 1fr)); }"; "    }";
       "    @media (max-width: 460px) {"; "      .grid { grid-template-columns: 1fr; }";
       "    }"; ""].

(** The rest of the head, the title and the line under it. *)
Definition heading (r : benchReport) : list piece :=
  raw ["  </style>"; "</head>"; "<body>"; "<main>";
       "  <h1>Kafka REST Proxy Benchmark Report</h1>"; "  <div class='muted'>Generated "] ++
  val (rp_GeneratedAt r) ++
  raw [". "] ++
  (if rp_Suite r
     then raw ["Suite mode"]
     else raw ["Single scenario"]) ++
  raw [" across "] ++
  val (count (rp_Targets r)) ++
  raw [" target(s).</div>"; "  "].

Definition capacity_section (capacity : capacityReport) : list piece :=
  when (Enabled capacity) (
    raw [""; "  <p class='muted'>"; "    Capacity target: <strong>"] ++
    val (TargetText capacity) ++
    raw [" records/sec</strong> with"; "    <strong>"] ++
    val (HeadroomText capacity) ++
    raw ["</strong> headroom"; "    (effective target "] ++
    val (EffectiveText capacity) ++
    raw [" records/sec). "] ++
    val (Description capacity) ++
    raw [""; "  </p>"; "  "]).

Definition bullet (text : string) : list piece :=
  raw ["<li>"] ++
  val (text) ++
  raw ["</li>"].

Definition tldr_section (tldr : tldrReport) : list piece :=
  when (tl_Enabled tldr) (
    raw [""; "  <section class='tldr' aria-label='Benchmark TLDR'>"; "    <h2>TL;DR</h2>";
         "    <p>"] ++
    val (Lead tldr) ++
    raw ["</p>"; "    "] ++
    when (negb (length (Bullets tldr) =? 0)%nat) (
      raw [""; "    <ul>"; "      "] ++
      each bullet (Bullets tldr) ++
      raw [""; "    </ul>"; "    "]) ++
    raw [""; "  </section>"; "  "]).

(** The cards of the first result. *)
Definition first_result (capacity : capacityReport) (res : benchResult) : list piece :=
  raw [""; "  <section class='grid' aria-label='First benchmark summary'>";
       "    <div class='card'><div class='label'>First result records/sec</div><div class='value'>"] ++
  val (RecordsPerSecondText res) ++
  raw ["</div></div>";
       "    <div class='card'><div class='label'>First result requests/sec</div><div class='value'>"] ++
  val (RequestsPerSecondText res) ++
  raw ["</div></div>";
       "    <div class='card'><div class='label'>First result p99 latency</div><div class='value'>"] ++
  val (latency_text (br_LatencyP99 res)) ++
  raw ["</div></div>"; "    "] ++
  (if (Enabled capacity)
     then raw ["";
               "    <div class='card'><div class='label'>First result estimated nodes</div><div class='value'>"] ++
          val (br_CapacityNodesText res) ++
          raw ["</div></div>"; "    "]
     else raw ["";
               "    <div class='card'><div class='label'>First result failure rate</div><div class='value "] ++
          (if br_FailedRequests res =? 0
             then raw ["ok"]
             else raw ["bad"]) ++
          raw ["'>"] ++
          val (FailureRateText res) ++
          raw ["</div></div>"; "    "]) ++
  raw [""; "  </section>"; "  "].

Definition target_row (target : targetSpec) : list piece :=
  raw [""; "        <tr><td class='target'>"] ++
  val (t_Name target) ++
  raw ["</td><td><code>"] ++
  val (t_URL target) ++
  raw ["</code></td></tr>"; "        "].

Definition comparison_cells (capacity : capacityReport) (row : comparisonRow) : list piece :=
  raw [""; "        <tr>"; "          <td class='scenario'>"] ++
  val (Scenario row) ++
  raw ["</td>"; "          <td class='target'>"] ++
  val (Winner row) ++
  raw ["</td>"; "          <td>"] ++
  val (BestRecordsPerSecondText row) ++
  raw ["</td>"; "          "] ++
  when (Enabled capacity) (
    raw ["<td class='target'>"] ++
    val (NodeWinner row) ++
    raw ["</td><td>"] ++
    val (FewestNodesText row) ++
    raw ["</td>"]) ++
  raw [""; "        </tr>"; "        "].

Definition winners_table (capacity : capacityReport) (rows : list comparisonRow) : list piece :=
  raw [""; "  <h2>Scenario winners</h2>"; "  <div class='scroll'>"; "    <table>";
       "      <thead><tr><th>Scenario</th><th>Throughput winner</th><th>Best records/sec</th>"] ++
  when (Enabled capacity) (
    raw ["<th>Fewest-node winner</th><th>Estimated nodes</th>"]) ++
  raw ["</tr></thead>"; "      <tbody>"; "        "] ++
  each (comparison_cells capacity) rows ++
  raw [""; "      </tbody>"; "    </table>"; "  </div>"; "  "].

Definition result_row (capacity : capacityReport) (res : benchResult) : list piece :=
  raw [""; "        <tr>"; "          <td class='target'>"] ++
  val (br_TargetName res) ++
  raw ["</td>"; "          <td class='scenario'>"] ++
  val (br_Scenario res) ++
  raw ["</td>"; "          <td>"] ++
  val (Format (br_spec res)) ++
  raw ["</td>"; "          <td>"] ++
  val (RecordsPerSecondText res) ++
  raw ["</td>"; "          <td>"] ++
  val (RequestsPerSecondText res) ++
  raw ["</td>"; "          "] ++
  when (Enabled capacity) (
    raw ["<td>"] ++
    val (br_CapacityNodesText res) ++
    raw ["</td>"]) ++
  raw [""; "          <td>"] ++
  val (latency_text (br_LatencyP50 res)) ++
  raw ["</td>"; "          <td>"] ++
  val (latency_text (br_LatencyP95 res)) ++
  raw ["</td>"; "          <td>"] ++
  val (latency_text (br_LatencyP99 res)) ++
  raw ["</td>"; "          <td class='"] ++
  (if br_FailedRequests res =? 0
     then raw ["ok"]
     else raw ["bad"]) ++
  raw ["'>"] ++
  val (FailureRateText res) ++
  raw ["</td>"; "          <td>"] ++
  val (Itoa (br_SuccessRecords res)) ++
  raw ["</td>"; "          <td>"] ++
  val (Itoa (br_SuccessRequests res)) ++
  raw [" / "] ++
  val (Itoa (br_TotalRequests res)) ++
  raw ["</td>"; "          <td>"] ++
  val (MiBPerSecondText res) ++
  raw ["</td>"; "          <td>"] ++
  val (br_Elapsed res) ++
  raw ["</td>"; "        </tr>"; "        "].

(** What the template writes before it looks at the first result, *)
Definition before_results (r : benchReport) : list piece :=
  page_open ++ style_sheet ++ heading r ++
  capacity_section (rp_Capacity r) ++
  raw [""; ""; "  "] ++
  tldr_section (rp_TLDR r) ++
  raw [""; ""; "  "].

(** and after it. *)
Definition after_results (r : benchReport) : list piece :=
  let capacity := rp_Capacity r in
  raw [""; ""; "  <h2>Targets</h2>"; "  <div class='scroll'>"; "    <table>";
       "      <thead><tr><th>Name</th><th>URL</th></tr></thead>"; "      <tbody>"; "        "] ++
  each target_row (rp_Targets r) ++
  raw [""; "      </tbody>"; "    </table>"; "  </div>"; ""; "  "] ++
  when (1 <? length (rp_Targets r))%nat (winners_table capacity (rp_Comparisons r)) ++
  raw [""; ""; "  <h2>All results</h2>"; "  <div class='scroll'>"; "    <table>";
       "      <thead>"; "        <tr>"; "          <th>Target</th>";
       "          <th>Scenario</th>"; "          <th>Format</th>";
       "          <th>Records/sec</th>"; "          <th>Requests/sec</th>"; "          "] ++
  when (Enabled capacity) (
    raw ["<th>Nodes for target</th>"]) ++
  raw [""; "          <th>p50</th>"; "          <th>p95</th>"; "          <th>p99</th>";
       "          <th>Failure rate</th>"; "          <th>Success records</th>";
       "          <th>Requests</th>"; "          <th>MiB/sec</th>";
       "          <th>Elapsed</th>"; "        </tr>"; "      </thead>"; "      <tbody>";
       "        "] ++
  each (result_row capacity) (rp_Results r) ++
  raw [""; "      </tbody>"; "    </table>"; "  </div>"; ""; "  <p class='muted'>";
       "    Compression and acks values are benchmark labels. Configure each target process with the desired Kafka producer settings,";
       "    then pass each configured process as a separate <code>-target name=url</code> for apples-to-apples comparison.";
       "  </p>"; "</main>"; "</body>"; "</html>"; ""].

(** Executing the template: what it writes, and the error of [index] when there
    is no first result. *)
Definition html_report (r : benchReport) : list piece * option error :=
  match rp_Results r with
  | [] => (before_results r,
           Some (ENew "error calling index: index out of range: 0"))
  | res :: _ => (before_results r ++ first_result (rp_Capacity r) res ++ after_results r, None)
  end.

(** ** The file *)

Section file.
Context (url_Parse : string → res parsedURL).
(** [time.Now()], as in Bench.v. *)
Context (now_nanos : Z) (now_text : string).
Context (fault : list fsop → fsop → option error).
Local Notation "'let*' x ':=' c 'in' k" := (bind c (λ x, k))
  (at level 10, x pattern, c at level 100, k at level 200).

(** [os.Create] leaves an empty file, which the execution of the template
    fills, up to its error. *)
Definition writeHTMLReport (path : string) (report : benchReport) : io unit :=
  let* _ := make_parent fault path in
  let* _ := perform fault (WriteFile path "") in
  let '(page, err) := html_report report in
  let* _ := perform fault (WriteFile path (render page)) in
  match err with
  | None => ret tt
  | Some err => raise err
  end.

(** [main]: the exit code, the standard output and the file system. *)
Definition bench_main (args : list string)
    (measure : targetSpec → scenarioSpec → list result * Z) : list fsop → Z * string * list fsop :=
  λ log,
  match command_options url_Parse now_nanos now_text args with
  | inl code => (code, "", log)
  | inr opts =>
      let report := bench_report opts measure in
      let printed := concat_s (printResult <$> rp_Results report) in
      if String.eqb (bo_HTMLPath opts) "" then (0, printed, log)
      else match writeHTMLReport (bo_HTMLPath opts) report log with
           | (Err _, log) => (1, printed, log)
           | (Ok _, log) => (0, printed +:+ "html_report=" +:+ bo_HTMLPath opts +:+ nl, log)
           end
  end.
End file.
