(* ===== verification/HtmlFacts.v ===== *)
(** * Correctness of the HTML report

    Whatever texts a report holds - target names and URLs come from the command
    line, errors from the network - they end up as text on the page. *)

From S2P Require Import Prelude.
From S2P Require Import GoStrings.
From S2P Require Import Strconv.
From S2P Require Import GoErrors.
From S2P Require Import GoFloat.
From S2P Require Import GoFile.
From S2P Require Import Flag.
From S2P Require Import FlagFacts.
From S2P Require Import Bench.
From S2P Require Import BenchFacts.
From S2P Require Import HtmlReport.
Local Open Scope Z_scope.

(** ** Escaping *)

(** The bytes that open, close or delimit tags and attributes. *)
Definition markup_byte (c : ascii) : bool :=
  Ascii.eqb c "<" || Ascii.eqb c ">" || Ascii.eqb c dq || Ascii.eqb c "'".
Definition markup (s : string) : string :=
  replace_bytes (λ c, if markup_byte c then String c "" else "") s.

Lemma markup_app s t : markup (s +:+ t) = markup s +:+ markup t.
Proof. apply replace_bytes_app. Qed.

Lemma markup_escape s : markup (html_escape s) = "".
Proof.
  unfold html_escape. induction s as [|c s IH]; [done|]. cbn [replace_bytes].
  rewrite markup_app, IH, app_nil_r_s.
  destruct c as [[] [] [] [] [] [] [] []]; vm_compute; reflexivity.
Qed.

(** What a browser reads for the references the escaper writes. *)
Definition references : list (string * ascii) :=
  [("&#34;", dq); ("&amp;", "&"%char); ("&#39;", "'"%char); ("&#43;", "+"%char); ("&lt;", "<"%char);
   ("&gt;", ">"%char)].

(** What follows a prefix. *)
Fixpoint strip (p s : string) : option string :=
  match p, s with
  | EmptyString, _ => Some s
  | String a p, String b s => if Ascii.eqb a b then strip p s else None
  | String _ _, EmptyString => None
  end.
Fixpoint reference_at (refs : list (string * ascii)) (s : string) : option (ascii * string) :=
  match refs with
  | [] => None
  | (r, d) :: refs =>
      match strip r s with Some rest => Some (d, rest) | None => reference_at refs s end
  end.

Fixpoint read_text (fuel : nat) (s : string) : string :=
  match fuel, s with
  | S fuel, String c rest =>
      match reference_at references s with
      | Some (d, rest) => String d (read_text fuel rest)
      | None => String c (read_text fuel rest)
      end
  | _, _ => ""
  end.

(** No byte of the text is lost or changed, but NUL, which HTML has not. *)
Lemma html_escape_roundtrip s :
  all_bytes (λ c, negb (bool_decide (bval c = 0))) s = true →
  read_text (String.length s) (html_escape s) = s.
Proof.
  unfold html_escape. induction s as [|c s IH]; [done|]. cbn [all_bytes replace_bytes String.length].
  intros [Hc Hs]%andb_true_iff. specialize (IH Hs). set (t := replace_bytes escape_byte s) in *.
  assert (∃ u, escape_byte c +:+ t = u ∧
    read_text (S (String.length s)) u = String c (read_text (String.length s) t)) as (u&->&->);
    [|by rewrite IH].
  eexists. split; [done|]. clear IH Hs. clearbody t. revert Hc.
  destruct c as [[] [] [] [] [] [] [] []]; intros Hc; try discriminate Hc; reflexivity.
Qed.

(** ** The page *)

(** The text of the template on a page. *)
Definition skeleton (ps : list piece) : list string :=
  omap (λ p, match p with Text s => Some s | Data _ => None end) ps.

Lemma markup_render ps : markup (render ps) = markup (concat_s (skeleton ps)).
Proof.
  unfold render, skeleton. induction ps as [|p ps IH]; [done|].
  cbn [fmap list_fmap omap list_omap concat_s]. rewrite markup_app, IH.
  destruct p as [s|s]; cbn [render_piece concat_s]; [by rewrite markup_app|by rewrite markup_escape].
Qed.

Lemma skeleton_app ps qs : skeleton (ps ++ qs) = skeleton ps ++ skeleton qs.
Proof. apply omap_app. Qed.
Lemma skeleton_val s : skeleton (val s) = [].
Proof. done. Qed.
Lemma skeleton_when b ps : skeleton (when b ps) = if b then skeleton ps else [].
Proof. by destruct b. Qed.
Lemma skeleton_if (b : bool) ps qs :
  skeleton (if b then ps else qs) = if b then skeleton ps else skeleton qs.
Proof. by destruct b. Qed.
Create Rewrite HintDb skeleton.
#[local] Hint Rewrite skeleton_app skeleton_val skeleton_when skeleton_if : skeleton.

Lemma skeleton_each {A} (f g : A → list piece) l k :
  Forall2 (λ x y, skeleton (f x) = skeleton (g y)) l k →
  skeleton (each f l) = skeleton (each g k).
Proof.
  induction 1 as [|x y l k Hx _ IH]; [done|].
  change (skeleton (f x ++ each f l) = skeleton (g y ++ each g k)).
  by rewrite !skeleton_app, Hx, IH.
Qed.

(** Two reports of the same shape: as many rows and bullets, the same parts
    enabled, and the same results with failures. *)
Definition same_result (res res' : benchResult) : Prop :=
  (br_FailedRequests res =? 0) = (br_FailedRequests res' =? 0).
Record same_shape (r r' : benchReport) : Prop := {
  ss_suite : rp_Suite r = rp_Suite r';
  ss_targets : length (rp_Targets r) = length (rp_Targets r');
  ss_results : Forall2 same_result (rp_Results r) (rp_Results r');
  ss_comparisons : length (rp_Comparisons r) = length (rp_Comparisons r');
  ss_capacity : Enabled (rp_Capacity r) = Enabled (rp_Capacity r');
  ss_tldr : tl_Enabled (rp_TLDR r) = tl_Enabled (rp_TLDR r');
  ss_bullets : length (Bullets (rp_TLDR r)) = length (Bullets (rp_TLDR r'));
}.

Lemma Forall2_any {A B} (P : A → B → Prop) l k : (∀ x y, P x y) → length l = length k →
  Forall2 P l k.
Proof. intros HP Hl. apply Forall2_same_length_lookup. split; [done|]. auto. Qed.

Section pages.
Context (r r' : benchReport) (S : same_shape r r').

Lemma result_row_skeleton res res' : same_result res res' →
  skeleton (result_row (rp_Capacity r) res) = skeleton (result_row (rp_Capacity r') res').
Proof.
  intros Hr. unfold result_row. autorewrite with skeleton. by rewrite Hr, (ss_capacity _ _ S).
Qed.

Lemma first_result_skeleton res res' : same_result res res' →
  skeleton (first_result (rp_Capacity r) res) = skeleton (first_result (rp_Capacity r') res').
Proof.
  intros Hr. unfold first_result. autorewrite with skeleton. by rewrite Hr, (ss_capacity _ _ S).
Qed.

Lemma before_results_skeleton : skeleton (before_results r) = skeleton (before_results r').
Proof.
  unfold before_results, heading, capacity_section, tldr_section. autorewrite with skeleton.
  rewrite (ss_suite _ _ S), (ss_capacity _ _ S), (ss_tldr _ _ S), (ss_bullets _ _ S).
  by rewrite (skeleton_each bullet bullet (Bullets (rp_TLDR r)) (Bullets (rp_TLDR r')))
    by (apply Forall2_any; [done|apply S]).
Qed.

Lemma after_results_skeleton : skeleton (after_results r) = skeleton (after_results r').
Proof.
  unfold after_results, winners_table. autorewrite with skeleton.
  rewrite (ss_capacity _ _ S), (ss_targets _ _ S).
  rewrite (skeleton_each target_row target_row (rp_Targets r) (rp_Targets r'))
    by (apply Forall2_any; [done|apply S]).
  rewrite (skeleton_each (comparison_cells (rp_Capacity r)) (comparison_cells (rp_Capacity r'))
             (rp_Comparisons r) (rp_Comparisons r')).
  2:{ apply Forall2_any; [|apply S]. intros x y. unfold comparison_cells.
      autorewrite with skeleton. by rewrite (ss_capacity _ _ S). }
  rewrite (skeleton_each (result_row (rp_Capacity r)) (result_row (rp_Capacity r'))
             (rp_Results r) (rp_Results r')); [done|].
  eapply Forall2_impl; [apply S|]. apply result_row_skeleton.
Qed.
End pages.


(** A report with other targets and another date. *)
Definition retargeted (r : benchReport) (generated : string) (targets : list targetSpec)
  : benchReport :=
  {| rp_GeneratedAt := generated; rp_Suite := rp_Suite r; rp_Targets := targets;
     rp_Results := rp_Results r; rp_Comparisons := rp_Comparisons r;
     rp_Capacity := rp_Capacity r; rp_TLDR := rp_TLDR r |}.

Lemma retargeted_shape r generated targets :
  length targets = length (rp_Targets r) → same_shape (retargeted r generated targets) r.
Proof.
  intros Hl. split; cbn [retargeted rp_Suite rp_Targets rp_Results rp_Comparisons rp_Capacity rp_TLDR];
    try done.
  apply Forall2_same_length_lookup. split; [done|].
  intros i x y Hx Hy. unfold same_result. congruence.
Qed.

Definition hostile_targets : list targetSpec :=
  [{| t_Name := "<script>alert(1)</script>"; t_URL := qt "http://x/?'><img>" |};
   {| t_Name := "java"; t_URL := "http://java" |}].


(** ** The run of the driver *)

(** ** From the command line *)

Section command.
Context (url_Parse : string → res Main.parsedURL) (now_nanos : Z) (now_text : string).

(** Every target of the command line has been through [parseTarget]. *)
Lemma command_options_built args o :
  command_options url_Parse now_nanos now_text args = inr o → ∃ targets f,
  Forall (λ t, ∃ v, parseTarget url_Parse now_nanos v = Ok t) targets ∧
  buildOptions url_Parse now_nanos now_text targets f = Ok o.
Proof.
  unfold command_options, CommandLine_Parse.
  destruct (Parse _ _ _) as [[[f targets] rest]|] eqn:E; [|done].
  destruct (buildOptions _ _ _ targets f) as [opts|] eqn:Eo; [|done]. intros [= <-].
  exists targets, f. split; [|done].
  apply (Parse_invariant _ (λ x, Forall (λ t, ∃ v, parseTarget url_Parse now_nanos v = Ok t) x.2))
    in E; [done| |constructor].
  unfold bench_formal, String_flag, Int_flag, Float64_flag, Duration_flag, Bool_flag.
  repeat apply Forall_cons_2; [..|done]; cbn [fl_Set]; intros v g g' Hg Hok; set_cases Hg.
  all: try (by injection Hg as <-).
  unfold targetFlags_Set in Hg. destruct (parseTarget _ _ _) as [t|] eqn:Et; [|done].
  injection Hg as <-. apply Forall_app_2; [done|]. apply Forall_singleton. by exists v.
Qed.

(** The template never fails on the report of a run. *)
Lemma bench_report_renders args o measure :
  command_options url_Parse now_nanos now_text args = inr o →
  (html_report (bench_report o measure)).2 = None.
Proof.
  intros (targets&f&Ht&Ho)%command_options_built.
  apply bench_options_valid in Ho as (_&_&_&_&Hts&_&Hss&_); [|done].
  unfold html_report, bench_report. cbn [rp_Results].
  destruct (bo_Scenarios o) as [|scenario l]; [done|].
  destruct (bo_Targets o) as [|target l']; [done|]. done.
Qed.

Lemma command_options_exit args code :
  command_options url_Parse now_nanos now_text args = inl code → code = 0 ∨ code = 2.
Proof.
  unfold command_options, CommandLine_Parse.
  destruct (Parse _ _ _) as [[[f targets] rest]|err].
  - destruct (buildOptions _ _ _ _ _); [done|]. intros [= <-]. by right.
  - intros [= <-]. case_decide; auto.
Qed.
End command.

(** What [writeHTMLReport] leaves on disk: the page, when nothing fails. *)
Lemma writeHTMLReport_written path r files :
  (html_report r).2 = None →
  let '(res, log) := writeHTMLReport (λ _ _, None) path r [] in
  res = Ok tt ∧ files_after files log !! path = Some (render (html_report r).1).
Proof.
  intros He. unfold writeHTMLReport, make_parent.
  destruct (html_report r) as [page err]. cbn [fst snd] in *. subst err.
  destruct (_ || _)%bool; (split; [reflexivity|]); cbn; by rewrite lookup_insert_eq.
Qed.

(** The driver exits at once when its command line is refused or asks for help,
    with 1 when the
    report could not be written, and otherwise with 0, the report being
    announced exactly when one was asked for. *)
Lemma bench_main_exits url_Parse now_nanos now_text fault args measure log :
  let '(code, output, _) := bench_main url_Parse now_nanos now_text fault args measure log in
  match command_options url_Parse now_nanos now_text args with
  | inl refused => code = refused ∧ output = ""
  | inr o =>
      let printed := concat_s (printResult <$> rp_Results (bench_report o measure)) in
      let written := (writeHTMLReport fault (bo_HTMLPath o) (bench_report o measure) log).1 in
      if String.eqb (bo_HTMLPath o) "" then code = 0 ∧ output = printed
      else if is_ok written
      then code = 0 ∧ output = printed +:+ "html_report=" +:+ bo_HTMLPath o +:+ nl
      else code = 1 ∧ output = printed
  end.
Proof.
  unfold bench_main. destruct (command_options _ _ _ _) as [code|o]; [done|].
  destruct (String.eqb (bo_HTMLPath o) ""); [done|].
  by destruct (writeHTMLReport _ _ _ _) as [[] ?].
Qed.
