(* ===== verification/Sha256.v ===== *)
(** * Go's [crypto/sha256]

    [Sum256] over a string of bytes, as FIPS 180-4 defines it, and the
    hexadecimal text of a digest. *)

From S2P Require Import Prelude.
From S2P Require Import GoStrings.
Local Open Scope Z_scope.

(** ** Words of 32 bits *)

Definition add32 (x y : Z) : Z := u32 (x + y).
Definition rotr (n x : Z) : Z := Z.lor (Z.shiftr x n) (u32 (Z.shiftl x (32 - n))).
Definition not32 (x : Z) : Z := Z.lxor x (2 ^ 32 - 1).

Definition Ch (x y z : Z) : Z := Z.lxor (Z.land x y) (Z.land (not32 x) z).
Definition Maj (x y z : Z) : Z := Z.lxor (Z.lxor (Z.land x y) (Z.land x z)) (Z.land y z).
Definition Sigma0 (x : Z) : Z := Z.lxor (Z.lxor (rotr 2 x) (rotr 13 x)) (rotr 22 x).
Definition Sigma1 (x : Z) : Z := Z.lxor (Z.lxor (rotr 6 x) (rotr 11 x)) (rotr 25 x).
Definition sigma0 (x : Z) : Z := Z.lxor (Z.lxor (rotr 7 x) (rotr 18 x)) (Z.shiftr x 3).
Definition sigma1 (x : Z) : Z := Z.lxor (Z.lxor (rotr 17 x) (rotr 19 x)) (Z.shiftr x 10).

(** The tables of the standard: the first 32 bits after the point of the cube
    roots of the first 64 primes, and of the square roots of the first eight. *)
Definition is_prime (n : nat) : bool :=
  (2 <=? n)%nat && forallb (λ d, negb (n mod d =? 0)%nat) (seq 2 (n - 2)).
Definition first_primes (n : nat) : list Z :=
  take n (Z.of_nat <$> List.filter is_prime (seq 0 312)).

(** The integer part of a cube root, bit by bit from the top. *)
Fixpoint icbrt (bits : nat) (r z : Z) : Z :=
  match bits with
  | O => r
  | S b => let r' := r + 2 ^ Z.of_nat b in icbrt b (if r' ^ 3 <=? z then r' else r) z
  end.

Definition round_constants : list Z :=
  Eval vm_compute in (λ p, icbrt 40 0 (p * 2 ^ 96) mod 2 ^ 32) <$> first_primes 64.
Definition initial_hash : list Z :=
  Eval vm_compute in (λ p, Z.sqrt (p * 2 ^ 64) mod 2 ^ 32) <$> first_primes 8.

(** ** One block *)

(** The message schedule, latest word first. *)
Fixpoint extend (n : nat) (w : list Z) : list Z :=
  match n with
  | O => w
  | S n =>
      let at_ i := nth i w 0 in
      extend n (add32 (add32 (sigma1 (at_ 1%nat)) (at_ 6%nat))
                      (add32 (sigma0 (at_ 14%nat)) (at_ 15%nat)) :: w)
  end.

Definition schedule (block : list Z) : list Z := reverse (extend 48 (reverse block)).

Definition round (h : list Z) (kw : Z * Z) : list Z :=
  match h with
  | [a; b; c; d; e; f; g; h] =>
      let t1 := add32 (add32 (add32 h (Sigma1 e)) (add32 (Ch e f g) kw.1)) kw.2 in
      let t2 := add32 (Sigma0 a) (Maj a b c) in
      [add32 t1 t2; a; b; c; add32 d t1; e; f; g]
  | _ => h
  end.

Definition compress (h block : list Z) : list Z :=
  zip_with add32 h (foldl round h (zip round_constants (schedule block))).

(** ** The whole message *)

Fixpoint bytes_of (s : string) : list Z :=
  match s with
  | EmptyString => []
  | String c s => bval c :: bytes_of s
  end.

Definition be_bytes (n : nat) (z : Z) : list Z :=
  (λ i, (z / 256 ^ Z.of_nat i) mod 256) <$> reverse (seq 0 n).

(** A one bit, zeros, and the length in bits fill the last block. *)
Definition pad (l : list Z) : list Z :=
  let n := Z.of_nat (length l) in
  l ++ [0x80] ++ replicate (Z.to_nat ((55 - n) mod 64)) 0 ++ be_bytes 8 (8 * n).

Definition word (b : list Z) : Z := foldl (λ z x, z * 256 + x) 0 b.

Fixpoint chunks {A} (fuel k : nat) (l : list A) : list (list A) :=
  match fuel, l with
  | S fuel, _ :: _ => take k l :: chunks fuel k (drop k l)
  | _, _ => []
  end.

(** [sha256.Sum256]. *)
Definition Sum256 (s : string) : list Z :=
  let l := pad (bytes_of s) in
  let words := word <$> chunks (length l) 4 l in
  let h := foldl compress initial_hash (chunks (length words) 16 words) in
  h ≫= be_bytes 4.

(** [hex.EncodeToString]. *)
Definition hex_byte (z : Z) : string :=
  let d x := bchr (if x <? 10 then 48 + x else 87 + x) in String (d (z / 16)) (String (d (z mod 16)) "").
Definition hex_EncodeToString (l : list Z) : string := concat_s (hex_byte <$> l).

Example sha256_ex :
  (hex_EncodeToString (Sum256 ""), hex_EncodeToString (Sum256 "abc"),
   hex_EncodeToString (Sum256 "abcdbcdecdefdefgefghfghighijhijkijkljklmklmnlmnomnopnopq")) =
  ("e3b0c44298fc1c149afbf4c8996fb92427ae41e4649b934ca495991b7852b855",
   "ba7816bf8f01cfea414140de5dae2223b00361a396177a9cb410ff61f20015ad",
   "248d6a61d20638b8e5c026930c3e6039a33ce45964ff2167f6ecedd419db06c1").
Proof. vm_compute. reflexivity. Qed.
