(* ===== verification/LicenseBundle.v ===== *)
(** * cmd/license-bundle/main.go

    The tool that copies the licence files of the Go modules into a bundle: the
    module list, the choice and the names of the files, and the writes.  The go
    command, the module cache it fills and the failures of the file system are
    parameters; what the tool does to the file system is the list of its
    operations. *)

From stdpp Require Import sorting.
From S2P Require Import Prelude.
From S2P Require Import GoStrings.
From S2P Require Import GoErrors.
From S2P Require Import Json.
From S2P Require Import Strconv.
From S2P Require Import Url.
From S2P Require Import Paths.
From S2P Require Import GoFile.
From S2P Require Import Flag.
From S2P Require Import Sha256.
Local Open Scope Z_scope.

(** ** The modules *)

Record moduleInfo := { m_Path : string; m_Version : string; m_Dir : string; m_Main : bool }.
Definition zero_moduleInfo : moduleInfo :=
  {| m_Path := ""; m_Version := ""; m_Dir := ""; m_Main := false |}.

Definition decode_bool (cx : dctx) (cur : bool) (j : json) : dec bool :=
  match jval j with
  | JNull => dret cur
  | JBool b => dret b
  | v => type_error cx (kind_name v) "bool" cur
  end.

Definition module_field (cur : moduleInfo) (key : string) (j : json) : dec moduleInfo :=
  let cx f := in_field ctx0 "moduleInfo" f in
  let 'Build_moduleInfo path version dir main := cur in
  match field_of ["Path"; "Version"; "Dir"; "Main"] key with
  | Some 0%nat => let! x := decode_string (cx "Path") path j in
                  dret (Build_moduleInfo x version dir main)
  | Some 1%nat => let! x := decode_string (cx "Version") version j in
                  dret (Build_moduleInfo path x dir main)
  | Some 2%nat => let! x := decode_string (cx "Dir") dir j in
                  dret (Build_moduleInfo path version x main)
  | Some 3%nat => let! x := decode_bool (cx "Main") main j in
                  dret (Build_moduleInfo path version dir x)
  | _ => dret cur
  end.

(** [Decoder.More] and [Decoder.Decode] on the output of [go list]: the next
    module and the text after it. *)
Definition next_module (data : string) : option (res (moduleInfo * string)) :=
  match skip_space data with
  | EmptyString => None
  | String c _ =>
      if Ascii.eqb c "]" || Ascii.eqb c "}" then None
      else Some (match read_value data with
                 | Err e => Err e
                 | Ok (j, rest) =>
                     match decode_struct module_field "main.moduleInfo" ctx0 zero_moduleInfo j None with
                     | (inl e, _) => Err e
                     | (inr m, None) => Ok (m, rest)
                     | (inr _, Some e) => Err e
                     end
                 end)
  end.

(** The loop of [listModules]; a module takes at least a byte. *)
Fixpoint decode_modules (fuel : nat) (data : string) : res (list moduleInfo) :=
  match fuel with
  | O => Ok []
  | S fuel =>
      match next_module data with
      | None => Ok []
      | Some (Err err) => Err (EWrap "decode module list: " err)
      | Some (Ok (mod_, rest)) =>
          let? mods := decode_modules fuel rest in
          Ok (if m_Main mod_ then mods else mod_ :: mods)
      end
  end.

Definition module_before (a b : moduleInfo) : Prop :=
  m_Path a ≠ m_Path b ∧ String.le (m_Path a) (m_Path b) ∨
  m_Path a = m_Path b ∧ String.le (m_Version a) (m_Version b).
#[export] Instance module_before_dec a b : Decision (module_before a b).
Proof. unfold module_before. apply _. Defined.

(** [fmt.Errorf(prefix + "%w\n%s", err, out)]. *)
Definition with_output (prefix : string) (err : error) (out : string) : error :=
  EForeign (prefix +:+ Error err +:+ nl +:+ out)
    (filter (λ s, errors_Is err s = true)
       [ErrOverloaded; errContextCanceled; ctxCanceled; ctxDeadlineExceeded; ioEOF]).

(** What a run of the go command comes to: its output and whether it failed. *)
Definition command : Type := string * option error.

Definition listModules (download list_ : command) : res (list moduleInfo) :=
  match download with
  | (out, Some err) => Err (with_output "go mod download all: " err out)
  | _ =>
      match list_ with
      | (out, Some err) => Err (with_output "go list modules: " err out)
      | (out, None) =>
          let? modules := decode_modules (S (String.length out)) out in
          Ok (merge_sort module_before modules)
      end
  end.

(** ** Names *)

Definition license_name (name : string) : bool :=
  let name := ToLower name in
  let name := TrimSuffix name ".md" in
  let name := TrimSuffix name ".txt" in
  let name := TrimSuffix name ".rst" in
  String.eqb name "license" || String.eqb name "licence" || String.eqb name "copying" ||
  String.eqb name "notice" || String.eqb name "copyright" ||
  HasPrefix name "license-" || HasPrefix name "license." ||
  HasPrefix name "licence-" || HasPrefix name "licence.".

(** [fs.DirEntry]. *)
Record dirEntry := { e_Name : string; e_IsDir : bool }.
Definition isLicenseLike (entry : dirEntry) : bool := license_name (e_Name entry).

Definition safe_byte (c : ascii) : string :=
  if Ascii.eqb c "/" || Ascii.eqb c "\" then "__"
  else if Ascii.eqb c ":" || Ascii.eqb c " " then "_"
  else if Ascii.eqb c "@" then "_at_"
  else String c "".

Definition safeModuleDir (mod_ : moduleInfo) : string :=
  let version := if String.eqb (m_Version mod_) "" then "unknown" else m_Version mod_ in
  replace_bytes safe_byte (m_Path mod_ +:+ "@" +:+ version).

Definition sanitizeFileName (name : string) : string :=
  let name := filepath_Base name in
  let name := replace_bytes (λ c, if Ascii.eqb c "/" then "_" else String c "") name in
  if String.eqb name "." || String.eqb name "" then "LICENSE" else name.

(** ** The bundle *)

Record moduleNotice := {
  n_Path : string;
  n_Version : string;
  LicenseRefs : list string;
  n_SHA256 : string;
  Missing : bool;
}.

Local Notation "'let*' x ':=' c 'in' k" := (bind c (λ x, k))
  (at level 10, x pattern, c at level 100, k at level 200).

Section bundle.
(** The module cache, and the failures of the file system. *)
Context (ReadDir : string → option (list dirEntry)) (ReadFile : string → res string).
Context (fault : list fsop → fsop → option error).

Abbreviation perform := (perform fault).

Definition copied (entry : dirEntry) : bool := negb (e_IsDir entry || negb (isLicenseLike entry)).

(** One turn of the loop of [copyModuleLicenses]. *)
Definition copy_entry (modulesDir : string) (mod_ : moduleInfo) (entry : dirEntry)
    (notice : moduleNotice) : io moduleNotice :=
  let moduleOutDir := filepath_Join [modulesDir; safeModuleDir mod_] in
  let src := filepath_Join [m_Dir mod_; e_Name entry] in
  match ReadFile src with
  | Err err => raise (EWrap ("read license file " +:+ src +:+ ": ") err)
  | Ok body =>
      let* _ := perform (MkdirAll moduleOutDir) in
      let dstName := sanitizeFileName (e_Name entry) in
      let dst := filepath_Join [moduleOutDir; dstName] in
      let* _ := with_context ("write license file " +:+ dst +:+ ": ") (perform (WriteFile dst body)) in
      ret {| n_Path := n_Path notice; n_Version := n_Version notice;
             LicenseRefs := LicenseRefs notice ++
               [filepath_Join ["modules"; safeModuleDir mod_; dstName]];
             n_SHA256 := hex_EncodeToString (Sum256 body); Missing := Missing notice |}
  end.

Fixpoint copy_entries (modulesDir : string) (mod_ : moduleInfo) (entries : list dirEntry)
    (notice : moduleNotice) : io moduleNotice :=
  match entries with
  | [] => ret notice
  | entry :: entries =>
      if copied entry
      then let* notice := copy_entry modulesDir mod_ entry notice in
           copy_entries modulesDir mod_ entries notice
      else copy_entries modulesDir mod_ entries notice
  end.

Definition no_files (mod_ : moduleInfo) (missing : bool) : moduleNotice :=
  {| n_Path := m_Path mod_; n_Version := m_Version mod_; LicenseRefs := []; n_SHA256 := "";
     Missing := missing |}.

(** The entries [os.ReadDir] yields, when the module has a directory it can
    read. *)
Definition module_entries (mod_ : moduleInfo) : option (list dirEntry) :=
  if String.eqb (m_Dir mod_) "" then None else ReadDir (m_Dir mod_).

Definition copyModuleLicenses (modulesDir : string) (mod_ : moduleInfo) : io moduleNotice :=
  match module_entries mod_ with
  | None => ret (no_files mod_ true)
  | Some entries =>
      let* notice := copy_entries modulesDir mod_ entries (no_files mod_ false) in
      ret {| n_Path := n_Path notice; n_Version := n_Version notice;
             LicenseRefs := merge_sort String.le (LicenseRefs notice);
             n_SHA256 := n_SHA256 notice;
             Missing := (length (LicenseRefs notice) =? 0)%nat || Missing notice |}
  end.

Fixpoint copy_modules (modulesDir : string) (modules : list moduleInfo) : io (list moduleNotice) :=
  match modules with
  | [] => ret []
  | mod_ :: modules =>
      let* notice := copyModuleLicenses modulesDir mod_ in
      let* notices := copy_modules modulesDir modules in
      ret (notice :: notices)
  end.

Definition modulesReadme : string :=
  "# Generated module license files" +:+ nl +:+ nl +:+
  "This directory is generated by `make generate-licenses`." +:+ nl +:+
  "It contains copied license/notice files from Go module cache directories." +:+ nl.

Definition notice_row (notice : moduleNotice) : string :=
  let refs := match LicenseRefs notice with
              | [] => "REVIEW_NEEDED"
              | l => Join ((λ ref, "[" +:+ filepath_Base ref +:+ "](" +:+ ref +:+ ")") <$> l) ", "
              end in
  let review := if Missing notice then "missing license file in module cache" else "" in
  "| `" +:+ n_Path notice +:+ "` | `" +:+ n_Version notice +:+ "` | " +:+ refs +:+ " | " +:+
  review +:+ " |" +:+ nl.

Definition noticesMarkdown (notices : list moduleNotice) : string :=
  "# Third-party notices" +:+ nl +:+ nl +:+
  "This file is generated from `go list -m -json all` by `make generate-licenses`." +:+ nl +:+
  "Do not edit generated module entries by hand." +:+ nl +:+ nl +:+
  "| Module | Version | License files | Review |" +:+ nl +:+
  "|---|---:|---|---|" +:+ nl +:+
  concat_s (notice_row <$> notices) +:+ nl +:+
  "Release reviewers should confirm this generated bundle before public distribution." +:+ nl.

Definition writeLicenseBundle (outDir : string) (modules : list moduleInfo)
  : io (list moduleNotice) :=
  let modulesDir := filepath_Join [outDir; "modules"] in
  let* _ := perform (MkdirAll outDir) in
  let* _ := perform (RemoveAll modulesDir) in
  let* _ := perform (MkdirAll modulesDir) in
  let* notices := copy_modules modulesDir modules in
  let* _ := perform (WriteFile (filepath_Join [modulesDir; "README.md"]) modulesReadme) in
  let* _ := perform (WriteFile (filepath_Join [outDir; "THIRD_PARTY_NOTICES.md"])
                       (noticesMarkdown notices)) in
  ret notices.

(** [run]: what it prints, or the error for which [main] exits with 1. *)
Definition bundle_run (download list_ : command) (outDir : string) : io string :=
  match listModules download list_ with
  | Err err => raise err
  | Ok modules =>
      let* notices := writeLicenseBundle outDir modules in
      ret ("generated " +:+ filepath_Join [outDir; "THIRD_PARTY_NOTICES.md"] +:+ " with " +:+
           Itoa (Z.of_nat (length notices)) +:+ " third-party modules" +:+ nl)
  end.

(** [main]: the exit code and the standard output. *)
Definition license_main (download list_ : command) (args : list string) (log : list fsop)
  : Z * string * list fsop :=
  match CommandLine_Parse [String_flag "out" (λ out _, out)] args "licenses" with
  | inl code => (code, "", log)
  | inr (outDir, _) =>
      match bundle_run download list_ outDir log with
      | (Err _, log) => (1, "", log)
      | (Ok printed, log) => (0, printed, log)
      end
  end.
End bundle.
