(* ===== verification/LicenseFacts.v ===== *)
(** * Correctness of cmd/license-bundle

    A run that succeeds leaves every licence file of every module in the bundle,
    byte for byte, and nothing else beside the two texts it writes. *)

From stdpp Require Import sorting.
From S2P Require Import Prelude.
From S2P Require Import GoStrings.
From S2P Require Import GoErrors.
From S2P Require Import Json.
From S2P Require Import JsonFacts.
From S2P Require Import Strconv.
From S2P Require Import Url.
From S2P Require Import Paths.
From S2P Require Import Sha256.
From S2P Require Import GoFile.
From S2P Require Import LicenseBundle.
Local Open Scope Z_scope.

(** ** Names *)

Lemma replace_bytes_free f s : (∀ c, slash_free (f c)) → slash_free (replace_bytes f s).
Proof.
  intros Hf. unfold slash_free in *. induction s as [|c s IH]; [done|]. cbn [replace_bytes].
  by rewrite all_bytes_app, Hf, IH.
Qed.

Lemma replace_bytes_id f s : (∀ c, Ascii.eqb c "/" = false → f c = String c "") →
  slash_free s → replace_bytes f s = s.
Proof.
  intros Hf. unfold slash_free. induction s as [|c s IH]; [done|]. simpl.
  intros [Hc%negb_true_iff Hs]%andb_true_iff. by rewrite Hf, IH.
Qed.

Lemma safe_byte_free c : slash_free (safe_byte c).
Proof.
  unfold safe_byte. destruct (Ascii.eqb c "/") eqn:E; [done|]. cbn [orb].
  repeat split_if; try done. unfold slash_free. simpl. by rewrite E.
Qed.


(** The directory of a module is a plain name. *)
Lemma safeModuleDir_plain m : ordinary (safeModuleDir m) ∧ slash_free (safeModuleDir m).
Proof.
  split; [|apply replace_bytes_free, safe_byte_free]. unfold safeModuleDir.
  rewrite !replace_bytes_app. change (replace_bytes safe_byte "@") with "_at_".
  split_and!; intros E; apply (f_equal String.length) in E; rewrite !length_app_s in E; cbn in E; lia.
Qed.

Definition plain_name (s : string) : Prop := s ≠ "" ∧ slash_free s.

Lemma license_name_plain s : license_name s = true → plain_name s →
  ordinary s ∧ sanitizeFileName s = s.
Proof.
  intros Hl [Hn Hf].
  assert (s ≠ ".") as Hd by (intros ->; by vm_compute in Hl).
  split; [by split_and!; try done; intros ->; vm_compute in Hl|].
  unfold sanitizeFileName. rewrite filepath_Base_plain, replace_bytes_id; [|by intros ? ->|done..].
  apply String.eqb_neq in Hn, Hd. by rewrite Hn, Hd.
Qed.

(** ** The module list *)

Lemma next_module_consumes data m rest : next_module data = Some (Ok (m, rest)) →
  (String.length rest < String.length data)%nat.
Proof.
  unfold next_module, read_value. destruct (skip_space data) as [|c s] eqn:Es; [done|].
  split_if; [done|]. pose proof (proj1 (parse_consumes (json_fuel data)) 0 data) as Hc.
  unfold json_fuel in *. specialize (Hc ltac:(lia)).
  destruct (parse_value _ 0 data) as [j rest'|msg|]; [|by split_if|done].
  cbn in Hc. destruct (decode_struct _ _ _ _ _ _) as [[e|m'] [e'|]]; try done.
  by intros [= _ <-].
Qed.

(** The fuel of [listModules] is enough: more of it changes nothing. *)
Lemma decode_modules_fuel fuel : ∀ fuel' data,
  (String.length data < fuel)%nat → (String.length data < fuel')%nat →
  decode_modules fuel data = decode_modules fuel' data.
Proof.
  induction fuel as [|fuel IH]; intros [|fuel'] data Hf Hf'; try lia. cbn [decode_modules].
  destruct (next_module data) as [[[m rest]|err]|] eqn:E; [|done|done].
  apply next_module_consumes in E. by rewrite (IH fuel' rest) by lia.
Qed.

(** ** What the operations write *)

Definition written (op : fsop) : option (string * string) :=
  match op with WriteFile path body => Some (path, body) | _ => None end.
Definition keeps (op : fsop) : Prop := match op with RemoveAll _ => False | _ => True end.

Definition put (files : gmap string string) (w : string * string) : gmap string string :=
  <[w.1 := w.2]> files.

Lemma files_after_writes ops : Forall keeps ops → ∀ files,
  files_after files ops = foldl put files (omap written ops).
Proof. induction 1 as [|[p|d|p b] ops Hk Ho IH]; intros files; try done; apply IH. Qed.

Lemma lookup_put ws p b : NoDup ws.*1 → ∀ files,
  foldl put files ws !! p = Some b ↔ (p, b) ∈ ws ∨ ((p ∉ (ws.*1)) ∧ files !! p = Some b).
Proof.
  induction ws as [|[q c] ws IH]; intros Hd files.
  { cbn. split; [intros H; right; split; [apply not_elem_of_nil|done]|].
    by intros [?%not_elem_of_nil|[_ ?]]. }
  cbn [fmap list_fmap fst] in Hd. apply NoDup_cons in Hd as [Hq Hd].
  cbn [foldl]. rewrite (IH Hd). cbn [fmap list_fmap fst]. unfold put; cbn.
  rewrite elem_of_cons, not_elem_of_cons. destruct (decide (p = q)) as [->|Hn].
  - rewrite lookup_insert_eq. split.
    + intros [H|[_ [= ->]]]; [|by left; left].
      destruct Hq. apply list_elem_of_fmap. by exists (q, b).
    + intros [[[= ->]|H]|[[? _] _]]; [by right|by left|done].
  - rewrite lookup_insert_ne by done. split.
    + intros [H|[H1 H2]]; [by left; right|by right].
    + intros [[[= -> ->]|H]|[[_ H1] H2]]; [done|by left|by right].
Qed.

(** ** A successful run *)

Lemma bind_ok {A B} (m : io A) (f : A → io B) log b log' :
  bind m f log = (Ok b, log') → ∃ a log1, m log = (Ok a, log1) ∧ f a log1 = (Ok b, log').
Proof. unfold bind. destruct (m log) as [[a|] log1]; [eauto|done]. Qed.

Section bundle_facts.
Context (ReadDir : string → option (list dirEntry)) (ReadFile : string → res string).
Context (fault : list fsop → fsop → option error).

Lemma perform_ok op log u log' : perform fault op log = (Ok u, log') → log' = log ++ [op].
Proof. unfold perform. by destruct (fault log op); [|intros [= _ <-]]. Qed.

Lemma write_ok prefix op log u log' :
  with_context prefix (perform fault op) log = (Ok u, log') → log' = log ++ [op].
Proof.
  unfold with_context. destruct (perform fault op log) as [[[]|] log1] eqn:E; [|done].
  intros [= _ <-]. by apply perform_ok in E.
Qed.

(** The files a module contributes: where each is read and written. *)
Definition source (m : moduleInfo) (e : dirEntry) : string := filepath_Join [m_Dir m; e_Name e].
Definition target (modulesDir : string) (m : moduleInfo) (e : dirEntry) : string :=
  filepath_Join [filepath_Join [modulesDir; safeModuleDir m]; sanitizeFileName (e_Name e)].
Definition reference (m : moduleInfo) (e : dirEntry) : string :=
  filepath_Join ["modules"; safeModuleDir m; sanitizeFileName (e_Name e)].
Definition content (path : string) : string :=
  match ReadFile path with Ok body => body | Err _ => "" end.

Definition module_files (m : moduleInfo) : list dirEntry :=
  filter (λ e, copied e = true) (default [] (module_entries ReadDir m)).

Definition module_writes (modulesDir : string) (m : moduleInfo) : list (string * string) :=
  (λ e, (target modulesDir m e, content (source m e))) <$> module_files m.

(** What a stretch of operations did: writes, and nothing was removed. *)
Definition did (log log' : list fsop) (ws : list (string * string)) : Prop :=
  ∃ ops, log' = log ++ ops ∧ Forall keeps ops ∧ omap written ops = ws.

Lemma did_nil log : did log log [].
Proof. exists []. by rewrite app_nil_r. Qed.

Lemma did_op log op : keeps op → did log (log ++ [op]) (option_list (written op)).
Proof. intros Hk. exists [op]. split_and!; [done|by apply Forall_singleton|]. by destruct op. Qed.

Lemma did_app log log1 log2 ws ws' : did log log1 ws → did log1 log2 ws' → did log log2 (ws ++ ws').
Proof.
  intros (o&->&Ho&<-) (o'&->&Ho'&<-). exists (o ++ o'). rewrite app_assoc, omap_app.
  split_and!; [done|by apply Forall_app|done].
Qed.

Lemma copy_entry_ok modulesDir m e n log n' log' :
  copy_entry ReadFile fault modulesDir m e n log = (Ok n', log') →
  did log log' [(target modulesDir m e, content (source m e))] ∧
  is_ok (ReadFile (source m e)) = true ∧
  LicenseRefs n' = LicenseRefs n ++ [reference m e] ∧
  n_Path n' = n_Path n ∧ n_Version n' = n_Version n ∧ Missing n' = Missing n.
Proof.
  unfold copy_entry, content. change (filepath_Join [m_Dir m; e_Name e]) with (source m e).
  destruct (ReadFile (source m e)) as [body|]; [|done].
  intros (u&log1&H1%perform_ok&H2)%bind_ok. apply bind_ok in H2 as (v&log2&H3%write_ok&H4).
  injection H4 as <- <-. subst. split_and!; try done.
  apply (did_app _ (log ++ [MkdirAll (filepath_Join [modulesDir; safeModuleDir m])]) _ []).
  - by apply did_op.
  - by apply (did_op _ (WriteFile _ _)).
Qed.

Lemma copy_entries_ok modulesDir m es : ∀ n log n' log',
  copy_entries ReadFile fault modulesDir m es n log = (Ok n', log') →
  did log log' ((λ e, (target modulesDir m e, content (source m e)))
                  <$> filter (λ e, copied e = true) es) ∧
  Forall (λ e, is_ok (ReadFile (source m e)) = true) (filter (λ e, copied e = true) es) ∧
  LicenseRefs n' = LicenseRefs n ++ (reference m <$> filter (λ e, copied e = true) es) ∧
  n_Path n' = n_Path n ∧ n_Version n' = n_Version n ∧ Missing n' = Missing n.
Proof.
  induction es as [|e es IH]; intros n log n' log' H; cbn [copy_entries] in H.
  - injection H as <- <-. cbn. rewrite app_nil_r. split; [apply did_nil|by split_and!].
  - rewrite filter_cons. destruct (copied e).
    + apply bind_ok in H as (n1&log1&H1&H2). apply copy_entry_ok in H1 as (D1&R1&L1&P1&V1&M1).
      apply IH in H2 as (D2&R2&L2&P2&V2&M2). rewrite decide_True by done.
      split_and!; [by eapply (did_app _ _ _ [_])|by constructor| |by rewrite P2|by rewrite V2|by rewrite M2].
      by rewrite L2, L1, <- app_assoc.
    + rewrite decide_False by done. by apply IH.
Qed.

(** The notice of a module. *)
Record notice_of (m : moduleInfo) (n : moduleNotice) : Prop := {
  notice_path : n_Path n = m_Path m ∧ n_Version n = m_Version m;
  notice_refs : LicenseRefs n ≡ₚ (reference m <$> module_files m) ∧ Sorted String.le (LicenseRefs n);
  notice_missing : Missing n = true ↔ module_files m = [];
}.

Lemma copyModuleLicenses_ok modulesDir m log n log' :
  copyModuleLicenses ReadDir ReadFile fault modulesDir m log = (Ok n, log') →
  did log log' (module_writes modulesDir m) ∧
  Forall (λ e, is_ok (ReadFile (source m e)) = true) (module_files m) ∧ notice_of m n.
Proof.
  unfold copyModuleLicenses, module_writes.
  assert (module_files m = filter (λ e, copied e = true) (default [] (module_entries ReadDir m)))
    as Hf by done.
  destruct (module_entries ReadDir m) as [es|]; cbn [default from_option id] in Hf.
  - intros (n1&log1&H1&H2)%bind_ok. injection H2 as <- <-.
    apply copy_entries_ok in H1 as (D&R&L&P&V&M). cbn in L, P, V, M. rewrite <- Hf in *.
    split_and!; [done|done|]. split; cbn; [by rewrite P, V| |].
    + rewrite L. split; [apply merge_sort_Permutation|apply (Sorted_merge_sort _)].
    + rewrite L, M, orb_false_r, Nat.eqb_eq, length_fmap, length_zero_iff_nil. done.
  - intros [= <- <-]. rewrite Hf. split_and!; [apply did_nil|constructor|].
    split; cbn; rewrite ?Hf; done.
Qed.

Lemma copy_modules_ok modulesDir ms : ∀ log ns log',
  copy_modules ReadDir ReadFile fault modulesDir ms log = (Ok ns, log') →
  did log log' (ms ≫= module_writes modulesDir) ∧
  Forall (λ m, Forall (λ e, is_ok (ReadFile (source m e)) = true) (module_files m)) ms ∧
  Forall2 notice_of ms ns.
Proof.
  induction ms as [|m ms IH]; intros log ns log' H; cbn [copy_modules] in H.
  - injection H as <- <-. split_and!; [apply did_nil|constructor|constructor].
  - apply bind_ok in H as (n&log1&H1&H2). apply bind_ok in H2 as (ns1&log2&H2&H3).
    injection H3 as <- <-. apply copyModuleLicenses_ok in H1 as (D1&R1&N1).
    apply IH in H2 as (D2&R2&N2). csimpl.
    split_and!; [by eapply did_app|by constructor|by constructor].
Qed.

Lemma writeLicenseBundle_ok outDir ms ns log :
  writeLicenseBundle ReadDir ReadFile fault outDir ms [] = (Ok ns, log) →
  let dir := filepath_Join [outDir; "modules"] in
  did [MkdirAll outDir; RemoveAll dir; MkdirAll dir] log
    ((ms ≫= module_writes dir) ++
     [(filepath_Join [dir; "README.md"], modulesReadme);
      (filepath_Join [outDir; "THIRD_PARTY_NOTICES.md"], noticesMarkdown ns)]) ∧
  Forall (λ m, Forall (λ e, is_ok (ReadFile (source m e)) = true) (module_files m)) ms ∧
  Forall2 notice_of ms ns.
Proof.
  intros H dir. unfold writeLicenseBundle in H. fold dir in H.
  apply bind_ok in H as (?&l1&H1%perform_ok&H). apply bind_ok in H as (?&l2&H2%perform_ok&H).
  apply bind_ok in H as (?&l3&H3%perform_ok&H). subst l1 l2 l3.
  apply bind_ok in H as (ns'&l4&H4&H). apply bind_ok in H as (?&l5&H5%perform_ok&H).
  apply bind_ok in H as (?&l6&H6%perform_ok&H). injection H as -> <-. subst l5 l6.
  apply copy_modules_ok in H4 as (D&R&N). split_and!; [|done|done].
  eapply did_app; [exact D|]. eapply (did_app _ _ _ [_]); [by apply (did_op _ (WriteFile _ _))|].
  by apply (did_op _ (WriteFile _ _)).
Qed.

(** What [os.ReadDir] promises: names without separators, each once. *)
Context (names_ok : ∀ dir es, ReadDir dir = Some es →
  NoDup (e_Name <$> es) ∧ Forall (λ e, plain_name (e_Name e)) es).

Lemma module_files_ok m : NoDup (e_Name <$> module_files m) ∧
  Forall (λ e, ordinary (e_Name e) ∧ slash_free (e_Name e) ∧ sanitizeFileName (e_Name e) = e_Name e)
    (module_files m).
Proof.
  assert (∀ es, default [] (module_entries ReadDir m) = es →
    NoDup (e_Name <$> es) ∧ Forall (λ e, plain_name (e_Name e)) es) as Hes.
  { intros es <-. unfold module_entries. split_if; cbn; [by repeat constructor|].
    destruct (ReadDir (m_Dir m)) as [es|] eqn:E; cbn; [by eapply names_ok|by repeat constructor]. }
  destruct (Hes _ eq_refl) as [Hn Hp]. unfold module_files. split.
  - eapply sublist_NoDup; [exact Hn|]. apply fmap_sublist, sublist_filter.
  - apply Forall_forall. intros e [Hc He]%list_elem_of_filter.
    apply (proj1 (Forall_forall _ _) Hp) in He. unfold copied, isLicenseLike in Hc.
    destruct (e_IsDir e); [done|]. cbn in Hc. rewrite negb_involutive in Hc.
    destruct (license_name_plain _ Hc He) as [Ho Hs]. split_and!; [done|apply He|done].
Qed.

(** Everything the bundle holds is named by segments below one directory. *)
Lemma bundle_paths outDir : ∃ rooted l, normal rooted l ∧ Forall slash_free l ∧
  let dir := filepath_Join [outDir; "modules"] in
  dir = path_of rooted (l ++ ["modules"]) ∧
  filepath_Join [outDir; "THIRD_PARTY_NOTICES.md"] = path_of rooted (l ++ ["THIRD_PARTY_NOTICES.md"]) ∧
  filepath_Join [dir; "README.md"] = path_of rooted (l ++ ["modules"; "README.md"]) ∧
  ∀ m e, e ∈ module_files m →
    target dir m e = path_of rooted (l ++ ["modules"; safeModuleDir m; e_Name e]).
Proof.
  destruct (filepath_Join_dir outDir) as (r&l&Hl&Hf&Hj). exists r, l. split; [done|]. split; [done|].
  intros dir. assert (∀ s, s ∈ ["modules"; "THIRD_PARTY_NOTICES.md"; "README.md"] →
    ordinary s ∧ slash_free s) as Hc.
  { intros s Hs. repeat (apply elem_of_cons in Hs as [->|Hs]; [by vm_compute|]).
    by apply not_elem_of_nil in Hs. }
  assert (dir = path_of r (l ++ ["modules"])) as Hd.
  { apply Hj; apply Hc; rewrite !elem_of_cons; auto. }
  assert (normal r (l ++ ["modules"]) ∧ Forall slash_free (l ++ ["modules"])) as [Hn1 Hf1].
  { split; [apply normal_snoc; [done|by vm_compute]|]. apply Forall_app. by repeat constructor. }
  split_and!; [done| | |].
  - apply Hj; apply Hc; rewrite !elem_of_cons; auto.
  - rewrite Hd, filepath_Join_path; [by rewrite <- app_assoc|done|done|by destruct l|by vm_compute|done].
  - intros m e He. destruct (module_files_ok m) as [_ Hm].
    apply (proj1 (Forall_forall _ _) Hm) in He as (Ho&Hs&Hsan).
    destruct (safeModuleDir_plain m) as [So Sf]. unfold target. rewrite Hsan, Hd.
    rewrite (filepath_Join_path r (l ++ ["modules"])) by (try done; by destruct l).
    rewrite filepath_Join_path; [by rewrite <- !app_assoc|by apply normal_snoc| |by destruct l|done|done].
    apply Forall_app. split; [done|by apply Forall_singleton].
Qed.

Lemma NoDup_fmap_injective {A B} (f : A → B) l x y : NoDup (f <$> l) → x ∈ l → y ∈ l →
  f x = f y → x = y.
Proof.
  intros Hn (i&Hi)%list_elem_of_lookup (j&Hj)%list_elem_of_lookup E.
  assert (i = j) as ->; [|congruence].
  eapply NoDup_lookup; [exact Hn| |]; rewrite list_lookup_fmap; [by rewrite Hi|by rewrite Hj, E].
Qed.

(** The segments below the output directory of everything written. *)
Definition module_segments (m : moduleInfo) : list (list string) :=
  (λ e, ["modules"; safeModuleDir m; e_Name e]) <$> module_files m.
Definition bundle_segments (ms : list moduleInfo) : list (list string) :=
  (ms ≫= module_segments) ++ [["modules"; "README.md"]; ["THIRD_PARTY_NOTICES.md"]].

Lemma elem_of_module_segments m p :
  p ∈ module_segments m ↔ ∃ e, e ∈ module_files m ∧ p = ["modules"; safeModuleDir m; e_Name e].
Proof. unfold module_segments. rewrite list_elem_of_fmap.
  split; intros (e&H1&H2); eauto. Qed.

Lemma bundle_segments_NoDup ms : NoDup (safeModuleDir <$> ms) → NoDup (bundle_segments ms).
Proof.
  intros Hs. apply NoDup_app. split_and!.
  - apply NoDup_bind.
    + intros m1 m2 p H1 H2 (e1&_&->)%elem_of_module_segments (e2&_&[= E _])%elem_of_module_segments.
      by eapply NoDup_fmap_injective.
    + intros m _. destruct (module_files_ok m) as [Hn _]. unfold module_segments.
      apply NoDup_fmap_2_strong; [|by eapply NoDup_fmap_1].
      intros x y Hx Hy [= E]. by eapply NoDup_fmap_injective.
    + by eapply NoDup_fmap_1.
  - intros p (m&(e&_&->)%elem_of_module_segments&_)%list_elem_of_bind.
    rewrite !elem_of_cons. intros [?|[?|?%not_elem_of_nil]]; done.
  - apply (bool_decide_unpack _). by vm_compute.
Qed.

Lemma bundle_segments_free ms p : p ∈ bundle_segments ms → p ≠ [] ∧ Forall slash_free p.
Proof.
  intros [H|H]%elem_of_app.
  - apply list_elem_of_bind in H as (m&(e&He&->)%elem_of_module_segments&_). split; [done|].
    destruct (module_files_ok m) as [_ Hm]. apply (proj1 (Forall_forall _ _) Hm) in He as (_&Hf&_).
    destruct (safeModuleDir_plain m) as [_ Hd]. by repeat constructor.
  - repeat (apply elem_of_cons in H as [->|H]; [by split; [|repeat constructor]|]).
    by apply not_elem_of_nil in H.
Qed.

(** The writes of a run, by segments. *)
Lemma bundle_writes outDir rooted l ms ns :
  let dir := filepath_Join [outDir; "modules"] in
  filepath_Join [outDir; "THIRD_PARTY_NOTICES.md"] = path_of rooted (l ++ ["THIRD_PARTY_NOTICES.md"]) →
  filepath_Join [dir; "README.md"] = path_of rooted (l ++ ["modules"; "README.md"]) →
  (∀ m e, e ∈ module_files m →
    target dir m e = path_of rooted (l ++ ["modules"; safeModuleDir m; e_Name e])) →
  ((ms ≫= module_writes dir) ++
     [(filepath_Join [dir; "README.md"], modulesReadme);
      (filepath_Join [outDir; "THIRD_PARTY_NOTICES.md"], noticesMarkdown ns)]).*1 =
  (λ p, path_of rooted (l ++ p)) <$> bundle_segments ms.
Proof.
  intros dir H1 H2 H3. unfold bundle_segments. rewrite !fmap_app. f_equal.
  - induction ms as [|m ms IH]; [done|]. csimpl. rewrite !fmap_app, IH. f_equal.
    unfold module_writes, module_segments. rewrite <- !list_fmap_compose.
    apply list_fmap_ext. intros i e He%list_elem_of_lookup_2. cbn. by apply H3.
  - rewrite !fmap_cons, fmap_nil. cbn [fst]. by rewrite H1, H2.
Qed.

Lemma path_of_segments rooted l ms : Forall slash_free l → NoDup (safeModuleDir <$> ms) →
  NoDup ((λ p, path_of rooted (l ++ p)) <$> bundle_segments ms).
Proof.
  intros Hl Hs. apply NoDup_fmap_2_strong; [|by apply bundle_segments_NoDup].
  intros p q [Hp Fp]%bundle_segments_free [Hq Fq]%bundle_segments_free E.
  apply path_of_inj in E; [by apply app_inv_head in E|by destruct l|by destruct l|..].
  all: by apply Forall_app.
Qed.

(** What is left of the old bundle directory: nothing. *)
Lemma removed_within outDir dir files p :
  within p dir = true →
  files_after files [MkdirAll outDir; RemoveAll dir; MkdirAll dir] !! p = None.
Proof.
  intros Hw. cbn. apply map_lookup_filter_None. right. intros b _ H. cbn in H. congruence.
Qed.

Lemma notices_outside rooted l :
  within (path_of rooted (l ++ ["THIRD_PARTY_NOTICES.md"])) (path_of rooted (l ++ ["modules"])) = false.
Proof.
  destruct (path_of_snoc rooted l) as [pre Hp]. rewrite !Hp. unfold within.
  rewrite app_assoc_s, HasPrefix_cancel. apply orb_false_iff. split; [|done].
  apply String.eqb_neq. intros E. apply (f_equal String.length) in E. rewrite !length_app_s in E.
  cbn in E. lia.
Qed.

End bundle_facts.

(** ** A module cache with two modules, one of them without a directory *)

Definition sample_ReadDir (dir : string) : option (list dirEntry) :=
  if String.eqb dir "/mod/x"
  then Some [{| e_Name := "LICENSE"; e_IsDir := false |}; {| e_Name := "docs"; e_IsDir := true |};
             {| e_Name := "go.mod"; e_IsDir := false |}]
  else None.
Definition sample_ReadFile (path : string) : res string :=
  if String.eqb path "/mod/x/LICENSE" then Ok "MIT" else Err (ENew "no such file").

Lemma sample_names dir es : sample_ReadDir dir = Some es →
  NoDup (e_Name <$> es) ∧ Forall (λ e, plain_name (e_Name e)) es.
Proof.
  unfold sample_ReadDir. split_if; [|done]. intros [= <-].
  split; [apply (bool_decide_unpack _); by vm_compute|]. by repeat constructor.
Qed.

Definition module_x : moduleInfo :=
  {| m_Path := "example.com/x"; m_Version := "v1.0.0"; m_Dir := "/mod/x"; m_Main := false |}.
Definition module_y : moduleInfo :=
  {| m_Path := "example.com/y"; m_Version := ""; m_Dir := ""; m_Main := false |}.

(** The output of [go list]: the main module is left out, the rest is sorted. *)
Example listModules_ex :
  listModules ("", None) (qt "{'Path': 'main', 'Main': true} {'Path': 'example.com/y'}" +:+ nl +:+
    qt "{'Path':'example.com/x','Version':'v1.0.0','Dir':'/mod/x','GoMod':'/m'}", None)
  = Ok [module_x; module_y].
Proof. by vm_compute. Qed.


(** ** Where the tool goes wrong *)

(** The directory names are not injective: of two such modules the later one
    overwrites the files of the earlier. *)
Lemma safeModuleDir_collision v :
  safeModuleDir {| m_Path := "example.com/a/b"; m_Version := v; m_Dir := ""; m_Main := false |} =
  safeModuleDir {| m_Path := "example.com/a__b"; m_Version := v; m_Dir := ""; m_Main := false |}.
Proof. reflexivity. Qed.
