(* ===== verification/Capture.v ===== *)
(** * cmd/capture-compatibility/main.go

    The tool that records how a Confluent REST Proxy answers edge cases: the
    requests it sends, their names, what it keeps of an answer, and the report it
    writes.  The HTTP client and the failures of the file system are parameters. *)

From stdpp Require Import sorting.
From S2P Require Import Prelude.
From S2P Require Import GoStrings.
From S2P Require Import Strconv.
From S2P Require Import GoErrors.
From S2P Require Import Json.
From S2P Require Import Url.
From S2P Require Import GoFloat.
From S2P Require Import GoFile.
From S2P Require Import Flag.
From S2P Require Import Config.
From coqutil Require Import Datatypes.RecordSetters.
Local Open Scope Z_scope.

(** ** The requests *)

Record captureRequest := {
  c_Method : string;
  c_Path : string;
  c_Headers : gmap string string;
  c_Body : string;
}.

Definition headers (contentType accept : string) : gmap string string :=
  {["Content-Type" := contentType; "Accept" := accept]}.

Definition goodBody : string := qt "{'records':[{'value':{'ok':true}}]}".
Definition bigPayload : string := Repeat "x" (Z.to_nat (2 * 1024 * 1024)).

Definition capture_post (topic contentType accept body : string) : captureRequest :=
  {| c_Method := "POST"; c_Path := "/topics/" +:+ PathEscape topic;
     c_Headers := headers contentType accept; c_Body := body |}.

Definition captureCases (topic : string) : list captureRequest :=
  let json := "application/vnd.kafka.json.v2+json" in
  let v2 := "application/vnd.kafka.v2+json" in
  [capture_post topic "text/plain" v2 goodBody;
   capture_post topic json "application/xml" goodBody;
   capture_post "bad topic" json v2 goodBody;
   capture_post topic json v2 (qt "{'records':[{'partition':999999,'value':{'ok':true}}]}");
   capture_post topic json v2
     (qt "{'records':[{'value':{'payload':'" +:+ bigPayload +:+ qt "'}}]}");
   capture_post topic json v2 (qt "{'records':[");
   capture_post topic "application/vnd.kafka.binary.v2+json" v2
     (qt "{'records':[{'value':'not-base64!'}]}");
   capture_post topic json v2
     (qt "{'records':[{'partition':0,'value':{'ok':true}},{'partition':999999,'value':{'ok':false}}]}")].

(** [strings.Count(s, sub)] for a [sub] that is not empty: occurrences that do
    not overlap; [skip] bytes belong to the last one. *)
Fixpoint Count_from (skip : nat) (s sub : string) : Z :=
  match s with
  | EmptyString => 0
  | String _ s' =>
      match skip with
      | S skip => Count_from skip s' sub
      | O => if HasPrefix s sub then 1 + Count_from (String.length sub - 1) s' sub
             else Count_from 0 s' sub
      end
  end.
Definition Count (s sub : string) : Z := Count_from 0 s sub.

(** The value of a header in a map, empty when it is missing. *)
Definition header_value (h : gmap string string) (name : string) : string := default "" (h !! name).

Definition caseName (tc : captureRequest) : string :=
  if String.eqb (header_value (c_Headers tc) "Content-Type") "text/plain" then "bad-content-type"
  else if String.eqb (header_value (c_Headers tc) "Accept") "application/xml" then "bad-accept"
  else if Contains (c_Path tc) "bad%20topic" then "invalid-topic"
  else if Contains (c_Body tc) "not-base64" then "binary-decode-failure"
  else if String.eqb (c_Body tc) (qt "{'records':[") then "malformed-json"
  else if Contains (c_Body tc) (Repeat "x" 1024) then "oversized-body"
  else if 1 <? Count (c_Body tc) "partition" then "partial-record-errors"
  else if Contains (c_Body tc) "999999" then "invalid-partition"
  else "unknown".

Definition preview (v : string) (limit : nat) : string :=
  if (String.length v <=? limit)%nat then v
  else stake limit v +:+ nl +:+ "... truncated " +:+
       Itoa (Z.of_nat (String.length v) - Z.of_nat limit) +:+ " bytes ...".

Definition previewRequest (tc : captureRequest) : captureRequest :=
  {| c_Method := c_Method tc; c_Path := c_Path tc; c_Headers := c_Headers tc;
     c_Body := preview (c_Body tc) 2048 |}.

(** ** The answers *)

Record captureResponse := {
  r_Status : Z;
  r_Headers : option (gmap string string);   (* the nil map before an answer *)
  r_Body : option string;                    (* a nil RawMessage is [None] *)
  r_BodyText : string;
  r_BodyIsJSON : bool;
  r_ElapsedMS : Z;
  r_RequestErr : string;
}.

Record captureCase := { cc_Name : string; cc_Request : captureRequest; cc_Response : captureResponse }.

(** [h.Get] is a function of the header names. *)
Definition selectedHeaders (Get : string → string) : gmap string string :=
  foldl (λ out name, if String.eqb (Get name) "" then out else <[name := Get name]> out)
    ∅ ["Content-Type"; "X-Request-Id"].

Definition jsonBody (body : string) : option string := if Valid body then Some body else None.
Definition textBody (body : string) : string := if Valid body then "" else body.

(** What sending a request comes to; the bytes of a body that breaks off are
    those read before. *)
Inductive captured :=
  | NotBuilt (err : error)
  | NotSent (err : error) (elapsedMS : Z)
  | Answered (status : Z) (Get : string → string) (body : string) (elapsedMS : Z).

Definition request_error (err : error) (elapsedMS : Z) : captureResponse :=
  {| r_Status := 0; r_Headers := None; r_Body := None; r_BodyText := ""; r_BodyIsJSON := false;
     r_ElapsedMS := elapsedMS; r_RequestErr := Error err |}.

Section capture.
(** The client: method, URL, headers and body. *)
Context (send : string → string → gmap string string → string → captured).

Definition runCase (baseURL : string) (tc : captureRequest) : captureCase :=
  {| cc_Name := caseName tc;
     cc_Request := previewRequest tc;
     cc_Response :=
       match send (c_Method tc) (baseURL +:+ c_Path tc) (c_Headers tc) (c_Body tc) with
       | NotBuilt err => request_error err 0
       | NotSent err elapsed => request_error err elapsed
       | Answered status Get body elapsed =>
           {| r_Status := status; r_Headers := Some (selectedHeaders Get); r_Body := jsonBody body;
              r_BodyText := textBody body; r_BodyIsJSON := Valid body; r_ElapsedMS := elapsed;
              r_RequestErr := "" |}
       end |}.

Record captureReport := { GeneratedAt : string; TargetURL : string; Cases : list captureCase }.

(** [main]: the report and the line it prints. *)
Definition capture_report (now_text baseURL topic : string) : captureReport :=
  let target := TrimRightByte baseURL "/" in
  {| GeneratedAt := now_text; TargetURL := target; Cases := runCase target <$> captureCases topic |}.
Definition capture_line (report : captureReport) (outPath : string) : string :=
  "captured_cases=" +:+ Itoa (Z.of_nat (length (Cases report))) +:+ " out=" +:+ outPath +:+ nl.
End capture.

(** ** The report *)

(** The HTML escaping of a [json.RawMessage] that is marshalled. *)
Fixpoint escape_html (s : string) : string :=
  match s with
  | EmptyString => EmptyString
  | String c s1 =>
      if Ascii.eqb c "<" then "\u003c" +:+ escape_html s1
      else if Ascii.eqb c ">" then "\u003e" +:+ escape_html s1
      else if Ascii.eqb c "&" then "\u0026" +:+ escape_html s1
      else match s1 with
      | String c2 (String c3 s3) =>
          if (bval c =? 226) && (bval c2 =? 128) && ((bval c3 =? 168) || (bval c3 =? 169))
          then (if bval c3 =? 168 then "\u2028" else "\u2029") +:+ escape_html s3
          else String c (escape_html s1)
      | _ => String c (escape_html s1)
      end
  end.

Definition raw_json (raw : string) : string := escape_html (strip_space false false raw).

Definition object_json (members : list (string * string)) : string :=
  "{" +:+ Join ((λ m, json_string m.1 +:+ ":" +:+ m.2) <$> members) "," +:+ "}".

(** A map of strings, its keys in order; nil is null. *)
Definition key_le (a b : string * string) : Prop := String.le a.1 b.1.
#[export] Instance key_le_dec a b : Decision (key_le a b).
Proof. unfold key_le. apply _. Defined.
Definition map_json (m : gmap string string) : string :=
  object_json ((λ kv, (kv.1, json_string kv.2)) <$> merge_sort key_le (map_to_list m)).

Definition bool_json (b : bool) : string := if b then "true" else "false".

Definition request_json (r : captureRequest) : string :=
  object_json [("method", json_string (c_Method r)); ("path", json_string (c_Path r));
               ("headers", map_json (c_Headers r)); ("body", json_string (c_Body r))].

(** A RawMessage without bytes is left out, as is an empty text. *)
Definition omit_empty (name text : string) (empty : bool) : list (string * string) :=
  if empty then [] else [(name, text)].

Definition answer_json (r : captureResponse) : string :=
  object_json ([("status", Itoa (r_Status r));
                ("headers", match r_Headers r with Some m => map_json m | None => "null" end)] ++
               (let raw := default "" (r_Body r) in
                omit_empty "body" (raw_json raw) (String.eqb raw "")) ++
               omit_empty "body_text" (json_string (r_BodyText r)) (String.eqb (r_BodyText r) "") ++
               [("body_is_json", bool_json (r_BodyIsJSON r)); ("elapsed_ms", Itoa (r_ElapsedMS r))] ++
               omit_empty "request_error" (json_string (r_RequestErr r))
                 (String.eqb (r_RequestErr r) "")).

Definition case_json (c : captureCase) : string :=
  object_json [("name", json_string (cc_Name c)); ("request", request_json (cc_Request c));
               ("response", answer_json (cc_Response c))].

Definition report_json (r : captureReport) : string :=
  object_json [("generated_at", json_string (GeneratedAt r)); ("target_url", json_string (TargetURL r));
               ("cases", match Cases r with
                         | [] => "null"
                         | l => "[" +:+ Join (case_json <$> l) "," +:+ "]"
                         end)].

(** [json.Indent] with no prefix and two blanks, on a text without white space
    outside strings. *)
Definition newline (depth : nat) : string := nl +:+ Repeat "  " depth.

Fixpoint indent (inString escaped needIndent : bool) (depth : nat) (s : string) : string :=
  match s with
  | EmptyString => EmptyString
  | String c s =>
      if inString then
        String c (if escaped then indent true false needIndent depth s
                  else if Ascii.eqb c "\" then indent true true needIndent depth s
                  else if Ascii.eqb c dq then indent false false needIndent depth s
                  else indent true false needIndent depth s)
      else if Ascii.eqb c "}" || Ascii.eqb c "]" then
        if needIndent then String c (indent false false false depth s)
        else newline (depth - 1) +:+ String c (indent false false false (depth - 1) s)
      else
        let depth := if needIndent then S depth else depth in
        (if needIndent then newline depth else "") +:+
        (if Ascii.eqb c "{" || Ascii.eqb c "[" then String c (indent false false true depth s)
         else if Ascii.eqb c "," then String c (newline depth +:+ indent false false false depth s)
         else if Ascii.eqb c ":" then String c (String " " (indent false false false depth s))
         else String c (indent (Ascii.eqb c dq) false false depth s))
  end.

(** The bytes [writeReport] writes. *)
Definition report_bytes (report : captureReport) : string :=
  indent false false false 0 (report_json report) +:+ nl.

Example indent_ex :
  indent false false false 0 (qt "{'a':{},'b':['x,{',1]}") =
  qt "{" +:+ nl +:+ qt "  'a': {}," +:+ nl +:+ qt "  'b': [" +:+ nl +:+ qt "    'x,{'," +:+ nl +:+
  "    1" +:+ nl +:+ "  ]" +:+ nl +:+ "}".
Proof. vm_compute. reflexivity. Qed.

(** ** The tool *)

(** The flags; the client carries the timeout. *)
Record capture_flags := {
  cf_url : string;
  cf_topic : string;
  cf_out : string;
  cf_timeout : Z;
}.
Definition default_capture_flags : capture_flags := {|
  cf_url := "http://localhost:8082"; cf_topic := "orders";
  cf_out := "compatibility/captured/confluent-producer-edge-cases.json";
  cf_timeout := 10 * Second |}.
Definition capture_formal : list (flag capture_flags) :=
  [String_flag "url" (set_field cf_url); String_flag "topic" (set_field cf_topic);
   String_flag "out" (set_field cf_out); Duration_flag "timeout" (set_field cf_timeout)].

Section tool.
(** The client with its timeout, and the failures of the file system. *)
Context (client : Z → string → string → gmap string string → string → captured).
Context (fault : list fsop → fsop → option error).
Local Notation "'let*' x ':=' c 'in' k" := (bind c (λ x, k))
  (at level 10, x pattern, c at level 100, k at level 200).

Definition writeReport (path : string) (report : captureReport) : io unit :=
  let* _ := make_parent fault path in
  perform fault (WriteFile path (report_bytes report)).

(** [main]: the exit code, the standard output, and the operations performed. *)
Definition capture_main (now_text : string) (args : list string) (log : list fsop)
  : Z * string * list fsop :=
  match CommandLine_Parse capture_formal args default_capture_flags with
  | inl code => (code, "", log)
  | inr (f, _) =>
      let report := capture_report (client (cf_timeout f)) now_text (cf_url f) (cf_topic f) in
      match writeReport (cf_out f) report log with
      | (Err _, log) => (1, "", log)
      | (Ok _, log) => (0, capture_line report (cf_out f), log)
      end
  end.
End tool.
