(* ===== verification/CaptureFacts.v ===== *)
(** * Correctness of cmd/capture-compatibility

    Every case has its own name, an answer is kept byte for byte, and laying out
    the report only adds white space. *)

From S2P Require Import Prelude.
From S2P Require Import GoStrings.
From S2P Require Import Strconv.
From S2P Require Import GoErrors.
From S2P Require Import Json.
From S2P Require Import Url.
From S2P Require Import Capture.
Local Open Scope Z_scope.

(** ** The names of the cases *)

(** A pattern does not start inside bytes other than its first. *)
Lemma Contains_skip p s t c sub : p c = false → all_bytes p s = true →
  Contains (s +:+ t) (String c sub) = Contains t (String c sub).
Proof.
  intros Hc. induction s as [|d s IH]; [done|]. simpl all_bytes. intros [Hd Hs]%andb_true_iff.
  rewrite app_cons. cbn [Contains]. rewrite IH by done. unfold HasPrefix. cbn [String.prefix].
  destruct (ascii_dec c d) as [->|]; [congruence|done].
Qed.

Lemma HasPrefix_Repeat c n k t : (n <= k)%nat →
  HasPrefix (Repeat (String c "") k +:+ t) (Repeat (String c "") n) = true.
Proof.
  revert k. induction n as [|n IH]; intros [|k] Hn; try done; [by destruct t|lia|].
  cbn [Repeat]. rewrite !app_cons, !app_nil_l. unfold HasPrefix in *. cbn [String.prefix].
  destruct (ascii_dec c c); [|done]. apply IH. lia.
Qed.

Lemma Contains_here s sub : HasPrefix s sub = true → Contains s sub = true.
Proof. intros H. destruct s; cbn [Contains]; by rewrite H. Qed.

Lemma Contains_later c s sub : Contains s sub = true → Contains (String c s) sub = true.
Proof. intros H. cbn [Contains]. by rewrite H, orb_true_r. Qed.

Lemma Contains_after s t sub : Contains t sub = true → Contains (s +:+ t) sub = true.
Proof.
  intros H. induction s as [|c s IH]; [done|]. rewrite app_cons. by apply Contains_later.
Qed.

Definition is_x (c : ascii) : bool := Ascii.eqb c "x".

Lemma xs_bytes n : all_bytes is_x (Repeat "x" n) = true.
Proof. induction n as [|n IH]; [done|]. exact IH. Qed.

Definition bigBody (payload : string) : string :=
  qt "{'records':[{'value':{'payload':'" +:+ payload +:+ qt "'}}]}".

(** The body with the big payload is told by its payload alone. *)
Lemma bigBody_spec n : (1024 <= n)%nat →
  Contains (bigBody (Repeat "x" n)) "not-base64" = false ∧
  String.eqb (bigBody (Repeat "x" n)) (qt "{'records':[") = false ∧
  Contains (bigBody (Repeat "x" n)) (Repeat "x" 1024) = true.
Proof.
  intros Hn. unfold bigBody. set (tail := qt "'}}]}"). split_and!.
  - rewrite (Contains_skip (λ c, negb (Ascii.eqb c "n"))); [|done|done].
    rewrite (Contains_skip is_x); [by vm_compute|done|apply xs_bytes].
  - by vm_compute.
  - apply Contains_after, Contains_here, HasPrefix_Repeat. lia.
Qed.

Lemma bigBody_big :
  Contains (bigBody bigPayload) "not-base64" = false ∧
  String.eqb (bigBody bigPayload) (qt "{'records':[") = false ∧
  Contains (bigBody bigPayload) (Repeat "x" 1024) = true.
Proof. unfold bigPayload. apply bigBody_spec. lia. Qed.

(** The name of a case, from its headers, topic and body. *)
Definition post_name (topic contentType accept body : string) : string :=
  if String.eqb contentType "text/plain" then "bad-content-type"
  else if String.eqb accept "application/xml" then "bad-accept"
  else if Contains (PathEscape topic) "bad%20topic" then "invalid-topic"
  else if Contains body "not-base64" then "binary-decode-failure"
  else if String.eqb body (qt "{'records':[") then "malformed-json"
  else if Contains body (Repeat "x" 1024) then "oversized-body"
  else if 1 <? Count body "partition" then "partial-record-errors"
  else if Contains body "999999" then "invalid-partition"
  else "unknown".

Lemma caseName_post topic contentType accept body :
  caseName (capture_post topic contentType accept body) = post_name topic contentType accept body.
Proof.
  unfold caseName, capture_post, post_name, header_value, headers. cbn [c_Headers c_Path c_Body].
  rewrite lookup_insert_eq, lookup_insert_ne, lookup_singleton_eq by done. cbn [default from_option id].
  rewrite (Contains_skip (λ c, negb (Ascii.eqb c "b")) "/topics/"); done.
Qed.

(** The eight cases of a capture run have eight different names, each that of
    the edge case its request exercises, for every topic that does not itself
    contain the name of the invalid one. *)
Lemma capture_names topic : Contains (PathEscape topic) "bad%20topic" = false →
  caseName <$> captureCases topic =
    ["bad-content-type"; "bad-accept"; "invalid-topic"; "invalid-partition"; "oversized-body";
     "malformed-json"; "binary-decode-failure"; "partial-record-errors"].
Proof.
  intros Ht. unfold captureCases. destruct bigBody_big as (H1&H2&H3). unfold bigBody in *.
  revert H1 H2 H3. generalize (qt "{'records':[{'value':{'payload':'" +:+ bigPayload +:+ qt "'}}]}").
  intros big H1 H2 H3. rewrite !fmap_cons, fmap_nil, !caseName_post. unfold post_name.
  rewrite Ht, H1, H2, H3. by vm_compute.
Qed.

Lemma capture_names_witness :
  Contains (PathEscape "orders") "bad%20topic" = false ∧
  nth 4 (caseName <$> captureCases "orders") "" = "oversized-body".
Proof.
  split; [by vm_compute|]. rewrite (capture_names "orders" ltac:(by vm_compute)). done.
Defined.

(** ** What is kept of an answer *)

(** The body of an answer is in the report exactly once, byte for byte: as JSON
    when it is JSON, as text otherwise. *)
Lemma capture_answer_kept send baseURL tc status Get body elapsed :
  send (c_Method tc) (baseURL +:+ c_Path tc) (c_Headers tc) (c_Body tc) =
    Answered status Get body elapsed →
  let r := cc_Response (runCase send baseURL tc) in
  r_Status r = status ∧ r_BodyIsJSON r = Valid body ∧
  (r_Body r = Some body ∧ r_BodyText r = "" ∨ r_Body r = None ∧ r_BodyText r = body) ∧
  (r_Body r = None ↔ r_BodyIsJSON r = false).
Proof.
  intros Hs. unfold runCase. rewrite Hs. cbn. unfold jsonBody, textBody.
  destruct (Valid body); split_and!; auto; split; intros; congruence.
Qed.

(** The recorded request shows at most 2048 bytes of its body. *)
Lemma stake_short n s : (String.length (stake n s) <= n)%nat.
Proof. revert s. induction n as [|n IH]; intros [|c s]; cbn; try lia. specialize (IH s). lia. Qed.

Lemma stake_prefix n s : HasPrefix s (stake n s) = true.
Proof.
  revert s. induction n as [|n IH]; intros [|c s]; try done. unfold HasPrefix in *.
  cbn [stake String.prefix]. destruct (ascii_dec c c); [apply IH|done].
Qed.

Lemma preview_spec v limit : ∃ shown note, preview v limit = shown +:+ note ∧
  (String.length shown <= limit)%nat ∧ HasPrefix v shown = true ∧
  (note = "" ↔ (String.length v <= limit)%nat).
Proof.
  unfold preview. destruct (Nat.leb_spec (String.length v) limit) as [H|H].
  - exists v, "". rewrite app_nil_r_s. split_and!; try done.
    rewrite <- (app_nil_r_s v) at 1. apply HasPrefix_app.
  - eexists (stake limit v), _. split_and!; [done|apply stake_short|apply stake_prefix|].
    split; [done|lia].
Qed.

(** ** The layout of the report *)

Lemma strip_blanks n s : strip_space false false (Repeat "  " n +:+ s) = strip_space false false s.
Proof. induction n as [|n IH]; [done|]. exact IH. Qed.

Lemma strip_newline depth s : strip_space false false (newline depth +:+ s) = strip_space false false s.
Proof. unfold newline. rewrite app_assoc_s. exact (strip_blanks depth s). Qed.

Lemma strip_outside escaped s : strip_space false escaped s = strip_space false false s.
Proof. by destruct s. Qed.

(** [json.Indent] as the report uses it only adds white space outside
    strings: without it the text is the marshalled one, whatever it holds. *)
Lemma indent_strip s : ∀ inString escaped needIndent depth,
  strip_space inString escaped (indent inString escaped needIndent depth s) =
  strip_space inString escaped s.
Proof.
  induction s as [|c s IH]; intros ins esc need depth; [done|]. cbn [indent].
  destruct ins.
  - cbn [strip_space]. destruct esc; [by rewrite IH|].
    destruct (Ascii.eqb c "\"); [by rewrite IH|]. destruct (Ascii.eqb c dq); by rewrite IH.
  - assert (∀ (b : bool) d t, strip_space false esc ((if b then newline d else "") +:+ t) =
                              strip_space false esc t) as Hnl.
    { intros [] d t; [|done]. by rewrite !(strip_outside esc), strip_newline. }
    assert (strip_space false esc (String c s) = if Ascii.eqb c dq then String c (strip_space true false s)
      else if is_space c then strip_space false false s else String c (strip_space false false s))
      as Hc by done.
    destruct (Ascii.eqb_spec c "}") as [->|_]; [|destruct (Ascii.eqb_spec c "]") as [->|_]]; cbn [orb].
    1-2: destruct need; [|etrans; [exact (Hnl true _ _)|]]; cbn [strip_space]; by rewrite IH.
    rewrite Hnl, Hc.
    destruct (Ascii.eqb_spec c "{") as [->|_]; [|destruct (Ascii.eqb_spec c "[") as [->|_]]; cbn [orb].
    1-2: cbn [strip_space]; by rewrite IH.
    destruct (Ascii.eqb_spec c ",") as [->|_]; [cbn [strip_space]; by rewrite strip_newline, IH|].
    destruct (Ascii.eqb_spec c ":") as [->|_]; [cbn [strip_space]; by rewrite IH|].
    cbn [strip_space]. destruct (Ascii.eqb c dq); [by rewrite IH|]. by destruct (is_space c); rewrite IH.
Qed.
